(* ===== verification/_CoqProject ===== *)
-Q . S2P
Prelude.v
JsString.v
Model.v
Contract.v
Eventloop.v
Footprint.v
Cloudinary.v
Engagement.v
Archive.v
Lifecycle.v
Async.v
Account.v
AccountAsync.v
Search.v
Download.v
Concurrency.v
System.v
Stability.v
Ownership.v
Interleaving.v
Faults.v
Serialisable.v
Gateway.v
Cors.v
Answers.v
Refinement.v
