(* ===== verification/Prelude.v ===== *)
(** * StudySphere backend: a verification development

    The program is the Express/Mongoose backend of a notes-sharing
    application.  Its sources under [src/api] are three controllers and two
    routers:

    - [controllers/uploading.controller.js]: the note lifecycle (create,
      update, delete, get, list, download) and the Cloudinary upload helper;
    - [controllers/notes.controller.js]: likes, comments, the download
      counter and the per-user archive;
    - [controllers/user.controller.js]: account update and deletion, the
      list of a user's uploads;
    - [routes/uploading.route.js], [routes/notes.route.js]: the middleware
      chains in front of the handlers.

    Two stores are kept consistent by hand: the document database (a [Note]
    collection and a [User] collection) and the remote object store
    (Cloudinary), which holds the uploaded files.  A handler reads a
    document, changes it in memory, saves it back, and for lifecycle
    operations calls the object store in between.

    ** How the development is laid out

    - [Prelude] (this file): the handler monad [action] (state passing with
      early exit, the shape of an Express handler that answers with
      [return res.status(..).json(..)] in the middle of its body), its
      notation scope [handler_scope], the tactics [handler_simp] and
      [case_scrut], the hint database [sphere], and list lemmas on
      first-occurrence search and deletion by index that the array
      operations of the controllers need.
    - [JsString]: the JavaScript string and truthiness primitives the
      controllers use: [truthy], [js_or] for [a || b], [includes], [split]
      on a one-character separator, [join], [pop] and the first element.
    - [Model]: documents ([Note], [Comment], [User], Mongoose schemas, which
      are not under [src/] and are therefore modelled from the
      specification), the request parts ([AuthUser], [File], request body),
      responses ([Body], [Outcome]) and the state of the whole system
      ([World]: both collections, the ObjectId allocator, the object store
      and the log of calls made to it).
    - [Contract]: the interface between the components, as a type class:
      [Guarantees Inv R h] says that the handler [h], started in a state
      that satisfies [Inv], ends in a state related to the first by [R]
      ([ReadOnly], [NoteLocal id], [Preserves Inv] are its three forms).
      The components declare instances for their handlers; the theorems on
      sequences of requests are proved once against the class.
    - [Eventloop]: the handlers are [async] functions; [Proc] is a handler
      cut at its [await]s, a pool of requests in flight is a list of
      processes, and a schedule is the list of the indices of the
      processes that take the next step ([run_schedule]).  [SavePolicy] is
      the interface of [save()] on a document that was read earlier, with
      three instances ([whole_document], [modified_paths],
      [array_atomics]); [PathWise] singles out those that write whole
      paths, [OwnerWise] those that leave the uploader of a note as the
      copy or the stored document has it, which all three do.
    - [Footprint]: the parts of notes and the users a process reads and
      writes ([Part], [Footprint]), stores that agree on a footprint
      ([agree]), processes that do the same as far as a footprint can
      tell ([similar], [confined]), pools whose footprints do not overlap
      ([separate]); what a save touches as an interface of the save
      policy ([Granularity], with instances [coarse] and [fine]).
    - [Cloudinary]: the module load ([load_module]: [dotenv.config()],
      the check of the environment [configure], the connection ping
      [ping_report]) and the object store adapter: [fileFilter], the upload
      middleware limits, [uploadToCloudinary], [destroy], and
      [publicId_of_url], the expression
      [fileUrl.split('/').pop().split('.')[0]] that both [deleteNotes] and
      [updateNotes] use to name the object to destroy.
    - [Engagement]: [likeNote], [commentOnNote], [updateComment],
      [deleteComment], [incrementDownload].
    - [Archive]: [archiveNote], [removeArchiveNote], [getArchives].
    - [Lifecycle]: [ensureFileContent], [notesUploading], [updateNotes],
      [deleteNotes], [getNotes].
    - [Account]: [test], [updateUser], [deleteUser], [getUserUploads] of
      [user.controller.js].  The password library bcryptjs is the type
      class [Bcrypt], whose one law says that [compare] accepts what
      [hashSync] produced; the theorems hold for every instance.
    - [Search]: the two [getAllNotes] handlers, the routed one of
      [notes.controller.js] and the one of [uploading.controller.js] (in
      [Module Uploading]): the query built from the query string, [find]
      and the sort by creation time.  The regular expressions of the
      database are the type class [RegexEngine]: which strings a pattern
      matches ([regex_test]) and which patterns the database refuses
      ([regex_error]); its laws cover patterns without metacharacters (a
      case-insensitive substring test, never refused).  [find] rejects
      for a refused pattern ([Note_find_regex]) and the [catch] of the
      handler forwards the error.
    - [Download]: [downloadNote] as the list of the calls it makes
      ([Output]: [res.setHeader], [https.get], the writes and the end of
      [pipe], [next]); what the remote server does is an input
      ([Upstream], a stream being the list of its events).
    - [Async]: every handler of the two routed controllers that changes a
      document, as a process: one [await!] per [await] of the source
      ([likeNote_async], [updateNotes_async], ...); the call to
      [destroy], which [deleteNotes] and [updateNotes] await inside an
      [if], is a step only when the condition holds
      ([destroy_if_managed_async]).
    - [AccountAsync]: the handlers of [user.controller.js] as processes
      ([updateUser_async] and its stages), and two updates in flight.
    - [Concurrency]: pools of [incrementDownload], [commentOnNote],
      [likeNote] and [archiveNote] requests on one document under chosen
      schedules: what becomes of the counter, of the comments and of the
      lists when reads and saves interleave.
    - [System]: the two routers ([Request], [dispatch]), one request
      served as a step relation over [World] and a sequence of requests as
      the function [serve], the well-formedness invariant [wf_world] of
      reachable states and its preservation by every route.
    - [Stability]: the invariant [wf_world] step by step: what a process
      saves was read from stores that have changed since ([keeps_wf]).
    - [Ownership]: that a note is stored and who uploaded it, step by
      step ([owned], [keeps_owned]).
    - [Interleaving]: the routers over processes ([dispatch_async]), the
      pool of the requests that have arrived ([spawn]), and the theorems
      that relate runs under a schedule to the sequential [serve].
    - [Serialisable]: what each routed request reads and writes
      ([footprint]), for the requests that touch one note and at most one
      user.
    - [Faults]: the [try] around every awaited call of the three
      controllers (a list of guards for each handler, [likeNote_guards]
      and the like; [guards] for a request, [account_guards]) and runs in
      which an awaited call to the database may reject ([Turn],
      [run_faulty]); what no turn takes a task out of ([kept]).
    - [Gateway]: the requests before [verifyToken] has run ([Route]), the
      route tables with [verifyToken] where the sources put it ([authorize]),
      and the verifier as a type class ([Verifier]).
    - [Cors]: [corsConfig] and the [cors] middleware in front of the
      routes of the uploading router ([uploading_enter]), the method each
      route is declared with ([route_method]).
    - [Answers]: the statuses and body shapes each handler answers with
      ([likeNote_answers] and the like), each route through the handlers
      of its chain ([uploading_contract], [notes_contract], [contract]),
      what the [catch] blocks add ([fault_contract]), and that every
      answer under every schedule is listed.
    - [Refinement]: the specification's view of the data (owners, sets of
      likes, counters, sets of archived ids) as an abstract state machine
      with an executable transition function, the abstraction function
      from [World], and the proof that every route refines it.

    ** Correspondence with the code

    A handler [h] of the source is a definition [h] of the same name of type
    [... -> Env -> World -> Outcome * World].  Its arguments are the parts
    of [req] the handler reads ([req.params.id], [req.user], [req.body],
    [req.file]).  [Env] carries what a single request observes of the
    outside: the clock ([Date.now()], [new Date()]) and whether the object
    store accepts or rejects the calls made during this request.  The
    result is the answer ([Respond status body] for
    [res.status(status).json(body)], [Next e] for [next(e)]) and the state
    afterwards.  Every guard and early return of the source is a guard of
    the definition, in the same order; every call that changes state
    ([save], [create], [findByIdAndDelete], [findByIdAndUpdate],
    [uploader.destroy], [upload_stream]) is a state change of the
    definition, in the same order.

    The process [h_async] of a handler [h] has the same arguments and is
    the same body with each [await]ed call as a step of its own: the call
    acts on the stores as they are when the step is taken, and the rest of
    the handler continues with the value the call returned.  Between two
    steps of one request any number of steps of other requests may be
    taken.  A document that was read in one step and is saved in a later
    one is written through [Note_commit] or [User_commit]: the stored
    document becomes [save_note loaded changed stored], and the save fails,
    storing nothing, when the document has been deleted in between.  The
    theorems that do not name a policy hold for every [SavePolicy]; run
    without interruption a process is the handler ([finish_likeNote] and
    the others of [Async]), so the two models agree where they overlap.

    A call to the database can reject.  [Faults] gives every awaited call
    of a handler its [Guard], read off the [try] blocks of the source:
    [caught c] when the call is inside a [try] whose [catch] answers with
    [c] ([next(err)] for most, a 500 for [removeArchiveNote] and
    [notesUploading]), [uncaught] when the call is made before the [try]
    begins ([Note.findById] in [deleteNotes] and [getNotes]), [settled] for
    the calls to the object store, which have a [try] of their own and
    whose failures [Env] decides; [settled_if (hosted id)] is the guard
    of the call to [destroy], which is made only when the note just read
    has a locator of the object store, and is left out of the guards of a
    request when it is not made ([skip]).  A run is a list of turns, [resume i] as
    in [Eventloop] or [reject i msg]: the call the request [i] awaits
    rejects, nothing is written, and the request has the answer of its
    [catch] or, without one, has [escaped]: its promise rejects, and
    nothing answers it (the router is taken to ignore the promise of a
    handler, as Express does before its version 5).

    ObjectIds are natural numbers handed out by an allocator that never
    reuses a value ([next_oid]); the route parameter and [req.user.id] are
    taken already parsed, so the comparison
    [req.user.id !== note.uploader.toString()] is inequality of ids.
    Strings are [string]; a missing or empty field is falsy ([truthy]).
    File contents are [list byte].

    ** What the theorems show

    - [JsString]: [join] after [split] is the identity, a segment produced
      by [split] never contains the separator, [includes] is the
      substring relation.
    - [Cloudinary]: the module loads exactly when the three variables are
      set and not empty, whatever the ping answers; [fileFilter] accepts
      exactly the five listed MIME types; an id computed by [publicId_of_url] never contains a slash
      while every id under which [uploadToCloudinary] stores starts with
      [notes/], so the destroy calls of the controllers never remove a
      stored object.
    - [Engagement]: the functional behaviour of every handler on every
      branch; a like toggled twice restores the like set; comment edits and
      deletions leave the other comments alone; the counter grows by one.
    - [Archive]: archive is idempotent and keeps the archive list free of
      duplicates; unarchive clears the flag and removes the id, also when
      another user still has the note archived.
    - [Lifecycle]: validation and authorisation failures leave the state
      untouched, except that [notesUploading] uploads before it validates;
      [updateNotes] destroys the old object before it uploads the new one;
      a failed destroy in [deleteNotes] keeps the record.
    - [Account]: only the account's owner changes or deletes it; an update
      answers 409 exactly when another account holds the name or address
      asked for, so accounts stay pairwise distinct in both; a new password
      is stored hashed and accepted afterwards; deleting an account leaves
      its notes behind.
    - [Search]: a listing whose pattern the database refuses forwards
      the error and changes nothing; otherwise both listings answer with
      exactly the stored notes that satisfy the query, each once, newest
      first, and change nothing ([getAllNotes_lists]); the filters of the
      routed listing are equalities, sensitive to letter case, where
      those of the other listing are not.
    - [Download]: the two guards call [next] before any header is set;
      the state is never changed; every request is settled once, by the
      end of the response or by one call of [next]; the status of the
      remote answer is ignored; an error is forwarded after bytes of the
      body were written exactly when the stream breaks after its first
      chunk ([downloadNote_partial_transfer]).
    - [Eventloop]: a process that answers within [n] steps of its own
      does so whatever runs in between; a schedule that gives every
      process [n] turns leaves every request answered, and the round robin
      is such a schedule; what every step guarantees of the stores holds
      between the ends of every run ([run_schedule_respects]); an
      invariant that every step keeps, given what its process has read,
      holds after every run ([run_schedule_stable]).
    - [Async]: each process, run without interruption, is the handler of
      the same name; each answers within four steps; no step of the notes
      controller creates a note or calls the object store; no step of any
      handler stores a note under an id that was deleted.
    - [Concurrency]: requests served one after the other add their number
      to the counter; two interleaved requests can both be answered 200
      while the counter grows by one, and a late write can make the counter
      decrease; whatever the schedule, the counter stays between its start
      and its start plus the number of answered requests.  Of two comments
      posted at the same time one is lost when the save writes the comment
      sequence held in memory; a like saved between the read and the save
      of a download survives under [modified_paths] and is undone under
      [whole_document].  Under [array_atomics] both comments are kept,
      two simultaneous [archiveNote] requests store the note twice
      ([concurrent_archives_duplicate]), and two simultaneous likes of
      one user store the user twice, so that the next like does not
      unlike ([concurrent_likes_duplicate]).
    - [AccountAsync]: run without interruption the processes are the
      handlers of [Account]; two accounts that ask for the same free user
      name at the same time both get it, so the check of [updateUser]
      keeps names unique only among requests that do not overlap; an
      update whose account is deleted in between forwards a [TypeError].
    - [Stability], [Ownership]: under a policy of [PathWise] every step
      of every handler keeps [wf_world]; under a policy of [OwnerWise],
      so under each of the three, every step keeps a note stored with its
      uploader unless the step is the deletion sent by the uploader.
    - [Interleaving]: the serial schedule of a pool reaches the state and
      the answers of [serve]; every request is answered after four turns,
      whatever the other requests do, so the round robin answers all;
      once a note is deleted in the course of a run it never comes back
      and ids are never reused, whatever is in flight
      ([deleted_note_never_returns]); a save that arrives after the
      delete fails and the request is answered with the error; under a
      policy of [PathWise], [wf_world] holds after every interleaving
      ([interleaving_preserves_wf]), and under [array_atomics] it does not
      ([pushed_likes_break_wf]); under every policy of [OwnerWise] a note
      stays stored with its uploader unless its uploader has sent a
      deletion ([only_uploader_removes_in_flight]).
    - [Footprint], [Serialisable]: a request of a pool whose footprints
      do not overlap is, after [k] turns under any schedule, similar to
      what it would be after [k] steps taken alone
      ([run_schedule_project]); so every schedule that lets each request
      finish ends in the stores and with the answers of the requests
      served in the order of arrival ([disjoint_requests_serialise]).
      This is the converse of the theorems of [Concurrency], where two
      requests save the same thing.  Under every save policy it holds of
      requests on different notes by different users ([coarse]); under
      the policies that write the assigned paths it holds as well of a
      like, a download, a comment edit and an archive call on one note
      ([fine]).  It covers [likeNote], [incrementDownload],
      [updateComment], [deleteComment], [archiveNote],
      [removeArchiveNote] and [getNotes]; the other handlers draw a new
      id, call the object store, whose log keeps the order of the calls,
      or read every note, and have no footprint.
    - [Faults]: the guards fit the handlers: one for every awaited call,
      that of a call to the object store where the handler calls the
      object store ([guards_aligned]), and this stays so along every run
      ([awaited_call_guarded]); a run without rejections is a run of
      [Eventloop] ([faultless_run]); under the hypotheses of
      [Interleaving] on the policy, [wf_world] holds after every run,
      whatever rejects, and a note stays stored with its uploader unless
      its uploader has sent a deletion ([faults_preserve_wf],
      [uploader_removes_despite_faults]); a request is left without an
      answer exactly when it is for [deleteNotes] or [getNotes] and the
      first call rejects ([rejection_escapes_before_try]), and no request
      of the user controller ever is; a request whose handler writes
      with its last call is served as a whole or not at all
      ([single_write_all_or_nothing]); for the others a rejection after
      an earlier step leaves what that step did: an uploaded file without a note
      ([create_rejected_after_upload]), a stored comment answered with an
      error ([comment_stored_despite_error]), a note no longer flagged as
      archived in a list that still holds it ([unarchive_half_done]).
    - [Cors]: a preflight is answered by the middleware and reaches
      neither [verifyToken] nor a handler; the methods of the routes of
      the uploading router pass its policy and [PUT], which three routes
      of the notes router are declared with, does not.
    - [Gateway]: a request that the verifier refuses reaches no handler
      on the ten routes that carry [verifyToken]; the three public routes
      are served whatever the credential, and the one change they make
      is to a download counter ([refused_request_counts_only]); a note
      stays stored unless a request carries a credential of its uploader.
    - [Answers]: under every schedule the answer of a request is one its
      route lists in [contract]; when calls reject, one that [contract] or
      [fault_contract] lists ([answers_typed_despite_faults]), always a
      500, and new to the contract for [notesUploading] only
      ([faults_add_one_answer]).
    - [System]: the invariant [wf_world] holds in every reachable state; no
      sequence of requests removes an object from Cloudinary; a deleted
      note stays referenced by archive lists and leaves every listing; a
      created note is listed; a file of a type that is not allowed is
      refused before any handler runs.
    - [Refinement]: every route is matched by the event read off its
      response ([dispatch_refines]), along whole runs ([serve_refines])
      and along the interleaved runs of disjoint requests
      ([interleaved_requests_refine]);
      hence a note disappears only by its uploader's delete, a like changes
      only by the user's own request, owners never change and, as long
      as requests do not interleave, counters never decrease.  The
      invariant is what the refinement needs: without duplicate-free likes
      the array code would not implement the set.

    ** Bounds and fuel

    No definition uses fuel: every handler is a finite composition of total
    functions, and the string functions are structurally recursive.
    Natural numbers are unbounded; [downloadCount] is a JavaScript number
    and would lose precision beyond 2^53, which is out of reach of the
    counter.  A process is a finite tree of steps: the longest handler,
    [updateNotes], awaits four times at most (find, destroy, upload,
    save), and [within 4] is proved of every route, so four turns per request are
    enough for every schedule.  There is no bound on the number of
    requests in flight nor on the length of a schedule; a schedule is a
    finite list, so the theorems speak of every finite prefix of a run.
    A schedule may name an index outside the pool or a process that has
    answered; such a turn changes nothing.  A run of [Faults] is a finite
    list of turns with no bound on the number of rejections; a rejection
    that names a request that has answered, or one that awaits a call to
    the object store, changes nothing.

    ** What is not modelled

    A call to the database that rejects is taken to have written nothing:
    a write that was carried out although the driver reported a failure is
    not modelled, nor is a rejection of [Note.findById] inside
    [downloadNote], which [Faults] does not run.  Not modelled either: the
    cast of a route parameter to an ObjectId, [populate] on returned
    documents, query parameters that are not strings (Express parses a
    repeated parameter to an array), unique indexes of the schemas (which
    are not among the sources), the JWT check of [verifyToken] (a request
    reaches [dispatch] with the caller's identity already established),
    logging other than the line of the connection ping, and the cookie
    that [deleteUser] clears.  Of regular expressions with
    metacharacters the development says only what holds of every
    [RegexEngine].  In [Download] the remote server and the behaviour of
    [pipe] are inputs and Node's, not code of the sources; that the
    upload middleware accepts a file of exactly the size limit and
    refuses a larger one with [File too large] is multer's.  The
    application file
    that mounts the routers and the error middleware are not among the
    sources: [Cors] covers the router that sets a cross-origin policy and
    leaves open whether the requests for the other router pass it.
    [verifyToken] is not under [src/]: what a token is and when it is
    accepted is a property of the JWT library and of a secret, of which the
    sources say nothing; [Gateway] takes it as a function from the
    credential to the caller or to an error.  The [.env] file is an input
    of [load_module]; how it is parsed is not modelled.  The storage
    engine of the upload middleware ([multer.memoryStorage()]) shows in
    the model only in that a file arrives as a buffer.

    Of the document library, [save()] is modelled as far as [SavePolicy]
    says: [Note_commit] and [User_commit] stand for [await note.save()]
    and [await user.save()] and are Mongoose's, not code of the sources.
    Which policy the library follows is not fixed by the sources: the
    theorem on lost comments is stated under the hypothesis
    [comments_rewritten], the theorem on the invariant under
    interleaving for the policies of [PathWise], the theorem on
    ownership for those of [OwnerWise], and [array_atomics] stands for a
    library that sends a [push] as an insertion, as Mongoose does; the
    theorems on duplicates are stated for it.  The version key, by which
    a save may be refused when the array has changed, is not modelled.
    The
    steps of a request are those of its [await]s; the asynchrony inside
    the upload middleware and inside the Cloudinary stream is not cut
    further.  The handlers of
    [user.controller.js], [downloadNote] and the [getAllNotes] of
    [uploading.controller.js] are not mounted by the two routers, so
    [dispatch] has no request for them. *)

From stdpp Require Export base tactics option list gmap strings.

(** The solvers of stdpp clear hypotheses by name as they go and warn when
    a name is gone; the warning carries no information here. *)
#[export] Set Warnings "-clear-no-such-hyp".

(** ** The handler monad

    An Express handler threads the state of the stores and may answer at
    any point.  [action S R A] is a computation over a state [S] that either
    exits early with an answer [R] or continues with a value [A]; the state
    changes made before an early exit are kept, as they are in the code. *)

Definition action (S R A : Type) : Type := S → (R + A) * S.

Definition ret {S R A} (a : A) : action S R A := λ s, (inr a, s).

Definition exit {S R A} (r : R) : action S R A := λ s, (inl r, s).

Definition bind {S R A B} (m : action S R A) (k : A → action S R B) : action S R B :=
  λ s, match m s with
       | (inl r, s') => (inl r, s')
       | (inr a, s') => k a s'
       end.

Definition gets {S R A} (f : S → A) : action S R A := λ s, (inr (f s), s).

Definition modify {S R} (f : S → S) : action S R unit := λ s, (inr tt, f s).

(** [guard_or b r]: continue when [b] holds, answer [r] otherwise
    ([if (!b) return r]). *)
Definition guard_or {S R} (b : bool) (r : R) : action S R unit :=
  if b then ret tt else exit r.

(** [some_or o r]: the value of [o], or answer [r] when there is none
    ([if (!x) return r]). *)
Definition some_or {S R A} (o : option A) (r : R) : action S R A :=
  match o with Some a => ret a | None => exit r end.

(** [run m s]: the answer and the final state of a handler body whose
    normal result is itself an answer. *)
Definition run {S R} (m : action S R R) (s : S) : R * S :=
  match m s with
  | (inl r, s') => (r, s')
  | (inr r, s') => (r, s')
  end.

Declare Scope handler_scope.
Delimit Scope handler_scope with handler.
Notation "'let!' x ':=' c 'in' k" := (bind c (λ x, k))
  (at level 10, x binder, c at level 100, k at level 200) : handler_scope.
Notation "c ';;;' k" := (bind c (λ _, k))
  (at level 100, k at level 200, right associativity) : handler_scope.

(** ** Array helpers shared by the controllers

    [index_of x l] is [l.indexOf(x)]: the position of the first occurrence,
    [None] standing for [-1].  [l.splice(i, 1)] is stdpp's [delete i l] and
    [l.push(x)] is [l ++ [x]]. *)

Definition index_of `{EqDecision A} (x : A) (l : list A) : option nat :=
  fst <$> list_find (x =.) l.

(** [toggle x l]: the like/unlike idiom
    [i = l.indexOf(x); if (i === -1) l.push(x) else l.splice(i, 1)]. *)
Definition toggle `{EqDecision A} (x : A) (l : list A) : list A :=
  match index_of x l with
  | None => l ++ [x]
  | Some i => delete i l
  end.

(** ** Tactics and hints *)

Create HintDb sphere discriminated.
Create Rewrite HintDb sphere_rw.

(** Case analysis on the first [match] or [if] scrutinee of the goal. *)
Ltac case_scrut :=
  match goal with
  | |- context [match ?x with _ => _ end] =>
      lazymatch x with
      | context [match _ with _ => _ end] => fail
      | _ => destruct x eqn:?
      end
  end.

(** Unfold the monad's combinators and compute. *)
Ltac handler_simp :=
  repeat (progress (cbv [bind ret exit gets modify guard_or some_or run] in *; simpl in * ));
  simplify_eq/=.

(** ** Laws of the handler monad (pointwise, so that no extensionality
    axiom is needed) *)

Section monad_laws.
Context {S R A B C : Type}.
Implicit Types (s : S) (m : action S R A).

Lemma bind_ret_l (a : A) (k : A → action S R B) s : bind (ret a) k s = k a s.
Proof. done. Qed.

Lemma bind_ret_r m s : bind m ret s = m s.
Proof. unfold bind, ret. by destruct (m s) as [[?|?] ?]. Qed.

Lemma bind_assoc m (k : A → action S R B) (h : B → action S R C) s :
  bind (bind m k) h s = bind m (λ a, bind (k a) h) s.
Proof. unfold bind. by destruct (m s) as [[?|?] ?]. Qed.

Lemma bind_exit (r : R) (k : A → action S R B) s : bind (exit r) k s = (inl r, s).
Proof. done. Qed.

Lemma bind_inv m (k : A → action S R B) s (x : R + B) s' :
  bind m k s = (x, s') →
  (∃ r, m s = (inl r, s') ∧ x = inl r) ∨ (∃ a s1, m s = (inr a, s1) ∧ k a s1 = (x, s')).
Proof.
  unfold bind. destruct (m s) as [[r|a] s1]; intros; simplify_eq; eauto.
Qed.

End monad_laws.

(** ** First-occurrence search, deletion by index and toggling *)

Section list_lemmas.
Context `{EqDecision A}.
Implicit Types (x y : A) (l : list A) (i : nat).

Lemma index_of_None x l : index_of x l = None ↔ x ∉ l.
Proof.
  unfold index_of. rewrite fmap_None, list_find_None, Forall_forall.
  split; [intros H Hx; by apply (H x) | intros H y Hy ->; done].
Qed.

Lemma index_of_Some x l i : index_of x l = Some i → l !! i = Some x.
Proof.
  unfold index_of. intros ([j y] & Hf & ->)%fmap_Some.
  by apply list_find_Some in Hf as (? & -> & _).
Qed.

Lemma index_of_is_Some x l : is_Some (index_of x l) ↔ x ∈ l.
Proof.
  rewrite <-not_eq_None_Some, index_of_None. split; [|tauto].
  destruct (decide (x ∈ l)); tauto.
Qed.

Lemma index_of_snoc_fresh x l : x ∉ l → index_of x (l ++ [x]) = Some (length l).
Proof.
  intros Hx. unfold index_of.
  rewrite list_find_app_r by (by apply list_find_None, Forall_forall; intros ? ? ->).
  simpl. by rewrite decide_True.
Qed.

Lemma delete_snoc x l : delete (length l) (l ++ [x]) = l.
Proof. induction l; simpl; [done | by f_equal]. Qed.

Lemma NoDup_delete l i : NoDup l → NoDup (delete i l).
Proof. intros. eapply sublist_NoDup; [done | apply sublist_delete]. Qed.

Lemma elem_of_delete_NoDup l i x y :
  NoDup l → l !! i = Some x → y ∈ delete i l ↔ y ∈ l ∧ y ≠ x.
Proof.
  intros Hnd Hi. pose proof (delete_Permutation l i x Hi) as Hp.
  rewrite Hp in Hnd. apply NoDup_cons in Hnd as [Hx _].
  rewrite (delete_Permutation l i x Hi) at 2. rewrite elem_of_cons.
  split; [intros Hy; split; [by right | by intros ->] | intros [[?|?] ?]; done].
Qed.

Lemma toggle_absent x l : x ∉ l → toggle x l = l ++ [x].
Proof. intros ?%index_of_None. unfold toggle. by simplify_option_eq. Qed.

(** An element that was pushed twice is found once by the next toggle. *)
Lemma toggle_pushed_twice x l : x ∉ l → toggle x (l ++ [x; x]) = l ++ [x].
Proof.
  intros Hx. unfold toggle, index_of.
  rewrite list_find_app_r by (by apply list_find_None, Forall_forall; intros ? ? ->).
  simpl. rewrite decide_True by done. simpl. by rewrite delete_middle.
Qed.

Lemma toggle_elem_of x y l :
  NoDup l → y ∈ toggle x l ↔ (y ∈ l ∧ y ≠ x) ∨ (y = x ∧ x ∉ l).
Proof.
  intros Hnd. unfold toggle. destruct (index_of x l) as [i|] eqn:Hi.
  - pose proof (index_of_Some _ _ _ Hi) as Hl.
    rewrite (elem_of_delete_NoDup l i x y) by done.
    apply list_elem_of_lookup_2 in Hl. naive_solver.
  - apply index_of_None in Hi. rewrite elem_of_app, list_elem_of_singleton.
    destruct (decide (y = x)) as [-> | Hne]; naive_solver.
Qed.

Lemma toggle_NoDup x l : NoDup l → NoDup (toggle x l).
Proof.
  intros Hnd. unfold toggle. destruct (index_of x l) as [i|] eqn:Hi.
  - by apply NoDup_delete.
  - apply index_of_None in Hi. apply NoDup_app; split_and!; [done | | apply NoDup_singleton].
    by intros y ? ->%list_elem_of_singleton.
Qed.

Lemma toggle_toggle_absent x l : x ∉ l → toggle x (toggle x l) = l.
Proof.
  intros Hx. rewrite (toggle_absent x l Hx). unfold toggle.
  rewrite index_of_snoc_fresh by done. apply delete_snoc.
Qed.

Lemma toggle_toggle_perm x l : NoDup l → toggle x (toggle x l) ≡ₚ l.
Proof.
  intros Hnd. destruct (decide (x ∈ l)) as [Hx|Hx]; [|by rewrite toggle_toggle_absent].
  apply index_of_is_Some in Hx as [i Hi]. pose proof (index_of_Some _ _ _ Hi) as Hl.
  unfold toggle at 2. rewrite Hi. rewrite toggle_absent.
  - rewrite (delete_Permutation l i x Hl) at 2. by rewrite Permutation_app_comm.
  - rewrite (elem_of_delete_NoDup l i x x) by done. tauto.
Qed.

(** [toggle] respects reordering: what it does to a list depends on the
    elements the list holds and not on their order. *)
#[global] Instance toggle_Permutation x : Proper ((≡ₚ) ==> (≡ₚ)) (toggle x).
Proof.
  intros l1 l2 Hp. unfold toggle.
  destruct (index_of x l1) as [i|] eqn:H1, (index_of x l2) as [j|] eqn:H2.
  - apply index_of_Some in H1, H2. apply (inj (x ::.)).
    by rewrite <-(delete_Permutation l1 i x H1), <-(delete_Permutation l2 j x H2).
  - apply index_of_None in H2. apply mk_is_Some, index_of_is_Some in H1.
    by rewrite Hp in H1.
  - apply index_of_None in H1. apply mk_is_Some, index_of_is_Some in H2.
    by rewrite Hp in H1.
  - by rewrite Hp.
Qed.

End list_lemmas.

Lemma filter_eq_nil {A} (P : A → Prop) `{!∀ x, Decision (P x)} (l : list A) :
  filter P l = [] ↔ Forall (λ x, ¬ P x) l.
Proof.
  induction l as [|x l IH]; [by rewrite filter_nil | ].
  rewrite Forall_cons. destruct (decide (P x)).
  - rewrite filter_cons_True by done. naive_solver.
  - rewrite filter_cons_False by done. naive_solver.
Qed.

Lemma Forall_filter_keep {A} (P Q : A → Prop) `{!∀ x, Decision (Q x)} (l : list A) :
  Forall P l → Forall P (filter Q l).
Proof.
  rewrite !Forall_forall. intros Hall x [_ Hx]%list_elem_of_filter. by apply Hall.
Qed.

Lemma NoDup_fmap_filter {A B} (f : A → B) (Q : A → Prop) `{!∀ x, Decision (Q x)}
    (l : list A) :
  NoDup (f <$> l) → NoDup (f <$> filter Q l).
Proof. intros Hnd. eapply sublist_NoDup; [done|]. apply fmap_sublist, sublist_filter. Qed.

#[export] Hint Resolve toggle_NoDup NoDup_delete : sphere.
