(* ===== verification/JsString.v ===== *)
(** * JsString: the JavaScript string primitives the controllers rely on

    The controllers test request fields for truthiness ([!req.body[field]],
    [a || b]), look for a substring ([fileUrl.includes('cloudinary.com')]),
    cut a locator into segments ([split('/')], [pop()], [split('.')[0]]) and
    join field names ([join(', ')]).  This file gives each primitive as a
    structurally recursive function on [string] and proves the facts about
    them that the components use: [split] and [join] are inverse to each
    other, no segment of a split contains the separator, and [includes] is
    the substring relation. *)

From Stdlib Require Import Ascii.
From S2P Require Import Prelude.

Local Open Scope string_scope.
Local Open Scope list_scope.

(** A string is falsy exactly when it is empty; a missing field
    ([undefined]) is falsy too. *)
Definition truthy (s : string) : bool :=
  match s with EmptyString => false | String _ _ => true end.

Definition truthy_opt (o : option string) : bool :=
  match o with Some s => truthy s | None => false end.

(** [js_or o d] is [o || d] for a field [o] that may be missing. *)
Definition js_or (o : option string) (d : string) : string :=
  match o with
  | Some s => if truthy s then s else d
  | None => d
  end.

(** [starts_with p s] is [s.startsWith(p)]. *)
Fixpoint starts_with (p s : string) : bool :=
  match p, s with
  | EmptyString, _ => true
  | String a p', String b s' => bool_decide (a = b) && starts_with p' s'
  | String _ _, EmptyString => false
  end.

(** [includes s sub] is [s.includes(sub)]. *)
Fixpoint includes (s sub : string) : bool :=
  starts_with sub s ||
  match s with
  | EmptyString => false
  | String _ s' => includes s' sub
  end.

(** [has_char c s]: the character [c] occurs in [s]. *)
Fixpoint has_char (c : ascii) (s : string) : bool :=
  match s with
  | EmptyString => false
  | String a s' => bool_decide (a = c) || has_char c s'
  end.

(** [split c s] is [s.split(c)] for a separator of one character: the
    result is never empty, and [''.split(c)] is [['']]. *)
Fixpoint split (c : ascii) (s : string) : list string :=
  match s with
  | EmptyString => [EmptyString]
  | String a s' =>
      if bool_decide (a = c) then EmptyString :: split c s'
      else match split c s' with
           | h :: t => String a h :: t
           | [] => [String a EmptyString]
           end
  end.

(** [join sep l] is [l.join(sep)]. *)
Fixpoint join (sep : string) (l : list string) : string :=
  match l with
  | [] => EmptyString
  | [x] => x
  | x :: l' => x +:+ sep +:+ join sep l'
  end.

(** [pop l] is the value of [l.pop()] and [first l] the value of [l[0]], on
    the arrays [split] returns; on an empty array both are [undefined],
    which [split] never produces. *)
Definition pop (l : list string) : string := default EmptyString (last l).

Definition first (l : list string) : string := default EmptyString (head l).

(** ** Truthiness *)

Lemma truthy_nonempty s : truthy s = true ↔ s ≠ "".
Proof. by destruct s. Qed.

Lemma truthy_opt_Some o : truthy_opt o = true ↔ ∃ s, o = Some s ∧ s ≠ "".
Proof.
  destruct o as [s|]; simpl; [rewrite truthy_nonempty | ]; naive_solver.
Qed.

Lemma js_or_truthy o d : truthy_opt o = true → Some (js_or o d) = o.
Proof. destruct o as [[|]|]; naive_solver. Qed.

Lemma js_or_falsy o d : truthy_opt o = false → js_or o d = d.
Proof. destruct o as [[|]|]; naive_solver. Qed.

Lemma js_or_truthy_result o d : truthy d = true → truthy (js_or o d) = true.
Proof. destruct o as [[|]|]; naive_solver. Qed.

(** ** Prefixes and substrings *)

Lemma starts_with_spec p s : starts_with p s = true ↔ ∃ r, s = p +:+ r.
Proof.
  revert s. induction p as [|a p IH]; intros s; simpl.
  - split; [eauto | done].
  - destruct s as [|b s].
    + split; [done | by intros [? ?]].
    + rewrite andb_true_iff, bool_decide_eq_true, IH.
      split; [intros [-> [r ->]]; eauto | intros [r [= -> ->]]; eauto].
Qed.

Lemma starts_with_app p r : starts_with p (p +:+ r) = true.
Proof. apply starts_with_spec. eauto. Qed.

Lemma includes_spec s sub :
  includes s sub = true ↔ ∃ pre post, s = pre +:+ sub +:+ post.
Proof.
  induction s as [|a s IH]; simpl.
  - rewrite orb_false_r, starts_with_spec. split.
    + intros [r ->]. by exists "", r.
    + intros ([|] & post & Heq); [eauto | done].
  - rewrite orb_true_iff, starts_with_spec, IH. split.
    + intros [[r ->] | (pre & post & ->)]; [by exists "", r | by exists (String a pre), post].
    + intros ([|b pre] & post & Heq); simpl in Heq; [left; eauto | right].
      injection Heq as -> ->. eauto.
Qed.

Lemma includes_app pre sub post : includes (pre +:+ sub +:+ post) sub = true.
Proof. apply includes_spec. eauto. Qed.

Lemma has_char_app c s t : has_char c (s +:+ t) = has_char c s || has_char c t.
Proof. induction s as [|a s IH]; simpl; [done | by rewrite IH, orb_assoc]. Qed.

Lemma has_char_includes c s : has_char c s = includes s (String c "").
Proof.
  induction s as [|a s IH]; simpl; [done|].
  rewrite IH, andb_true_r. f_equal. apply bool_decide_ext. naive_solver.
Qed.

(** ** Splitting and joining *)

Lemma split_nonempty c s : split c s ≠ [].
Proof. destruct s as [|a s]; simpl; [done|]. repeat case_match; done. Qed.

Lemma split_cons c s : ∃ h t, split c s = h :: t.
Proof. pose proof (split_nonempty c s). destruct (split c s); naive_solver. Qed.

Lemma split_no_sep_char c s : has_char c s = false → split c s = [s].
Proof.
  induction s as [|a s IH]; simpl; [done|].
  intros [Ha Hs]%orb_false_iff. rewrite Ha, IH; done.
Qed.

(** No segment of a split contains the separator. *)
Lemma split_segments c s : Forall (λ x, has_char c x = false) (split c s).
Proof.
  induction s as [|a s IH]; simpl; [by repeat constructor|].
  case_bool_decide as Ha; [by constructor|].
  destruct (split c s) as [|h t]; simpl.
  - repeat constructor. simpl. by rewrite bool_decide_eq_false_2.
  - inversion_clear IH. constructor; [|done]. simpl. by rewrite bool_decide_eq_false_2.
Qed.

Lemma join_cons_cons sep x y l : join sep (x :: y :: l) = x +:+ sep +:+ join sep (y :: l).
Proof. done. Qed.

(** Round trip: joining the segments with the separator gives the string
    back. *)
Lemma join_split c s : join (String c "") (split c s) = s.
Proof.
  induction s as [|a s IH]; simpl; [done|].
  destruct (split_cons c s) as (h & t & Hs). rewrite Hs in *.
  case_bool_decide as Ha.
  - subst a. by rewrite join_cons_cons, IH.
  - destruct t as [|y t]; [by simplify_eq/=|].
    rewrite join_cons_cons in *. by rewrite <-IH.
Qed.

Lemma split_app_sep c x s :
  has_char c x = false → split c (x +:+ String c s) = x :: split c s.
Proof.
  induction x as [|a x IH]; simpl.
  - intros _. by rewrite bool_decide_eq_true_2.
  - intros [Ha Hx]%orb_false_iff. by rewrite Ha, IH.
Qed.

(** Round trip in the other direction: a non-empty list of segments free of
    the separator is recovered by [split]. *)
Lemma split_join c l :
  l ≠ [] → Forall (λ x, has_char c x = false) l →
  split c (join (String c "") l) = l.
Proof.
  induction l as [|x l IH]; [done|]. intros _ Hall. inversion_clear Hall as [|?? Hx Hl].
  destruct l as [|y l]; [by apply split_no_sep_char|].
  rewrite join_cons_cons.
  change (String c "" +:+ ?j) with (String c j). rewrite split_app_sep by done. f_equal. by apply IH.
Qed.

Lemma pop_split_no_sep c s : has_char c (pop (split c s)) = false.
Proof.
  unfold pop. pose proof (split_segments c s) as Hall.
  destruct (last (split c s)) as [x|] eqn:Hl; [|done].
  apply last_Some_elem_of in Hl. by eapply Forall_forall in Hall.
Qed.

Lemma first_split_no_sep c s : has_char c (first (split c s)) = false.
Proof.
  unfold first. pose proof (split_segments c s) as Hall.
  destruct (split c s); [done | by inversion Hall].
Qed.

(** The first segment is a prefix of the string. *)
Lemma first_split_prefix c s : starts_with (first (split c s)) s = true.
Proof.
  unfold first. induction s as [|a s IH]; simpl; [done|].
  case_bool_decide; [done|].
  destruct (split c s); simpl in *; by rewrite bool_decide_eq_true_2.
Qed.

#[export] Hint Rewrite join_split : sphere_rw.
#[export] Hint Resolve pop_split_no_sep first_split_no_sep : sphere.
