(* ===== verification/Model.v ===== *)
(** * Model: documents, requests, answers and the state of the system

    The Mongoose schemas ([models/uploading.model.js], [models/user.model.js])
    are not among the sources; the records below hold exactly the fields the
    controllers read and write, with the defaults the specification gives
    (empty likes and comments, [archived] false, [downloadCount] zero).

    [World] is the state every handler runs against: the two collections,
    the ObjectId allocator, the objects held by Cloudinary and the log of
    the calls made to it.  [Env] is what one request observes of the
    outside: the clock and whether Cloudinary accepts the upload and the
    destroy call made while the request is served.

    The Mongoose calls the controllers make ([findById], [save], [create],
    [findByIdAndDelete], [findByIdAndUpdate] with [$pull]) are actions on
    [World]; they do not fail (driver failures are not modelled). *)

From S2P Require Import Prelude JsString.

Local Open Scope string_scope.
Local Open Scope list_scope.

(** ObjectIds.  Route parameters and [req.user.id] are taken as already
    parsed, so comparing their text is comparing ids. *)
Abbreviation oid := nat.

(** ** Documents *)

(** A sub-document of [note.comments]. *)
Record Comment := mkComment {
  c_id : oid;                (* _id, assigned by Mongoose on push *)
  user : oid;
  text : string;
  commentedAt : nat;
  c_username : string;       (* username *)
}.

Record Note := mkNote {
  title : string;
  description : string;
  collegeName : string;
  courseName : string;
  batch : string;
  subjectName : string;
  semester : string;
  uploader : oid;
  fileUrl : string;
  fileName : string;
  fileType : string;
  likes : list oid;
  comments : list Comment;
  archived : bool;
  downloadCount : nat;
  createdAt : nat;
}.

Record User := mkUser {
  username : string;
  email : string;
  password : string;
  archivedNotes : list oid;
}.

#[export] Instance Comment_eq_dec : EqDecision Comment.
Proof. solve_decision. Defined.

#[export] Instance Note_eq_dec : EqDecision Note.
Proof. solve_decision. Defined.

#[export] Instance User_eq_dec : EqDecision User.
Proof. solve_decision. Defined.

(** ** Field updates ([doc.field = value]) *)

Definition set_text_time (t : string) (at_ : nat) (c : Comment) : Comment :=
  {| c_id := c_id c; user := user c; text := t; commentedAt := at_;
     c_username := c_username c |}.

Definition set_likes (l : list oid) (n : Note) : Note :=
  {| title := title n; description := description n; collegeName := collegeName n;
     courseName := courseName n; batch := batch n; subjectName := subjectName n;
     semester := semester n; uploader := uploader n; fileUrl := fileUrl n;
     fileName := fileName n; fileType := fileType n; likes := l;
     comments := comments n; archived := archived n;
     downloadCount := downloadCount n; createdAt := createdAt n |}.

Definition set_comments (cs : list Comment) (n : Note) : Note :=
  {| title := title n; description := description n; collegeName := collegeName n;
     courseName := courseName n; batch := batch n; subjectName := subjectName n;
     semester := semester n; uploader := uploader n; fileUrl := fileUrl n;
     fileName := fileName n; fileType := fileType n; likes := likes n;
     comments := cs; archived := archived n;
     downloadCount := downloadCount n; createdAt := createdAt n |}.

Definition set_archived (b : bool) (n : Note) : Note :=
  {| title := title n; description := description n; collegeName := collegeName n;
     courseName := courseName n; batch := batch n; subjectName := subjectName n;
     semester := semester n; uploader := uploader n; fileUrl := fileUrl n;
     fileName := fileName n; fileType := fileType n; likes := likes n;
     comments := comments n; archived := b;
     downloadCount := downloadCount n; createdAt := createdAt n |}.

Definition set_downloadCount (k : nat) (n : Note) : Note :=
  {| title := title n; description := description n; collegeName := collegeName n;
     courseName := courseName n; batch := batch n; subjectName := subjectName n;
     semester := semester n; uploader := uploader n; fileUrl := fileUrl n;
     fileName := fileName n; fileType := fileType n; likes := likes n;
     comments := comments n; archived := archived n;
     downloadCount := k; createdAt := createdAt n |}.

(** The three fields of the blob reference, written together. *)
Definition set_file (url name type : string) (n : Note) : Note :=
  {| title := title n; description := description n; collegeName := collegeName n;
     courseName := courseName n; batch := batch n; subjectName := subjectName n;
     semester := semester n; uploader := uploader n; fileUrl := url;
     fileName := name; fileType := type; likes := likes n;
     comments := comments n; archived := archived n;
     downloadCount := downloadCount n; createdAt := createdAt n |}.

(** The seven descriptive fields. *)
Definition set_meta (t d sub col cou b sem : string) (n : Note) : Note :=
  {| title := t; description := d; collegeName := col;
     courseName := cou; batch := b; subjectName := sub;
     semester := sem; uploader := uploader n; fileUrl := fileUrl n;
     fileName := fileName n; fileType := fileType n; likes := likes n;
     comments := comments n; archived := archived n;
     downloadCount := downloadCount n; createdAt := createdAt n |}.

Definition set_archivedNotes (l : list oid) (u : User) : User :=
  {| username := username u; email := email u; password := password u;
     archivedNotes := l |}.

(** ** Requests *)

(** [req.user], set by [verifyToken]. *)
Record AuthUser := mkAuthUser {
  uid : oid;                 (* req.user.id *)
  uname : string;            (* req.user.username *)
}.

(** [req.file], set by multer. *)
Record File := mkFile {
  originalname : string;
  mimetype : string;
  buffer : list Byte.byte;
}.

(** [req.body]: the text fields by name, and the [uploader] field, which
    Mongoose casts to an ObjectId. *)
Record ReqBody := mkReqBody {
  fields : gmap string string;
  body_uploader : option oid;
}.

(** [req.body[name]]. *)
Definition field (b : ReqBody) (name : string) : option string := fields b !! name.

(** ** Answers *)

(** An [Error] object as the handlers build and forward it. *)
Record JsError := mkJsError {
  statusCode : option nat;
  message : string;
}.

(** [errorHandler(status, message)] of [utils/error.js]. *)
Definition errorHandler (status : nat) (msg : string) : JsError :=
  {| statusCode := Some status; message := msg |}.

(** [new Error(message)]: no status code. *)
Definition new_Error (msg : string) : JsError :=
  {| statusCode := None; message := msg |}.

(** The [TypeError] raised by reading a property of [null]. *)
Definition TypeError (msg : string) : JsError := new_Error msg.

(** How an awaited promise settles: [await p] either yields a value or
    throws the error [p] was rejected with. *)
Inductive Settled (A : Type) :=
| Resolved (a : A)
| Rejected (msg : string).
Arguments Resolved {A} a.
Arguments Rejected {A} msg.

(** The JSON bodies the handlers send, one constructor per shape. *)
Inductive Body :=
| JMessage (success : bool) (msg : string)            (* { success, message } *)
| JMsg (msg : string)                                 (* { message } *)
| JFailure (msg err : string)                         (* { success: false, message, error } *)
| JText (s : string)                                  (* a bare string *)
| JData (msg : string) (id : oid) (data : Note)       (* { success: true, message, data } *)
| JNote (id : oid) (note : Note)                      (* { success: true, note } *)
| JLikes (l : list oid)                               (* { success: true, likes } *)
| JCommented (id : oid) (note : option Note)          (* { success: true, comments: note } *)
| JComments (msg : string) (cs : list Comment)        (* { success: true, message, comments } *)
| JDownloadCount (k : nat)                            (* { success: true, downloadCount } *)
| JArchives (l : list (oid * Note))                   (* the populated archive list *)
| JNotes (l : list (oid * Note))                      (* { success: true, notes } *)
| JCounted (count : nat) (l : list (oid * Note))      (* { success: true, count, notes } *)
| JArray (l : list (oid * Note))                      (* a bare array of notes *)
| JUser (id : oid) (name mail : string) (archive : list oid).
                                                      (* a user document without its password *)

(** What a handler does with the request: [res.status(s).json(b)] or
    [next(e)]. *)
Inductive Outcome :=
| Respond (status : nat) (body : Body)
| Next (e : JsError).

(** [$set] of the three account fields. *)
Definition set_account (name mail pass : string) (u : User) : User :=
  {| username := name; email := mail; password := pass;
     archivedNotes := archivedNotes u |}.

(** ** The state of the system *)

(** An object held by Cloudinary. *)
Record Asset := mkAsset {
  content : list Byte.byte;
  format : string;
}.

(** A call made to the Cloudinary uploader. *)
Inductive CloudCall :=
| CallUpload (public_id : string)
| CallDestroy (public_id : string).

#[export] Instance JsError_eq_dec : EqDecision JsError.
Proof. solve_decision. Defined.

#[export] Instance CloudCall_eq_dec : EqDecision CloudCall.
Proof. solve_decision. Defined.

Record World := mkWorld {
  notes : gmap oid Note;           (* the Note collection, by _id *)
  users : gmap oid User;           (* the User collection, by _id *)
  assets : gmap string Asset;      (* Cloudinary, by public id *)
  calls : list CloudCall;          (* calls made to Cloudinary, oldest first *)
  next_oid : oid;                  (* the next ObjectId to hand out *)
}.

(** What one request observes of the outside. *)
Record Env := mkEnv {
  now : nat;                       (* Date.now(), new Date() *)
  upload_error : option string;    (* Some m: upload_stream reports an error *)
  destroy_error : option string;   (* Some m: uploader.destroy rejects *)
}.

Abbreviation handler A := (action World Outcome A).

Definition set_notes (f : gmap oid Note → gmap oid Note) (w : World) : World :=
  {| notes := f (notes w); users := users w; assets := assets w;
     calls := calls w; next_oid := next_oid w |}.

Definition set_users (f : gmap oid User → gmap oid User) (w : World) : World :=
  {| notes := notes w; users := f (users w); assets := assets w;
     calls := calls w; next_oid := next_oid w |}.

(** [alloc_oid]: a new ObjectId, never handed out before. *)
Definition alloc_oid : handler oid :=
  λ w, (inr (next_oid w),
        {| notes := notes w; users := users w; assets := assets w;
           calls := calls w; next_oid := S (next_oid w) |}).

(** ** The Mongoose calls of the controllers *)

(** [Note.findById(id)]. *)
Definition Note_findById (id : oid) : handler (option Note) :=
  gets (λ w, notes w !! id).

(** [note.save()] for a document read under [id]. *)
Definition Note_save (id : oid) (n : Note) : handler unit :=
  modify (set_notes <[id := n]>).

(** [Note.create(doc)]: a fresh [_id], the schema defaults filled in by the
    caller through [doc]. *)
Definition Note_create (doc : Note) : handler oid :=
  (let! id := alloc_oid in
   modify (set_notes <[id := doc]>) ;;;
   ret id)%handler.

(** [Note.findByIdAndDelete(id)]. *)
Definition Note_findByIdAndDelete (id : oid) : handler unit :=
  modify (set_notes (delete id)).

(** [User.findById(id)]. *)
Definition User_findById (id : oid) : handler (option User) :=
  gets (λ w, users w !! id).

(** [user.save()]. *)
Definition User_save (id : oid) (u : User) : handler unit :=
  modify (set_users <[id := u]>).

(** [User.findByIdAndUpdate(id, { $pull: { archivedNotes: noteId } })]:
    removes every occurrence; nothing happens when the user is absent. *)
Definition User_pull_archived (id noteId : oid) : handler unit :=
  modify (set_users (alter (λ u, set_archivedNotes (filter (λ x, x ≠ noteId) (archivedNotes u)) u) id)).

(** [User.findOne(filter)]: the first user, in the order of the collection,
    that satisfies the filter. *)
Definition User_findOne (P : oid * User → bool) : handler (option (oid * User)) :=
  gets (λ w, snd <$> list_find (λ e, P e = true) (map_to_list (users w))).

(** [User.findByIdAndUpdate(id, { $set }, { new: true })]: the updated
    document, or [null]. *)
Definition User_findByIdAndUpdate (id : oid) (f : User → User) : handler (option User) :=
  (modify (set_users (alter f id)) ;;;
   gets (λ w, users w !! id))%handler.

(** [User.findByIdAndDelete(id)]. *)
Definition User_findByIdAndDelete (id : oid) : handler unit :=
  modify (set_users (delete id)).

(** [Note.find(filter)]: the notes that satisfy the filter, in the order of
    the collection. *)
Definition Note_find (P : oid * Note → bool) : handler (list (oid * Note)) :=
  gets (λ w, filter (λ e, P e = true) (map_to_list (notes w))).

(** [same_except_note id w w']: from [w] to [w'] nothing changed but the
    note stored under [id] (and possibly the ObjectId allocator). *)
Definition same_except_note (id : oid) (w w' : World) : Prop :=
  users w' = users w ∧ assets w' = assets w ∧ calls w' = calls w ∧
  (next_oid w ≤ next_oid w')%nat ∧
  ∀ id', id' ≠ id → notes w' !! id' = notes w !! id'.

(** ** Sample data, used to exercise the theorems on concrete inputs *)

Definition alice : AuthUser := {| uid := 1; uname := "alice" |}.

Definition bob : AuthUser := {| uid := 2; uname := "bob" |}.

Definition sample_comment : Comment :=
  {| c_id := 11; user := 2; text := "thanks"; commentedAt := 5; c_username := "bob" |}.

Definition sample_note : Note :=
  {| title := "Midterm notes"; description := "week 1-6"; collegeName := "MIT";
     courseName := "CS"; batch := "2025"; subjectName := "Algorithms";
     semester := "3"; uploader := 1;
     fileUrl := "https://res.cloudinary.com/demo/raw/upload/v1/notes/7-midterm.pdf";
     fileName := "midterm.pdf"; fileType := "application/pdf";
     likes := [2]; comments := [sample_comment]; archived := false;
     downloadCount := 4; createdAt := 3 |}.

Definition sample_world : World :=
  {| notes := {[ 10 := sample_note ]};
     users := {[ 1 := {| username := "alice"; email := "a@x"; password := "h1";
                         archivedNotes := [] |};
                 2 := {| username := "bob"; email := "b@x"; password := "h2";
                         archivedNotes := [10] |} ]};
     assets := {[ "notes/7-midterm" := {| content := []; format := "pdf" |} ]};
     calls := [];
     next_oid := 12 |}.

Definition sample_env : Env :=
  {| now := 100; upload_error := None; destroy_error := None |}.

Definition upload_down_env : Env :=
  {| now := 100; upload_error := Some "timeout"; destroy_error := None |}.

Definition destroy_down_env : Env :=
  {| now := 100; upload_error := None; destroy_error := Some "timeout" |}.

(** ** Basic facts about the store actions *)

Lemma set_notes_same w m : notes w = m → set_notes (λ _, m) w = w.
Proof. intros <-. by destruct w. Qed.

Lemma set_notes_insert_id w id n : notes w !! id = Some n → set_notes <[id := n]> w = w.
Proof. intros H. destruct w; unfold set_notes; simpl in *. by rewrite insert_id. Qed.

Lemma set_likes_likes n : set_likes (likes n) n = n.
Proof. by destruct n. Qed.

Lemma set_likes_set_likes l l' n : set_likes l (set_likes l' n) = set_likes l n.
Proof. done. Qed.

Lemma set_comments_comments n : set_comments (comments n) n = n.
Proof. by destruct n. Qed.

Lemma set_comments_set_comments l l' n : set_comments l (set_comments l' n) = set_comments l n.
Proof. done. Qed.

Lemma set_downloadCount_downloadCount n : set_downloadCount (downloadCount n) n = n.
Proof. by destruct n. Qed.

Lemma set_downloadCount_twice k k' n :
  set_downloadCount k (set_downloadCount k' n) = set_downloadCount k n.
Proof. done. Qed.

Lemma set_archivedNotes_archivedNotes u : set_archivedNotes (archivedNotes u) u = u.
Proof. by destruct u. Qed.

Lemma set_notes_insert_insert id n n' w :
  set_notes <[id := n]> (set_notes <[id := n']> w) = set_notes <[id := n]> w.
Proof. unfold set_notes; simpl. by rewrite insert_insert_eq. Qed.

Lemma same_except_note_refl id w : same_except_note id w w.
Proof. by repeat split. Qed.

Lemma same_except_note_save id n w : same_except_note id w (set_notes <[id := n]> w).
Proof. repeat split; simpl; [done | intros; by rewrite lookup_insert_ne]. Qed.

Lemma same_except_note_trans id w1 w2 w3 :
  same_except_note id w1 w2 → same_except_note id w2 w3 → same_except_note id w1 w3.
Proof.
  intros (Hu & Ha & Hc & Ho & Hn) (Hu' & Ha' & Hc' & Ho' & Hn').
  repeat split; [congruence.. | lia | intros; rewrite Hn', Hn; done].
Qed.

Lemma set_users_insert_id w id u : users w !! id = Some u → set_users <[id := u]> w = w.
Proof. intros H. destruct w; unfold set_users; simpl in *. by rewrite insert_id. Qed.

Lemma set_archived_archived n : set_archived (archived n) n = n.
Proof. by destruct n. Qed.

Lemma set_notes_set_notes f g w : set_notes f (set_notes g w) = set_notes (f ∘ g) w.
Proof. done. Qed.


Lemma Note_save_lookup id n w : notes (Note_save id n w).2 !! id = Some n.
Proof. simpl. by rewrite lookup_insert_eq. Qed.

Lemma Note_save_lookup_ne id id' n w :
  id ≠ id' → notes (Note_save id n w).2 !! id' = notes w !! id'.
Proof. intros. simpl. by rewrite lookup_insert_ne. Qed.

Lemma Note_create_fresh doc w :
  (Note_create doc w).1 = inr (next_oid w) ∧
  notes (Note_create doc w).2 = <[next_oid w := doc]> (notes w) ∧
  next_oid (Note_create doc w).2 = S (next_oid w).
Proof. done. Qed.

Lemma Note_delete_lookup id w : notes (Note_findByIdAndDelete id w).2 !! id = None.
Proof. simpl. by rewrite lookup_delete_eq. Qed.

Lemma Note_delete_lookup_ne id id' w :
  id ≠ id' → notes (Note_findByIdAndDelete id w).2 !! id' = notes w !! id'.
Proof. intros. simpl. by rewrite lookup_delete_ne. Qed.

Lemma User_pull_lookup id noteId w :
  users (User_pull_archived id noteId w).2 !! id =
  (λ u, set_archivedNotes (filter (λ x, x ≠ noteId) (archivedNotes u)) u) <$> users w !! id.
Proof. simpl. by rewrite lookup_alter_eq. Qed.

Lemma User_pull_lookup_ne id id' noteId w :
  id ≠ id' → users (User_pull_archived id noteId w).2 !! id' = users w !! id'.
Proof. intros. simpl. by rewrite lookup_alter_ne. Qed.
