(* ===== verification/Contract.v ===== *)
(** * Contract: what a handler promises to the rest of the system

    The components meet in one place only: the state.  A handler of one
    component never calls a handler of another, but each relies on what the
    others leave in the stores.  This file states such promises as a type
    class, [Guarantees Inv R h]: started in a state that satisfies [Inv], the
    handler [h] ends in a state related to the first by [R].  The three
    forms the development uses are

    - [ReadOnly h]: [h] answers without changing the state ([getNotes],
      [getArchives]);
    - [NoteLocal id h]: [h] changes at most the note [id] (the handlers of
      the engagement manager);
    - [Preserves Inv h]: [h] keeps the invariant [Inv].

    The components declare instances for their handlers.  The theorems about
    sequences of requests are proved here once, for any family of handlers
    that satisfies the class, and [System] obtains its theorems about the
    routers from them. *)

From S2P Require Import Prelude Model.

Class Guarantees (Inv : World → Prop) (R : relation World)
    (h : World → Outcome * World) : Prop :=
  guarantees w : Inv w → R w (h w).2.

Abbreviation ReadOnly h := (Guarantees (λ _, True) eq h).
Abbreviation NoteLocal id h := (Guarantees (λ _, True) (same_except_note id) h).
#[warnings="-inconsistent-scopes"]
Abbreviation Preserves Inv h := (Guarantees Inv (λ _ w', Inv w') h).

Section served.
Context {Req : Type} (handle : Req → World → Outcome * World).

(** One request served, and a sequence of requests served oldest first. *)
Inductive served : World → World → Prop :=
| served_request r w : served w (handle r w).2.

Definition run_all (rs : list Req) (w : World) : World :=
  foldl (λ w r, (handle r w).2) w rs.

End served.

(** ** Consequences of a contract *)

Section contract.
Implicit Types (Inv : World → Prop) (R : relation World) (h : World → Outcome * World).

Lemma Guarantees_weaken Inv Inv' R R' h :
  (∀ w, Inv' w → Inv w) → (∀ w w', Inv' w → R w w' → R' w w') →
  Guarantees Inv R h → Guarantees Inv' R' h.
Proof. intros HI HR Hh w Hw. apply HR, Hh, HI; done. Qed.

Lemma Guarantees_and Inv R R' h :
  Guarantees Inv R h → Guarantees Inv R' h → Guarantees Inv (λ w w', R w w' ∧ R' w w') h.
Proof. intros H1 H2 w Hw. split; [by apply H1 | by apply H2]. Qed.

Lemma read_only h `{!ReadOnly h} w : (h w).2 = w.
Proof. symmetry. by apply guarantees. Qed.

Lemma note_local id h `{!NoteLocal id h} w : same_except_note id w (h w).2.
Proof. by apply guarantees. Qed.

Lemma preserves Inv h `{!Preserves Inv h} w : Inv w → Inv (h w).2.
Proof. exact (guarantees (h:=h) w). Qed.

(** A handler that does not change the state keeps every invariant and
    every reflexive relation. *)
Lemma ReadOnly_Guarantees Inv R h `{!Reflexive R} : ReadOnly h → Guarantees Inv R h.
Proof. intros Hh w _. by rewrite <-(Hh w I). Qed.

Lemma ReadOnly_Preserves Inv h : ReadOnly h → Preserves Inv h.
Proof. intros Hh w Hw. by rewrite <-(Hh w I). Qed.

(** A handler that changes one note at most changes no other note, no user
    and no stored object. *)
Lemma NoteLocal_Guarantees id Inv R h :
  (∀ w w', same_except_note id w w' → R w w') → NoteLocal id h → Guarantees Inv R h.
Proof. intros HR Hh w _. by apply HR, Hh. Qed.

End contract.

(** [by_contract] reduces a goal about the state a handler leaves to the
    instance declared for that handler. *)
Ltac by_contract :=
  lazymatch goal with
  | |- same_except_note ?id ?w (?h ?w).2 => exact (note_local id h w)
  | |- (?h ?w).2 = ?w => exact (read_only h w)
  | |- ?P (?h ?w).2 => apply (preserves P h w)
  end.

(** ** Sequences of requests *)

Section sequences.
Context {Req : Type} (handle : Req → World → Outcome * World).
Context (Inv : World → Prop) `{HI : !∀ r, Preserves Inv (handle r)}.

Lemma served_preserves w w' : Inv w → served handle w w' → Inv w'.
Proof. intros Hw Hstep. revert Hw. destruct Hstep as [r w0]. apply HI. Qed.

(** The invariant holds after any number of requests. *)
Lemma served_rtc_preserves w w' : Inv w → rtc (served handle) w w' → Inv w'.
Proof.
  intros Hw Hsteps. induction Hsteps as [|w1 w2 w3 Hstep _ IH]; [done|].
  apply IH. by eapply served_preserves.
Qed.

(** What every request guarantees of its two end states, when it is a
    preorder, holds between the ends of any sequence of requests. *)
Lemma served_rtc_guarantees (R : relation World) `{!PreOrder R}
    `{HR : !∀ r, Guarantees Inv R (handle r)} w w' :
  Inv w → rtc (served handle) w w' → R w w'.
Proof.
  intros Hw Hsteps. induction Hsteps as [|w1 w2 w3 Hstep _ IH]; [done|].
  etrans; [|apply IH; by eapply served_preserves].
  destruct Hstep as [r w1]. by apply HR.
Qed.

Lemma run_all_snoc rs r w : run_all handle (rs ++ [r]) w = (handle r (run_all handle rs w)).2.
Proof. unfold run_all. by rewrite foldl_app. Qed.

(** The relation and the function agree: the states reached by served
    requests are those [run_all] computes. *)
Lemma served_run_all rs w : rtc (served handle) w (run_all handle rs w).
Proof.
  induction rs as [|r rs IH] using rev_ind; [done|].
  rewrite run_all_snoc. eapply rtc_r; [done | constructor].
Qed.

Lemma rtc_served_run_all w w' :
  rtc (served handle) w w' ↔ ∃ rs, w' = run_all handle rs w.
Proof.
  split; [|intros [rs ->]; apply served_run_all].
  intros Hsteps. induction Hsteps as [|w1 w2 w3 Hstep _ [rs ->]]; [by exists []|].
  destruct Hstep as [r w1]. by exists (r :: rs).
Qed.

Lemma run_all_preserves rs w : Inv w → Inv (run_all handle rs w).
Proof. intros Hw. eapply served_rtc_preserves; [done | apply served_run_all]. Qed.

End sequences.
