(* ===== verification/Eventloop.v ===== *)
(** * Eventloop: requests in flight

    The handlers are [async] functions.  A handler runs until its next
    [await], the awaited database call is carried out, and the handler is
    resumed later; between the call and the resumption other requests run.
    What one request does between two resumptions is atomic, since
    JavaScript runs one piece of code at a time and the database carries out
    one call at a time.

    [Proc] is a handler cut at its [await]s: an answer, or a database call
    ([effect], what it does to the stores, and [next], the rest of the
    handler, which sees the stores as they were when the call was made).
    [await m k] is [const x = await m; k x] for an action [m] of the handler
    monad.  [finish] runs a process to its answer without interruption;
    [run_schedule] runs a pool of processes in the order a schedule gives,
    one atomic step of one process at a time.

    A document read earlier and saved later meets a stored document that
    may have changed.  What [save()] writes then is a property of the
    document library and not of the sources: [SavePolicy] is its interface,
    with the laws the development relies on, and two instances:
    [whole_document], the record store of the specification, whose save
    replaces the stored record by the copy in memory, and [modified_paths],
    which writes the fields that differ from the copy read and leaves the
    others as they are stored.  In both, every path of the document saved
    is that of the copy or that of the stored document ([PathWise]).  A
    third instance, [array_atomics], sends a [push] onto an array as an
    insertion into the stored array; it is not in [PathWise].  All three
    leave the uploader of a note as the copy or the stored document has
    it ([OwnerWise]).  A save of a document that is no longer stored is
    an error under each policy and stores nothing.

    The theorems are those every pool of processes has: a process that
    answers within [n] steps does so whatever runs in between; a schedule
    that gives every process [n] turns leaves every request answered
    ([fair_schedule_answers]), so the round robin does
    ([round_robin_answers]); an answer is final; what every step of every
    process guarantees of the stores holds between the ends of a run
    ([run_schedule_respects]); an invariant of the stores that every step
    keeps, given what its process has read since ([stable]), holds after
    every run ([run_schedule_stable]). *)

From S2P Require Import Prelude JsString Model Contract.

Local Open Scope string_scope.
Local Open Scope list_scope.
Local Open Scope nat_scope.

(** ** Processes *)

Inductive Proc :=
| Answer (o : Outcome)
| Await (next : World → Proc) (effect : World → World).

(** [const x = await m; k x].  An action that exits answers at once. *)
Definition await {A} (m : handler A) (k : A → Proc) : Proc :=
  Await (λ w, match (m w).1 with inl o => Answer o | inr a => k a end)
        (λ w, (m w).2).

Notation "'await!' x ':=' m 'in' k" := (await m (λ x, k))
  (at level 10, x binder, m at level 100, k at level 200) : handler_scope.

(** [try { await m } catch { answer o }]: an action whose errors are
    answered by [o]. *)
Definition rescue {A} (m : handler A) (o : Outcome) : handler A :=
  λ w, match m w with
       | (inl _, w') => (inl o, w')
       | (inr a, w') => (inr a, w')
       end.

(** A handler taken as one step. *)
Definition atomic (h : World → Outcome * World) : Proc :=
  Await (λ w, Answer (h w).1) (λ w, (h w).2).

(** The next atomic step of a process. *)
Definition proc_step (p : Proc) (w : World) : Proc * World :=
  match p with
  | Answer o => (Answer o, w)
  | Await next effect => (next w, effect w)
  end.

(** The process run to its answer, nothing else running in between. *)
Fixpoint finish (p : Proc) (w : World) : Outcome * World :=
  match p with
  | Answer o => (o, w)
  | Await next effect => finish (next w) (effect w)
  end.

(** The processes run to their answers one after the other. *)
Fixpoint finish_all (ts : list Proc) (w : World) : list Outcome * World :=
  match ts with
  | [] => ([], w)
  | p :: ts =>
      let '(o, w') := finish p w in
      let '(os, w'') := finish_all ts w' in
      (o :: os, w'')
  end.

(** ** Pools and schedules *)

(** The stores and the requests in flight. *)
Definition Config : Type := World * list Proc.

(** The process [i] takes its next step. *)
Definition sched_step (c : Config) (i : nat) : Config :=
  match c.2 !! i with
  | Some p => ((proc_step p c.1).2, <[i := (proc_step p c.1).1]> c.2)
  | None => c
  end.

Definition run_schedule (s : list nat) (c : Config) : Config := foldl sched_step c s.

(** The schedule that runs [k] requests one after the other, [n] steps
    each, and the one that gives each of them a step in turn, [n] times. *)
Definition serial (n k : nat) : list nat := i ← seq 0 k; replicate n i.

Definition round_robin (n k : nat) : list nat := mjoin (replicate n (seq 0 k)).

(** The number of turns a schedule gives to the process [i]. *)
Definition turns (i : nat) (s : list nat) : nat := length (filter (i =.) s).

Definition is_done (p : Proc) : nat :=
  match p with Answer _ => 1 | Await _ _ => 0 end.

(** The number of requests that have been answered. *)
Definition answered (ts : list Proc) : nat := sum_list (is_done <$> ts).

(** [within n p]: the process answers after [n] steps of its own at most,
    whatever the stores hold when it takes them. *)
Inductive within : nat → Proc → Prop :=
| within_Answer n o : within n (Answer o)
| within_Await n next effect :
    (∀ w, within n (next w)) → within (S n) (Await next effect).

(** [respects R p]: every step of [p] takes the stores to stores related
    by [R]. *)
Inductive respects (R : relation World) : Proc → Prop :=
| respects_Answer o : respects R (Answer o)
| respects_Await next effect :
    (∀ w, R w (effect w)) → (∀ w, respects R (next w)) →
    respects R (Await next effect).

(** [answers_in P p]: every answer [p] can give satisfies [P]. *)
Inductive answers_in (P : Outcome → Prop) : Proc → Prop :=
| answers_in_Answer o : P o → answers_in P (Answer o)
| answers_in_Await next effect :
    (∀ w, answers_in P (next w)) → answers_in P (Await next effect).

(** [stable R Inv w0 p]: [p] has read the stores [w0]; in whatever stores
    [w] it is resumed that [R] allows after [w0] and that satisfy [Inv], its
    step leaves stores that satisfy [Inv], and so does the rest of it. *)
Inductive stable (R : relation World) (Inv : World → Prop) : World → Proc → Prop :=
| stable_Answer w0 o : stable R Inv w0 (Answer o)
| stable_Await w0 next effect :
    (∀ w, R w0 w → Inv w → Inv (effect w)) →
    (∀ w, R w0 w → Inv w → stable R Inv w (next w)) →
    stable R Inv w0 (Await next effect).

(** ** What [save()] writes *)

(** [either f changed stored saved]: the path [f] of the document saved is
    that of the copy or that of the document that was stored. *)
Definition either {D A} (f : D → A) (changed stored saved : D) : Prop :=
  f saved = f changed ∨ f saved = f stored.

(** A save writes paths of the copy and leaves the others as they are
    stored. *)
Record note_saved (changed stored saved : Note) : Prop := {
  saved_title : either title changed stored saved;
  saved_description : either description changed stored saved;
  saved_collegeName : either collegeName changed stored saved;
  saved_courseName : either courseName changed stored saved;
  saved_batch : either batch changed stored saved;
  saved_subjectName : either subjectName changed stored saved;
  saved_semester : either semester changed stored saved;
  saved_uploader : either uploader changed stored saved;
  saved_fileUrl : either fileUrl changed stored saved;
  saved_fileName : either fileName changed stored saved;
  saved_fileType : either fileType changed stored saved;
  saved_likes : either likes changed stored saved;
  saved_comments : either comments changed stored saved;
  saved_archived : either archived changed stored saved;
  saved_downloadCount : either downloadCount changed stored saved;
  saved_createdAt : either createdAt changed stored saved;
}.

Record user_saved (changed stored saved : User) : Prop := {
  saved_username : either username changed stored saved;
  saved_email : either email changed stored saved;
  saved_password : either password changed stored saved;
  saved_archivedNotes : either archivedNotes changed stored saved;
}.

(** [save_note loaded changed stored]: the document stored after
    [changed.save()], where [changed] was read as [loaded] and the store
    now holds [stored]; likewise for users. *)
Class SavePolicy := {
  save_note : Note → Note → Note → Note;
  save_user : User → User → User → User;
  save_note_fresh loaded changed : save_note loaded changed loaded = changed;
  save_user_fresh loaded changed : save_user loaded changed loaded = changed;
  save_note_downloadCount loaded changed stored :
    downloadCount changed ≠ downloadCount loaded →
    downloadCount (save_note loaded changed stored) = downloadCount changed;
}.

(** The policies under which a save writes each path from the copy or
    leaves it as it is stored. *)
Class PathWise (policy : SavePolicy) := {
  save_note_paths loaded changed stored :
    note_saved changed stored (save_note loaded changed stored);
  save_user_paths loaded changed stored :
    user_saved changed stored (save_user loaded changed stored);
}.

(** The policies under which a save writes the uploader of the copy or
    leaves the one that is stored, whatever they do with the other
    paths. *)
Class OwnerWise (policy : SavePolicy) :=
  save_note_uploader loaded changed stored :
    either uploader changed stored (save_note loaded changed stored).

(** What was pushed onto an array since it was read, if pushing is all
    that was done to it. *)
Definition pushed `{EqDecision A} (loaded changed : list A) : option (list A) :=
  if decide (take (length loaded) changed = loaded)
  then Some (drop (length loaded) changed) else None.

(** The array written by a save that sends a push as an insertion into the
    stored array, and any other change as the whole array. *)
Definition array_path `{EqDecision A} (loaded changed stored : list A) : list A :=
  match pushed loaded changed with
  | Some suffix => stored ++ suffix
  | None => changed
  end.

(** The field written by a save that sends modified paths only. *)
Definition path `{EqDecision A} (loaded changed stored : A) : A :=
  if decide (changed = loaded) then stored else changed.

Definition note_paths (l c s : Note) : Note :=
  {| title := path (title l) (title c) (title s);
     description := path (description l) (description c) (description s);
     collegeName := path (collegeName l) (collegeName c) (collegeName s);
     courseName := path (courseName l) (courseName c) (courseName s);
     batch := path (batch l) (batch c) (batch s);
     subjectName := path (subjectName l) (subjectName c) (subjectName s);
     semester := path (semester l) (semester c) (semester s);
     uploader := path (uploader l) (uploader c) (uploader s);
     fileUrl := path (fileUrl l) (fileUrl c) (fileUrl s);
     fileName := path (fileName l) (fileName c) (fileName s);
     fileType := path (fileType l) (fileType c) (fileType s);
     likes := path (likes l) (likes c) (likes s);
     comments := path (comments l) (comments c) (comments s);
     archived := path (archived l) (archived c) (archived s);
     downloadCount := path (downloadCount l) (downloadCount c) (downloadCount s);
     createdAt := path (createdAt l) (createdAt c) (createdAt s) |}.

Definition user_paths (l c s : User) : User :=
  {| username := path (username l) (username c) (username s);
     email := path (email l) (email c) (email s);
     password := path (password l) (password c) (password s);
     archivedNotes := path (archivedNotes l) (archivedNotes c) (archivedNotes s) |}.

(** The same with the arrays written by [array_path]. *)
Definition note_atomics (l c s : Note) : Note :=
  set_comments (array_path (comments l) (comments c) (comments s))
    (set_likes (array_path (likes l) (likes c) (likes s)) (note_paths l c s)).

Definition user_atomics (l c s : User) : User :=
  set_archivedNotes (array_path (archivedNotes l) (archivedNotes c) (archivedNotes s))
    (user_paths l c s).

Section policy.
Context {policy : SavePolicy}.

(** [changed.save()] for a note read as [loaded] under [id]. *)
Definition Note_commit (id : oid) (loaded changed : Note) : handler unit :=
  λ w, match notes w !! id with
       | Some stored =>
           (inr tt, set_notes <[id := save_note loaded changed stored]> w)
       | None => (inl (Next (new_Error "No document found for query")), w)
       end.

(** [changed.save()] for a user read as [loaded] under [id]. *)
Definition User_commit (id : oid) (loaded changed : User) : handler unit :=
  λ w, match users w !! id with
       | Some stored =>
           (inr tt, set_users <[id := save_user loaded changed stored]> w)
       | None => (inl (Next (new_Error "No document found for query")), w)
       end.

End policy.

(** The record store of the specification: a save replaces the record. *)
Definition whole_document : SavePolicy.
Proof.
  by refine {| save_note _ changed _ := changed; save_user _ changed _ := changed |}.
Defined.

(** A save writes the modified paths. *)
Definition modified_paths : SavePolicy.
Proof.
  assert (∀ `{EqDecision A} (l c : A), path l c l = c) as Hfresh
    by (intros; unfold path; by case_decide).
  refine {| save_note := note_paths; save_user := user_paths |}.
  - intros [] []. unfold note_paths; simpl. by rewrite !Hfresh.
  - intros [] []. unfold user_paths; simpl. by rewrite !Hfresh.
  - intros l c s Hne. simpl. unfold path. by case_decide.
Defined.

(** A save writes the modified paths, and a push as an insertion. *)
Definition array_atomics : SavePolicy.
Proof.
  assert (∀ `{EqDecision A} (l c : A), path l c l = c) as Hfresh
    by (intros; unfold path; by case_decide).
  assert (∀ `{EqDecision A} (l c : list A), array_path l c l = c) as Hpush.
  { intros A ? l c. unfold array_path, pushed. case_decide as Hp; [|done].
    by rewrite <-Hp at 1; rewrite take_drop. }
  refine {| save_note := note_atomics; save_user := user_atomics |}.
  - intros [] []. unfold note_atomics, note_paths; simpl. by rewrite !Hfresh, !Hpush.
  - intros [] []. unfold user_atomics, user_paths; simpl. by rewrite !Hfresh, !Hpush.
  - intros l c s Hne. simpl. unfold path. by case_decide.
Defined.

#[export] Instance whole_document_paths : PathWise whole_document.
Proof. by split; intros l c s; split; left. Qed.

#[export] Instance modified_paths_paths : PathWise modified_paths.
Proof.
  split; intros l c s; split; unfold either; simpl; unfold path; case_decide; auto.
Qed.

#[export] Instance pathwise_owner `{!PathWise policy} : OwnerWise policy.
Proof. intros l c s. apply (saved_uploader _ _ _ (save_note_paths l c s)). Qed.

#[export] Instance array_atomics_owner : OwnerWise array_atomics.
Proof. intros l c s. unfold either. simpl. unfold path. case_decide; auto. Qed.

(** ** Fields under [modified_paths] *)

Lemma path_fresh `{EqDecision A} (l c : A) : path l c l = c.
Proof. unfold path. by case_decide. Qed.

Lemma path_changed `{EqDecision A} (l c s : A) : c ≠ l → path l c s = c.
Proof. intros. unfold path. by case_decide. Qed.

Lemma path_unchanged `{EqDecision A} (l s : A) : path l l s = s.
Proof. unfold path. by case_decide. Qed.

(** ** Arrays under [array_atomics] *)

Lemma array_path_push `{EqDecision A} (l suffix s : list A) :
  array_path l (l ++ suffix) s = s ++ suffix.
Proof.
  unfold array_path, pushed. rewrite take_app_length, drop_app_length.
  by rewrite decide_True.
Qed.

Lemma array_path_unchanged `{EqDecision A} (l s : list A) : array_path l l s = s.
Proof. by rewrite <-(app_nil_r l) at 2; rewrite array_path_push, app_nil_r. Qed.

(** A comment pushed onto the copy is inserted into the stored note. *)
Lemma note_atomics_push l cs s :
  note_atomics l (set_comments (comments l ++ cs) l) s = set_comments (comments s ++ cs) s.
Proof.
  destruct l, s. unfold note_atomics, note_paths, set_comments, set_likes. simpl.
  by rewrite !path_unchanged, array_path_push, array_path_unchanged.
Qed.

(** A like pushed onto the copy is inserted into the stored list. *)
Lemma note_atomics_like l ids s :
  note_atomics l (set_likes (likes l ++ ids) l) s = set_likes (likes s ++ ids) s.
Proof.
  destruct l, s. unfold note_atomics, note_paths, set_comments, set_likes. simpl.
  by rewrite !path_unchanged, array_path_push, array_path_unchanged.
Qed.

(** An id pushed onto the copy is inserted into the stored list. *)
Lemma user_atomics_push l ids s :
  user_atomics l (set_archivedNotes (archivedNotes l ++ ids) l) s =
    set_archivedNotes (archivedNotes s ++ ids) s.
Proof.
  destruct l, s. unfold user_atomics, user_paths, set_archivedNotes. simpl.
  by rewrite !path_unchanged, array_path_push.
Qed.

(** ** One process *)

Section process.
Implicit Types (p : Proc) (w : World) (o : Outcome) (n : nat).

Lemma finish_await {A} (m : handler A) (k : A → Proc) w :
  finish (await m k) w =
    match m w with
    | (inl o, w') => (o, w')
    | (inr a, w') => finish (k a) w'
    end.
Proof. simpl. by destruct (m w) as [[o|a] w']. Qed.

Lemma finish_atomic h w : finish (atomic h) w = h w.
Proof. simpl. by destruct (h w). Qed.

(** Running to the answer is taking steps until there is one. *)
Lemma finish_step p w : finish p w = finish (proc_step p w).1 (proc_step p w).2.
Proof. by destruct p. Qed.

Lemma within_mono n n' p : n ≤ n' → within n p → within n' p.
Proof.
  intros Hle Hp. revert n' Hle. induction Hp as [|n next effect _ IH]; intros n' Hle.
  - constructor.
  - destruct n' as [|n']; [lia|]. constructor. intros w. apply IH. lia.
Qed.

Lemma within_step n p w : within n p → within (pred n) (proc_step p w).1.
Proof. intros [|]; simpl; [constructor | done]. Qed.

Lemma within_0 p : within 0 p → ∃ o, p = Answer o.
Proof. inversion 1. by eexists. Qed.

Lemma within_await {A} n (m : handler A) (k : A → Proc) :
  (∀ a, within n (k a)) → within (S n) (await m k).
Proof. intros Hk. constructor. intros w. destruct (m w).1; [constructor | apply Hk]. Qed.

Lemma within_atomic h : within 1 (atomic h).
Proof. constructor. constructor. Qed.

Lemma respects_await {A} (R : relation World) (m : handler A) (k : A → Proc) :
  (∀ w, R w (m w).2) → (∀ a, respects R (k a)) → respects R (await m k).
Proof.
  intros Hm Hk. constructor; [done|]. intros w. destruct (m w).1; [constructor | apply Hk].
Qed.

Lemma respects_step (R : relation World) p w :
  respects R p → R w w → R w (proc_step p w).2 ∧ respects R (proc_step p w).1.
Proof. intros [o|next effect HR Hnext] Hw; simpl; [split; [done | constructor] | done]. Qed.

Lemma stable_await {A} (R : relation World) (Inv : World → Prop) w0 (m : handler A)
    (k : A → Proc) :
  (∀ w, R w0 w → Inv w → Inv (m w).2 ∧ ∀ a, (m w).1 = inr a → stable R Inv w (k a)) →
  stable R Inv w0 (await m k).
Proof.
  intros Hm. constructor; intros w HR Hw; destruct (Hm w HR Hw) as [? Hk]; [done|].
  destruct (m w).1; [constructor | by apply Hk].
Qed.

(** A process that has read older stores has read these. *)
Lemma stable_mono (R : relation World) `{!Transitive R} (Inv : World → Prop) w0 w1 p :
  R w0 w1 → stable R Inv w0 p → stable R Inv w1 p.
Proof.
  intros HR Hp. destruct Hp as [w0 o|w0 next effect He Hp]; constructor; intros w Hw;
    [apply He | apply Hp]; by etrans.
Qed.

Lemma stable_step (R : relation World) (Inv : World → Prop) w p :
  Inv w → R w w → stable R Inv w p →
  Inv (proc_step p w).2 ∧ stable R Inv w (proc_step p w).1.
Proof.
  intros Hw HR Hp. destruct Hp as [w o|w next effect He Hp]; simpl; [|by auto].
  split; [done | constructor].
Qed.

Lemma answers_in_await {A} (P : Outcome → Prop) (m : handler A) (k : A → Proc) :
  (∀ w o, (m w).1 = inl o → P o) → (∀ a, answers_in P (k a)) → answers_in P (await m k).
Proof.
  intros Hm Hk. constructor. intros w. destruct (m w).1 as [o|a] eqn:Ho; [|apply Hk].
  constructor. by eapply Hm.
Qed.

Lemma answers_in_atomic (P : Outcome → Prop) h :
  (∀ w, P (h w).1) → answers_in P (atomic h).
Proof. intros Hh. constructor. intros w. by constructor. Qed.

Lemma answers_in_step (P : Outcome → Prop) p w :
  answers_in P p → answers_in P (proc_step p w).1.
Proof. intros [o Ho|next effect Hnext]; simpl; [by constructor | done]. Qed.

Lemma answers_in_weaken (P Q : Outcome → Prop) p :
  (∀ o, P o → Q o) → answers_in P p → answers_in Q p.
Proof. intros HPQ. induction 1; constructor; auto. Qed.

Lemma answers_in_finish (P : Outcome → Prop) p w : answers_in P p → P (finish p w).1.
Proof. intros Hp. revert w. induction Hp as [o Ho|next effect _ IH]; intros w; simpl; auto. Qed.

Lemma respects_weaken (R R' : relation World) p :
  (∀ w w', R w w' → R' w w') → respects R p → respects R' p.
Proof. intros HR. induction 1; constructor; auto. Qed.

End process.

#[export] Hint Constructors within respects stable : sphere.
#[export] Hint Resolve within_await within_atomic respects_await : sphere.

(** ** Pools under a schedule *)

Section pool.
Implicit Types (p : Proc) (w : World) (c : Config) (s : list nat) (i j n : nat).

Lemma run_schedule_app s1 s2 c :
  run_schedule (s1 ++ s2) c = run_schedule s2 (run_schedule s1 c).
Proof. apply foldl_app. Qed.

Lemma sched_step_length c i : length (sched_step c i).2 = length c.2.
Proof. unfold sched_step. destruct (c.2 !! i); [apply length_insert | done]. Qed.

Lemma run_schedule_length s c : length (run_schedule s c).2 = length c.2.
Proof.
  revert c. induction s as [|i s IH]; intros c; [done|].
  simpl. by rewrite IH, sched_step_length.
Qed.

Lemma sched_step_self c i p :
  c.2 !! i = Some p → (sched_step c i).2 !! i = Some (proc_step p c.1).1.
Proof.
  intros Hi. unfold sched_step. rewrite Hi. simpl.
  apply list_lookup_insert_eq. by eapply lookup_lt_Some.
Qed.

Lemma sched_step_other c i j : i ≠ j → (sched_step c i).2 !! j = c.2 !! j.
Proof.
  intros Hne. unfold sched_step. destruct (c.2 !! i); [|done].
  simpl. by apply list_lookup_insert_ne.
Qed.

(** A process that runs alone reaches what [finish] computes. *)
Lemma run_alone n i c p :
  c.2 !! i = Some p → within n p →
  run_schedule (replicate n i) c = ((finish p c.1).2, <[i := Answer (finish p c.1).1]> c.2).
Proof.
  revert c p. induction n as [|n IH]; intros c p Hi Hp.
  - apply within_0 in Hp as [o ->]. destruct c as [w ts]. simpl in *.
    by rewrite list_insert_id.
  - change (run_schedule (replicate n i) (sched_step c i) =
            ((finish p c.1).2, <[i := Answer (finish p c.1).1]> c.2)).
    rewrite (IH _ _ (sched_step_self _ _ _ Hi) (within_step (S n) _ c.1 Hp)).
    unfold sched_step. rewrite Hi. simpl. by rewrite list_insert_insert_eq, <-finish_step.
Qed.

Lemma answered_insert (ts : list Proc) i p p' :
  ts !! i = Some p → answered (<[i := p']> ts) + is_done p = answered ts + is_done p'.
Proof.
  unfold answered. revert i. induction ts as [|t0 ts IH]; intros [|i] Hi; simplify_eq/=.
  - lia.
  - specialize (IH _ Hi). lia.
Qed.

Lemma answered_app (ts ts' : list Proc) : answered (ts ++ ts') = answered ts + answered ts'.
Proof.
  induction ts as [|p ts IH]; [done|].
  change (is_done p + answered (ts ++ ts') = is_done p + answered ts + answered ts'). lia.
Qed.

Lemma answered_replicate k p : answered (replicate k p) = k * is_done p.
Proof.
  induction k as [|k IH]; [done|].
  change (is_done p + answered (replicate k p) = is_done p + k * is_done p). by rewrite IH.
Qed.

Lemma answered_le (ts : list Proc) : answered ts ≤ length ts.
Proof.
  induction ts as [|p ts IH]; [done|].
  change (is_done p + answered ts ≤ S (length ts)). destruct p; simpl; lia.
Qed.

Lemma answered_all (ts : list Proc) :
  answered ts = length ts ↔ Forall (λ p, ∃ o, p = Answer o) ts.
Proof.
  induction ts as [|p ts IH]; [by split|].
  change (answered (p :: ts)) with (is_done p + answered ts).
  rewrite Forall_cons, <-IH. pose proof (answered_le ts). destruct p; simpl.
  - split; [intros; split; [by eexists | lia] | intros [_ ?]; lia].
  - split; [lia | by intros [[? ?] _]].
Qed.

Lemma turns_cons i j s : turns i (j :: s) = (if decide (i = j) then 1 else 0) + turns i s.
Proof. unfold turns. rewrite filter_cons. by case_decide. Qed.

Lemma turns_app i s1 s2 : turns i (s1 ++ s2) = turns i s1 + turns i s2.
Proof. unfold turns. by rewrite filter_app, length_app. Qed.

Lemma turns_seq_from i a k :
  turns i (seq a k) = if decide (a ≤ i < a + k) then 1 else 0.
Proof.
  revert a. induction k as [|k IH]; intros a; simpl.
  - case_decide; [lia | done].
  - rewrite turns_cons, IH. repeat case_decide; lia.
Qed.

Lemma turns_seq i k : i < k → turns i (seq 0 k) = 1.
Proof. intros Hi. rewrite turns_seq_from. case_decide; [done | lia]. Qed.

Lemma turns_round_robin i n k : i < k → turns i (round_robin n k) = n.
Proof.
  intros Hi. unfold round_robin. induction n as [|n IH]; [done|].
  simpl. rewrite turns_app, turns_seq, IH by done. done.
Qed.

(** The process [i] after a schedule: it has used as many of its steps as
    the schedule gave it turns. *)
Lemma run_schedule_within s c i p n :
  c.2 !! i = Some p → within n p →
  ∃ p', (run_schedule s c).2 !! i = Some p' ∧ within (n - turns i s) p'.
Proof.
  revert c p n. induction s as [|j s IH]; intros c p n Hi Hp.
  { exists p. split; [done|]. by rewrite Nat.sub_0_r. }
  simpl. rewrite turns_cons. destruct (decide (i = j)) as [<-|Hne].
  - destruct (IH (sched_step c i) _ (pred n) (sched_step_self _ _ _ Hi)
                (within_step _ _ c.1 Hp)) as (p' & Hp' & Hw).
    exists p'. split; [done|]. by replace (n - (1 + turns i s)) with (pred n - turns i s) by lia.
  - destruct (IH (sched_step c j) p n) as (p' & Hp' & Hw); [|done|by exists p'].
    by rewrite sched_step_other.
Qed.

(** The step of a process that waits for the action [m]. *)
Lemma sched_step_await {A} c i (m : handler A) (k : A → Proc) a w' :
  c.2 !! i = Some (await m k) → m c.1 = (inr a, w') →
  sched_step c i = (w', <[i := k a]> c.2).
Proof. intros Hi Hm. unfold sched_step. rewrite Hi. simpl. by rewrite Hm. Qed.

Lemma sched_step_exit {A} c i (m : handler A) (k : A → Proc) o w' :
  c.2 !! i = Some (await m k) → m c.1 = (inl o, w') →
  sched_step c i = (w', <[i := Answer o]> c.2).
Proof. intros Hi Hm. unfold sched_step. rewrite Hi. simpl. by rewrite Hm. Qed.

(** A turn of a process that has answered changes nothing. *)
Lemma sched_step_answered c i o : c.2 !! i = Some (Answer o) → sched_step c i = c.
Proof.
  intros Hi. unfold sched_step. rewrite Hi. destruct c as [w ps]. simpl. f_equal.
  by apply list_insert_id.
Qed.

(** Processes that get no turn do not matter to those that do. *)
Lemma sched_step_app_l c ts' i :
  i < length c.2 →
  sched_step (c.1, c.2 ++ ts') i = ((sched_step c i).1, (sched_step c i).2 ++ ts').
Proof.
  intros Hi. unfold sched_step. simpl. rewrite lookup_app_l by done.
  destruct (c.2 !! i) as [p|]; [|done]. simpl. by rewrite insert_app_l.
Qed.

Lemma run_schedule_app_l s c ts' :
  Forall (λ i, i < length c.2) s →
  run_schedule s (c.1, c.2 ++ ts') = ((run_schedule s c).1, (run_schedule s c).2 ++ ts').
Proof.
  revert c. induction s as [|i s IH]; intros c Hs; [done|].
  apply Forall_cons in Hs as [Hi Hs]. simpl. rewrite sched_step_app_l by done.
  apply IH. by rewrite sched_step_length.
Qed.

Lemma serial_S n k : serial n (S k) = serial n k ++ replicate n k.
Proof. unfold serial. rewrite seq_S, bind_app. f_equal. simpl. apply app_nil_r. Qed.

Lemma serial_lt n k : Forall (λ i, i < k) (serial n k).
Proof.
  apply Forall_forall. intros i (j & [-> _]%elem_of_replicate & Hj%elem_of_seq)%list_elem_of_bind.
  lia.
Qed.

Lemma finish_all_snoc ts p w :
  finish_all (ts ++ [p]) w =
    ((finish_all ts w).1 ++ [(finish p (finish_all ts w).2).1],
     (finish p (finish_all ts w).2).2).
Proof.
  revert w. induction ts as [|q ts IH]; intros w; simpl.
  - by destruct (finish p w).
  - destruct (finish q w) as [o w']. rewrite IH. by destruct (finish_all ts w').
Qed.

Lemma finish_all_length ts w : length (finish_all ts w).1 = length ts.
Proof.
  revert w. induction ts as [|q ts IH]; intros w; simpl; [done|].
  destruct (finish q w) as [o w']. specialize (IH w'). destruct (finish_all ts w'). simpl in *.
  by rewrite IH.
Qed.

(** Requests served one after the other: each runs to its answer before
    the next starts. *)
Lemma serial_finishes n ts w :
  Forall (within n) ts →
  run_schedule (serial n (length ts)) (w, ts) =
    ((finish_all ts w).2, Answer <$> (finish_all ts w).1).
Proof.
  induction ts as [|p ts IH] using rev_ind; intros Hts; [done|].
  apply Forall_app in Hts as [Hts Hp]. inversion_clear Hp as [|? ? Hp' _].
  rewrite length_app, Nat.add_1_r, serial_S, run_schedule_app.
  rewrite (run_schedule_app_l _ (w, ts) [p]) by apply serial_lt.
  rewrite (IH Hts). cbn [fst snd].
  assert (length (Answer <$> (finish_all ts w).1) = length ts) as Hlen
    by (by rewrite length_fmap, finish_all_length).
  assert (((Answer <$> (finish_all ts w).1) ++ [p]) !! length ts = Some p) as Hk.
  { rewrite lookup_app_r by lia. by rewrite Hlen, Nat.sub_diag. }
  rewrite (run_alone n (length ts) (_, _) p Hk Hp'). cbn [fst snd].
  rewrite finish_all_snoc. cbn [fst snd]. f_equal.
  rewrite fmap_app. rewrite <-Hlen at 1.
  by rewrite insert_app_r_alt, Nat.sub_diag by lia.
Qed.

(** An answer is final. *)
Lemma sched_step_answer c i j o :
  c.2 !! i = Some (Answer o) → (sched_step c j).2 !! i = Some (Answer o).
Proof.
  intros Hi. destruct (decide (j = i)) as [->|Hne].
  - by rewrite (sched_step_self _ _ _ Hi).
  - by rewrite sched_step_other.
Qed.

Lemma run_schedule_answer s c i o :
  c.2 !! i = Some (Answer o) → (run_schedule s c).2 !! i = Some (Answer o).
Proof.
  revert c. induction s as [|j s IH]; intros c Hi; [done|].
  simpl. by apply IH, sched_step_answer.
Qed.

(** The answers of a process are those it can give, whatever runs in
    between. *)
Lemma run_schedule_answers_in (P : Outcome → Prop) s c i p o :
  c.2 !! i = Some p → answers_in P p →
  (run_schedule s c).2 !! i = Some (Answer o) → P o.
Proof.
  revert c p. induction s as [|j s IH]; intros c p Hi Hp; simpl.
  { rewrite Hi. intros [= ->]. by inversion Hp. }
  destruct (decide (j = i)) as [->|Hne].
  - apply (IH _ _ (sched_step_self _ _ _ Hi)), answers_in_step, Hp.
  - apply (IH _ p); [by rewrite sched_step_other | done].
Qed.

(** What every step of every process guarantees holds between the ends of
    a run. *)
Lemma sched_step_respects (R : relation World) `{!PreOrder R} c i :
  Forall (respects R) c.2 →
  R c.1 (sched_step c i).1 ∧ Forall (respects R) (sched_step c i).2.
Proof.
  intros Hts. unfold sched_step. destruct (c.2 !! i) as [p|] eqn:Hi; [|done].
  destruct (respects_step R p c.1 (Forall_lookup_1 _ _ _ _ Hts Hi)) as [HR Hp]; [done|].
  split; [done|]. by apply Forall_insert.
Qed.

Lemma run_schedule_pool_respects (R : relation World) `{!PreOrder R} s c :
  Forall (respects R) c.2 → Forall (respects R) (run_schedule s c).2.
Proof.
  revert c. induction s as [|i s IH]; intros c Hts; [done|].
  destruct (sched_step_respects R c i Hts) as [_ Hts']. by apply IH.
Qed.

Lemma run_schedule_respects (R : relation World) `{!PreOrder R} s c :
  Forall (respects R) c.2 → R c.1 (run_schedule s c).1.
Proof.
  revert c. induction s as [|i s IH]; intros c Hts; [done|].
  destruct (sched_step_respects R c i Hts) as [HR Hts']. simpl.
  etrans; [exact HR | by apply IH].
Qed.

(** What every process keeps of the stores in which it is resumed is kept
    by every run: an invariant of the stores that the steps of one request
    preserve, given what the request has read, holds after every
    interleaving of the requests. *)
Lemma sched_step_stable (R : relation World) `{!PreOrder R} (Inv : World → Prop) c i :
  Inv c.1 → Forall (respects R) c.2 → Forall (stable R Inv c.1) c.2 →
  Inv (sched_step c i).1 ∧ Forall (stable R Inv (sched_step c i).1) (sched_step c i).2.
Proof.
  intros Hw Hrs Hts. pose proof (sched_step_respects R c i Hrs) as [HR _].
  revert HR. unfold sched_step. destruct (c.2 !! i) as [p|] eqn:Hi; [|done]. simpl.
  intros HR. destruct (stable_step R Inv c.1 p Hw) as [Hw' Hp]; [done | |].
  { by eapply Forall_lookup_1. }
  split; [done|]. apply Forall_insert; [|by apply (stable_mono R Inv c.1)].
  eapply Forall_impl; [done|]. intros q. by apply (stable_mono R Inv).
Qed.

Lemma run_schedule_stable (R : relation World) `{!PreOrder R} (Inv : World → Prop) s c :
  Inv c.1 → Forall (respects R) c.2 → Forall (stable R Inv c.1) c.2 →
  Inv (run_schedule s c).1.
Proof.
  revert c. induction s as [|i s IH]; intros c Hw Hrs Hts; [done|].
  destruct (sched_step_stable R Inv c i Hw Hrs Hts) as [Hw' Hts'].
  destruct (sched_step_respects R c i Hrs) as [_ Hrs']. simpl. by apply IH.
Qed.

End pool.

(** ** Every request is answered *)

Section liveness.
Implicit Types (c : Config) (s : list nat) (n k : nat).

(** If every process of the pool answers within [n] steps and the schedule
    gives every process [n] turns at least, every request has been answered
    at the end of the schedule. *)
Theorem fair_schedule_answers n s c :
  Forall (within n) c.2 → (∀ i, i < length c.2 → n ≤ turns i s) →
  answered (run_schedule s c).2 = length c.2.
Proof.
  intros Hts Hfair. rewrite <-(run_schedule_length s c). apply answered_all.
  apply Forall_lookup. intros i p' Hi.
  assert (i < length c.2) as Hlt by (rewrite <-(run_schedule_length s c); by eapply lookup_lt_Some).
  destruct (lookup_lt_is_Some_2 _ _ Hlt) as [p Hp].
  destruct (run_schedule_within s c i p n Hp (Forall_lookup_1 _ _ _ _ Hts Hp)) as (p'' & Hp'' & Hw).
  simplify_eq. apply within_0. by replace (n - turns i s) with 0 in Hw by (specialize (Hfair i Hlt); lia).
Qed.

(** The round robin answers every request: the loop that serves the pool
    comes to an end. *)
Theorem round_robin_answers n c :
  Forall (within n) c.2 →
  answered (run_schedule (round_robin n (length c.2)) c).2 = length c.2.
Proof.
  intros Hts. apply (fair_schedule_answers n); [done|].
  intros i Hi. by rewrite turns_round_robin.
Qed.

End liveness.
