(* ===== verification/Footprint.v ===== *)
(** * Footprint: requests that do not meet

    Two requests in flight disturb each other only through what both
    touch.  A handler of [notes.controller.js] assigns one path of a note
    ([note.likes], [note.comments], [note.downloadCount],
    [note.archived]) and saves; a [Part] names such a path, or the rest of
    the document.  A [Footprint] names the parts of notes and the users a
    request reads and those it writes.  Two footprints are [independent]
    when neither writes what the other reads or writes.

    How much of a note a save touches depends on what [save()] writes.
    A [Granularity] gives the parts [touched c] that saving a copy changed
    at [c] reads and writes, and [Confining policy grain] says that it is
    true of a policy.  The granularity [coarse], under which a save
    touches the whole note, is true of every policy; [fine], under which
    it touches that part alone, is true of the policies that write the
    paths that were assigned ([PartLocal]: [modified_paths],
    [array_atomics]).

    [similar F p p'] relates two processes that do the same as far as [F]
    can tell: from stores that hold the same in the parts of [F]
    ([agree]), their steps lead to such stores and to similar processes,
    and change nothing outside what [F] writes ([frame]).  A process is
    [confined] to [F] when it is similar to itself.  The two copies of a
    note that a handler has read from stores that agree on [F] may differ
    outside [F]; this is why processes are compared by a relation and not
    by equality.  [agree F] is an equivalence on stores, [frame F] a
    preorder and [similar F] a partial equivalence; a step and a run of a
    process alone are morphisms for them ([proc_step_proper],
    [advance_proper]).

    The theorems are those of every pool whose processes are confined to
    pairwise independent footprints.  Whatever the schedule, a process is
    similar to what it would be after as many steps taken alone, and the
    parts of its footprint are what they would be then
    ([run_schedule_project]): the other requests cannot be observed.
    Hence every schedule that lets each request finish ends in the stores
    and the answers of the serial schedule ([independent_pool_serial]). *)

From S2P Require Import Prelude JsString Model Contract Eventloop.

Local Open Scope list_scope.

(** ** The parts of a note *)

(** The four paths that the handlers of [notes.controller.js] assign, and
    the rest of the document. *)
Inductive Part :=
| part_likes
| part_comments
| part_downloadCount
| part_archived
| part_rest.

#[export] Instance Part_eq_dec : EqDecision Part.
Proof. solve_decision. Defined.

#[export] Instance Part_countable : Countable Part.
Proof.
  refine (inj_countable'
    (λ c, match c with
          | part_likes => 0 | part_comments => 1 | part_downloadCount => 2
          | part_archived => 3 | part_rest => 4
          end)
    (λ n, match n with
          | 0 => part_likes | 1 => part_comments | 2 => part_downloadCount
          | 3 => part_archived | _ => part_rest
          end) _); by intros [].
Defined.

Definition all_parts : gset Part :=
  {[ part_likes; part_comments; part_downloadCount; part_archived; part_rest ]}.

(** What a part holds. *)
Definition PartVal (c : Part) : Type :=
  match c with
  | part_likes => list oid
  | part_comments => list Comment
  | part_downloadCount => nat
  | part_archived => bool
  | part_rest => Note
  end.

(** The document without the four paths. *)
Definition rest (n : Note) : Note :=
  set_likes [] (set_comments [] (set_downloadCount 0 (set_archived false n))).

Definition get_part (c : Part) : Note → PartVal c :=
  match c return Note → PartVal c with
  | part_likes => likes
  | part_comments => comments
  | part_downloadCount => downloadCount
  | part_archived => archived
  | part_rest => rest
  end.

Definition set_part (c : Part) : PartVal c → Note → Note :=
  match c return PartVal c → Note → Note with
  | part_likes => set_likes
  | part_comments => set_comments
  | part_downloadCount => set_downloadCount
  | part_archived => set_archived
  | part_rest => λ r n,
      set_likes (likes n) (set_comments (comments n)
        (set_downloadCount (downloadCount n) (set_archived (archived n) r)))
  end.

(** The parts [X] of the note [id]. *)
Definition parts (id : oid) (X : gset Part) : gset (oid * Part) := set_map (pair id) X.

(** ** What a save touches *)

(** The policies under which saving a copy that was changed at one part
    writes that part, from what the copy and the stored document hold
    there, and leaves the others as they are stored. *)
Class PartLocal (policy : SavePolicy) := {
  merge c : PartVal c → PartVal c → PartVal c → PartVal c;
  save_part c loaded v stored :
    save_note loaded (set_part c v loaded) stored =
      set_part c (merge c (get_part c loaded) v (get_part c stored)) stored;
}.

(** [touched c]: the parts of a note that saving a copy changed at [c]
    depends on and may change. *)
Class Granularity := touched : Part → gset Part.

(** A save touches the whole note. *)
Definition coarse : Granularity := λ _, all_parts.

(** A save touches the assigned part alone. *)
Definition fine : Granularity := λ c, {[ c ]}.

(** The policies of which a granularity is true: what a save writes to
    the parts it touches is determined by what the copy and the stored
    document hold there, and the other parts stay as they are stored. *)
Class Confining (policy : SavePolicy) (grain : Granularity) := {
  touched_self c : c ∈ touched c;
  save_touched c l l' v s s' x :
    (∀ y, y ∈ touched c → get_part y l = get_part y l') →
    (∀ y, y ∈ touched c → get_part y s = get_part y s') →
    x ∈ touched c →
    get_part x (save_note l (set_part c v l) s) =
      get_part x (save_note l' (set_part c v l') s');
  save_frame c l v s x :
    x ∉ touched c → get_part x (save_note l (set_part c v l) s) = get_part x s;
}.

(** ** Footprints *)

(** The parts of notes and the users a request reads and those it
    writes. *)
Record Footprint := mkFootprint {
  note_reads : gset (oid * Part);
  note_writes : gset (oid * Part);
  user_reads : gset oid;
  user_writes : gset oid;
}.

(** What the request depends on: what it reads or writes. *)
Definition note_deps (F : Footprint) : gset (oid * Part) := note_reads F ∪ note_writes F.

Definition user_deps (F : Footprint) : gset oid := user_reads F ∪ user_writes F.

(** [agree F w w']: the stores hold the same where [F] reads or writes. *)
Definition agree (F : Footprint) (w w' : World) : Prop :=
  (∀ id c, (id, c) ∈ note_deps F →
     get_part c <$> notes w !! id = get_part c <$> notes w' !! id) ∧
  (∀ id, id ∈ user_deps F → users w !! id = users w' !! id).

(** [frame F w w']: from [w] to [w'] nothing has changed but what [F]
    writes. *)
Definition frame (F : Footprint) (w w' : World) : Prop :=
  (∀ id c, (id, c) ∉ note_writes F →
     get_part c <$> notes w' !! id = get_part c <$> notes w !! id) ∧
  (∀ id, id ∉ user_writes F → users w' !! id = users w !! id) ∧
  assets w' = assets w ∧ calls w' = calls w ∧ next_oid w' = next_oid w.

(** Neither writes what the other reads or writes. *)
Definition independent (F G : Footprint) : Prop :=
  note_writes F ## note_deps G ∧ note_writes G ## note_deps F ∧
  user_writes F ## user_deps G ∧ user_writes G ## user_deps F.

(** The footprints of a pool are pairwise independent. *)
Fixpoint separate (Fs : list Footprint) : Prop :=
  match Fs with
  | [] => True
  | F :: Fs => Forall (independent F) Fs ∧ separate Fs
  end.

(** Everything the requests of a pool write. *)
Definition covers (Fs : list Footprint) : Footprint :=
  {| note_reads := ∅; note_writes := ⋃ (note_writes <$> Fs);
     user_reads := ∅; user_writes := ⋃ (user_writes <$> Fs) |}.

(** Two actions of the handler monad that do the same as far as [F] can
    tell: from stores that agree on [F] both fail with the same answer or
    return values related by [R], they lead to stores that agree on [F],
    and they change what [F] writes only. *)
Definition confines {A} (F : Footprint) (R : relation A) (m m' : handler A) : Prop :=
  (∀ w w', agree F w w' →
     sum_relation eq R (m w).1 (m' w').1 ∧ agree F (m w).2 (m' w').2) ∧
  (∀ w, frame F w (m w).2) ∧ (∀ w, frame F w (m' w).2).

(** Two processes that do the same as far as [F] can tell, step after
    step. *)
Inductive similar (F : Footprint) : relation Proc :=
| similar_Answer o : similar F (Answer o) (Answer o)
| similar_Await next effect next' effect' :
    (∀ w w', agree F w w' → similar F (next w) (next' w')) →
    (∀ w w', agree F w w' → agree F (effect w) (effect' w')) →
    (∀ w, frame F w (effect w)) →
    (∀ w, frame F w (effect' w)) →
    similar F (Await next effect) (Await next' effect').

(** A process that stays within [F]. *)
Definition confined (F : Footprint) (p : Proc) : Prop := similar F p p.

(** The process and the stores after [k] steps of the process alone. *)
Fixpoint advance (k : nat) (p : Proc) (w : World) : Proc * World :=
  match k with
  | 0 => (p, w)
  | S k => advance k (proc_step p w).1 (proc_step p w).2
  end.

#[export] Instance independent_dec F G : Decision (independent F G).
Proof. unfold independent. apply _. Defined.

#[export] Instance separate_dec Fs : Decision (separate Fs).
Proof. induction Fs; simpl; apply _. Defined.

(** ** The parts *)

Section parts.
Implicit Types (c x : Part) (n : Note) (id : oid).

Lemma elem_of_all_parts c : c ∈ all_parts.
Proof. destruct c; unfold all_parts; set_solver. Qed.

Lemma elem_of_parts id id' c (X : gset Part) : (id', c) ∈ parts id X ↔ id' = id ∧ c ∈ X.
Proof. unfold parts. rewrite elem_of_map. naive_solver. Qed.

(** A note is its parts. *)
Lemma note_parts_eq n n' : (∀ c, get_part c n = get_part c n') → n = n'.
Proof.
  intros H. pose proof (H part_likes). pose proof (H part_comments).
  pose proof (H part_downloadCount). pose proof (H part_archived).
  pose proof (H part_rest) as Hr. destruct n, n'. by simplify_eq/=.
Qed.

Lemma note_parts_opt (a b : option Note) :
  (∀ c, get_part c <$> a = get_part c <$> b) → a = b.
Proof.
  destruct a as [n|], b as [n'|]; intros H; try done;
    [|by specialize (H part_rest)..].
  f_equal. apply note_parts_eq. intros c. by specialize (H c) as [= ?].
Qed.

(** Assigning a part leaves the other parts alone, and what it holds
    afterwards does not depend on the document. *)
Lemma get_set_part_ne c x v n : x ≠ c → get_part x (set_part c v n) = get_part x n.
Proof. by destruct c, x. Qed.

Lemma get_set_part c v n n' : get_part c (set_part c v n) = get_part c (set_part c v n').
Proof. by destruct c. Qed.

End parts.

(** ** The granularities *)

(** Whatever the policy, a save depends on the whole note and may change
    all of it. *)
#[export] Instance coarse_confining policy : Confining policy coarse.
Proof.
  split.
  - intros c. apply elem_of_all_parts.
  - intros c l l' v s s' x Hl Hs _.
    rewrite (note_parts_eq l l'), (note_parts_eq s s'); [done|..];
      intros y; [apply Hs | apply Hl]; apply elem_of_all_parts.
  - intros c l v s x []. apply elem_of_all_parts.
Qed.

(** Under a policy that writes the assigned part, a save depends on that
    part and changes nothing else. *)
#[export] Instance fine_confining policy `{!PartLocal policy} : Confining policy fine.
Proof.
  split.
  - intros c. by apply elem_of_singleton.
  - intros c l l' v s s' x Hl Hs ->%elem_of_singleton.
    rewrite !save_part, (Hl c), (Hs c) by (by apply elem_of_singleton). apply get_set_part.
  - intros c l v s x Hx. rewrite save_part. apply get_set_part_ne.
    intros ->. by apply Hx, elem_of_singleton.
Qed.

#[export] Instance modified_paths_local : PartLocal modified_paths.
Proof.
  refine {| merge c :=
    match c return PartVal c → PartVal c → PartVal c → PartVal c with
    | part_likes => path | part_comments => path | part_downloadCount => path
    | part_archived => path | part_rest => note_paths
    end |}.
  intros c l v s. change (@save_note modified_paths) with note_paths.
  destruct c, l, s; try destruct v; unfold note_paths; simpl; by rewrite !path_unchanged.
Qed.

#[export] Instance array_atomics_local : PartLocal array_atomics.
Proof.
  refine {| merge c :=
    match c return PartVal c → PartVal c → PartVal c → PartVal c with
    | part_likes => array_path | part_comments => array_path
    | part_downloadCount => path | part_archived => path | part_rest => note_paths
    end |}.
  intros c l v s. change (@save_note array_atomics) with note_atomics.
  destruct c, l, s; try destruct v; unfold note_atomics, note_paths; simpl;
    by rewrite ?path_unchanged, ?array_path_unchanged.
Qed.

(** ** The relations *)

Section relations.
Implicit Types (F G : Footprint) (w : World).

#[export] Instance agree_equivalence F : Equivalence (agree F).
Proof.
  split.
  - by intros w.
  - intros w w' [Hn Hu]. split; intros; symmetry; auto.
  - intros w1 w2 w3 [Hn1 Hu1] [Hn2 Hu2].
    split; intros; [rewrite Hn1 by done; by apply Hn2 | rewrite Hu1 by done; by apply Hu2].
Qed.

#[export] Instance frame_preorder F : PreOrder (frame F).
Proof.
  split; [by intros w|].
  intros w1 w2 w3 (Hn1 & Hu1 & ? & ? & ?) (Hn2 & Hu2 & ? & ? & ?).
  split_and!; [| |congruence..].
  - intros id c Hid. by rewrite Hn2, Hn1.
  - intros id Hid. by rewrite Hu2, Hu1.
Qed.

#[export] Instance independent_symmetric : Symmetric independent.
Proof. intros F G (? & ? & ? & ?). by split_and!. Qed.

(** What [agree F] observes. *)
Lemma agree_part F id c w w' :
  agree F w w' → (id, c) ∈ note_deps F →
  get_part c <$> notes w !! id = get_part c <$> notes w' !! id.
Proof. intros [Hn _]. apply Hn. Qed.

Lemma agree_note F id w w' :
  agree F w w' → parts id all_parts ⊆ note_deps F → notes w !! id = notes w' !! id.
Proof.
  intros Hw Hid. apply note_parts_opt. intros c. apply (agree_part F id c w w' Hw), Hid.
  apply elem_of_parts. split; [done | apply elem_of_all_parts].
Qed.

Lemma agree_user F id w w' :
  agree F w w' → id ∈ user_deps F → users w !! id = users w' !! id.
Proof. intros [_ Hu]. apply Hu. Qed.

(** A change within [F] is not seen from an independent footprint. *)
Lemma frame_agree F G w w' : independent F G → frame F w w' → agree G w w'.
Proof.
  intros (Hn & _ & Hu & _) (Hfn & Hfu & _).
  split; intros; symmetry; [apply Hfn | apply Hfu]; set_solver.
Qed.

Lemma frame_covers F Fs w w' : F ∈ Fs → frame F w w' → frame (covers Fs) w w'.
Proof.
  intros HF (Hn & Hu & ? & ? & ?). split_and!; [| |done..].
  - intros id c Hid. apply Hn. intros Hin. apply Hid. simpl. apply elem_of_union_list.
    exists (note_writes F). split; [by apply list_elem_of_fmap_2 | done].
  - intros id Hid. apply Hu. intros Hin. apply Hid. simpl. apply elem_of_union_list.
    exists (user_writes F). split; [by apply list_elem_of_fmap_2 | done].
Qed.

Lemma separate_lookup Fs i j F G :
  separate Fs → Fs !! i = Some F → Fs !! j = Some G → i ≠ j → independent F G.
Proof.
  revert i j. induction Fs as [|H Fs IH]; intros i j Hsep Hi Hj Hne;
    [by rewrite lookup_nil in Hi|].
  destruct Hsep as [Hall Hsep]. rewrite Forall_forall in Hall.
  destruct i as [|i], j as [|j]; simplify_eq/=.
  - by eapply Hall, list_elem_of_lookup_2.
  - symmetry. by eapply Hall, list_elem_of_lookup_2.
  - eapply (IH i j); eauto.
Qed.

Lemma world_eq w1 w2 :
  notes w1 = notes w2 → users w1 = users w2 → assets w1 = assets w2 →
  calls w1 = calls w2 → next_oid w1 = next_oid w2 → w1 = w2.
Proof. destruct w1, w2. simpl. by intros -> -> -> -> ->. Qed.

(** Stores that agree with one another where something was written and
    have changed nowhere else are the same. *)
Lemma frame_agree_eq Fs w w1 w2 :
  frame (covers Fs) w w1 → frame (covers Fs) w w2 →
  Forall (λ F, agree F w1 w2) Fs → w1 = w2.
Proof.
  intros (Hn & Hu & ? & ? & ?) (Hn' & Hu' & ? & ? & ?) Hall. rewrite Forall_forall in Hall.
  apply world_eq; [| |congruence..]; apply map_eq; intros id.
  - apply note_parts_opt. intros c.
    destruct (decide ((id, c) ∈ note_writes (covers Fs))) as [Hin|Hout];
      [|by rewrite Hn, Hn'].
    apply elem_of_union_list in Hin as (X & (F & -> & HF)%list_elem_of_fmap & Hid).
    apply (agree_part F id c _ _ (Hall F HF)). unfold note_deps. set_solver.
  - destruct (decide (id ∈ user_writes (covers Fs))) as [Hin|Hout];
      [|by rewrite Hu, Hu'].
    apply elem_of_union_list in Hin as (X & (F & -> & HF)%list_elem_of_fmap & Hid).
    apply (agree_user F id _ _ (Hall F HF)). unfold user_deps. set_solver.
Qed.

End relations.

(** ** One process *)

Section process.
Implicit Types (F : Footprint) (p q : Proc) (w : World) (k n : nat).

#[export] Instance similar_symmetric F : Symmetric (similar F).
Proof.
  intros p q Hpq. induction Hpq as [|? ? ? ? _ IH He Hf Hf']; constructor; try done.
  - intros w w' Hw. by apply IH.
  - intros w w' Hw. symmetry. by apply He.
Qed.

#[export] Instance similar_transitive F : Transitive (similar F).
Proof.
  intros p q r Hpq. revert r.
  induction Hpq as [|? ? ? ? _ IH He Hf Hf']; intros r Hqr; [done|].
  inversion Hqr as [|? ? next'' effect'' Hn' He' _ Hf'']; subst. constructor; try done.
  - intros w w' Hw. apply (IH w w' Hw). by apply Hn'.
  - intros w w' Hw. trans (effect' w'); [by apply He | by apply He'].
Qed.

Lemma similar_await {A} F (R : relation A) (m m' : handler A) (k k' : A → Proc) :
  confines F R m m' → (∀ a a', R a a' → similar F (k a) (k' a')) →
  similar F (await m k) (await m' k').
Proof.
  intros (Hm & Hf & Hf') Hk. constructor; [| |done..].
  - intros w w' Hw. destruct (Hm w w' Hw) as [Ha _].
    destruct Ha as [? ? <-|a a' Ha]; [constructor | by apply Hk].
  - intros w w' Hw. by apply Hm.
Qed.

(** A handler that only reads, taken as one step. *)
Lemma confined_atomic F (h : World → Outcome * World) `{!ReadOnly h} :
  (∀ w w', agree F w w' → (h w).1 = (h w').1) → confined F (atomic h).
Proof.
  intros Hh. constructor; [| |intros w; by rewrite read_only..].
  - intros w w' Hag. rewrite (Hh w w' Hag). constructor.
  - intros w w' Hag. by rewrite !read_only.
Qed.

(** A step of similar processes from stores that agree leads to similar
    processes and to stores that agree. *)
#[export] Instance proc_step_proper F :
  Proper (similar F ==> agree F ==> prod_relation (similar F) (agree F)) proc_step.
Proof.
  intros p q [o|? ? ? ? Hn He _ _] w w' Hw; split; simpl; auto. constructor.
Qed.

(** A step of a confined process changes what [F] writes only. *)
Lemma confined_step F p w :
  confined F p → confined F (proc_step p w).1 ∧ frame F w (proc_step p w).2.
Proof.
  intros Hp. split; [by apply proc_step_proper|].
  inversion Hp; simpl; [reflexivity | done].
Qed.

Lemma confined_respects F p : confined F p → respects (frame F) p.
Proof.
  unfold confined. generalize p at 1. intros q Hp.
  induction Hp as [|? ? ? ? _ IH _ _ Hf]; constructor; [done|].
  intros w. by apply (IH w w).
Qed.

Lemma similar_Answer_inv F p o : similar F p (Answer o) → p = Answer o.
Proof. by inversion 1. Qed.

Lemma advance_Answer k o w : advance k (Answer o) w = (Answer o, w).
Proof. by induction k. Qed.

(** Taken alone, similar processes stay similar from stores that agree on
    the footprint. *)
#[export] Instance advance_proper F k :
  Proper (similar F ==> agree F ==> prod_relation (similar F) (agree F)) (advance k).
Proof.
  induction k as [|k IH]; intros p q Hp w w' Hw; [done|]. simpl.
  destruct (proc_step_proper F p q Hp w w' Hw). by apply IH.
Qed.

(** After as many steps as it needs, the process has its answer. *)
Lemma advance_finish n k p w :
  within n p → n ≤ k → advance k p w = (Answer (finish p w).1, (finish p w).2).
Proof.
  revert n p w. induction k as [|k IH]; intros n p w Hp Hle.
  - replace n with 0 in Hp by lia. by apply within_0 in Hp as [o ->].
  - destruct p as [o|next effect]; [by rewrite advance_Answer|]. simpl.
    apply (IH (pred n)); [exact (within_step n _ w Hp) | lia].
Qed.

End process.

#[export] Hint Constructors similar : sphere.

(** ** A pool of independent requests *)

Section pool.
Implicit Types (F : Footprint) (Fs : list Footprint) (p q : Proc) (ts : list Proc)
  (w : World) (s : list nat) (i j k n : nat).

Lemma confined_insert Fs ts j F q w :
  Forall2 confined Fs ts → Fs !! j = Some F → ts !! j = Some q →
  Forall2 confined Fs (<[j := (proc_step q w).1]> ts).
Proof.
  intros Hall HF Hq. rewrite <-(list_insert_id Fs j F HF).
  apply Forall2_insert; [done|]. apply confined_step.
  by eapply Forall2_lookup_lr.
Qed.

(** Whatever the schedule, a request of a pool of independent requests is
    similar to what it would be after as many steps taken alone, and so
    are the parts of its footprint. *)
Lemma run_schedule_project s w Fs ts i F p :
  Forall2 confined Fs ts → separate Fs → Fs !! i = Some F → ts !! i = Some p →
  ∃ q, (run_schedule s (w, ts)).2 !! i = Some q ∧
       similar F q (advance (turns i s) p w).1 ∧
       agree F (run_schedule s (w, ts)).1 (advance (turns i s) p w).2.
Proof.
  revert w ts p. induction s as [|j s IH]; intros w ts p Hall Hsep HF Hp.
  { exists p. split_and!; [done| |reflexivity]. exact (Forall2_lookup_lr _ _ _ _ _ _ Hall HF Hp). }
  rewrite turns_cons.
  change (run_schedule (j :: s) (w, ts)) with (run_schedule s (sched_step (w, ts) j)).
  destruct (ts !! j) as [r|] eqn:Hr.
  2: { assert (sched_step (w, ts) j = (w, ts)) as ->
         by (unfold sched_step; simpl; by rewrite Hr).
       rewrite decide_False by (intros ->; congruence). by apply IH. }
  assert (sched_step (w, ts) j = ((proc_step r w).2, <[j:=(proc_step r w).1]> ts)) as ->
    by (unfold sched_step; simpl; by rewrite Hr).
  destruct (Forall2_lookup_r _ _ _ _ _ Hall Hr) as (G & HG & Hconf).
  pose proof (confined_insert Fs ts j G r w Hall HG Hr) as Hall'.
  destruct (decide (i = j)) as [->|Hne].
  - simplify_eq. apply (IH _ _ _ Hall' Hsep HF).
    apply list_lookup_insert_eq. by eapply lookup_lt_Some.
  - destruct (IH (proc_step r w).2 _ p Hall' Hsep HF) as (q & Hq & Hsim & Hw).
    { by rewrite list_lookup_insert_ne. }
    assert (agree F (proc_step r w).2 w) as Hag.
    { symmetry. eapply frame_agree; [by eapply (separate_lookup Fs j i)|].
      by apply confined_step. }
    pose proof (Forall2_lookup_lr _ _ _ _ _ _ Hall HF Hp) as Hconf'.
    destruct (advance_proper F (turns i s) p p Hconf' _ _ Hag) as [Hsim' Hag'].
    rewrite Nat.add_0_l. exists q. split_and!; [done|by etrans..].
Qed.

(** A request that has had its turns has the answer it gives alone, and
    the parts of its footprint are as it leaves them alone. *)
Lemma run_schedule_complete n s w Fs ts i F p :
  Forall2 confined Fs ts → separate Fs → Fs !! i = Some F → ts !! i = Some p →
  within n p → n ≤ turns i s →
  (run_schedule s (w, ts)).2 !! i = Some (Answer (finish p w).1) ∧
  agree F (run_schedule s (w, ts)).1 (finish p w).2.
Proof.
  intros Hall Hsep HF Hp Hin Hs.
  destruct (run_schedule_project s w Fs ts i F p Hall Hsep HF Hp) as (q & Hq & Hsim & Hw).
  rewrite (advance_finish n _ p w Hin Hs) in Hsim, Hw.
  by apply similar_Answer_inv in Hsim as ->.
Qed.

(** Nothing but what the requests write is changed. *)
Lemma run_schedule_frame s w Fs ts :
  Forall2 confined Fs ts → frame (covers Fs) w (run_schedule s (w, ts)).1.
Proof.
  intros Hall. apply (run_schedule_respects (frame (covers Fs)) s (w, ts)). simpl.
  apply Forall_forall. intros p Hp. apply list_elem_of_lookup_1 in Hp as [i Hi].
  destruct (Forall2_lookup_r _ _ _ _ _ Hall Hi) as (F & HF & Hconf).
  apply (respects_weaken (frame F)); [|by apply confined_respects].
  intros w1 w2. by apply frame_covers, list_elem_of_lookup_2 with i.
Qed.

Lemma turns_replicate i j n : turns i (replicate n j) = if decide (i = j) then n else 0.
Proof.
  induction n as [|n IH]; simpl; [by case_decide|].
  rewrite turns_cons, IH. case_decide; lia.
Qed.

Lemma turns_serial i n k : i < k → turns i (serial n k) = n.
Proof.
  induction k as [|k IH]; intros Hi; [lia|].
  rewrite serial_S, turns_app, turns_replicate.
  destruct (decide (i = k)) as [->|Hne]; [|rewrite IH by lia; lia].
  assert (∀ m, m ≤ k → turns k (serial n m) = 0) as Hzero; [|rewrite Hzero; lia].
  induction m as [|m IHm]; intros Hm; [done|].
  rewrite serial_S, turns_app, turns_replicate, IHm, decide_False by lia. done.
Qed.

End pool.

(** ** Properties *)

Section properties.
Implicit Types (F : Footprint) (Fs : list Footprint) (ts : list Proc) (w : World)
  (s : list nat) (n : nat).

(** Two schedules that let every request of a pool of independent requests
    finish end in the same stores with the same answers. *)
Lemma independent_pool_confluent n s s' w Fs ts :
  Forall2 confined Fs ts → separate Fs → Forall (within n) ts →
  (∀ i, i < length ts → n ≤ turns i s) → (∀ i, i < length ts → n ≤ turns i s') →
  run_schedule s (w, ts) = run_schedule s' (w, ts).
Proof.
  intros Hall Hsep Hin Hs Hs'.
  assert (∀ i F p s0, Fs !! i = Some F → ts !! i = Some p →
    (∀ i, i < length ts → n ≤ turns i s0) →
    (run_schedule s0 (w, ts)).2 !! i = Some (Answer (finish p w).1) ∧
    agree F (run_schedule s0 (w, ts)).1 (finish p w).2) as Hdone.
  { intros i F p s0 HF Hp Hs0. apply (run_schedule_complete n _ _ Fs); try done;
      [by eapply Forall_lookup_1 | by eapply Hs0, lookup_lt_Some]. }
  apply injective_projections; cycle 1.
  - apply list_eq. intros i. destruct (ts !! i) as [p|] eqn:Hp.
    + destruct (Forall2_lookup_r _ _ _ _ _ Hall Hp) as (F & HF & _).
      destruct (Hdone i F p s HF Hp Hs) as [-> _].
      by destruct (Hdone i F p s' HF Hp Hs') as [-> _].
    + apply lookup_ge_None in Hp.
      by rewrite !(proj2 (lookup_ge_None _ _)) by (by rewrite run_schedule_length).
  - apply (frame_agree_eq Fs w); [by apply run_schedule_frame..|].
    apply Forall_forall. intros F [i HF]%list_elem_of_lookup_1.
    destruct (Forall2_lookup_l _ _ _ _ _ Hall HF) as (p & Hp & _).
    destruct (Hdone i F p s HF Hp Hs) as [_ Hag].
    destruct (Hdone i F p s' HF Hp Hs') as [_ Hag']. by etrans.
Qed.

(** Every schedule that lets each request of a pool of independent
    requests finish ends where the requests served one after the other
    end, answers included. *)
Theorem independent_pool_serial n s w Fs ts :
  Forall2 confined Fs ts → separate Fs → Forall (within n) ts →
  (∀ i, i < length ts → n ≤ turns i s) →
  run_schedule s (w, ts) = ((finish_all ts w).2, Answer <$> (finish_all ts w).1).
Proof.
  intros Hall Hsep Hin Hs. rewrite <-(serial_finishes n ts w Hin).
  apply (independent_pool_confluent n _ _ w Fs ts); try done.
  intros i Hi. by rewrite turns_serial.
Qed.

End properties.
