(* ===== verification/Cloudinary.v ===== *)
(** * Cloudinary: the object store adapter

    When [controllers/uploading.controller.js] is loaded it reads the
    [.env] file ([dotenv_config]), checks that the three [CLOUDINARY_*]
    variables of the environment are set and configures the client
    ([configure]); the module throws, and the server does not start, when
    one is missing or empty.  It then pings Cloudinary and writes the
    outcome to the console ([ping_report]); [load_module] is the whole.

    The controller talks to Cloudinary in three
    places: the multer configuration that filters uploads by MIME type and
    size ([fileFilter], [upload]), the helper [uploadToCloudinary] that
    streams a buffer under a public id of the form
    [notes/<time>-<file name>], and the calls [cloudinary.uploader.destroy]
    in [deleteNotes] and [updateNotes], which name the object by
    [fileUrl.split('/').pop().split('.')[0]].

    Cloudinary itself is outside the sources.  Its contract is modelled from
    the specification: [upload_stream] stores the buffer under the public id
    (overwriting) and answers with a locator on [res.cloudinary.com] that
    ends in the public id and the format; [destroy] removes the object with
    exactly the given public id and succeeds whether or not there is one.
    Whether a call is accepted is decided by [Env].  Every call is logged in
    [calls].

    The theorems: the id computed for [destroy] never contains a slash or a
    dot, the id used by [uploadToCloudinary] always starts with [notes/], so
    a destroy call made by the controllers never removes an object that
    [uploadToCloudinary] stored. *)

From Stdlib Require Import Ascii.
From stdpp Require Import pretty.
From S2P Require Import Prelude JsString Model Contract.

Local Open Scope string_scope.
Local Open Scope list_scope.
Local Open Scope handler_scope.

(** ** Start-up *)

(** The three variables of [process.env] that the module reads when it is
    loaded. *)
Record ProcessEnv := mkProcessEnv {
  CLOUDINARY_CLOUD_NAME : option string;
  CLOUDINARY_API_KEY : option string;
  CLOUDINARY_API_SECRET : option string;
}.

(** The argument of [cloudinary.config]. *)
Record CloudinaryConfig := mkCloudinaryConfig {
  cloud_name : string;
  api_key : string;
  api_secret : string;
  secure : bool;
}.

(** Loading the module: it throws when one of the variables is missing or
    empty, and configures the client otherwise.  The [ping] that follows
    only logs its outcome. *)
Definition configure (penv : ProcessEnv) : JsError + CloudinaryConfig :=
  if negb (truthy_opt (CLOUDINARY_CLOUD_NAME penv)) ||
     negb (truthy_opt (CLOUDINARY_API_KEY penv)) ||
     negb (truthy_opt (CLOUDINARY_API_SECRET penv))
  then inl (new_Error "Missing Cloudinary configuration in environment variables")
  else inr {| cloud_name := default "" (CLOUDINARY_CLOUD_NAME penv);
              api_key := default "" (CLOUDINARY_API_KEY penv);
              api_secret := default "" (CLOUDINARY_API_SECRET penv);
              secure := true |}.

(** [dotenv.config()]: the variables of the [.env] file are added to
    those of the process; a variable the process defines, empty or not, is
    kept. *)
Definition dotenv_config (file penv : ProcessEnv) : ProcessEnv :=
  {| CLOUDINARY_CLOUD_NAME := CLOUDINARY_CLOUD_NAME penv ∪ CLOUDINARY_CLOUD_NAME file;
     CLOUDINARY_API_KEY := CLOUDINARY_API_KEY penv ∪ CLOUDINARY_API_KEY file;
     CLOUDINARY_API_SECRET := CLOUDINARY_API_SECRET penv ∪ CLOUDINARY_API_SECRET file |}.

(** A line written to the console, by [console.log] or by
    [console.error] with the error it is given. *)
Inductive ConsoleLine :=
| console_log (msg : string)
| console_error (msg err : string).

(** [cloudinary.api.ping()] with its [then] and its [catch]: the outcome
    of the ping is written to the console and goes nowhere else. *)
Definition ping_report (ping : Settled unit) : ConsoleLine :=
  match ping with
  | Resolved _ => console_log "✅ Cloudinary connected successfully"
  | Rejected err => console_error "❌ Cloudinary connection failed:" err
  end.

(** Loading the module, from [dotenv.config()] to the ping: the error it
    throws, or the configuration of the client and the line the ping
    writes once it has settled. *)
Definition load_module (file penv : ProcessEnv) (ping : Settled unit) :
    JsError + CloudinaryConfig * ConsoleLine :=
  match configure (dotenv_config file penv) with
  | inl e => inl e
  | inr config => inr (config, ping_report ping)
  end.

(** ** Upload filter and limits (multer) *)

Definition allowedTypes : list string :=
  [ "application/pdf";
    "application/msword";
    "application/vnd.openxmlformats-officedocument.wordprocessingml.document";
    "image/jpeg";
    "image/png" ].

(** [fileFilter]: [cb(null, true)] is [inr tt], [cb(new Error(..), false)]
    is [inl] of the error. *)
Definition fileFilter (file : File) : JsError + unit :=
  if bool_decide (mimetype file ∈ allowedTypes) then inr tt
  else inl (new_Error
    "Invalid file type. Only PDF, DOC, DOCX, JPG, and PNG files are allowed").

(** [limits.fileSize]. *)
Definition fileSize_limit : N := 25 * 1024 * 1024.

(** [uploadMiddleware = upload.single('file')]: given the file part of the
    request, if any, either an error for [next] or the value of
    [req.file].  multer consults the filter when the part starts and the
    size limit while it reads it. *)
Definition uploadMiddleware (part : option File) : JsError + option File :=
  match part with
  | None => inr None
  | Some file =>
      match fileFilter file with
      | inl e => inl e
      | inr _ =>
          if bool_decide (N.of_nat (length (buffer file)) ≤ fileSize_limit)%N
          then inr (Some file)
          else inl (new_Error "File too large")
      end
  end.

(** ** File names (Node's [path] module, POSIX flavour) *)

(** The last non-empty segment of a path. *)
Definition path_base (p : string) : string :=
  default "" (last (filter (λ s, s ≠ "") (split "/" p))).

(** [split_ext s]: [s] cut at its last dot, the dot going to the second
    part; the second part is empty when [s] has no dot. *)
Fixpoint split_ext (s : string) : string * string :=
  match s with
  | EmptyString => (EmptyString, EmptyString)
  | String a s' =>
      let '(stem, ext) := split_ext s' in
      if truthy ext then (String a stem, ext)
      else if bool_decide (a = "."%char) then (EmptyString, String a s')
      else (String a stem, EmptyString)
  end.

(** [path.extname(p)]: from the last dot of the base name on; empty when
    there is no dot, when the only dot leads the name, or for [..]. *)
Definition path_extname (p : string) : string :=
  let base := path_base p in
  let '(stem, ext) := split_ext base in
  if bool_decide (stem = "") || bool_decide (base = "..") then "" else ext.

(** [path.parse(p).name]: the base name without its extension. *)
Definition path_name (p : string) : string :=
  let base := path_base p in
  if truthy (path_extname p) then (split_ext base).1 else base.

(** [s.substring(1)]. *)
Definition substring1 (s : string) : string :=
  match s with EmptyString => EmptyString | String _ r => r end.

(** ** The Cloudinary contract *)

Record UploadResult := mkUploadResult {
  secure_url : string;
  public_id : string;
}.

(** The locator Cloudinary answers with. *)
Definition secure_url_of (public_id format : string) : string :=
  "https://res.cloudinary.com/demo/raw/upload/v1/" +:+ public_id +:+ "." +:+ format.

Definition log_call (c : CloudCall) (w : World) : World :=
  {| notes := notes w; users := users w; assets := assets w;
     calls := calls w ++ [c]; next_oid := next_oid w |}.

Definition set_assets (f : gmap string Asset → gmap string Asset) (w : World) : World :=
  {| notes := notes w; users := users w; assets := f (assets w);
     calls := calls w; next_oid := next_oid w |}.

(** [cloudinary.uploader.upload_stream(options, callback)] followed by
    [end(buffer)], with [overwrite: true]: [Rejected message] when the
    callback receives an error and [Resolved result] otherwise. *)
Definition upload_stream (public_id format : string) (fileBuffer : list Byte.byte)
    (env : Env) : handler (Settled UploadResult) :=
  modify (log_call (CallUpload public_id)) ;;;
  match upload_error env with
  | Some m => ret (Rejected m)
  | None =>
      modify (set_assets <[public_id := mkAsset fileBuffer format]>) ;;;
      ret (Resolved {| secure_url := secure_url_of public_id format;
                       public_id := public_id |})
  end.

(** [cloudinary.uploader.destroy(publicId)]. *)
Definition destroy (publicId : string) (env : Env) : handler (Settled unit) :=
  modify (log_call (CallDestroy publicId)) ;;;
  match destroy_error env with
  | Some m => ret (Rejected m)
  | None => modify (set_assets (delete publicId)) ;;; ret (Resolved tt)
  end.

(** ** The adapter code of the controller *)

(** The public id [uploadToCloudinary] chooses. *)
Definition upload_public_id (env : Env) (originalname : string) : string :=
  "notes/" +:+ pretty (now env) +:+ "-" +:+ path_name originalname.

(** The format [uploadToCloudinary] asks for. *)
Definition upload_format (originalname : string) : string :=
  js_or (Some (substring1 (path_extname originalname))) "pdf".

(** [uploadToCloudinary(fileBuffer, originalname)]: the promise settles
    with the callback's arguments. *)
Definition uploadToCloudinary (fileBuffer : list Byte.byte) (originalname : string)
    (env : Env) : handler (Settled UploadResult) :=
  upload_stream (upload_public_id env originalname) (upload_format originalname)
    fileBuffer env.

(** [fileUrl.split('/').pop().split('.')[0]]. *)
Definition publicId_of_url (fileUrl : string) : string :=
  first (split "." (pop (split "/" fileUrl))).

(** [note.fileUrl && note.fileUrl.includes('cloudinary.com')]. *)
Definition on_cloudinary (fileUrl : string) : bool :=
  truthy fileUrl && includes fileUrl "cloudinary.com".

(** The block shared by [deleteNotes] and [updateNotes]:
    [if (fileUrl is on Cloudinary) await destroy(publicId)]. *)
Definition destroy_if_managed (fileUrl : string) (env : Env) : handler (Settled unit) :=
  if on_cloudinary fileUrl then
    let publicId := publicId_of_url fileUrl in
    destroy publicId env
  else ret (Resolved tt).

(** [managed_keys w]: every stored object sits in the [notes/] folder. *)
Definition managed_keys (w : World) : Prop :=
  ∀ k, is_Some (assets w !! k) → starts_with "notes/" k = true.

(** [objects_kept w w']: every object stored in [w] is still stored in
    [w'], under the same public id. *)
Definition objects_kept (w w' : World) : Prop := dom (assets w) ⊆ dom (assets w').

(** A file of the sample data. *)
Definition sample_file : File :=
  {| originalname := "my.notes.pdf"; mimetype := "application/pdf"; buffer := [] |}.

(** ** Facts about the string primitives that the adapter needs *)

#[export] Instance objects_kept_preorder : PreOrder objects_kept.
Proof. unfold objects_kept. split; [intros w | intros w1 w2 w3]; set_solver. Qed.

Lemma starts_with_has_char c p s :
  has_char c p = true → starts_with p s = true → has_char c s = true.
Proof.
  intros Hp [r ->]%starts_with_spec. by rewrite has_char_app, Hp.
Qed.

Lemma prefix_no_char c p s :
  has_char c s = false → starts_with p s = true → has_char c p = false.
Proof.
  intros Hs [r ->]%starts_with_spec. rewrite has_char_app in Hs.
  by apply orb_false_iff in Hs as [? _].
Qed.

Lemma split_app_sep_any c x s :
  ∃ h l, split c (x +:+ String c s) = h :: (l ++ split c s)%list.
Proof.
  induction x as [|a x (h & l & IH)]; simpl.
  - exists "", []. by rewrite bool_decide_eq_true_2.
  - rewrite IH. case_bool_decide; [by exists "", (h :: l) | by exists (String a h), l].
Qed.

Lemma pop_split_app_sep c x s : pop (split c (x +:+ String c s)) = pop (split c s).
Proof.
  destruct (split_app_sep_any c x s) as (h & l & ->).
  destruct (split_cons c s) as (h' & t & ->). unfold pop.
  change (h :: (l ++ h' :: t)%list) with ((h :: l) ++ h' :: t)%list.
  by rewrite last_app_cons.
Qed.

Lemma first_split_app_sep c x s :
  has_char c x = false → first (split c (x +:+ String c s)) = x.
Proof. intros H. by rewrite split_app_sep. Qed.

Lemma pop_split_no_sep_id c s : has_char c s = false → pop (split c s) = s.
Proof. intros H. by rewrite split_no_sep_char. Qed.

(** ** The public ids *)

Lemma publicId_no_slash url : has_char "/" (publicId_of_url url) = false.
Proof.
  unfold publicId_of_url. eapply prefix_no_char; [|apply first_split_prefix].
  apply pop_split_no_sep.
Qed.

Lemma publicId_no_dot url : has_char "." (publicId_of_url url) = false.
Proof. apply first_split_no_sep. Qed.

Lemma upload_public_id_prefix env name :
  starts_with "notes/" (upload_public_id env name) = true.
Proof. done. Qed.

Lemma publicId_not_in_folder url k :
  starts_with "notes/" k = true → publicId_of_url url ≠ k.
Proof.
  intros Hk <-. pose proof (publicId_no_slash url) as Hno.
  by rewrite (starts_with_has_char "/" "notes/" _ eq_refl Hk) in Hno.
Qed.

Lemma first_split_app c x y :
  first (split c (x +:+ String c y)) = first (split c x).
Proof.
  unfold first. induction x as [|a x IH]; simpl.
  - by rewrite bool_decide_eq_true_2.
  - case_bool_decide; [done|].
    destruct (split_cons c (x +:+ String c y)) as (h & t & Hs).
    destruct (split_cons c x) as (h' & t' & Hs').
    rewrite Hs, Hs' in *. simpl in *. by subst.
Qed.

Lemma publicId_of_secure_url rest fmt :
  has_char "/" rest = false → has_char "/" fmt = false →
  publicId_of_url (secure_url_of ("notes/" +:+ rest) fmt) = first (split "." rest).
Proof.
  intros Hr Hf. unfold publicId_of_url, secure_url_of.
  change ("https://res.cloudinary.com/demo/raw/upload/v1/" +:+ ("notes/" +:+ rest) +:+ "." +:+ fmt)
    with ("https://res.cloudinary.com/demo/raw/upload/v1/notes" +:+ String "/" (rest +:+ String "." fmt)).
  rewrite pop_split_app_sep, pop_split_no_sep_id, first_split_app; [done|].
  rewrite has_char_app. simpl. by rewrite Hr, Hf.
Qed.

(** ** The adapter actions *)

Section adapter.
Implicit Types (w : World) (env : Env) (url name : string).

Lemma destroy_ok id env w :
  destroy_error env = None →
  destroy id env w =
    (inr (Resolved tt), set_assets (delete id) (log_call (CallDestroy id) w)).
Proof. intros H. unfold destroy. handler_simp. by rewrite H. Qed.

Lemma destroy_rejects id env w m :
  destroy_error env = Some m →
  destroy id env w = (inr (Rejected m), log_call (CallDestroy id) w).
Proof. intros H. unfold destroy. handler_simp. by rewrite H. Qed.

Lemma destroy_if_managed_external url env w :
  on_cloudinary url = false → destroy_if_managed url env w = (inr (Resolved tt), w).
Proof. intros H. unfold destroy_if_managed. by rewrite H. Qed.

Lemma destroy_if_managed_ok url env w :
  on_cloudinary url = true → destroy_error env = None →
  destroy_if_managed url env w =
    (inr (Resolved tt), set_assets (delete (publicId_of_url url))
               (log_call (CallDestroy (publicId_of_url url)) w)).
Proof. intros H He. unfold destroy_if_managed. rewrite H. by apply destroy_ok. Qed.

Lemma destroy_if_managed_rejects url env w m :
  on_cloudinary url = true → destroy_error env = Some m →
  destroy_if_managed url env w =
    (inr (Rejected m), log_call (CallDestroy (publicId_of_url url)) w).
Proof. intros H He. unfold destroy_if_managed. rewrite H. by apply destroy_rejects. Qed.

Lemma destroy_if_managed_frame url env w :
  notes (destroy_if_managed url env w).2 = notes w ∧
  users (destroy_if_managed url env w).2 = users w ∧
  next_oid (destroy_if_managed url env w).2 = next_oid w.
Proof.
  unfold destroy_if_managed, destroy. destruct (on_cloudinary url); [|done].
  handler_simp. by destruct (destroy_error env).
Qed.

Lemma delete_unmanaged url w :
  managed_keys w → delete (publicId_of_url url) (assets w) = assets w.
Proof.
  intros Hm. apply delete_id. apply eq_None_not_Some. intros Hk%Hm.
  by eapply publicId_not_in_folder.
Qed.

(** The destroy block never removes a stored object: the id it computes has
    no folder part, while every object is stored under [notes/]. *)
Lemma destroy_keeps_assets url env w :
  managed_keys w → assets (destroy_if_managed url env w).2 = assets w.
Proof.
  intros Hm. destruct (on_cloudinary url) eqn:Hc.
  - destruct (destroy_error env) as [m|] eqn:He.
    + by rewrite (destroy_if_managed_rejects _ _ _ _ Hc He).
    + rewrite (destroy_if_managed_ok _ _ _ Hc He). simpl. by apply delete_unmanaged.
  - by rewrite (destroy_if_managed_external _ _ _ Hc).
Qed.

Lemma upload_assets_grow buf name env w :
  dom (assets w) ⊆ dom (assets (uploadToCloudinary buf name env w).2).
Proof.
  unfold uploadToCloudinary, upload_stream. handler_simp.
  destruct (upload_error env); handler_simp; [done|]. rewrite dom_insert. set_solver.
Qed.

Lemma uploadToCloudinary_ok buf name env w :
  upload_error env = None →
  let id := upload_public_id env name in
  let fmt := upload_format name in
  uploadToCloudinary buf name env w =
    (inr (Resolved (mkUploadResult (secure_url_of id fmt) id)),
     set_assets <[id := mkAsset buf fmt]> (log_call (CallUpload id) w)).
Proof. intros H. unfold uploadToCloudinary, upload_stream. handler_simp. by rewrite H. Qed.

Lemma uploadToCloudinary_error buf name env w m :
  upload_error env = Some m →
  uploadToCloudinary buf name env w =
    (inr (Rejected m), log_call (CallUpload (upload_public_id env name)) w).
Proof. intros H. unfold uploadToCloudinary, upload_stream. handler_simp. by rewrite H. Qed.

Lemma uploadToCloudinary_resolved buf name env w r w' :
  uploadToCloudinary buf name env w = (inr (Resolved r), w') →
  secure_url r = secure_url_of (upload_public_id env name) (upload_format name) ∧
  public_id r = upload_public_id env name.
Proof.
  unfold uploadToCloudinary, upload_stream. handler_simp.
  destruct (upload_error env); handler_simp; by intros [= <- <-].
Qed.

Lemma secure_url_on_cloudinary id fmt : on_cloudinary (secure_url_of id fmt) = true.
Proof.
  unfold on_cloudinary, secure_url_of. apply andb_true_iff. split; [done|].
  apply includes_spec. by exists "https://res.", ("/demo/raw/upload/v1/" +:+ id +:+ "." +:+ fmt).
Qed.

Lemma managed_keys_upload buf name env w :
  managed_keys w → managed_keys (uploadToCloudinary buf name env w).2.
Proof.
  intros Hm k. unfold uploadToCloudinary, upload_stream. handler_simp.
  destruct (upload_error env); handler_simp; [apply Hm|].
  rewrite lookup_insert_is_Some. intros [<- | [_ ?]]; [done | by apply Hm].
Qed.

End adapter.

(** ** Properties *)

Section properties.
Implicit Types (w : World) (env : Env) (url name : string).

(** C15 (uploadMiddleware_accepts_iff): the upload middleware hands a file to
    the handler exactly when its MIME type is one of the five allowed types
    and its size is at most 25 MiB; every other file is answered with an
    error before any handler runs. *)
Theorem uploadMiddleware_accepts_iff part file :
  uploadMiddleware part = inr (Some file) ↔
  part = Some file ∧ mimetype file ∈ allowedTypes ∧
  (N.of_nat (length (buffer file)) ≤ 26214400)%N.
Proof.
  unfold uploadMiddleware, fileFilter. destruct part as [f|]; [|naive_solver].
  case_bool_decide as Ht; [|naive_solver].
  change fileSize_limit with 26214400%N.
  case_bool_decide as Hs; naive_solver.
Qed.

(** A file stored by [uploadToCloudinary]
    gets a locator that the controllers recognise as managed, and the
    destroy block run on that locator leaves the file in the store. *)
Theorem upload_then_destroy_keeps buf name env env' w r w1 :
  uploadToCloudinary buf name env w = (inr (Resolved r), w1) →
  on_cloudinary (secure_url r) = true ∧
  assets w1 !! public_id r = Some (mkAsset buf (upload_format name)) ∧
  assets (destroy_if_managed (secure_url r) env' w1).2 !! public_id r =
    Some (mkAsset buf (upload_format name)).
Proof.
  intros Hup. destruct (upload_error env) as [m|] eqn:He.
  { by rewrite (uploadToCloudinary_error _ _ _ _ _ He) in Hup. }
  rewrite (uploadToCloudinary_ok _ _ _ _ He) in Hup. simplify_eq/=.
  pose proof (secure_url_on_cloudinary (upload_public_id env name) (upload_format name)) as Hc.
  split_and!; [done | by rewrite lookup_insert_eq |].
  destruct (destroy_error env') as [m|] eqn:Hd.
  - rewrite (destroy_if_managed_rejects _ _ _ _ Hc Hd). simpl. by rewrite lookup_insert_eq.
  - rewrite (destroy_if_managed_ok _ _ _ Hc Hd). simpl.
    rewrite lookup_delete_ne by (by apply publicId_not_in_folder).
    by rewrite lookup_insert_eq.
Qed.

(** [uploadToCloudinary] logs one upload
    call under the id [notes/<time>-<name>]; when Cloudinary reports an
    error the promise rejects with it and no object is stored; otherwise the
    buffer is stored under that id and the promise resolves with its
    locator. *)
Theorem uploadToCloudinary_settles buf name env w :
  let id := upload_public_id env name in
  let r := uploadToCloudinary buf name env w in
  calls r.2 = (calls w ++ [CallUpload id])%list ∧ notes r.2 = notes w ∧ users r.2 = users w ∧
  match upload_error env with
  | Some m => r.1 = inr (Rejected m) ∧ assets r.2 = assets w
  | None => r.1 = inr (Resolved (mkUploadResult (secure_url_of id (upload_format name)) id)) ∧
            assets r.2 = <[id := mkAsset buf (upload_format name)]> (assets w)
  end.
Proof.
  destruct (upload_error env) as [m|] eqn:He; simpl.
  - by rewrite (uploadToCloudinary_error _ _ _ _ _ He).
  - by rewrite (uploadToCloudinary_ok _ _ _ _ He).
Qed.

End properties.

(** ** Start-up *)

(** The module loads exactly when the three variables are set and not
    empty; the client is then configured with their values, over HTTPS. *)
Lemma configure_loads penv :
  (∃ name key secret,
     CLOUDINARY_CLOUD_NAME penv = Some name ∧ name ≠ "" ∧
     CLOUDINARY_API_KEY penv = Some key ∧ key ≠ "" ∧
     CLOUDINARY_API_SECRET penv = Some secret ∧ secret ≠ "" ∧
     configure penv = inr (mkCloudinaryConfig name key secret true)) ∨
  ((CLOUDINARY_CLOUD_NAME penv ∈ [None; Some ""] ∨ CLOUDINARY_API_KEY penv ∈ [None; Some ""] ∨
    CLOUDINARY_API_SECRET penv ∈ [None; Some ""]) ∧
   configure penv =
     inl (new_Error "Missing Cloudinary configuration in environment variables")).
Proof.
  unfold configure.
  destruct (truthy_opt (CLOUDINARY_CLOUD_NAME penv)) eqn:H1;
    [destruct (truthy_opt (CLOUDINARY_API_KEY penv)) eqn:H2;
       [destruct (truthy_opt (CLOUDINARY_API_SECRET penv)) eqn:H3|]|]; simpl.
  - apply truthy_opt_Some in H1 as (a & -> & ?), H2 as (b & -> & ?), H3 as (c & -> & ?).
    left. by exists a, b, c.
  - right. split; [|done]. right; right. apply not_true_iff_false in H3.
    rewrite truthy_opt_Some in H3. destruct (CLOUDINARY_API_SECRET penv) as [[|]|];
      [set_solver | naive_solver | set_solver].
  - right. split; [|done]. right; left. apply not_true_iff_false in H2.
    rewrite truthy_opt_Some in H2. destruct (CLOUDINARY_API_KEY penv) as [[|]|];
      [set_solver | naive_solver | set_solver].
  - right. split; [|done]. left. apply not_true_iff_false in H1.
    rewrite truthy_opt_Some in H1. destruct (CLOUDINARY_CLOUD_NAME penv) as [[|]|];
      [set_solver | naive_solver | set_solver].
Qed.

(** The ping decides nothing: the module loads, and the routes are
    served, whether or not Cloudinary answered it. *)
Lemma load_module_ignores_ping file penv ping ping' config line :
  load_module file penv ping = inr (config, line) →
  load_module file penv ping' = inr (config, ping_report ping').
Proof. unfold load_module. destruct (configure _); naive_solver. Qed.

(** A variable that the process defines as the empty string hides the one
    of the [.env] file, and the module does not load. *)
Lemma empty_variable_hides_dotenv file penv ping :
  CLOUDINARY_API_KEY penv = Some "" →
  load_module file penv ping =
    inl (new_Error "Missing Cloudinary configuration in environment variables").
Proof.
  intros Hk. unfold load_module, configure, dotenv_config. simpl. rewrite Hk.
  destruct (CLOUDINARY_API_KEY file); simpl; by rewrite orb_true_r.
Qed.

(** What the process does not define comes from the [.env] file. *)
Lemma dotenv_fills_missing file ping :
  load_module file (mkProcessEnv None None None) ping =
    match configure file with
    | inl e => inl e
    | inr config => inr (config, ping_report ping)
    end.
Proof. unfold load_module, dotenv_config. simpl. by destruct file as [[?|] [?|] [?|]]. Qed.

(** ** The properties on the sample data *)

Lemma sample_world_managed : managed_keys sample_world.
Proof.
  intros k [a Hk]. simpl in Hk.
  apply lookup_singleton_Some in Hk as [<- _]. done.
Qed.

Lemma uploadMiddleware_accepts_iff_witness :
  uploadMiddleware (Some sample_file) = inr (Some sample_file) ↔
  Some sample_file = Some sample_file ∧ mimetype sample_file ∈ allowedTypes ∧
  (N.of_nat (length (buffer sample_file)) ≤ 26214400)%N.
Proof. exact (uploadMiddleware_accepts_iff (Some sample_file) sample_file). Defined.

Lemma sample_upload :
  uploadToCloudinary [] "my.notes.pdf" sample_env sample_world =
    (inr (Resolved (mkUploadResult
       "https://res.cloudinary.com/demo/raw/upload/v1/notes/100-my.notes.pdf"
       "notes/100-my.notes")),
     set_assets <["notes/100-my.notes" := mkAsset [] "pdf"]>
       (log_call (CallUpload "notes/100-my.notes") sample_world)).
Proof. reflexivity. Qed.

Lemma upload_then_destroy_keeps_witness :
  let r := mkUploadResult
     "https://res.cloudinary.com/demo/raw/upload/v1/notes/100-my.notes.pdf"
     "notes/100-my.notes" in
  let w1 := set_assets <["notes/100-my.notes" := mkAsset [] "pdf"]>
       (log_call (CallUpload "notes/100-my.notes") sample_world) in
  uploadToCloudinary [] "my.notes.pdf" sample_env sample_world = (inr (Resolved r), w1) ∧
  on_cloudinary (secure_url r) = true ∧
  assets w1 !! public_id r = Some (mkAsset [] (upload_format "my.notes.pdf")) ∧
  assets (destroy_if_managed (secure_url r) sample_env w1).2 !! public_id r =
    Some (mkAsset [] (upload_format "my.notes.pdf")).
Proof.
  exact (conj sample_upload
    (upload_then_destroy_keeps [] "my.notes.pdf" sample_env sample_env sample_world
       _ _ sample_upload)).
Defined.
