(* ===== verification/Engagement.v ===== *)
(** * Engagement: likes, comments and the download counter

    The handlers of [controllers/notes.controller.js] that change the
    engagement data embedded in a note: [likeNote], [commentOnNote],
    [updateComment], [deleteComment] and [incrementDownload].  Each reads
    the note, changes the copy in memory and saves it back.

    The theorems give the behaviour of each handler on each branch, show
    that only the named note changes (and within it only the named field),
    that a like toggled twice restores the likes, that editing or deleting a
    comment leaves the other comments as they were, and that the counter
    grows by one per call. *)

From S2P Require Import Prelude JsString Model Contract.

Local Open Scope string_scope.
Local Open Scope list_scope.
Local Open Scope handler_scope.

(** [note.comments.id(commentId)]: the first sub-document with that [_id],
    with its position. *)
Definition comments_id (commentId : oid) (cs : list Comment) : option (nat * Comment) :=
  list_find (λ c, c_id c = commentId) cs.

(** [note.comments.pull(commentId)]: removes every sub-document with that
    [_id]. *)
Definition comments_pull (commentId : oid) (cs : list Comment) : list Comment :=
  filter (λ c, c_id c ≠ commentId) cs.

(** [likeNote]: [PUT /:id/like]. *)
Definition likeNote (id : oid) (u : AuthUser) : World → Outcome * World :=
  run (
    let! note := Note_findById id in
    let userId := uid u in
    let! note := some_or note (Respond 404 (JMsg "Note not found")) in
    let note := set_likes (toggle userId (likes note)) note in
    Note_save id note ;;;
    ret (Respond 200 (JLikes (likes note)))).

(** [commentOnNote]: [POST /:id/comment]. *)
Definition commentOnNote (id : oid) (u : AuthUser) (body_text : string) (env : Env) :
    World → Outcome * World :=
  run (
    let! note := Note_findById id in
    let! note := some_or note (Respond 404 (JMsg "Note not found")) in
    let! cid := alloc_oid in
    let comment :=
      {| c_id := cid; user := uid u; text := body_text; commentedAt := now env;
         c_username := uname u |} in
    let note := set_comments (comments note ++ [comment]) note in
    Note_save id note ;;;
    let! updatedNote := Note_findById id in
    ret (Respond 200 (JCommented id updatedNote))).

(** [updateComment]: [PUT /comments/:noteId/:commentId]. *)
Definition updateComment (noteId commentId : oid) (body_text : string) (env : Env) :
    World → Outcome * World :=
  run (
    let! note := Note_findById noteId in
    let! note := some_or note (Respond 404 (JMsg "Note not found")) in
    let! found := some_or (comments_id commentId (comments note))
                          (Respond 404 (JMsg "Comment not found")) in
    let comment := set_text_time body_text (now env) found.2 in
    let note := set_comments (<[found.1 := comment]> (comments note)) note in
    Note_save noteId note ;;;
    let! updatedNote := Note_findById noteId in
    let! updatedNote := some_or updatedNote
        (Next (TypeError "Cannot read properties of null (reading 'comments')")) in
    ret (Respond 200 (JComments "Comment updated successfully" (comments updatedNote)))).

(** [deleteComment]: [DELETE /comments/:noteId/:commentId]. *)
Definition deleteComment (noteId commentId : oid) : World → Outcome * World :=
  run (
    let! note := Note_findById noteId in
    let! note := some_or note (Respond 404 (JMsg "Note not found")) in
    let note := set_comments (comments_pull commentId (comments note)) note in
    Note_save noteId note ;;;
    let! updatedNote := Note_findById noteId in
    let! updatedNote := some_or updatedNote
        (Next (TypeError "Cannot read properties of null (reading 'comments')")) in
    ret (Respond 200 (JComments "Comment deleted successfully" (comments updatedNote)))).

(** [incrementDownload]: [PUT /:id/download]. *)
Definition incrementDownload (id : oid) : World → Outcome * World :=
  run (
    let! note := Note_findById id in
    let! note := some_or note (Respond 404 (JMsg "Note not found")) in
    let note := set_downloadCount (downloadCount note + 1) note in
    Note_save id note ;;;
    ret (Respond 200 (JDownloadCount (downloadCount note)))).

(** ** Sub-document search and removal *)

Section comments.
Implicit Types (cid : oid) (cs : list Comment) (c : Comment) (i : nat).

Lemma comments_id_Some cid cs i c :
  comments_id cid cs = Some (i, c) → cs !! i = Some c ∧ c_id c = cid.
Proof. unfold comments_id. intros (? & ? & _)%list_find_Some. done. Qed.

Lemma comments_id_None cid cs :
  comments_id cid cs = None ↔ Forall (λ c, c_id c ≠ cid) cs.
Proof. unfold comments_id. by rewrite list_find_None. Qed.

Lemma comments_pull_absent cid cs :
  Forall (λ c, c_id c ≠ cid) cs → comments_pull cid cs = cs.
Proof.
  unfold comments_pull. induction 1 as [|c cs Hc _ IH]; [done|].
  by rewrite filter_cons_True, IH.
Qed.

Lemma elem_of_comments_pull cid cs c :
  c ∈ comments_pull cid cs ↔ c ∈ cs ∧ c_id c ≠ cid.
Proof. unfold comments_pull. rewrite list_elem_of_filter. tauto. Qed.

Lemma comments_pull_sublist cid cs : comments_pull cid cs `sublist_of` cs.
Proof. apply sublist_filter. Qed.

Lemma comments_pull_ids cid cs :
  c_id <$> comments_pull cid cs = filter (λ x, x ≠ cid) (c_id <$> cs).
Proof.
  unfold comments_pull. induction cs as [|c cs IH]; [done|]. rewrite fmap_cons.
  destruct (decide (c_id c = cid)) as [Heq|Hne].
  - rewrite !filter_cons_False by (by intros []). done.
  - rewrite !filter_cons_True by done. by rewrite fmap_cons, IH.
Qed.

Lemma edit_keeps_ids cs i c t k :
  cs !! i = Some c → c_id <$> <[i := set_text_time t k c]> cs = c_id <$> cs.
Proof.
  intros Hi. rewrite list_fmap_insert. simpl. apply list_insert_id.
  by rewrite list_lookup_fmap, Hi.
Qed.

End comments.

(** ** The behaviour of each handler, branch by branch *)

Section branches.
Implicit Types (id cid : oid) (u : AuthUser) (w : World) (n : Note) (env : Env).

Lemma likeNote_not_found id u w :
  notes w !! id = None → likeNote id u w = (Respond 404 (JMsg "Note not found"), w).
Proof. intros H. unfold likeNote. handler_simp. by rewrite H. Qed.

Lemma likeNote_found id u w n :
  notes w !! id = Some n →
  likeNote id u w =
    (Respond 200 (JLikes (toggle (uid u) (likes n))),
     set_notes <[id := set_likes (toggle (uid u) (likes n)) n]> w).
Proof. intros H. unfold likeNote. handler_simp. by rewrite H. Qed.

Lemma commentOnNote_not_found id u t env w :
  notes w !! id = None →
  commentOnNote id u t env w = (Respond 404 (JMsg "Note not found"), w).
Proof. intros H. unfold commentOnNote. handler_simp. by rewrite H. Qed.

Lemma commentOnNote_found id u t env w n :
  notes w !! id = Some n →
  let c := mkComment (next_oid w) (uid u) t (now env) (uname u) in
  let n' := set_comments (comments n ++ [c]) n in
  commentOnNote id u t env w =
    (Respond 200 (JCommented id (Some n')), set_notes <[id := n']> (alloc_oid w).2).
Proof.
  intros H. unfold commentOnNote. handler_simp. rewrite H. handler_simp.
  by rewrite lookup_insert_eq.
Qed.

Lemma updateComment_not_found id cid t env w :
  notes w !! id = None →
  updateComment id cid t env w = (Respond 404 (JMsg "Note not found"), w).
Proof. intros H. unfold updateComment. handler_simp. by rewrite H. Qed.

Lemma updateComment_no_comment id cid t env w n :
  notes w !! id = Some n → comments_id cid (comments n) = None →
  updateComment id cid t env w = (Respond 404 (JMsg "Comment not found"), w).
Proof. intros H Hc. unfold updateComment. handler_simp. rewrite H. handler_simp. by rewrite Hc. Qed.

Lemma updateComment_found id cid t env w n i c :
  notes w !! id = Some n → comments_id cid (comments n) = Some (i, c) →
  let cs := <[i := set_text_time t (now env) c]> (comments n) in
  updateComment id cid t env w =
    (Respond 200 (JComments "Comment updated successfully" cs),
     set_notes <[id := set_comments cs n]> w).
Proof.
  intros H Hc. unfold updateComment. handler_simp. rewrite H. handler_simp.
  rewrite Hc. handler_simp. by rewrite lookup_insert_eq.
Qed.

Lemma deleteComment_not_found id cid w :
  notes w !! id = None →
  deleteComment id cid w = (Respond 404 (JMsg "Note not found"), w).
Proof. intros H. unfold deleteComment. handler_simp. by rewrite H. Qed.

Lemma deleteComment_found id cid w n :
  notes w !! id = Some n →
  let cs := comments_pull cid (comments n) in
  deleteComment id cid w =
    (Respond 200 (JComments "Comment deleted successfully" cs),
     set_notes <[id := set_comments cs n]> w).
Proof.
  intros H. unfold deleteComment. handler_simp. rewrite H. handler_simp.
  by rewrite lookup_insert_eq.
Qed.

Lemma incrementDownload_not_found id w :
  notes w !! id = None →
  incrementDownload id w = (Respond 404 (JMsg "Note not found"), w).
Proof. intros H. unfold incrementDownload. handler_simp. by rewrite H. Qed.

Lemma incrementDownload_found id w n :
  notes w !! id = Some n →
  incrementDownload id w =
    (Respond 200 (JDownloadCount (downloadCount n + 1)),
     set_notes <[id := set_downloadCount (downloadCount n + 1) n]> w).
Proof. intros H. unfold incrementDownload. handler_simp. by rewrite H. Qed.

#[export] Instance likeNote_local id u : NoteLocal id (likeNote id u).
Proof.
  intros w _.
  destruct (notes w !! id) as [n|] eqn:H.
  - rewrite (likeNote_found _ _ _ _ H). apply same_except_note_save.
  - rewrite (likeNote_not_found _ _ _ H). apply same_except_note_refl.
Qed.

#[export] Instance commentOnNote_local id u t env : NoteLocal id (commentOnNote id u t env).
Proof.
  intros w _.
  destruct (notes w !! id) as [n|] eqn:H.
  - rewrite (commentOnNote_found _ _ _ _ _ _ H).
    repeat split; simpl; [lia | intros; by rewrite lookup_insert_ne].
  - rewrite (commentOnNote_not_found _ _ _ _ _ H). apply same_except_note_refl.
Qed.

#[export] Instance updateComment_local id cid t env : NoteLocal id (updateComment id cid t env).
Proof.
  intros w _.
  destruct (notes w !! id) as [n|] eqn:H.
  - destruct (comments_id cid (comments n)) as [[i c]|] eqn:Hc.
    + rewrite (updateComment_found _ _ _ _ _ _ _ _ H Hc). apply same_except_note_save.
    + rewrite (updateComment_no_comment _ _ _ _ _ _ H Hc). apply same_except_note_refl.
  - rewrite (updateComment_not_found _ _ _ _ _ H). apply same_except_note_refl.
Qed.

#[export] Instance deleteComment_local id cid : NoteLocal id (deleteComment id cid).
Proof.
  intros w _.
  destruct (notes w !! id) as [n|] eqn:H.
  - rewrite (deleteComment_found _ _ _ _ H). apply same_except_note_save.
  - rewrite (deleteComment_not_found _ _ _ H). apply same_except_note_refl.
Qed.

#[export] Instance incrementDownload_local id : NoteLocal id (incrementDownload id).
Proof.
  intros w _.
  destruct (notes w !! id) as [n|] eqn:H.
  - rewrite (incrementDownload_found _ _ _ H). apply same_except_note_save.
  - rewrite (incrementDownload_not_found _ _ H). apply same_except_note_refl.
Qed.

End branches.

(** ** Properties *)

Section properties.
Implicit Types (id cid : oid) (u : AuthUser) (w : World) (n : Note) (env : Env).

(** After [likeNote] the caller is in the
    like list exactly when they were not before, every other member is kept,
    the list stays free of duplicates and no other field of the note
    changes. *)
Theorem likeNote_flips_membership id u w n x :
  notes w !! id = Some n → NoDup (likes n) →
  ∃ n', notes (likeNote id u w).2 !! id = Some n' ∧
        set_likes (likes n) n' = n ∧ NoDup (likes n') ∧
        (x ∈ likes n' ↔ (x ∈ likes n ∧ x ≠ uid u) ∨ (x = uid u ∧ uid u ∉ likes n)).
Proof.
  intros H Hnd. rewrite (likeNote_found _ _ _ _ H). simpl.
  rewrite lookup_insert_eq. eexists; split; [done|]. simpl.
  rewrite set_likes_set_likes, set_likes_likes.
  split_and!; [done | by apply toggle_NoDup | by apply toggle_elem_of].
Qed.

(** C12 (likeNote_twice_restores): two [likeNote] calls by the same user on
    the same note bring the system back to a state that differs from the
    initial one at most in the order of that note's likes; when the user
    had not liked the note the state is exactly the initial one. *)
Theorem likeNote_twice_restores id u w n :
  notes w !! id = Some n → NoDup (likes n) →
  ∃ l, l ≡ₚ likes n ∧ (uid u ∉ likes n → l = likes n) ∧
       (likeNote id u (likeNote id u w).2).2 = set_notes <[id := set_likes l n]> w.
Proof.
  intros H Hnd. rewrite (likeNote_found _ _ _ _ H). simpl.
  erewrite likeNote_found by (simpl; apply lookup_insert_eq). simpl.
  exists (toggle (uid u) (toggle (uid u) (likes n))).
  split_and!; [by apply toggle_toggle_perm | by apply toggle_toggle_absent |].
  by rewrite set_notes_insert_insert.
Qed.

(** C16 (commentOnNote_appends): on an existing note [commentOnNote] answers
    200 and the stored comment sequence is the old one followed by one new
    comment that carries the submitted text, the caller's id and user name,
    the current time and an id never used before. *)
Theorem commentOnNote_appends id u t env w n :
  notes w !! id = Some n →
  ∃ n' c, commentOnNote id u t env w =
            (Respond 200 (JCommented id (Some n')), set_notes <[id := n']> (alloc_oid w).2) ∧
          notes (commentOnNote id u t env w).2 !! id = Some n' ∧
          comments n' = (comments n ++ [c])%list ∧ last (comments n') = Some c ∧
          set_comments (comments n) n' = n ∧
          c = mkComment (next_oid w) (uid u) t (now env) (uname u).
Proof.
  intros H. rewrite (commentOnNote_found _ _ _ _ _ _ H). simpl.
  rewrite lookup_insert_eq. do 2 eexists. split_and!; try done; simpl.
  - apply last_snoc.
  - by rewrite set_comments_set_comments, set_comments_comments.
Qed.

(** C13 (updateComment_only_target): editing a comment replaces the text and
    the time stamp of the first comment with the given id and leaves every
    other comment, the order, the ids and the authors as they were. *)
Theorem updateComment_only_target id cid t env w n i c :
  notes w !! id = Some n → comments_id cid (comments n) = Some (i, c) →
  ∃ n', notes (updateComment id cid t env w).2 !! id = Some n' ∧
        set_comments (comments n) n' = n ∧
        comments n' !! i = Some (mkComment cid (user c) t (now env) (c_username c)) ∧
        (∀ j, j ≠ i → comments n' !! j = comments n !! j) ∧
        length (comments n') = length (comments n) ∧
        c_id <$> comments n' = c_id <$> comments n.
Proof.
  intros H Hc. rewrite (updateComment_found _ _ _ _ _ _ _ _ H Hc). simpl.
  rewrite lookup_insert_eq. apply comments_id_Some in Hc as [Hi <-].
  eexists; split; [done|]. simpl. split_and!.
  - by rewrite set_comments_set_comments, set_comments_comments.
  - apply list_lookup_insert_eq. by eapply lookup_lt_Some.
  - intros j Hj. by apply list_lookup_insert_ne.
  - apply length_insert.
  - by apply edit_keeps_ids.
Qed.

(** Deleting a comment id that no comment
    of the note carries succeeds with status 200 and changes nothing. *)
Theorem deleteComment_absent_is_noop id cid w n :
  notes w !! id = Some n → Forall (λ c, c_id c ≠ cid) (comments n) →
  deleteComment id cid w =
    (Respond 200 (JComments "Comment deleted successfully" (comments n)), w).
Proof.
  intros H Hall. rewrite (deleteComment_found _ _ _ _ H). simpl.
  rewrite comments_pull_absent by done.
  by rewrite set_comments_comments, set_notes_insert_id.
Qed.

(** After [deleteComment] the note holds
    exactly the comments whose id differs from the given one, in their
    former order, and no other field of the note changes. *)
Theorem deleteComment_removes_exactly id cid w n :
  notes w !! id = Some n →
  ∃ n', notes (deleteComment id cid w).2 !! id = Some n' ∧
        set_comments (comments n) n' = n ∧
        comments n' `sublist_of` comments n ∧
        (∀ c, c ∈ comments n' ↔ c ∈ comments n ∧ c_id c ≠ cid) ∧
        cid ∉ c_id <$> comments n'.
Proof.
  intros H. rewrite (deleteComment_found _ _ _ _ H). simpl.
  rewrite lookup_insert_eq. eexists; split; [done|]. simpl. split_and!.
  - by rewrite set_comments_set_comments, set_comments_comments.
  - apply comments_pull_sublist.
  - intros c. apply elem_of_comments_pull.
  - rewrite comments_pull_ids, list_elem_of_filter. tauto.
Qed.

(** [k] successive [incrementDownload] calls on
    an existing note add exactly [k] to its download counter and change
    nothing else. *)
Theorem incrementDownload_adds id w n k :
  notes w !! id = Some n →
  Nat.iter k (λ w, (incrementDownload id w).2) w =
    set_notes <[id := set_downloadCount (downloadCount n + k) n]> w.
Proof.
  intros H. induction k as [|k IH]; simpl.
  - by rewrite Nat.add_0_r, set_downloadCount_downloadCount, set_notes_insert_id.
  - rewrite IH. erewrite incrementDownload_found by (simpl; apply lookup_insert_eq).
    simpl. rewrite set_notes_insert_insert, set_downloadCount_twice.
    do 3 f_equal. lia.
Qed.

(** On a note id that is not in the collection
    every engagement handler answers 404 with the message [Note not found]
    and leaves the state untouched. *)
Theorem engagement_not_found id cid u t env w :
  notes w !! id = None →
  let r := (Respond 404 (JMsg "Note not found"), w) in
  likeNote id u w = r ∧ commentOnNote id u t env w = r ∧
  updateComment id cid t env w = r ∧ deleteComment id cid w = r ∧
  incrementDownload id w = r.
Proof.
  intros H. split_and!;
    [by apply likeNote_not_found | by apply commentOnNote_not_found
    | by apply updateComment_not_found | by apply deleteComment_not_found
    | by apply incrementDownload_not_found].
Qed.

(** An engagement handler changes at most the note it
    is given: the users, the stored objects, the log of Cloudinary calls and
    every other note are as before. *)
Theorem engagement_frame id cid u t env w :
  same_except_note id w (likeNote id u w).2 ∧
  same_except_note id w (commentOnNote id u t env w).2 ∧
  same_except_note id w (updateComment id cid t env w).2 ∧
  same_except_note id w (deleteComment id cid w).2 ∧
  same_except_note id w (incrementDownload id w).2.
Proof.
  split_and!; by_contract.
Qed.

End properties.

(** ** The properties on the sample data *)

Lemma sample_note_stored : notes sample_world !! 10 = Some sample_note.
Proof. reflexivity. Qed.

Lemma sample_likes_NoDup : NoDup (likes sample_note).
Proof. apply NoDup_singleton. Qed.

Lemma likeNote_flips_membership_witness :
  notes sample_world !! 10 = Some sample_note ∧ NoDup (likes sample_note) ∧
  ∃ n', notes (likeNote 10 alice sample_world).2 !! 10 = Some n' ∧
        set_likes (likes sample_note) n' = sample_note ∧ NoDup (likes n') ∧
        (1 ∈ likes n' ↔ (1 ∈ likes sample_note ∧ 1 ≠ uid alice) ∨
                         (1 = uid alice ∧ uid alice ∉ likes sample_note)).
Proof.
  exact (conj sample_note_stored (conj sample_likes_NoDup
    (likeNote_flips_membership 10 alice sample_world sample_note 1
       sample_note_stored sample_likes_NoDup))).
Defined.

Lemma likeNote_twice_restores_witness :
  notes sample_world !! 10 = Some sample_note ∧ NoDup (likes sample_note) ∧
  ∃ l, l ≡ₚ likes sample_note ∧ (uid bob ∉ likes sample_note → l = likes sample_note) ∧
       (likeNote 10 bob (likeNote 10 bob sample_world).2).2 =
         set_notes <[10 := set_likes l sample_note]> sample_world.
Proof.
  exact (conj sample_note_stored (conj sample_likes_NoDup
    (likeNote_twice_restores 10 bob sample_world sample_note
       sample_note_stored sample_likes_NoDup))).
Defined.

Lemma commentOnNote_appends_witness :
  notes sample_world !! 10 = Some sample_note ∧
  ∃ n' c, commentOnNote 10 alice "nice" sample_env sample_world =
            (Respond 200 (JCommented 10 (Some n')),
             set_notes <[10 := n']> (alloc_oid sample_world).2) ∧
          notes (commentOnNote 10 alice "nice" sample_env sample_world).2 !! 10 = Some n' ∧
          comments n' = (comments sample_note ++ [c])%list ∧
          last (comments n') = Some c ∧
          set_comments (comments sample_note) n' = sample_note ∧
          c = mkComment (next_oid sample_world) (uid alice) "nice" (now sample_env)
                (uname alice).
Proof.
  exact (conj sample_note_stored
    (commentOnNote_appends 10 alice "nice" sample_env sample_world sample_note
       sample_note_stored)).
Defined.

Lemma sample_comment_found :
  comments_id 11 (comments sample_note) = Some (0, sample_comment).
Proof. reflexivity. Qed.

Lemma updateComment_only_target_witness :
  notes sample_world !! 10 = Some sample_note ∧
  comments_id 11 (comments sample_note) = Some (0, sample_comment) ∧
  ∃ n', notes (updateComment 10 11 "edited" sample_env sample_world).2 !! 10 = Some n' ∧
        set_comments (comments sample_note) n' = sample_note ∧
        comments n' !! 0 =
          Some (mkComment 11 (user sample_comment) "edited" (now sample_env)
                  (c_username sample_comment)) ∧
        (∀ j, j ≠ 0 → comments n' !! j = comments sample_note !! j) ∧
        length (comments n') = length (comments sample_note) ∧
        c_id <$> comments n' = c_id <$> comments sample_note.
Proof.
  exact (conj sample_note_stored (conj sample_comment_found
    (updateComment_only_target 10 11 "edited" sample_env sample_world sample_note 0
       sample_comment sample_note_stored sample_comment_found))).
Defined.

Lemma sample_comment_12_absent : Forall (λ c, c_id c ≠ 12) (comments sample_note).
Proof. repeat constructor. simpl. lia. Qed.

Lemma deleteComment_absent_is_noop_witness :
  notes sample_world !! 10 = Some sample_note ∧
  Forall (λ c, c_id c ≠ 12) (comments sample_note) ∧
  deleteComment 10 12 sample_world =
    (Respond 200 (JComments "Comment deleted successfully" (comments sample_note)),
     sample_world).
Proof.
  exact (conj sample_note_stored (conj sample_comment_12_absent
    (deleteComment_absent_is_noop 10 12 sample_world sample_note
       sample_note_stored sample_comment_12_absent))).
Defined.

Lemma deleteComment_removes_exactly_witness :
  notes sample_world !! 10 = Some sample_note ∧
  ∃ n', notes (deleteComment 10 11 sample_world).2 !! 10 = Some n' ∧
        set_comments (comments sample_note) n' = sample_note ∧
        comments n' `sublist_of` comments sample_note ∧
        (∀ c, c ∈ comments n' ↔ c ∈ comments sample_note ∧ c_id c ≠ 11) ∧
        11 ∉ c_id <$> comments n'.
Proof.
  exact (conj sample_note_stored
    (deleteComment_removes_exactly 10 11 sample_world sample_note sample_note_stored)).
Defined.

Lemma incrementDownload_adds_witness :
  notes sample_world !! 10 = Some sample_note ∧
  Nat.iter 3 (λ w, (incrementDownload 10 w).2) sample_world =
    set_notes <[10 := set_downloadCount (downloadCount sample_note + 3) sample_note]>
      sample_world.
Proof.
  exact (conj sample_note_stored
    (incrementDownload_adds 10 sample_world sample_note 3 sample_note_stored)).
Defined.

Lemma engagement_not_found_witness :
  notes sample_world !! 99 = None ∧
  let r := (Respond 404 (JMsg "Note not found"), sample_world) in
  likeNote 99 alice sample_world = r ∧
  commentOnNote 99 alice "x" sample_env sample_world = r ∧
  updateComment 99 11 "x" sample_env sample_world = r ∧
  deleteComment 99 11 sample_world = r ∧
  incrementDownload 99 sample_world = r.
Proof.
  exact (conj (eq_refl : notes sample_world !! 99 = None)
    (engagement_not_found 99 11 alice "x" sample_env sample_world eq_refl)).
Defined.
