(* ===== verification/Archive.v ===== *)
(** * Archive: the per-user archive list and the note's [archived] flag

    [archiveNote], [removeArchiveNote] and [getArchives] of
    [controllers/notes.controller.js].  Archiving is kept in two places: the
    list [archivedNotes] of the user and the flag [archived] of the note.
    [archiveNote] writes only the list; [removeArchiveNote] clears the flag
    and pulls the id from the caller's list; [getArchives] resolves the
    caller's list against the Note collection.

    The theorems: archiving is idempotent and keeps the list free of
    duplicates, it never touches a note; unarchiving removes exactly the
    given id from the caller's list and is a no-op on that list when the id
    is not in it; archive followed by unarchive restores the user; a user's
    list may keep the id of a note whose flag another user cleared;
    [getArchives] returns the stored notes among the archived ids, in
    order. *)

From S2P Require Import Prelude JsString Model Contract.

Local Open Scope string_scope.
Local Open Scope list_scope.
Local Open Scope handler_scope.

(** [populate('archivedNotes')]: each id replaced by its document; ids
    without a document are left out. *)
Definition populate_notes (ids : list oid) (w : World) : list (oid * Note) :=
  omap (λ id, (id,.) <$> notes w !! id) ids.

(** [removeArchiveNote]: [POST /remove-archive/:id]. *)
Definition removeArchiveNote (noteId : oid) (u : AuthUser) : World → Outcome * World :=
  run (
    let! note := Note_findById noteId in
    let! note := some_or note (Respond 404 (JMessage false "Note not found.")) in
    let note := set_archived false note in
    Note_save noteId note ;;;
    let userId := uid u in
    User_pull_archived userId noteId ;;;
    ret (Respond 200 (JMessage true "Note removed from archive."))).

(** [archiveNote]: [POST /archive/:id]. *)
Definition archiveNote (noteId : oid) (u : AuthUser) : World → Outcome * World :=
  run (
    let userId := uid u in
    let! note := Note_findById noteId in
    let! _ := some_or note (Next (errorHandler 404 "Note not found")) in
    let! user := User_findById userId in
    let! user := some_or user
        (Next (TypeError "Cannot read properties of null (reading 'archivedNotes')")) in
    guard_or (negb (bool_decide (noteId ∈ archivedNotes user)))
      (Respond 200 (JMessage true "Note already archived")) ;;;
    let user := set_archivedNotes (archivedNotes user ++ [noteId]) user in
    User_save userId user ;;;
    ret (Respond 200 (JMessage true "Note archived successfully"))).

(** [getArchives]: [GET /archived/:id]; the route parameter is not read. *)
Definition getArchives (u : AuthUser) : World → Outcome * World :=
  run (
    let! user := User_findById (uid u) in
    let! user := some_or user
        (Next (TypeError "Cannot read properties of null (reading 'archivedNotes')")) in
    let! populated := gets (populate_notes (archivedNotes user)) in
    ret (Respond 200 (JArchives populated))).

(** ** The behaviour of each handler, branch by branch *)

Section branches.
Implicit Types (id : oid) (u : AuthUser) (w : World) (n : Note) (usr : User).

Lemma removeArchiveNote_not_found id u w :
  notes w !! id = None →
  removeArchiveNote id u w = (Respond 404 (JMessage false "Note not found."), w).
Proof. intros H. unfold removeArchiveNote. handler_simp. by rewrite H. Qed.

Lemma removeArchiveNote_found id u w n :
  notes w !! id = Some n →
  removeArchiveNote id u w =
    (Respond 200 (JMessage true "Note removed from archive."),
     (User_pull_archived (uid u) id (set_notes <[id := set_archived false n]> w)).2).
Proof. intros H. unfold removeArchiveNote. handler_simp. by rewrite H. Qed.

Lemma archiveNote_not_found id u w :
  notes w !! id = None →
  archiveNote id u w = (Next (errorHandler 404 "Note not found"), w).
Proof. intros H. unfold archiveNote. handler_simp. by rewrite H. Qed.

Lemma archiveNote_no_user id u w n :
  notes w !! id = Some n → users w !! uid u = None →
  archiveNote id u w =
    (Next (TypeError "Cannot read properties of null (reading 'archivedNotes')"), w).
Proof. intros H Hu. unfold archiveNote. handler_simp. rewrite H. handler_simp. by rewrite Hu. Qed.

Lemma archiveNote_already id u w n usr :
  notes w !! id = Some n → users w !! uid u = Some usr → id ∈ archivedNotes usr →
  archiveNote id u w = (Respond 200 (JMessage true "Note already archived"), w).
Proof.
  intros H Hu Hin. unfold archiveNote. handler_simp. rewrite H. handler_simp.
  rewrite Hu. handler_simp. by rewrite bool_decide_eq_true_2.
Qed.

Lemma archiveNote_new id u w n usr :
  notes w !! id = Some n → users w !! uid u = Some usr → id ∉ archivedNotes usr →
  archiveNote id u w =
    (Respond 200 (JMessage true "Note archived successfully"),
     set_users <[uid u := set_archivedNotes (archivedNotes usr ++ [id]) usr]> w).
Proof.
  intros H Hu Hin. unfold archiveNote. handler_simp. rewrite H. handler_simp.
  rewrite Hu. handler_simp. by rewrite bool_decide_eq_false_2.
Qed.

Lemma getArchives_found u w usr :
  users w !! uid u = Some usr →
  getArchives u w = (Respond 200 (JArchives (populate_notes (archivedNotes usr) w)), w).
Proof. intros Hu. unfold getArchives. handler_simp. by rewrite Hu. Qed.

#[export] Instance getArchives_read_only u : ReadOnly (getArchives u).
Proof. intros w _. unfold getArchives. handler_simp. by destruct (users w !! uid u). Qed.

Lemma populate_notes_elem_of ids w id n :
  (id, n) ∈ populate_notes ids w ↔ id ∈ ids ∧ notes w !! id = Some n.
Proof.
  unfold populate_notes. rewrite list_elem_of_omap. split.
  - intros (x & Hx & (n' & Hn & [= <- <-])%fmap_Some). done.
  - intros [Hx Hn]. exists id. by rewrite Hn.
Qed.

Lemma populate_notes_all_stored ids w :
  (∀ id, id ∈ ids → is_Some (notes w !! id)) →
  (populate_notes ids w).*1 = ids.
Proof.
  unfold populate_notes. induction ids as [|id ids IH]; intros Hall; [done|].
  destruct (Hall id) as [n Hn]; [by left|]. simpl. rewrite Hn. simpl.
  f_equal. apply IH. intros ??. apply Hall. by right.
Qed.

Lemma filter_ne_absent (x : oid) (l : list oid) : x ∉ l → filter (λ y, y ≠ x) l = l.
Proof.
  induction l as [|y l IH]; [done|]. intros [Hy Hl]%not_elem_of_cons.
  rewrite filter_cons_True by done. by rewrite IH.
Qed.

Lemma filter_ne_snoc (x : oid) (l : list oid) :
  x ∉ l → filter (λ y, y ≠ x) (l ++ [x]) = l.
Proof.
  intros Hx. rewrite filter_app, filter_ne_absent by done.
  rewrite filter_cons_False by (by intros []). by rewrite filter_nil, app_nil_r.
Qed.

Lemma User_pull_absent uid_ id w usr :
  users w !! uid_ = Some usr → id ∉ archivedNotes usr →
  users (User_pull_archived uid_ id w).2 = users w.
Proof.
  intros Hu Hin. simpl. apply map_eq. intros v.
  destruct (decide (v = uid_)) as [->|Hv].
  - rewrite lookup_alter_eq, Hu. simpl.
    by rewrite filter_ne_absent, set_archivedNotes_archivedNotes.
  - by rewrite lookup_alter_ne.
Qed.

End branches.

(** ** Properties *)

Section properties.
Implicit Types (id : oid) (u : AuthUser) (w : World) (n : Note) (usr : User).

(** C14 (archiveNote_idempotent): archiving the same note twice is the same
    as archiving it once: the second call answers [Note already archived]
    and changes nothing. *)
Theorem archiveNote_idempotent id u w n usr :
  notes w !! id = Some n → users w !! uid u = Some usr →
  let w1 := (archiveNote id u w).2 in
  archiveNote id u w1 = (Respond 200 (JMessage true "Note already archived"), w1).
Proof.
  intros H Hu. destruct (decide (id ∈ archivedNotes usr)) as [Hin|Hin].
  - rewrite (archiveNote_already _ _ _ _ _ H Hu Hin). simpl.
    by apply (archiveNote_already _ _ _ n usr).
  - rewrite (archiveNote_new _ _ _ _ _ H Hu Hin). simpl.
    eapply archiveNote_already; simpl; [done | apply lookup_insert_eq |].
    simpl. set_solver.
Qed.

(** After [archiveNote] the caller's archive list
    holds the note id, holds every id it held before and nothing else, and
    is still free of duplicates; the Note collection, and so the note's
    [archived] flag, is left as it was. *)
Theorem archiveNote_adds_once id u w n usr :
  notes w !! id = Some n → users w !! uid u = Some usr → NoDup (archivedNotes usr) →
  let w1 := (archiveNote id u w).2 in
  ∃ usr', users w1 !! uid u = Some usr' ∧
          NoDup (archivedNotes usr') ∧
          (∀ x, x ∈ archivedNotes usr' ↔ x = id ∨ x ∈ archivedNotes usr) ∧
          set_archivedNotes (archivedNotes usr) usr' = usr ∧
          notes w1 = notes w ∧ assets w1 = assets w ∧ calls w1 = calls w.
Proof.
  intros H Hu Hnd. destruct (decide (id ∈ archivedNotes usr)) as [Hin|Hin].
  - rewrite (archiveNote_already _ _ _ _ _ H Hu Hin). simpl. exists usr.
    split_and!; try done; [set_solver | apply set_archivedNotes_archivedNotes].
  - rewrite (archiveNote_new _ _ _ _ _ H Hu Hin). simpl. rewrite lookup_insert_eq.
    eexists; split; [done|]. simpl. split_and!; try done.
    + apply NoDup_app. split_and!; [done | set_solver | apply NoDup_singleton].
    + set_solver.
    + exact (set_archivedNotes_archivedNotes usr).
Qed.

(** [removeArchiveNote] on an existing note
    answers 200, sets the note's [archived] flag to false, and removes every
    occurrence of the note id from the caller's archive list while keeping
    the other ids in order; other users are untouched. *)
Theorem removeArchiveNote_clears id u w n usr :
  notes w !! id = Some n → users w !! uid u = Some usr →
  let r := removeArchiveNote id u w in
  r.1 = Respond 200 (JMessage true "Note removed from archive.") ∧
  notes r.2 !! id = Some (set_archived false n) ∧
  users r.2 !! uid u =
    Some (set_archivedNotes (filter (λ x, x ≠ id) (archivedNotes usr)) usr) ∧
  (∀ v, v ≠ uid u → users r.2 !! v = users w !! v) ∧
  (∀ id', id' ≠ id → notes r.2 !! id' = notes w !! id').
Proof.
  intros H Hu. rewrite (removeArchiveNote_found _ _ _ _ H). simpl. split_and!.
  - done.
  - by rewrite lookup_insert_eq.
  - by rewrite lookup_alter_eq, Hu.
  - intros v Hv. by rewrite lookup_alter_ne.
  - intros id' Hid. by rewrite lookup_insert_ne.
Qed.

(** Unarchiving a note the caller
    never archived succeeds and leaves the User collection as it was; when
    the note's flag was already false the whole state is unchanged. *)
Theorem removeArchiveNote_never_archived id u w n usr :
  notes w !! id = Some n → users w !! uid u = Some usr → id ∉ archivedNotes usr →
  let r := removeArchiveNote id u w in
  r.1 = Respond 200 (JMessage true "Note removed from archive.") ∧
  users r.2 = users w ∧
  (archived n = false → r.2 = w).
Proof.
  intros H Hu Hin. rewrite (removeArchiveNote_found _ _ _ _ H). simpl.
  pose proof (User_pull_absent (uid u) id (set_notes <[id := set_archived false n]> w)
                usr Hu Hin) as Hus.
  simpl in Hus. split_and!; [done | done |]. intros Ha.
  unfold set_users, set_notes. simpl. rewrite Hus, <-Ha, set_archived_archived.
  rewrite insert_id by done. by destruct w.
Qed.

(** Archiving a note that was not in the
    caller's list and then unarchiving it restores the User collection; the
    only trace left is the note's [archived] flag, which is false. *)
Theorem archive_then_unarchive id u w n usr :
  notes w !! id = Some n → users w !! uid u = Some usr → id ∉ archivedNotes usr →
  let w2 := (removeArchiveNote id u (archiveNote id u w).2).2 in
  w2 = set_notes <[id := set_archived false n]> w.
Proof.
  intros H Hu Hin. rewrite (archiveNote_new _ _ _ _ _ H Hu Hin). simpl.
  erewrite removeArchiveNote_found by done. simpl.
  unfold set_users, set_notes. simpl. f_equal.
  apply map_eq. intros v. destruct (decide (v = uid u)) as [->|Hv].
  - rewrite lookup_alter_eq, lookup_insert_eq, Hu. simpl.
    rewrite filter_ne_snoc by done. f_equal. exact (set_archivedNotes_archivedNotes usr).
  - by rewrite lookup_alter_ne, lookup_insert_ne.
Qed.

(** C36 (unarchive_by_one_clears_flag_for_all): when two users have archived
    the same note and one of them unarchives it, the note's [archived] flag
    becomes false although the other user's archive list still holds the
    note: the flag and the lists disagree. *)
Theorem unarchive_by_one_clears_flag_for_all id a b w n ub :
  notes w !! id = Some n → uid a ≠ uid b →
  users w !! uid b = Some ub → id ∈ archivedNotes ub →
  let w1 := (removeArchiveNote id a w).2 in
  (archived <$> notes w1 !! id) = Some false ∧
  ∃ ub', users w1 !! uid b = Some ub' ∧ id ∈ archivedNotes ub'.
Proof.
  intros H Hab Hb Hin. rewrite (removeArchiveNote_found _ _ _ _ H). simpl.
  rewrite lookup_insert_eq, lookup_alter_ne by done. eauto.
Qed.

(** [getArchives] answers with the stored notes
    whose ids are in the caller's archive list: ids of notes that no longer
    exist are left out, and when all exist the ids come in the list's
    order.  The state is not changed. *)
Theorem getArchives_resolves u w usr :
  users w !! uid u = Some usr →
  ∃ l, getArchives u w = (Respond 200 (JArchives l), w) ∧
       (∀ id n, (id, n) ∈ l ↔ id ∈ archivedNotes usr ∧ notes w !! id = Some n) ∧
       ((∀ id, id ∈ archivedNotes usr → is_Some (notes w !! id)) → l.*1 = archivedNotes usr).
Proof.
  intros Hu. rewrite (getArchives_found _ _ _ Hu). eexists; split_and!; [done | |].
  - intros. apply populate_notes_elem_of.
  - apply populate_notes_all_stored.
Qed.

End properties.

(** ** The properties on the sample data *)

Lemma sample_note_10 : notes sample_world !! 10 = Some sample_note.
Proof. reflexivity. Qed.

Lemma sample_user_alice :
  users sample_world !! uid alice = Some (mkUser "alice" "a@x" "h1" []).
Proof. reflexivity. Qed.

Lemma sample_user_bob :
  users sample_world !! uid bob = Some (mkUser "bob" "b@x" "h2" [10]).
Proof. reflexivity. Qed.

Lemma archiveNote_idempotent_witness :
  notes sample_world !! 10 = Some sample_note ∧
  users sample_world !! uid alice = Some (mkUser "alice" "a@x" "h1" []) ∧
  let w1 := (archiveNote 10 alice sample_world).2 in
  archiveNote 10 alice w1 = (Respond 200 (JMessage true "Note already archived"), w1).
Proof.
  exact (conj sample_note_10 (conj sample_user_alice
    (archiveNote_idempotent 10 alice sample_world _ _ sample_note_10 sample_user_alice))).
Defined.

Lemma archiveNote_adds_once_witness :
  notes sample_world !! 10 = Some sample_note ∧
  users sample_world !! uid alice = Some (mkUser "alice" "a@x" "h1" []) ∧
  NoDup (archivedNotes (mkUser "alice" "a@x" "h1" [])) ∧
  let w1 := (archiveNote 10 alice sample_world).2 in
  ∃ usr', users w1 !! uid alice = Some usr' ∧
          NoDup (archivedNotes usr') ∧
          (∀ x, x ∈ archivedNotes usr' ↔
                x = 10 ∨ x ∈ archivedNotes (mkUser "alice" "a@x" "h1" [])) ∧
          set_archivedNotes (archivedNotes (mkUser "alice" "a@x" "h1" [])) usr' =
            mkUser "alice" "a@x" "h1" [] ∧
          notes w1 = notes sample_world ∧ assets w1 = assets sample_world ∧
          calls w1 = calls sample_world.
Proof.
  exact (conj sample_note_10 (conj sample_user_alice (conj (NoDup_nil_2 : NoDup [])
    (archiveNote_adds_once 10 alice sample_world _ _ sample_note_10 sample_user_alice
       (NoDup_nil_2 : NoDup []))))).
Defined.

Lemma removeArchiveNote_clears_witness :
  notes sample_world !! 10 = Some sample_note ∧
  users sample_world !! uid bob = Some (mkUser "bob" "b@x" "h2" [10]) ∧
  let r := removeArchiveNote 10 bob sample_world in
  r.1 = Respond 200 (JMessage true "Note removed from archive.") ∧
  notes r.2 !! 10 = Some (set_archived false sample_note) ∧
  users r.2 !! uid bob =
    Some (set_archivedNotes (filter (λ x, x ≠ 10) [10]) (mkUser "bob" "b@x" "h2" [10])) ∧
  (∀ v, v ≠ uid bob → users r.2 !! v = users sample_world !! v) ∧
  (∀ id', id' ≠ 10 → notes r.2 !! id' = notes sample_world !! id').
Proof.
  exact (conj sample_note_10 (conj sample_user_bob
    (removeArchiveNote_clears 10 bob sample_world _ _ sample_note_10 sample_user_bob))).
Defined.

Lemma sample_alice_never_archived : 10 ∉ archivedNotes (mkUser "alice" "a@x" "h1" []).
Proof. apply not_elem_of_nil. Qed.

Lemma removeArchiveNote_never_archived_witness :
  notes sample_world !! 10 = Some sample_note ∧
  users sample_world !! uid alice = Some (mkUser "alice" "a@x" "h1" []) ∧
  (10 ∉ archivedNotes (mkUser "alice" "a@x" "h1" [])) ∧
  let r := removeArchiveNote 10 alice sample_world in
  r.1 = Respond 200 (JMessage true "Note removed from archive.") ∧
  users r.2 = users sample_world ∧
  (archived sample_note = false → r.2 = sample_world).
Proof.
  exact (conj sample_note_10 (conj sample_user_alice (conj sample_alice_never_archived
    (removeArchiveNote_never_archived 10 alice sample_world _ _ sample_note_10
       sample_user_alice sample_alice_never_archived)))).
Defined.

Lemma archive_then_unarchive_witness :
  notes sample_world !! 10 = Some sample_note ∧
  users sample_world !! uid alice = Some (mkUser "alice" "a@x" "h1" []) ∧
  (10 ∉ archivedNotes (mkUser "alice" "a@x" "h1" [])) ∧
  let w2 := (removeArchiveNote 10 alice (archiveNote 10 alice sample_world).2).2 in
  w2 = set_notes <[10 := set_archived false sample_note]> sample_world.
Proof.
  exact (conj sample_note_10 (conj sample_user_alice (conj sample_alice_never_archived
    (archive_then_unarchive 10 alice sample_world _ _ sample_note_10
       sample_user_alice sample_alice_never_archived)))).
Defined.

Lemma sample_bob_archived : 10 ∈ archivedNotes (mkUser "bob" "b@x" "h2" [10]).
Proof. apply list_elem_of_singleton. reflexivity. Qed.

Lemma sample_alice_not_bob : uid alice ≠ uid bob.
Proof. discriminate. Qed.

Lemma unarchive_by_one_clears_flag_for_all_witness :
  notes sample_world !! 10 = Some sample_note ∧ uid alice ≠ uid bob ∧
  users sample_world !! uid bob = Some (mkUser "bob" "b@x" "h2" [10]) ∧
  10 ∈ archivedNotes (mkUser "bob" "b@x" "h2" [10]) ∧
  let w1 := (removeArchiveNote 10 alice sample_world).2 in
  (archived <$> notes w1 !! 10) = Some false ∧
  ∃ ub', users w1 !! uid bob = Some ub' ∧ 10 ∈ archivedNotes ub'.
Proof.
  exact (conj sample_note_10 (conj sample_alice_not_bob (conj sample_user_bob
    (conj sample_bob_archived
      (unarchive_by_one_clears_flag_for_all 10 alice bob sample_world _ _ sample_note_10
         sample_alice_not_bob sample_user_bob sample_bob_archived))))).
Defined.

Lemma getArchives_resolves_witness :
  users sample_world !! uid bob = Some (mkUser "bob" "b@x" "h2" [10]) ∧
  ∃ l, getArchives bob sample_world = (Respond 200 (JArchives l), sample_world) ∧
       (∀ id n, (id, n) ∈ l ↔ id ∈ archivedNotes (mkUser "bob" "b@x" "h2" [10]) ∧
                               notes sample_world !! id = Some n) ∧
       ((∀ id, id ∈ archivedNotes (mkUser "bob" "b@x" "h2" [10]) →
               is_Some (notes sample_world !! id)) →
        l.*1 = archivedNotes (mkUser "bob" "b@x" "h2" [10])).
Proof.
  exact (conj sample_user_bob (getArchives_resolves bob sample_world _ sample_user_bob)).
Defined.
