(* ===== verification/Lifecycle.v ===== *)
(** * Lifecycle: creating, updating, deleting and reading a note

    [notesUploading], [updateNotes], [deleteNotes] and [getNotes] of
    [controllers/uploading.controller.js], and the middleware
    [ensureFileContent] of [routes/uploading.route.js].  These are the
    handlers that touch both stores: the Note collection and Cloudinary.

    The order of effects is the order of the source.  [notesUploading]
    checks that there is a file or a locator, uploads the file, and only
    then checks the required fields.  [updateNotes] destroys the object the
    old locator names and then uploads the new file.  [deleteNotes] destroys
    the object and then deletes the record; a rejected destroy call skips
    the deletion.

    The theorems give each handler's answer and final state on every
    branch, and state what follows for the two stores. *)

From S2P Require Import Prelude JsString Model Contract Cloudinary.

Local Open Scope string_scope.
Local Open Scope list_scope.
Local Open Scope handler_scope.

(** [ensureFileContent]: [None] stands for [next()]. *)
Definition ensureFileContent (file : option File) (body : ReqBody) (path : string) :
    option Outcome :=
  if negb (bool_decide (is_Some file)) && negb (truthy_opt (field body "fileUrl"))
     && negb (starts_with "/update/" path)
  then Some (Respond 400
         (JMessage false "No file content provided. Upload a file or provide a URL."))
  else None.

Definition requiredFields : list string :=
  ["title"; "collegeName"; "courseName"; "batch"; "subjectName"; "semester"].

(** [requiredFields.filter(field => !req.body[field])]. *)
Definition missingFields (body : ReqBody) : list string :=
  filter (λ f, negb (truthy_opt (field body f))) requiredFields.

(** The document handed to [Note.create], with the schema defaults. *)
Definition new_note (body : ReqBody) (u : AuthUser) (fileUrl fileName fileType : string)
    (env : Env) : Note :=
  {| title := js_or (field body "title") "";
     description := js_or (field body "description") "";
     collegeName := js_or (field body "collegeName") "";
     courseName := js_or (field body "courseName") "";
     batch := js_or (field body "batch") "";
     subjectName := js_or (field body "subjectName") "";
     semester := js_or (field body "semester") "";
     uploader := default (uid u) (body_uploader body);
     fileUrl := fileUrl; fileName := fileName; fileType := fileType;
     likes := []; comments := []; archived := false; downloadCount := 0;
     createdAt := now env |}.

(** [notesUploading]: [POST /create]. *)
Definition notesUploading (file : option File) (body : ReqBody) (u : AuthUser) (env : Env) :
    World → Outcome * World :=
  run (
    guard_or (bool_decide (is_Some file) || truthy_opt (field body "fileUrl"))
      (Respond 400 (JMessage false "No file or file URL provided")) ;;;
    let! blob :=
      match file with
      | Some f =>
          let! result := uploadToCloudinary (buffer f) (originalname f) env in
          match result with
          | Resolved result => ret (secure_url result, originalname f, mimetype f)
          | Rejected m => exit (Respond 500 (JFailure "File upload failed" m))
          end
      | None =>
          ret (js_or (field body "fileUrl") "",
               js_or (field body "fileName") "Uploaded File",
               js_or (field body "fileType") "application/octet-stream")
      end in
    let '(fileUrl, fileName, fileType) := blob in
    let missing := missingFields body in
    guard_or (bool_decide (length missing = 0))
      (Respond 400 (JMessage false ("Missing required fields: " +:+ join ", " missing))) ;;;
    let doc := new_note body u fileUrl fileName fileType env in
    let! id := Note_create doc in
    ret (Respond 201 (JData "Note uploaded successfully" id doc))).

(** [deleteNotes]: [DELETE /delete/:id]. *)
Definition deleteNotes (id : oid) (u : AuthUser) (env : Env) : World → Outcome * World :=
  run (
    let! note := Note_findById id in
    let! note := some_or note (Next (errorHandler 404 "Notes not found")) in
    guard_or (bool_decide (uid u = uploader note))
      (Next (errorHandler 401 "You can only delete your own uploads")) ;;;
    let! destroyed := destroy_if_managed (fileUrl note) env in
    match destroyed with
    | Rejected m => exit (Next (new_Error m))
    | Resolved _ =>
        Note_findByIdAndDelete id ;;;
        ret (Respond 200 (JText "Notes has been deleted"))
    end).

(** The seven assignments [if (req.body.f) note.f = req.body.f]. *)
Definition update_fields (body : ReqBody) (n : Note) : Note :=
  set_meta (js_or (field body "title") (title n))
           (js_or (field body "description") (description n))
           (js_or (field body "subjectName") (subjectName n))
           (js_or (field body "collegeName") (collegeName n))
           (js_or (field body "courseName") (courseName n))
           (js_or (field body "batch") (batch n))
           (js_or (field body "semester") (semester n)) n.

(** [updateNotes]: [POST /update/:id]. *)
Definition updateNotes (id : oid) (file : option File) (body : ReqBody) (u : AuthUser)
    (env : Env) : World → Outcome * World :=
  run (
    let! note := Note_findById id in
    let! note := some_or note (Next (errorHandler 404 "Notes not found")) in
    guard_or (bool_decide (uid u = uploader note))
      (Next (errorHandler 401 "You can only update your own uploads")) ;;;
    let! note :=
      match file with
      | Some f =>
          let! destroyed := destroy_if_managed (fileUrl note) env in
          match destroyed with
          | Rejected _ =>
              exit (Respond 500 (JMessage false "Error updating file in cloud storage"))
          | Resolved _ =>
              let! result := uploadToCloudinary (buffer f) (originalname f) env in
              match result with
              | Rejected _ =>
                  exit (Respond 500 (JMessage false "Error updating file in cloud storage"))
              | Resolved result =>
                  ret (set_file (secure_url result) (originalname f) (mimetype f) note)
              end
          end
      | None =>
          if truthy_opt (field body "fileUrl") then
            ret (set_file (js_or (field body "fileUrl") "")
                          (js_or (field body "fileName") "File from URL")
                          (js_or (field body "fileType") "application/octet-stream") note)
          else ret note
      end in
    let note := update_fields body note in
    Note_save id note ;;;
    ret (Respond 200 (JData "Note updated successfully" id note))).

(** [getNotes]: [GET /get/:id]. *)
Definition getNotes (id : oid) : World → Outcome * World :=
  run (
    let! note := Note_findById id in
    let! note := some_or note (Next (errorHandler 404 "Notes not found")) in
    ret (Respond 200 (JNote id note))).

(** Request bodies of the sample data. *)
Definition full_body : ReqBody :=
  {| fields := {[ "title" := "Graphs"; "collegeName" := "MIT"; "courseName" := "CS";
                  "batch" := "2025"; "subjectName" := "Algorithms"; "semester" := "3" ]};
     body_uploader := None |}.

Definition untitled_body : ReqBody :=
  {| fields := {[ "collegeName" := "MIT"; "courseName" := "CS";
                  "batch" := "2025"; "subjectName" := "Algorithms"; "semester" := "3" ]};
     body_uploader := None |}.

Definition empty_body : ReqBody := {| fields := ∅; body_uploader := None |}.

(** ** Required fields *)

Lemma missingFields_nil body :
  missingFields body = [] ↔ ∀ f, f ∈ requiredFields → truthy_opt (field body f) = true.
Proof.
  unfold missingFields. rewrite filter_eq_nil, Forall_forall.
  apply forall_proper; intros f. apply forall_proper; intros _.
  destruct (truthy_opt (field body f)); naive_solver.
Qed.

Lemma elem_of_missingFields body f :
  f ∈ missingFields body ↔ f ∈ requiredFields ∧ truthy_opt (field body f) = false.
Proof.
  unfold missingFields. rewrite list_elem_of_filter.
  destruct (truthy_opt (field body f)); naive_solver.
Qed.

Lemma missingFields_length body :
  bool_decide (length (missingFields body) = 0) = bool_decide (missingFields body = []).
Proof. apply bool_decide_ext. by rewrite length_zero_iff_nil. Qed.

(** ** The behaviour of each handler, branch by branch *)

Section branches.
Implicit Types (id : oid) (u : AuthUser) (w : World) (n : Note) (env : Env)
  (body : ReqBody) (f : File).

Lemma notesUploading_no_content body u env w :
  truthy_opt (field body "fileUrl") = false →
  notesUploading None body u env w =
    (Respond 400 (JMessage false "No file or file URL provided"), w).
Proof. intros H. unfold notesUploading. handler_simp. by rewrite H. Qed.

Lemma notesUploading_upload_rejected f body u env w m :
  upload_error env = Some m →
  notesUploading (Some f) body u env w =
    (Respond 500 (JFailure "File upload failed" m),
     (uploadToCloudinary (buffer f) (originalname f) env w).2).
Proof.
  intros H. unfold notesUploading. handler_simp.
  by rewrite (uploadToCloudinary_error _ _ _ _ _ H).
Qed.

Lemma notesUploading_file_missing f body u env w :
  upload_error env = None → missingFields body ≠ [] →
  notesUploading (Some f) body u env w =
    (Respond 400 (JMessage false
       ("Missing required fields: " +:+ join ", " (missingFields body))),
     (uploadToCloudinary (buffer f) (originalname f) env w).2).
Proof.
  intros H Hm. unfold notesUploading. handler_simp.
  rewrite (uploadToCloudinary_ok _ _ _ _ H). handler_simp.
  by rewrite missingFields_length, bool_decide_eq_false_2.
Qed.

Lemma notesUploading_file_created f body u env w :
  upload_error env = None → missingFields body = [] →
  let url := secure_url_of (upload_public_id env (originalname f))
               (upload_format (originalname f)) in
  let doc := new_note body u url (originalname f) (mimetype f) env in
  notesUploading (Some f) body u env w =
    (Respond 201 (JData "Note uploaded successfully" (next_oid w) doc),
     (Note_create doc (uploadToCloudinary (buffer f) (originalname f) env w).2).2).
Proof.
  intros H Hm. unfold notesUploading. handler_simp.
  rewrite (uploadToCloudinary_ok _ _ _ _ H). handler_simp.
  by rewrite missingFields_length, bool_decide_eq_true_2.
Qed.

Lemma notesUploading_url_missing body u env w :
  truthy_opt (field body "fileUrl") = true → missingFields body ≠ [] →
  notesUploading None body u env w =
    (Respond 400 (JMessage false
       ("Missing required fields: " +:+ join ", " (missingFields body))), w).
Proof.
  intros H Hm. unfold notesUploading. handler_simp. rewrite H. handler_simp.
  by rewrite missingFields_length, bool_decide_eq_false_2.
Qed.

Lemma notesUploading_url_created body u env w :
  truthy_opt (field body "fileUrl") = true → missingFields body = [] →
  let doc := new_note body u (js_or (field body "fileUrl") "")
               (js_or (field body "fileName") "Uploaded File")
               (js_or (field body "fileType") "application/octet-stream") env in
  notesUploading None body u env w =
    (Respond 201 (JData "Note uploaded successfully" (next_oid w) doc),
     (Note_create doc w).2).
Proof.
  intros H Hm. unfold notesUploading. handler_simp. rewrite H. handler_simp.
  by rewrite missingFields_length, bool_decide_eq_true_2.
Qed.

Lemma deleteNotes_not_found id u env w :
  notes w !! id = None →
  deleteNotes id u env w = (Next (errorHandler 404 "Notes not found"), w).
Proof. intros H. unfold deleteNotes. handler_simp. by rewrite H. Qed.

Lemma deleteNotes_unauthorized id u env w n :
  notes w !! id = Some n → uid u ≠ uploader n →
  deleteNotes id u env w =
    (Next (errorHandler 401 "You can only delete your own uploads"), w).
Proof.
  intros H Hu. unfold deleteNotes. handler_simp. rewrite H. handler_simp.
  by rewrite bool_decide_eq_false_2.
Qed.

Lemma deleteNotes_authorized id u env w n :
  notes w !! id = Some n → uid u = uploader n →
  deleteNotes id u env w =
    match destroy_if_managed (fileUrl n) env w with
    | (inr (Resolved _), w1) =>
        (Respond 200 (JText "Notes has been deleted"), set_notes (delete id) w1)
    | (inr (Rejected m), w1) => (Next (new_Error m), w1)
    | (inl r, w1) => (r, w1)
    end.
Proof.
  intros H Hu. unfold deleteNotes. handler_simp. rewrite H. handler_simp.
  rewrite bool_decide_eq_true_2 by done. handler_simp.
  by destruct (destroy_if_managed (fileUrl n) env w) as [[?|[?|?]] ?].
Qed.

Lemma updateNotes_not_found id file body u env w :
  notes w !! id = None →
  updateNotes id file body u env w = (Next (errorHandler 404 "Notes not found"), w).
Proof. intros H. unfold updateNotes. handler_simp. by rewrite H. Qed.

Lemma updateNotes_unauthorized id file body u env w n :
  notes w !! id = Some n → uid u ≠ uploader n →
  updateNotes id file body u env w =
    (Next (errorHandler 401 "You can only update your own uploads"), w).
Proof.
  intros H Hu. unfold updateNotes. handler_simp. rewrite H. handler_simp.
  by rewrite bool_decide_eq_false_2.
Qed.

Lemma updateNotes_no_file id body u env w n :
  notes w !! id = Some n → uid u = uploader n →
  let n1 := if truthy_opt (field body "fileUrl")
            then set_file (js_or (field body "fileUrl") "")
                   (js_or (field body "fileName") "File from URL")
                   (js_or (field body "fileType") "application/octet-stream") n
            else n in
  updateNotes id None body u env w =
    (Respond 200 (JData "Note updated successfully" id (update_fields body n1)),
     set_notes <[id := update_fields body n1]> w).
Proof.
  intros H Hu. unfold updateNotes. handler_simp. rewrite H. handler_simp.
  rewrite bool_decide_eq_true_2 by done. handler_simp.
  by destruct (truthy_opt (field body "fileUrl")).
Qed.

Lemma updateNotes_file id f body u env w n :
  notes w !! id = Some n → uid u = uploader n →
  updateNotes id (Some f) body u env w =
    match destroy_if_managed (fileUrl n) env w with
    | (inr (Resolved _), w1) =>
        match uploadToCloudinary (buffer f) (originalname f) env w1 with
        | (inr (Resolved r), w2) =>
            let n' := update_fields body
                        (set_file (secure_url r) (originalname f) (mimetype f) n) in
            (Respond 200 (JData "Note updated successfully" id n'),
             set_notes <[id := n']> w2)
        | (inr (Rejected _), w2) =>
            (Respond 500 (JMessage false "Error updating file in cloud storage"), w2)
        | (inl r, w2) => (r, w2)
        end
    | (inr (Rejected _), w1) =>
        (Respond 500 (JMessage false "Error updating file in cloud storage"), w1)
    | (inl r, w1) => (r, w1)
    end.
Proof.
  intros H Hu. unfold updateNotes. handler_simp. rewrite H. handler_simp.
  rewrite bool_decide_eq_true_2 by done. handler_simp.
  destruct (destroy_if_managed (fileUrl n) env w) as [[?|[?|?]] w1]; try done.
  by destruct (uploadToCloudinary (buffer f) (originalname f) env w1) as [[?|[?|?]] ?].
Qed.

Lemma getNotes_not_found id w :
  notes w !! id = None → getNotes id w = (Next (errorHandler 404 "Notes not found"), w).
Proof. intros H. unfold getNotes. handler_simp. by rewrite H. Qed.

Lemma getNotes_found id w n :
  notes w !! id = Some n → getNotes id w = (Respond 200 (JNote id n), w).
Proof. intros H. unfold getNotes. handler_simp. by rewrite H. Qed.

#[export] Instance getNotes_read_only id : ReadOnly (getNotes id).
Proof. intros w _. unfold getNotes. handler_simp. by destruct (notes w !! id). Qed.

End branches.

(** ** Facts shared by the properties *)

Section facts.
Implicit Types (id : oid) (u : AuthUser) (w : World) (n : Note) (env : Env)
  (body : ReqBody) (f : File).

Lemma upload_frame buf name env w :
  notes (uploadToCloudinary buf name env w).2 = notes w ∧
  users (uploadToCloudinary buf name env w).2 = users w ∧
  next_oid (uploadToCloudinary buf name env w).2 = next_oid w.
Proof.
  unfold uploadToCloudinary, upload_stream. handler_simp.
  by destruct (upload_error env).
Qed.

Lemma upload_calls buf name env w :
  calls (uploadToCloudinary buf name env w).2 =
    calls w ++ [CallUpload (upload_public_id env name)].
Proof.
  unfold uploadToCloudinary, upload_stream. handler_simp.
  by destruct (upload_error env).
Qed.

Lemma destroy_if_managed_calls url env w :
  calls (destroy_if_managed url env w).2 =
    calls w ++ (if on_cloudinary url then [CallDestroy (publicId_of_url url)] else []).
Proof.
  unfold destroy_if_managed, destroy. destruct (on_cloudinary url); handler_simp.
  - by destruct (destroy_error env).
  - by rewrite app_nil_r.
Qed.

Lemma destroy_if_managed_settles url env w :
  (destroy_if_managed url env w).1 =
    inr (if on_cloudinary url then
           match destroy_error env with Some m => Rejected m | None => Resolved tt end
         else Resolved tt).
Proof.
  unfold destroy_if_managed, destroy. destruct (on_cloudinary url); handler_simp; [|done].
  by destruct (destroy_error env).
Qed.

Lemma new_note_required body (fld : string) :
  missingFields body = [] → fld ∈ requiredFields →
  field body fld = Some (js_or (field body fld) "").
Proof.
  intros Hm Hf. symmetry. apply js_or_truthy. by eapply missingFields_nil.
Qed.

Lemma deleteNotes_accepted id u env w n :
  notes w !! id = Some n → uid u = uploader n →
  on_cloudinary (fileUrl n) = false ∨ destroy_error env = None →
  (deleteNotes id u env w).1 = Respond 200 (JText "Notes has been deleted") ∧
  notes (deleteNotes id u env w).2 = delete id (notes w) ∧
  users (deleteNotes id u env w).2 = users w.
Proof.
  intros H Hu Hok. rewrite (deleteNotes_authorized _ _ _ _ _ H Hu).
  pose proof (destroy_if_managed_frame (fileUrl n) env w) as (Hn1 & Hu1 & _).
  pose proof (destroy_if_managed_settles (fileUrl n) env w) as Hs.
  destruct (destroy_if_managed (fileUrl n) env w) as [[?|[[]|?]] w1]; simpl in *.
  - done.
  - by rewrite Hn1.
  - destruct Hok as [Hok|Hok]; rewrite Hok in Hs; [done|].
    by destruct (on_cloudinary (fileUrl n)).
Qed.

Lemma update_fields_frame body n :
  uploader (update_fields body n) = uploader n ∧
  likes (update_fields body n) = likes n ∧
  comments (update_fields body n) = comments n ∧
  archived (update_fields body n) = archived n ∧
  downloadCount (update_fields body n) = downloadCount n ∧
  createdAt (update_fields body n) = createdAt n ∧
  fileUrl (update_fields body n) = fileUrl n ∧
  fileName (update_fields body n) = fileName n ∧
  fileType (update_fields body n) = fileType n.
Proof. done. Qed.

End facts.

(** ** Properties *)

Section properties.
Implicit Types (id : oid) (u : AuthUser) (w : World) (n : Note) (env : Env)
  (body : ReqBody) (f : File).

(** C39 (notesUploading_all_or_nothing): whenever [notesUploading] answers
    with anything but 201, no note has been created: the Note collection,
    the User collection and the ObjectId allocator are as before. *)
Theorem notesUploading_all_or_nothing file body u env w :
  let r := notesUploading file body u env w in
  (∀ b, r.1 ≠ Respond 201 b) →
  notes r.2 = notes w ∧ users r.2 = users w ∧ next_oid r.2 = next_oid w.
Proof.
  intros r Hr. subst r. destruct file as [f|].
  - destruct (upload_error env) as [m|] eqn:He.
    + rewrite (notesUploading_upload_rejected _ _ _ _ _ _ He). apply upload_frame.
    + destruct (decide (missingFields body = [])) as [Hm|Hm].
      * rewrite (notesUploading_file_created _ _ _ _ _ He Hm) in Hr. by edestruct Hr.
      * rewrite (notesUploading_file_missing _ _ _ _ _ He Hm). apply upload_frame.
  - destruct (truthy_opt (field body "fileUrl")) eqn:Hu.
    + destruct (decide (missingFields body = [])) as [Hm|Hm].
      * rewrite (notesUploading_url_created _ _ _ _ Hu Hm) in Hr. by edestruct Hr.
      * by rewrite (notesUploading_url_missing _ _ _ _ Hu Hm).
    + by rewrite (notesUploading_no_content _ _ _ _ Hu).
Qed.

(** C9 (notesUploading_creates): with a file whose upload succeeds, or with
    a locator in the body, and with the six required fields present,
    [notesUploading] answers 201 and stores one new note under a fresh id:
    the required fields are those of the body, the description defaults to
    the empty string, the uploader is the body's [uploader] if given and the
    caller otherwise, likes and comments are empty, and [getNotes] on the
    new id returns the note.  Every other note is untouched. *)
Theorem notesUploading_creates file body u env w :
  (file = None → truthy_opt (field body "fileUrl") = true) →
  upload_error env = None → missingFields body = [] →
  ∃ doc w', notesUploading file body u env w =
              (Respond 201 (JData "Note uploaded successfully" (next_oid w) doc), w') ∧
    getNotes (next_oid w) w' = (Respond 200 (JNote (next_oid w) doc), w') ∧
    (∀ id, id ≠ next_oid w → notes w' !! id = notes w !! id) ∧
    next_oid w' = S (next_oid w) ∧
    (∀ fld, fld ∈ requiredFields → field body fld = Some (js_or (field body fld) "")) ∧
    doc = new_note body u (fileUrl doc) (fileName doc) (fileType doc) env ∧
    (fileUrl doc, fileName doc, fileType doc) =
      match file with
      | Some f => (secure_url_of (upload_public_id env (originalname f))
                     (upload_format (originalname f)), originalname f, mimetype f)
      | None => (js_or (field body "fileUrl") "",
                 js_or (field body "fileName") "Uploaded File",
                 js_or (field body "fileType") "application/octet-stream")
      end.
Proof.
  intros Hfile He Hm. destruct file as [f|].
  - rewrite (notesUploading_file_created _ _ _ _ _ He Hm). do 2 eexists.
    split; [done|]. destruct (upload_frame (buffer f) (originalname f) env w) as (Hn & _ & Ho).
    split_and!; try done.
    + apply getNotes_found. simpl. rewrite Ho. apply lookup_insert_eq.
    + intros id Hid. simpl. rewrite Ho, lookup_insert_ne by done. by rewrite Hn.
    + simpl. by rewrite Ho.
    + intros. by eapply new_note_required.
  - rewrite (notesUploading_url_created _ _ _ _ (Hfile eq_refl) Hm). do 2 eexists.
    split; [done|]. split_and!; try done.
    + apply getNotes_found. simpl. apply lookup_insert_eq.
    + intros id Hid. simpl. by rewrite lookup_insert_ne.
    + intros. by eapply new_note_required.
Qed.

(** C25 (notesUploading_uploads_before_validating): when a file is sent and a
    required field is missing, [notesUploading] answers 400 with the list of
    missing fields, but the file has already been sent to Cloudinary: an
    upload call is logged and the object is stored, with no note referring
    to it. *)
Theorem notesUploading_uploads_before_validating f body u env w :
  upload_error env = None → missingFields body ≠ [] →
  let r := notesUploading (Some f) body u env w in
  let id := upload_public_id env (originalname f) in
  r.1 = Respond 400 (JMessage false
          ("Missing required fields: " +:+ join ", " (missingFields body))) ∧
  notes r.2 = notes w ∧
  calls r.2 = calls w ++ [CallUpload id] ∧
  assets r.2 !! id = Some (mkAsset (buffer f) (upload_format (originalname f))).
Proof.
  intros He Hm. rewrite (notesUploading_file_missing _ _ _ _ _ He Hm). simpl.
  split_and!; [done | apply upload_frame | apply upload_calls |].
  rewrite (uploadToCloudinary_ok _ _ _ _ He). simpl. apply lookup_insert_eq.
Qed.

(** Without a file, a request
    with no locator, or with a locator but a missing required field, is
    answered 400 and no store is touched. *)
Theorem notesUploading_validates_locator_path body u env w :
  truthy_opt (field body "fileUrl") = false ∨ missingFields body ≠ [] →
  ∃ msg, notesUploading None body u env w = (Respond 400 (JMessage false msg), w).
Proof.
  intros Hc. destruct (truthy_opt (field body "fileUrl")) eqn:Hu.
  - destruct Hc as [|Hm]; [done|].
    rewrite (notesUploading_url_missing _ _ _ _ Hu Hm). eauto.
  - rewrite (notesUploading_no_content _ _ _ _ Hu). eauto.
Qed.

(** C1 (lifecycle_authorization): a caller who is not the note's uploader
    can neither update nor delete it: both handlers forward a 401 error and
    leave both stores untouched, whatever the request carries. *)
Theorem lifecycle_authorization id file body u env w n :
  notes w !! id = Some n → uid u ≠ uploader n →
  updateNotes id file body u env w =
    (Next (errorHandler 401 "You can only update your own uploads"), w) ∧
  deleteNotes id u env w =
    (Next (errorHandler 401 "You can only delete your own uploads"), w).
Proof.
  intros H Hu. split; [by eapply updateNotes_unauthorized | by eapply deleteNotes_unauthorized].
Qed.

(** C28 (updateNotes_destroys_before_upload): when the owner replaces the
    file of a note whose locator is on Cloudinary, the destroy call for the
    old object is issued before the upload of the new one; if the upload
    then fails the handler answers 500 and the record still carries the old
    locator, for which destroy has already been called. *)
Theorem updateNotes_destroys_before_upload id f body u env w n :
  notes w !! id = Some n → uid u = uploader n →
  on_cloudinary (fileUrl n) = true → destroy_error env = None →
  let r := updateNotes id (Some f) body u env w in
  calls r.2 = calls w ++ [CallDestroy (publicId_of_url (fileUrl n));
                          CallUpload (upload_public_id env (originalname f))] ∧
  (∀ m, upload_error env = Some m →
     r.1 = Respond 500 (JMessage false "Error updating file in cloud storage") ∧
     notes r.2 = notes w).
Proof.
  intros H Hu Hc Hd. rewrite (updateNotes_file _ _ _ _ _ _ _ H Hu).
  rewrite (destroy_if_managed_ok _ _ _ Hc Hd).
  destruct (upload_error env) as [m|] eqn:He.
  - rewrite (uploadToCloudinary_error _ _ _ _ _ He). simpl.
    rewrite <-app_assoc. split; [done|]. by intros ? [= <-].
  - rewrite (uploadToCloudinary_ok _ _ _ _ He). simpl.
    rewrite <-app_assoc. split; [done|]. by intros ? [=].
Qed.

(** C38 (updateNotes_failure_keeps_record): whenever [updateNotes] does not
    answer 200, the Note collection is exactly as before; in particular a
    failed upload leaves [fileUrl], [fileName] and [fileType] of the note
    unchanged. *)
Theorem updateNotes_failure_keeps_record id file body u env w :
  let r := updateNotes id file body u env w in
  (∀ b, r.1 ≠ Respond 200 b) → notes r.2 = notes w ∧ users r.2 = users w.
Proof.
  intros r Hr. subst r. destruct (notes w !! id) as [n|] eqn:H.
  2: { by rewrite (updateNotes_not_found _ _ _ _ _ _ H). }
  destruct (decide (uid u = uploader n)) as [Hu|Hu].
  2: { by rewrite (updateNotes_unauthorized _ _ _ _ _ _ _ H Hu). }
  destruct file as [f|].
  2: { rewrite (updateNotes_no_file _ _ _ _ _ _ H Hu) in Hr. by edestruct Hr. }
  rewrite (updateNotes_file _ _ _ _ _ _ _ H Hu) in *.
  pose proof (destroy_if_managed_frame (fileUrl n) env w) as (Hn1 & Hu1 & _).
  pose proof (destroy_if_managed_settles (fileUrl n) env w) as Hs.
  destruct (destroy_if_managed (fileUrl n) env w) as [[?|[[]|?]] w1]; simpl in *; try done.
  pose proof (upload_frame (buffer f) (originalname f) env w1) as (Hn2 & Hu2 & _).
  destruct (uploadToCloudinary (buffer f) (originalname f) env w1) as [[?|[?|?]] w2] eqn:Hup;
    simpl in *; [| by edestruct Hr | split; congruence].
  unfold uploadToCloudinary, upload_stream in Hup. handler_simp.
  by destruct (upload_error env).
Qed.

(** C17 (updateNotes_partial_update): an update without a file changes only
    what the body names: a descriptive field is overwritten when the body
    carries a non-empty value for it and kept otherwise (an empty string
    counts as absent); the blob reference is replaced as a whole when the
    body carries a locator and kept otherwise; uploader, likes, comments,
    flag, counter and creation time are kept; Cloudinary is not called. *)
Theorem updateNotes_partial_update id body u env w n :
  notes w !! id = Some n → uid u = uploader n →
  ∃ n', updateNotes id None body u env w =
          (Respond 200 (JData "Note updated successfully" id n'), set_notes <[id := n']> w) ∧
    title n' = js_or (field body "title") (title n) ∧
    description n' = js_or (field body "description") (description n) ∧
    subjectName n' = js_or (field body "subjectName") (subjectName n) ∧
    collegeName n' = js_or (field body "collegeName") (collegeName n) ∧
    courseName n' = js_or (field body "courseName") (courseName n) ∧
    batch n' = js_or (field body "batch") (batch n) ∧
    semester n' = js_or (field body "semester") (semester n) ∧
    (fileUrl n', fileName n', fileType n') =
      (if truthy_opt (field body "fileUrl")
       then (js_or (field body "fileUrl") "", js_or (field body "fileName") "File from URL",
             js_or (field body "fileType") "application/octet-stream")
       else (fileUrl n, fileName n, fileType n)) ∧
    (uploader n', likes n', comments n', archived n', downloadCount n', createdAt n') =
      (uploader n, likes n, comments n, archived n, downloadCount n, createdAt n).
Proof.
  intros H Hu. rewrite (updateNotes_no_file _ _ _ _ _ _ H Hu). eexists. split; [done|].
  by destruct (truthy_opt (field body "fileUrl")).
Qed.

(** When the owner sends a new file and both
    Cloudinary calls succeed, the note's locator, file name and type are
    those of the new upload, written together, and the new object is in the
    store. *)
Theorem updateNotes_replaces_file id f body u env w n :
  notes w !! id = Some n → uid u = uploader n →
  destroy_error env = None → upload_error env = None →
  let r := updateNotes id (Some f) body u env w in
  let pid := upload_public_id env (originalname f) in
  ∃ n', r.1 = Respond 200 (JData "Note updated successfully" id n') ∧
        notes r.2 = <[id := n']> (notes w) ∧
        n' = update_fields body
               (set_file (secure_url_of pid (upload_format (originalname f)))
                  (originalname f) (mimetype f) n) ∧
        assets r.2 !! pid = Some (mkAsset (buffer f) (upload_format (originalname f))).
Proof.
  intros H Hu Hd He. rewrite (updateNotes_file _ _ _ _ _ _ _ H Hu).
  pose proof (destroy_if_managed_frame (fileUrl n) env w) as (Hn1 & _ & _).
  pose proof (destroy_if_managed_settles (fileUrl n) env w) as Hs. rewrite Hd in Hs.
  destruct (destroy_if_managed (fileUrl n) env w) as [[?|[[]|?]] w1]; simpl in *;
    try (by destruct (on_cloudinary (fileUrl n))).
  rewrite (uploadToCloudinary_ok _ _ _ _ He). simpl. eexists.
  split_and!; [done | by rewrite Hn1 | done | apply lookup_insert_eq].
Qed.

(** C10 (deleteNotes_removes_record): when the owner deletes a note and the
    destroy call, if one is made, is accepted, the handler answers 200, the
    record is gone with its comments and likes, [getNotes] answers 404 for
    it, every other note is untouched, and so is the User collection. *)
Theorem deleteNotes_removes_record id u env w n :
  notes w !! id = Some n → uid u = uploader n →
  on_cloudinary (fileUrl n) = false ∨ destroy_error env = None →
  let r := deleteNotes id u env w in
  r.1 = Respond 200 (JText "Notes has been deleted") ∧
  notes r.2 = delete id (notes w) ∧ users r.2 = users w ∧
  getNotes id r.2 = (Next (errorHandler 404 "Notes not found"), r.2).
Proof.
  intros H Hu Hok. destruct (deleteNotes_accepted _ _ _ _ _ H Hu Hok) as (Hr & Hn & Hus).
  split_and!; [done..|]. apply getNotes_not_found. rewrite Hn. apply lookup_delete_eq.
Qed.

(** C29 (deleteNotes_destroy_failure_keeps_record): when the destroy call is
    rejected, [deleteNotes] forwards the error and does not delete the
    record: the note is still stored. *)
Theorem deleteNotes_destroy_failure_keeps_record id u env w n m :
  notes w !! id = Some n → uid u = uploader n →
  on_cloudinary (fileUrl n) = true → destroy_error env = Some m →
  let r := deleteNotes id u env w in
  r.1 = Next (new_Error m) ∧ notes r.2 = notes w ∧ notes r.2 !! id = Some n.
Proof.
  intros H Hu Hc Hd. rewrite (deleteNotes_authorized _ _ _ _ _ H Hu).
  by rewrite (destroy_if_managed_rejects _ _ _ _ Hc Hd).
Qed.

End properties.

(** ** The properties on the sample data *)

Lemma sample_stored : notes sample_world !! 10 = Some sample_note.
Proof. reflexivity. Qed.

Lemma sample_owner : uid alice = uploader sample_note.
Proof. reflexivity. Qed.

Lemma sample_not_owner : uid bob ≠ uploader sample_note.
Proof. discriminate. Qed.

Lemma sample_managed : on_cloudinary (fileUrl sample_note) = true.
Proof. reflexivity. Qed.

Lemma full_body_complete : missingFields full_body = [].
Proof. reflexivity. Qed.

Lemma untitled_body_incomplete : missingFields untitled_body ≠ [].
Proof. discriminate. Qed.

Lemma empty_request_not_created :
  ∀ b, (notesUploading None empty_body alice sample_env sample_world).1 ≠ Respond 201 b.
Proof. intros b. discriminate. Qed.

Lemma notesUploading_all_or_nothing_witness :
  (∀ b, (notesUploading None empty_body alice sample_env sample_world).1 ≠ Respond 201 b) ∧
  let r := notesUploading None empty_body alice sample_env sample_world in
  notes r.2 = notes sample_world ∧ users r.2 = users sample_world ∧
  next_oid r.2 = next_oid sample_world.
Proof.
  exact (conj empty_request_not_created
    (notesUploading_all_or_nothing None empty_body alice sample_env sample_world
       empty_request_not_created)).
Defined.

Lemma sample_file_given : Some sample_file = None → truthy_opt (field full_body "fileUrl") = true.
Proof. discriminate. Qed.

Lemma notesUploading_creates_witness :
  (Some sample_file = None → truthy_opt (field full_body "fileUrl") = true) ∧
  upload_error sample_env = None ∧ missingFields full_body = [] ∧
  ∃ doc w', notesUploading (Some sample_file) full_body alice sample_env sample_world =
              (Respond 201 (JData "Note uploaded successfully" 12 doc), w') ∧
            getNotes 12 w' = (Respond 200 (JNote 12 doc), w') ∧
            title doc = "Graphs" ∧ uploader doc = 1 ∧
            fileUrl doc = "https://res.cloudinary.com/demo/raw/upload/v1/notes/100-my.notes.pdf".
Proof.
  split_and!; [exact sample_file_given | reflexivity | exact full_body_complete |].
  destruct (notesUploading_creates (Some sample_file) full_body alice sample_env
              sample_world sample_file_given eq_refl full_body_complete)
    as (doc & w' & Hr & Hg & _ & _ & _ & Hdoc & Hfile).
  exists doc, w'. injection Hfile as Hurl _ _.
  split_and!; [exact Hr | exact Hg | by rewrite Hdoc | by rewrite Hdoc | exact Hurl].
Defined.

Lemma notesUploading_uploads_before_validating_witness :
  upload_error sample_env = None ∧ missingFields untitled_body ≠ [] ∧
  let r := notesUploading (Some sample_file) untitled_body alice sample_env sample_world in
  r.1 = Respond 400 (JMessage false "Missing required fields: title") ∧
  notes r.2 = notes sample_world ∧
  calls r.2 = [CallUpload "notes/100-my.notes"] ∧
  assets r.2 !! "notes/100-my.notes" = Some (mkAsset [] "pdf").
Proof.
  exact (conj eq_refl (conj untitled_body_incomplete
    (notesUploading_uploads_before_validating sample_file untitled_body alice sample_env
       sample_world eq_refl untitled_body_incomplete))).
Defined.

Lemma notesUploading_validates_locator_path_witness :
  (truthy_opt (field empty_body "fileUrl") = false ∨ missingFields empty_body ≠ []) ∧
  ∃ msg, notesUploading None empty_body alice sample_env sample_world =
           (Respond 400 (JMessage false msg), sample_world).
Proof.
  exact (conj (or_introl eq_refl)
    (notesUploading_validates_locator_path empty_body alice sample_env sample_world
       (or_introl eq_refl))).
Defined.

Lemma lifecycle_authorization_witness :
  notes sample_world !! 10 = Some sample_note ∧ uid bob ≠ uploader sample_note ∧
  updateNotes 10 (Some sample_file) full_body bob sample_env sample_world =
    (Next (errorHandler 401 "You can only update your own uploads"), sample_world) ∧
  deleteNotes 10 bob sample_env sample_world =
    (Next (errorHandler 401 "You can only delete your own uploads"), sample_world).
Proof.
  exact (conj sample_stored (conj sample_not_owner
    (lifecycle_authorization 10 (Some sample_file) full_body bob sample_env sample_world
       sample_note sample_stored sample_not_owner))).
Defined.

Lemma updateNotes_destroys_before_upload_witness :
  notes sample_world !! 10 = Some sample_note ∧ uid alice = uploader sample_note ∧
  on_cloudinary (fileUrl sample_note) = true ∧ destroy_error upload_down_env = None ∧
  let r := updateNotes 10 (Some sample_file) empty_body alice upload_down_env sample_world in
  calls r.2 = calls sample_world ++
              [CallDestroy (publicId_of_url (fileUrl sample_note));
               CallUpload (upload_public_id upload_down_env (originalname sample_file))] ∧
  (∀ m, upload_error upload_down_env = Some m →
     r.1 = Respond 500 (JMessage false "Error updating file in cloud storage") ∧
     notes r.2 = notes sample_world).
Proof.
  exact (conj sample_stored (conj sample_owner (conj sample_managed (conj eq_refl
    (updateNotes_destroys_before_upload 10 sample_file empty_body alice upload_down_env
       sample_world sample_note sample_stored sample_owner sample_managed eq_refl))))).
Defined.

Lemma failed_update_not_200 :
  ∀ b, (updateNotes 10 (Some sample_file) empty_body alice upload_down_env sample_world).1
       ≠ Respond 200 b.
Proof. intros b. discriminate. Qed.

Lemma updateNotes_failure_keeps_record_witness :
  (∀ b, (updateNotes 10 (Some sample_file) empty_body alice upload_down_env sample_world).1
        ≠ Respond 200 b) ∧
  let r := updateNotes 10 (Some sample_file) empty_body alice upload_down_env sample_world in
  notes r.2 = notes sample_world ∧ users r.2 = users sample_world.
Proof.
  exact (conj failed_update_not_200
    (updateNotes_failure_keeps_record 10 (Some sample_file) empty_body alice
       upload_down_env sample_world failed_update_not_200)).
Defined.

Lemma updateNotes_partial_update_witness :
  notes sample_world !! 10 = Some sample_note ∧ uid alice = uploader sample_note ∧
  ∃ n', updateNotes 10 None untitled_body alice sample_env sample_world =
          (Respond 200 (JData "Note updated successfully" 10 n'),
           set_notes <[10 := n']> sample_world) ∧
        title n' = title sample_note ∧ collegeName n' = "MIT" ∧
        fileUrl n' = fileUrl sample_note ∧ likes n' = likes sample_note.
Proof.
  split_and!; [exact sample_stored | exact sample_owner |].
  destruct (updateNotes_partial_update 10 untitled_body alice sample_env sample_world
              sample_note sample_stored sample_owner)
    as (n' & Hr & Ht & _ & _ & Hc & _ & _ & _ & Hf & Hk).
  exists n'. injection Hf as Hurl _ _. injection Hk as _ Hl _ _ _ _.
  split_and!; [exact Hr | exact Ht | exact Hc | exact Hurl | exact Hl].
Defined.

Lemma updateNotes_replaces_file_witness :
  notes sample_world !! 10 = Some sample_note ∧ uid alice = uploader sample_note ∧
  destroy_error sample_env = None ∧ upload_error sample_env = None ∧
  let r := updateNotes 10 (Some sample_file) empty_body alice sample_env sample_world in
  let pid := upload_public_id sample_env (originalname sample_file) in
  ∃ n', r.1 = Respond 200 (JData "Note updated successfully" 10 n') ∧
        notes r.2 = <[10 := n']> (notes sample_world) ∧
        n' = update_fields empty_body
               (set_file (secure_url_of pid (upload_format (originalname sample_file)))
                  (originalname sample_file) (mimetype sample_file) sample_note) ∧
        assets r.2 !! pid =
          Some (mkAsset (buffer sample_file) (upload_format (originalname sample_file))).
Proof.
  exact (conj sample_stored (conj sample_owner (conj eq_refl (conj eq_refl
    (updateNotes_replaces_file 10 sample_file empty_body alice sample_env sample_world
       sample_note sample_stored sample_owner eq_refl eq_refl))))).
Defined.

Lemma deleteNotes_removes_record_witness :
  notes sample_world !! 10 = Some sample_note ∧ uid alice = uploader sample_note ∧
  (on_cloudinary (fileUrl sample_note) = false ∨ destroy_error sample_env = None) ∧
  let r := deleteNotes 10 alice sample_env sample_world in
  r.1 = Respond 200 (JText "Notes has been deleted") ∧
  notes r.2 = delete 10 (notes sample_world) ∧ users r.2 = users sample_world ∧
  getNotes 10 r.2 = (Next (errorHandler 404 "Notes not found"), r.2).
Proof.
  exact (conj sample_stored (conj sample_owner (conj (or_intror eq_refl)
    (deleteNotes_removes_record 10 alice sample_env sample_world sample_note
       sample_stored sample_owner (or_intror eq_refl))))).
Defined.

Lemma deleteNotes_destroy_failure_keeps_record_witness :
  notes sample_world !! 10 = Some sample_note ∧ uid alice = uploader sample_note ∧
  on_cloudinary (fileUrl sample_note) = true ∧ destroy_error destroy_down_env = Some "timeout" ∧
  let r := deleteNotes 10 alice destroy_down_env sample_world in
  r.1 = Next (new_Error "timeout") ∧ notes r.2 = notes sample_world ∧
  notes r.2 !! 10 = Some sample_note.
Proof.
  exact (conj sample_stored (conj sample_owner (conj sample_managed (conj eq_refl
    (deleteNotes_destroy_failure_keeps_record 10 alice destroy_down_env sample_world
       sample_note "timeout" sample_stored sample_owner sample_managed eq_refl))))).
Defined.
