(* ===== verification/Async.v ===== *)
(** * Async: the handlers, await by await

    The handlers of [controllers/notes.controller.js] and
    [controllers/uploading.controller.js] that change a document, as
    processes of [Eventloop]: each [await] of the source is an [await!]
    here, and what the source computes between two [await]s is computed
    between the two steps.  A handler reads a document in one step and
    saves its changed copy in a later one; the save goes through the
    [SavePolicy] and fails when the document is gone.  [commentOnNote]
    creates the sub-document, and with it its [_id], when it pushes it, so
    the id is allocated in the step that saves.  The calls to Cloudinary
    are steps like the calls to the database; the call to [destroy],
    which [deleteNotes] and [updateNotes] await inside an [if], is a step
    only when the locator is one of the object store
    ([destroy_if_managed_async]).

    The errors of a save are thrown inside the handler's [try]: the
    handlers forward them to [next], except [removeArchiveNote], whose
    [catch] answers 500 itself.

    The theorems: run without interruption, each process is the handler
    of [Engagement], [Archive] or [Lifecycle] of the same name
    ([finish_likeNote] and the like), whatever the save policy; each
    process answers within four steps; no step of the notes controller
    creates a note or touches the object store, and no step of any handler
    brings a deleted note back ([retires]). *)

From S2P Require Import Prelude JsString Model Contract Eventloop Cloudinary.
From S2P Require Import Engagement Archive Lifecycle.

Local Open Scope string_scope.
Local Open Scope list_scope.
Local Open Scope handler_scope.

Section handlers.
Context {policy : SavePolicy}.

(** [likeNote]. *)
Definition likeNote_async (id : oid) (u : AuthUser) : Proc :=
  await! note := Note_findById id in
  let userId := uid u in
  match note with
  | None => Answer (Respond 404 (JMsg "Note not found"))
  | Some note =>
      let changed := set_likes (toggle userId (likes note)) note in
      await! _ := Note_commit id note changed in
      Answer (Respond 200 (JLikes (likes changed)))
  end.

(** [commentOnNote]. *)
Definition commentOnNote_async (id : oid) (u : AuthUser) (body_text : string) (env : Env) :
    Proc :=
  await! note := Note_findById id in
  match note with
  | None => Answer (Respond 404 (JMsg "Note not found"))
  | Some note =>
      await! _ := (let! cid := alloc_oid in
                   let comment :=
                     {| c_id := cid; user := uid u; text := body_text;
                        commentedAt := now env; c_username := uname u |} in
                   Note_commit id note (set_comments (comments note ++ [comment]) note)) in
      await! updatedNote := Note_findById id in
      Answer (Respond 200 (JCommented id updatedNote))
  end.

(** [updateComment]. *)
Definition updateComment_async (noteId commentId : oid) (body_text : string) (env : Env) :
    Proc :=
  await! note := Note_findById noteId in
  match note with
  | None => Answer (Respond 404 (JMsg "Note not found"))
  | Some note =>
      match comments_id commentId (comments note) with
      | None => Answer (Respond 404 (JMsg "Comment not found"))
      | Some found =>
          let comment := set_text_time body_text (now env) found.2 in
          let changed := set_comments (<[found.1 := comment]> (comments note)) note in
          await! _ := Note_commit noteId note changed in
          await! updatedNote := Note_findById noteId in
          match updatedNote with
          | None =>
              Answer (Next (TypeError "Cannot read properties of null (reading 'comments')"))
          | Some updatedNote =>
              Answer (Respond 200 (JComments "Comment updated successfully"
                                     (comments updatedNote)))
          end
      end
  end.

(** [deleteComment]. *)
Definition deleteComment_async (noteId commentId : oid) : Proc :=
  await! note := Note_findById noteId in
  match note with
  | None => Answer (Respond 404 (JMsg "Note not found"))
  | Some note =>
      let changed := set_comments (comments_pull commentId (comments note)) note in
      await! _ := Note_commit noteId note changed in
      await! updatedNote := Note_findById noteId in
      match updatedNote with
      | None =>
          Answer (Next (TypeError "Cannot read properties of null (reading 'comments')"))
      | Some updatedNote =>
          Answer (Respond 200 (JComments "Comment deleted successfully"
                                 (comments updatedNote)))
      end
  end.

(** [incrementDownload]. *)
Definition incrementDownload_async (id : oid) : Proc :=
  await! note := Note_findById id in
  match note with
  | None => Answer (Respond 404 (JMsg "Note not found"))
  | Some note =>
      let changed := set_downloadCount (downloadCount note + 1) note in
      await! _ := Note_commit id note changed in
      Answer (Respond 200 (JDownloadCount (downloadCount changed)))
  end.

(** [removeArchiveNote]; its [catch] answers 500 itself. *)
Definition removeArchiveNote_async (noteId : oid) (u : AuthUser) : Proc :=
  await! note := Note_findById noteId in
  match note with
  | None => Answer (Respond 404 (JMessage false "Note not found."))
  | Some note =>
      let changed := set_archived false note in
      await! _ := rescue (Note_commit noteId note changed)
                    (Respond 500 (JMessage false "Something went wrong.")) in
      let userId := uid u in
      await! _ := User_pull_archived userId noteId in
      Answer (Respond 200 (JMessage true "Note removed from archive."))
  end.

(** [archiveNote]. *)
Definition archiveNote_async (noteId : oid) (u : AuthUser) : Proc :=
  let userId := uid u in
  await! note := Note_findById noteId in
  match note with
  | None => Answer (Next (errorHandler 404 "Note not found"))
  | Some _ =>
      await! user := User_findById userId in
      match user with
      | None =>
          Answer (Next (TypeError "Cannot read properties of null (reading 'archivedNotes')"))
      | Some user =>
          if bool_decide (noteId ∈ archivedNotes user)
          then Answer (Respond 200 (JMessage true "Note already archived"))
          else
            let changed := set_archivedNotes (archivedNotes user ++ [noteId]) user in
            await! _ := User_commit userId user changed in
            Answer (Respond 200 (JMessage true "Note archived successfully"))
      end
  end.

(** The rest of [notesUploading] once the locator is known: the check of
    the required fields and [Note.create]. *)
Definition create_note (body : ReqBody) (u : AuthUser) (env : Env)
    (blob : string * string * string) : Proc :=
  let '(fileUrl, fileName, fileType) := blob in
  let missing := missingFields body in
  if bool_decide (length missing = 0) then
    let doc := new_note body u fileUrl fileName fileType env in
    await! id := Note_create doc in
    Answer (Respond 201 (JData "Note uploaded successfully" id doc))
  else Answer (Respond 400
         (JMessage false ("Missing required fields: " +:+ join ", " missing))).

(** [notesUploading]. *)
Definition notesUploading_async (file : option File) (body : ReqBody) (u : AuthUser)
    (env : Env) : Proc :=
  if bool_decide (is_Some file) || truthy_opt (field body "fileUrl") then
    match file with
    | Some f =>
        await! result := uploadToCloudinary (buffer f) (originalname f) env in
        match result with
        | Resolved result =>
            create_note body u env (secure_url result, originalname f, mimetype f)
        | Rejected m => Answer (Respond 500 (JFailure "File upload failed" m))
        end
    | None =>
        create_note body u env
          (js_or (field body "fileUrl") "",
           js_or (field body "fileName") "Uploaded File",
           js_or (field body "fileType") "application/octet-stream")
    end
  else Answer (Respond 400 (JMessage false "No file or file URL provided")).

(** The block shared by [deleteNotes] and [updateNotes]:
    [if (fileUrl is on Cloudinary) await destroy(publicId)].  The handler
    awaits only for a locator of the object store; for another locator
    it goes on within the same step. *)
Definition destroy_if_managed_async (fileUrl : string) (env : Env)
    (k : Settled unit → Proc) : Proc :=
  if on_cloudinary fileUrl then
    let publicId := publicId_of_url fileUrl in
    await! destroyed := destroy publicId env in
    k destroyed
  else k (Resolved tt).

(** [deleteNotes]. *)
Definition deleteNotes_async (id : oid) (u : AuthUser) (env : Env) : Proc :=
  await! note := Note_findById id in
  match note with
  | None => Answer (Next (errorHandler 404 "Notes not found"))
  | Some note =>
      if bool_decide (uid u = uploader note) then
        destroy_if_managed_async (fileUrl note) env (λ destroyed,
          match destroyed with
          | Rejected m => Answer (Next (new_Error m))
          | Resolved _ =>
              await! _ := Note_findByIdAndDelete id in
              Answer (Respond 200 (JText "Notes has been deleted"))
          end)
      else Answer (Next (errorHandler 401 "You can only delete your own uploads"))
  end.

(** The end of [updateNotes]: the seven assignments and [note.save()], for
    the note read as [loaded] and changed so far into [note]. *)
Definition save_update (id : oid) (body : ReqBody) (loaded note : Note) : Proc :=
  let note := update_fields body note in
  await! _ := Note_commit id loaded note in
  Answer (Respond 200 (JData "Note updated successfully" id note)).

(** [updateNotes]. *)
Definition updateNotes_async (id : oid) (file : option File) (body : ReqBody) (u : AuthUser)
    (env : Env) : Proc :=
  await! loaded := Note_findById id in
  match loaded with
  | None => Answer (Next (errorHandler 404 "Notes not found"))
  | Some note =>
      if bool_decide (uid u = uploader note) then
        match file with
        | Some f =>
            destroy_if_managed_async (fileUrl note) env (λ destroyed,
              match destroyed with
              | Rejected _ =>
                  Answer (Respond 500 (JMessage false "Error updating file in cloud storage"))
              | Resolved _ =>
                  await! result := uploadToCloudinary (buffer f) (originalname f) env in
                  match result with
                  | Rejected _ =>
                      Answer (Respond 500
                                (JMessage false "Error updating file in cloud storage"))
                  | Resolved result =>
                      save_update id body note
                        (set_file (secure_url result) (originalname f) (mimetype f) note)
                  end
              end)
        | None =>
            if truthy_opt (field body "fileUrl") then
              save_update id body note
                (set_file (js_or (field body "fileUrl") "")
                          (js_or (field body "fileName") "File from URL")
                          (js_or (field body "fileType") "application/octet-stream") note)
            else save_update id body note note
        end
      else Answer (Next (errorHandler 401 "You can only update your own uploads"))
  end.

End handlers.

(** What no step of the notes controller does: it neither creates a note
    nor brings a deleted one back, and it leaves the object store alone. *)
Definition no_new_note (w w' : World) : Prop :=
  dom (notes w') ⊆ dom (notes w) ∧ assets w' = assets w ∧ calls w' = calls w ∧
  (next_oid w ≤ next_oid w')%nat.

(** What no step of any handler does: it hands out no id twice and brings
    no deleted note back. *)
Definition retires (w w' : World) : Prop :=
  (next_oid w ≤ next_oid w')%nat ∧
  ∀ id, (id < next_oid w)%nat → notes w !! id = None → notes w' !! id = None.

#[export] Instance no_new_note_preorder : PreOrder no_new_note.
Proof.
  split; [by intros w | intros w1 w2 w3 (? & ? & ? & ?) (? & ? & ? & ?)].
  unfold no_new_note. split_and!; [set_solver | congruence.. | lia].
Qed.

#[export] Instance retires_preorder : PreOrder retires.
Proof.
  split; [by intros w | intros w1 w2 w3 [Ho1 Hn1] [Ho2 Hn2]].
  split; [lia|]. intros id Hid Hnone. apply Hn2; [lia | by apply Hn1].
Qed.

(** ** The steps that save *)

Section saves.
Context {policy : SavePolicy}.
Implicit Types (id : oid) (w : World) (n : Note) (usr : User).

(** A save right after the read stores the changed copy. *)
Lemma Note_commit_fresh id n changed w :
  notes w !! id = Some n → Note_commit id n changed w = Note_save id changed w.
Proof. intros Hn. unfold Note_commit. by rewrite Hn, save_note_fresh. Qed.

Lemma User_commit_fresh id usr changed w :
  users w !! id = Some usr → User_commit id usr changed w = User_save id changed w.
Proof. intros Hu. unfold User_commit. by rewrite Hu, save_user_fresh. Qed.

Lemma Note_commit_gone id n changed w :
  notes w !! id = None →
  Note_commit id n changed w = (inl (Next (new_Error "No document found for query")), w).
Proof. intros Hn. unfold Note_commit. by rewrite Hn. Qed.

Lemma Note_commit_no_new id n changed w : no_new_note w (Note_commit id n changed w).2.
Proof.
  unfold Note_commit. destruct (notes w !! id) as [stored|] eqn:Hs; [|done].
  split_and!; [|done..]. simpl. rewrite dom_insert. apply elem_of_dom_2 in Hs. set_solver.
Qed.

Lemma User_commit_no_new id usr changed w : no_new_note w (User_commit id usr changed w).2.
Proof. unfold User_commit. by destruct (users w !! id). Qed.

Lemma rescue_state {A} (m : handler A) o w : (rescue m o w).2 = (m w).2.
Proof. unfold rescue. by destruct (m w) as [[?|?] ?]. Qed.

End saves.

(** ** The conditional call *)

(** What holds of the handler when it awaits the call, and of its rest
    when it does not, holds of the block. *)
Lemma destroy_if_managed_async_ind (P : Proc → Prop) url env (k : Settled unit → Proc) :
  P (await (destroy_if_managed url env) k) →
  (on_cloudinary url = false → P (k (Resolved tt))) →
  P (destroy_if_managed_async url env k).
Proof.
  unfold destroy_if_managed_async, destroy_if_managed.
  destruct (on_cloudinary url); [by intros H _ | intros _ H; by apply H].
Qed.

Lemma finish_destroy_if_managed_async url env k w :
  finish (destroy_if_managed_async url env k) w = finish (await (destroy_if_managed url env) k) w.
Proof.
  apply (destroy_if_managed_async_ind (λ p, finish p w = _)); [done|].
  intros Hurl. by rewrite finish_await, (destroy_if_managed_external _ _ _ Hurl).
Qed.

Lemma within_destroy_if_managed_async n url env k :
  (∀ a, within n (k a)) → within (S n) (destroy_if_managed_async url env k).
Proof.
  intros Hk. apply destroy_if_managed_async_ind; [by apply within_await|].
  intros _. eapply within_mono; [|apply Hk]. lia.
Qed.

Lemma stable_destroy_if_managed_async (R : relation World) `{!Reflexive R}
    (Inv : World → Prop) w0 url env k :
  (∀ w, R w0 w → Inv w → Inv (destroy_if_managed url env w).2) →
  (∀ w a, R w0 w → stable R Inv w (k a)) →
  stable R Inv w0 (destroy_if_managed_async url env k).
Proof.
  intros Hm Hk. apply destroy_if_managed_async_ind; [|intros _; by apply Hk].
  apply stable_await. intros w HR Hw. split; [by apply Hm | intros a _; by apply Hk].
Qed.

Lemma answers_in_destroy_if_managed_async (P : Outcome → Prop) url env k :
  (∀ a, answers_in P (k a)) → answers_in P (destroy_if_managed_async url env k).
Proof.
  intros Hk. apply destroy_if_managed_async_ind; [|done].
  apply answers_in_await; [|done]. intros w o. unfold destroy_if_managed, destroy.
  destruct (on_cloudinary url); [|done]. handler_simp. by destruct (destroy_error env).
Qed.

Lemma respects_destroy_if_managed_async (R : relation World) url env k :
  (∀ w, R w (destroy_if_managed url env w).2) → (∀ a, respects R (k a)) →
  respects R (destroy_if_managed_async url env k).
Proof. intros Hm Hk. apply destroy_if_managed_async_ind; [by apply respects_await | done]. Qed.

(** ** Without interruption, the handlers of [Engagement] and [Archive] *)

Section uninterrupted.
Context {policy : SavePolicy}.
Implicit Types (id : oid) (u : AuthUser) (w : World) (env : Env).

Lemma finish_likeNote id u w : finish (likeNote_async id u) w = likeNote id u w.
Proof.
  unfold likeNote_async, likeNote. rewrite finish_await. handler_simp.
  destruct (notes w !! id) as [n|] eqn:Hn; [|done].
  by rewrite finish_await, (Note_commit_fresh _ _ _ _ Hn).
Qed.

Lemma finish_incrementDownload id w :
  finish (incrementDownload_async id) w = incrementDownload id w.
Proof.
  unfold incrementDownload_async, incrementDownload. rewrite finish_await. handler_simp.
  destruct (notes w !! id) as [n|] eqn:Hn; [|done].
  by rewrite finish_await, (Note_commit_fresh _ _ _ _ Hn).
Qed.

Lemma finish_commentOnNote id u t env w :
  finish (commentOnNote_async id u t env) w = commentOnNote id u t env w.
Proof.
  unfold commentOnNote_async, commentOnNote. rewrite finish_await. handler_simp.
  destruct (notes w !! id) as [n|] eqn:Hn; [|done].
  rewrite finish_await. handler_simp. by rewrite (Note_commit_fresh _ n) by done.
Qed.

Lemma finish_updateComment id cid t env w :
  finish (updateComment_async id cid t env) w = updateComment id cid t env w.
Proof.
  unfold updateComment_async, updateComment. rewrite finish_await. handler_simp.
  destruct (notes w !! id) as [n|] eqn:Hn; [|done].
  destruct (comments_id cid (comments n)) as [found|]; [|done].
  rewrite finish_await, (Note_commit_fresh _ _ _ _ Hn). handler_simp.
  by rewrite lookup_insert_eq.
Qed.

Lemma finish_deleteComment id cid w :
  finish (deleteComment_async id cid) w = deleteComment id cid w.
Proof.
  unfold deleteComment_async, deleteComment. rewrite finish_await. handler_simp.
  destruct (notes w !! id) as [n|] eqn:Hn; [|done].
  rewrite finish_await, (Note_commit_fresh _ _ _ _ Hn). handler_simp.
  by rewrite lookup_insert_eq.
Qed.

Lemma finish_removeArchiveNote id u w :
  finish (removeArchiveNote_async id u) w = removeArchiveNote id u w.
Proof.
  unfold removeArchiveNote_async, removeArchiveNote. rewrite finish_await. handler_simp.
  destruct (notes w !! id) as [n|] eqn:Hn; [|done].
  rewrite finish_await. unfold rescue. by rewrite (Note_commit_fresh _ _ _ _ Hn).
Qed.

Lemma finish_archiveNote id u w : finish (archiveNote_async id u) w = archiveNote id u w.
Proof.
  unfold archiveNote_async, archiveNote. rewrite finish_await. handler_simp.
  destruct (notes w !! id) as [n|] eqn:Hn; [|done].
  rewrite finish_await. handler_simp.
  destruct (users w !! uid u) as [usr|] eqn:Hu; [|done].
  case_bool_decide; [done|].
  by rewrite finish_await, (User_commit_fresh _ _ _ _ Hu).
Qed.

Lemma finish_notesUploading file body u env w :
  finish (notesUploading_async file body u env) w = notesUploading file body u env w.
Proof.
  unfold notesUploading_async, notesUploading, create_note.
  destruct (bool_decide (is_Some file) || truthy_opt (field body "fileUrl")); [|done].
  destruct file as [f|]; handler_simp.
  - destruct (uploadToCloudinary _ _ _ _) as [[?|[r|m]] w1]; handler_simp; [done| |done].
    by case_bool_decide.
  - by case_bool_decide.
Qed.

Lemma finish_findById id (k : option Note → Proc) w :
  finish (await (Note_findById id) k) w = finish (k (notes w !! id)) w.
Proof. done. Qed.

Lemma finish_deleteNotes id u env w :
  finish (deleteNotes_async id u env) w = deleteNotes id u env w.
Proof.
  unfold deleteNotes_async. rewrite finish_findById.
  destruct (notes w !! id) as [n|] eqn:Hn; [|by rewrite (deleteNotes_not_found _ _ _ _ Hn)].
  case_bool_decide as Hu; [|by rewrite (deleteNotes_unauthorized _ _ _ _ _ Hn Hu)].
  rewrite (deleteNotes_authorized _ _ _ _ _ Hn Hu), finish_destroy_if_managed_async, finish_await.
  by destruct (destroy_if_managed (fileUrl n) env w) as [[?|[?|?]] w1].
Qed.

Lemma finish_save_update id body loaded note w :
  notes w !! id = Some loaded →
  finish (save_update id body loaded note) w =
    (Respond 200 (JData "Note updated successfully" id (update_fields body note)),
     set_notes <[id := update_fields body note]> w).
Proof. intros Hn. unfold save_update. by rewrite finish_await, (Note_commit_fresh _ _ _ _ Hn). Qed.

Lemma finish_updateNotes id file body u env w :
  finish (updateNotes_async id file body u env) w = updateNotes id file body u env w.
Proof.
  unfold updateNotes_async. rewrite finish_findById.
  destruct (notes w !! id) as [n|] eqn:Hn; [|by rewrite (updateNotes_not_found _ _ _ _ _ _ Hn)].
  case_bool_decide as Hu; [|by rewrite (updateNotes_unauthorized _ _ _ _ _ _ _ Hn Hu)].
  destruct file as [f|].
  - rewrite (updateNotes_file _ _ _ _ _ _ _ Hn Hu), finish_destroy_if_managed_async, finish_await.
    destruct (destroy_if_managed_frame (fileUrl n) env w) as (Hn1 & _).
    destruct (destroy_if_managed (fileUrl n) env w) as [[?|[?|?]] w1]; [done| |done].
    rewrite finish_await. destruct (upload_frame (buffer f) (originalname f) env w1) as (Hn2 & _).
    destruct (uploadToCloudinary _ _ _ w1) as [[?|[r|?]] w2]; [done| |done].
    simpl in Hn1, Hn2. by rewrite finish_save_update by (by rewrite Hn2, Hn1).
  - rewrite (updateNotes_no_file _ _ _ _ _ _ Hn Hu).
    by destruct (truthy_opt (field body "fileUrl")); rewrite finish_save_update.
Qed.

End uninterrupted.

(** ** Every handler answers within three steps *)

Section bounded.
Context {policy : SavePolicy}.

Lemma within_likeNote id u : within 2 (likeNote_async id u).
Proof. unfold likeNote_async. apply within_await. intros [n|]; eauto with sphere. Qed.

Lemma within_incrementDownload id : within 2 (incrementDownload_async id).
Proof. unfold incrementDownload_async. apply within_await. intros [n|]; eauto with sphere. Qed.

Lemma within_commentOnNote id u t env : within 3 (commentOnNote_async id u t env).
Proof. unfold commentOnNote_async. apply within_await. intros [n|]; eauto 6 with sphere. Qed.

Lemma within_updateComment id cid t env : within 3 (updateComment_async id cid t env).
Proof.
  unfold updateComment_async. apply within_await. intros [n|]; [|constructor].
  destruct (comments_id _ _); [|constructor].
  apply within_await; intros _. apply within_await. intros [?|]; constructor.
Qed.

Lemma within_deleteComment id cid : within 3 (deleteComment_async id cid).
Proof.
  unfold deleteComment_async. apply within_await. intros [n|]; [|constructor].
  apply within_await; intros _. apply within_await. intros [?|]; constructor.
Qed.

Lemma within_removeArchiveNote id u : within 3 (removeArchiveNote_async id u).
Proof. unfold removeArchiveNote_async. apply within_await. intros [n|]; eauto 6 with sphere. Qed.

Lemma within_archiveNote id u : within 3 (archiveNote_async id u).
Proof.
  unfold archiveNote_async. apply within_await. intros [n|]; [|constructor].
  apply within_await. intros [usr|]; [|constructor].
  case_bool_decide; eauto with sphere.
Qed.

Lemma within_create_note body u env blob : within 1 (create_note body u env blob).
Proof.
  destruct blob as [[? ?] ?]. unfold create_note. case_bool_decide; eauto with sphere.
Qed.

Lemma within_notesUploading file body u env : within 2 (notesUploading_async file body u env).
Proof.
  unfold notesUploading_async. case_match; [|constructor]. destruct file as [f|].
  - apply within_await. intros [r|m]; [|constructor].
    eapply within_mono; [|apply within_create_note]. lia.
  - eapply within_mono; [|apply within_create_note]. lia.
Qed.

Lemma within_deleteNotes id u env : within 3 (deleteNotes_async id u env).
Proof.
  unfold deleteNotes_async. apply within_await. intros [n|]; [|constructor].
  case_bool_decide; [|constructor]. apply within_destroy_if_managed_async.
  intros [?|?]; eauto with sphere.
Qed.

Lemma within_save_update id body loaded note : within 1 (save_update id body loaded note).
Proof. unfold save_update. eauto with sphere. Qed.

Lemma within_updateNotes id file body u env : within 4 (updateNotes_async id file body u env).
Proof.
  unfold updateNotes_async. apply within_await. intros [n|]; [|constructor].
  case_bool_decide; [|constructor]. destruct file as [f|].
  - apply within_destroy_if_managed_async. intros [?|?]; [|constructor].
    apply within_await. intros [?|?]; [|constructor].
    apply within_save_update.
  - eapply within_mono; [|case_match; apply within_save_update]. lia.
Qed.

End bounded.

(** ** No step creates a note or touches the object store *)

Section frame.
Context {policy : SavePolicy}.
Implicit Types (id : oid) (u : AuthUser) (w : World).

(** Discharges the steps of a process one by one: reads leave the stores
    as they are, saves are covered by the lemmas on [Note_commit] and
    [User_commit]. *)
Ltac no_new_steps :=
  repeat first
    [ apply respects_await; [intros ?|intros ?]
    | apply respects_Answer
    | reflexivity
    | apply Note_commit_no_new
    | apply User_commit_no_new
    | rewrite rescue_state
    | solve [by repeat split]
    | case_match
    | case_bool_decide ].

Lemma alloc_commit_no_new id n (f : oid → Note) w :
  no_new_note w ((let! cid := alloc_oid in Note_commit id n (f cid)) w).2.
Proof.
  unfold bind, alloc_oid, Note_commit. simpl.
  destruct (notes w !! id) as [stored|] eqn:Hs; [|by split_and!; simpl; [..|lia]].
  split_and!; [|done|done|simpl; lia]. simpl. rewrite dom_insert.
  apply elem_of_dom_2 in Hs. set_solver.
Qed.

Lemma respects_likeNote id u : respects no_new_note (likeNote_async id u).
Proof. unfold likeNote_async. no_new_steps. Qed.

Lemma respects_incrementDownload id : respects no_new_note (incrementDownload_async id).
Proof. unfold incrementDownload_async. no_new_steps. Qed.

Lemma respects_commentOnNote id u t env : respects no_new_note (commentOnNote_async id u t env).
Proof.
  unfold commentOnNote_async. apply respects_await; [done|]. intros [n|]; [|constructor].
  apply respects_await; [intros w; apply alloc_commit_no_new|]. intros _. no_new_steps.
Qed.

Lemma respects_updateComment id cid t env :
  respects no_new_note (updateComment_async id cid t env).
Proof. unfold updateComment_async. no_new_steps. Qed.

Lemma respects_deleteComment id cid : respects no_new_note (deleteComment_async id cid).
Proof. unfold deleteComment_async. no_new_steps. Qed.

Lemma respects_removeArchiveNote id u : respects no_new_note (removeArchiveNote_async id u).
Proof. unfold removeArchiveNote_async. no_new_steps. Qed.

Lemma respects_archiveNote id u : respects no_new_note (archiveNote_async id u).
Proof. unfold archiveNote_async. no_new_steps. Qed.

(** ** No step brings a deleted note back *)

Lemma no_new_retires w w' : no_new_note w w' → retires w w'.
Proof.
  intros (Hdom & _ & _ & Ho). split; [done|]. intros id _ Hnone.
  apply not_elem_of_dom. apply not_elem_of_dom in Hnone. set_solver.
Qed.

Lemma same_notes_retires w w' :
  notes w' = notes w → next_oid w' = next_oid w → retires w w'.
Proof. intros Hn Ho. split; [lia|]. intros id _. by rewrite Hn. Qed.

Lemma upload_retires buf name env w : retires w (uploadToCloudinary buf name env w).2.
Proof. destruct (upload_frame buf name env w) as (? & _ & ?). by apply same_notes_retires. Qed.

Lemma destroy_retires url env w : retires w (destroy_if_managed url env w).2.
Proof.
  destruct (destroy_if_managed_frame url env w) as (? & _ & ?). by apply same_notes_retires.
Qed.

Lemma Note_create_retires doc w : retires w (Note_create doc w).2.
Proof.
  split; simpl; [lia|]. intros id Hid Hnone. rewrite lookup_insert_ne; [done | lia].
Qed.

Lemma Note_delete_retires id w : retires w (Note_findByIdAndDelete id w).2.
Proof.
  split; simpl; [lia|]. intros id' _ Hnone. by rewrite lookup_delete_None; right.
Qed.

Lemma Note_commit_retires id n changed w : retires w (Note_commit id n changed w).2.
Proof. apply no_new_retires, Note_commit_no_new. Qed.

(** Discharges the steps of a lifecycle process. *)
Ltac retires_steps :=
  repeat first
    [ apply respects_await; [intros ?|intros ?]
    | apply respects_destroy_if_managed_async; [intros ?|intros ?]
    | apply respects_Answer
    | reflexivity
    | apply Note_commit_retires
    | apply Note_create_retires
    | apply Note_delete_retires
    | apply upload_retires
    | apply destroy_retires
    | case_match
    | case_bool_decide ].

Lemma retires_notesUploading file body u env :
  respects retires (notesUploading_async file body u env).
Proof. unfold notesUploading_async, create_note. retires_steps. Qed.

Lemma retires_deleteNotes id u env : respects retires (deleteNotes_async id u env).
Proof. unfold deleteNotes_async. retires_steps. Qed.

Lemma retires_updateNotes id file body u env :
  respects retires (updateNotes_async id file body u env).
Proof. unfold updateNotes_async, save_update. retires_steps. Qed.

(** A handler taken as one step respects what it guarantees. *)
Lemma respects_atomic (R : relation World) h :
  Guarantees (λ _, True) R h → respects R (atomic h).
Proof. intros Hh. constructor; [intros w; by apply Hh | constructor]. Qed.

End frame.

#[export] Hint Resolve within_likeNote within_incrementDownload within_commentOnNote
  within_updateComment within_deleteComment within_removeArchiveNote within_archiveNote
  within_notesUploading within_deleteNotes within_updateNotes
  respects_likeNote respects_incrementDownload respects_commentOnNote
  respects_updateComment respects_deleteComment respects_removeArchiveNote
  respects_archiveNote retires_notesUploading retires_deleteNotes retires_updateNotes
  : sphere.
