(* ===== verification/Account.v ===== *)
(** * Account: the user controller

    [controllers/user.controller.js] has four handlers: [test],
    [updateUser], [deleteUser] and [getUserUploads].  Each of the last three
    first compares the caller with the account named in the route.

    [updateUser] checks the current password with [bcrypt.compare], looks
    for another account with the requested user name or e-mail address, and
    then sets the fields the body names; a new password is stored as
    [bcrypt.hashSync(newPassword, 10)].  bcrypt is outside the sources: the
    class [Bcrypt] states what the controller needs from it, namely that a
    hash produced by [hashSync] is accepted by [compare] for the same
    password.  The salt that [hashSync] draws at random is an argument of
    the handler.

    The theorems: authorisation of the three handlers; [updateUser] answers
    409 exactly when another account holds the requested name or address,
    and so keeps names and addresses unique; a password that was set is
    accepted afterwards; [deleteUser] removes the account and nothing else,
    so the notes of a deleted user stay, with an uploader that no longer
    exists; [getUserUploads] lists exactly the notes of the caller. *)

From S2P Require Import Prelude JsString Model Contract.

Local Open Scope string_scope.
Local Open Scope list_scope.
Local Open Scope handler_scope.

(** What the controller needs from bcryptjs. *)
Class Bcrypt := {
  bcrypt_compare : string → string → bool;
  bcrypt_hashSync : string → nat → string → string;
  bcrypt_compare_hashSync data rounds salt :
    bcrypt_compare data (bcrypt_hashSync data rounds salt) = true;
}.

(** A model of the class for the sample data, in which passwords are
    stored as they are. *)
Definition toy_hash (data : string) (rounds : nat) (salt : string) : string := data.

Definition toy_compare (data hash : string) : bool := bool_decide (hash = data).

(** [test]. *)
Definition test (w : World) : Outcome * World := (Respond 200 (JMsg "Hello"), w).

(** The filter of [User.findOne] in [updateUser]: another account that
    holds the user name or the e-mail address of the body, each clause
    being present only when the body carries a value for it. *)
Definition conflicts (body : ReqBody) (id : oid) (e : oid * User) : bool :=
  (truthy_opt (field body "username") &&
     bool_decide (field body "username" = Some (username e.2))
   || truthy_opt (field body "email") &&
        bool_decide (field body "email" = Some (email e.2)))
  && bool_decide (e.1 ≠ id).

(** [existingUser.username === req.body.username ? 'Username' : 'Email']. *)
Definition conflictField (body : ReqBody) (existing : User) : string :=
  if bool_decide (field body "username" = Some (username existing))
  then "Username" else "Email".

Section bcrypt.
Context {crypt : Bcrypt}.

(** [$set: updateData]. *)
Definition updateData (body : ReqBody) (salt : string) (usr : User) : User :=
  set_account (js_or (field body "username") (username usr))
              (js_or (field body "email") (email usr))
              (if truthy_opt (field body "newPassword")
               then bcrypt_hashSync (js_or (field body "newPassword") "") 10 salt
               else password usr)
              usr.

(** [updateUser]; [id] is [req.params.id]. *)
Definition updateUser (id : oid) (body : ReqBody) (u : AuthUser) (salt : string) :
    World → Outcome * World :=
  run (
    guard_or (bool_decide (uid u = id))
      (Next (errorHandler 401 "You can only update your own account!")) ;;;
    let! user := User_findById id in
    let! user := some_or user (Next (errorHandler 404 "User not found")) in
    let! current := some_or (field body "currentPassword")
                      (Next (new_Error "Illegal arguments: undefined, string")) in
    guard_or (bcrypt_compare current (password user))
      (Next (errorHandler 401 "Invalid Password")) ;;;
    (if truthy_opt (field body "username") || truthy_opt (field body "email") then
       let! existingUser := User_findOne (conflicts body id) in
       match existingUser with
       | Some existing =>
           exit (Next (errorHandler 409
                   (conflictField body existing.2 +:+ " already exists")))
       | None => ret tt
       end
     else ret tt) ;;;
    let! updatedUser := User_findByIdAndUpdate id (updateData body salt) in
    let! updatedUser := some_or updatedUser
        (Next (TypeError "Cannot read properties of null (reading '_doc')")) in
    ret (Respond 200 (JUser id (username updatedUser) (email updatedUser)
                        (archivedNotes updatedUser)))).

End bcrypt.

(** [deleteUser]. *)
Definition deleteUser (id : oid) (u : AuthUser) : World → Outcome * World :=
  run (
    guard_or (bool_decide (uid u = id))
      (Next (errorHandler 401 "You can only delete your own account!")) ;;;
    User_findByIdAndDelete id ;;;
    ret (Respond 200 (JText "User has been deleted"))).

(** [getUserUploads]. *)
Definition getUserUploads (id : oid) (u : AuthUser) : World → Outcome * World :=
  run (
    if bool_decide (uid u = id) then
      let! notes := Note_find (λ e, bool_decide (uploader e.2 = id)) in
      ret (Respond 200 (JArray notes))
    else exit (Next (errorHandler 401 "You can only view your own Uploads"))).

(** The account that stands in the way of the update, if any. *)
Definition existing_conflict (body : ReqBody) (id : oid) (w : World) : option (oid * User) :=
  if truthy_opt (field body "username") || truthy_opt (field body "email")
  then snd <$> list_find (λ e, conflicts body id e = true) (map_to_list (users w))
  else None.

(** User names and e-mail addresses identify accounts. *)
Definition unique_accounts (w : World) : Prop :=
  ∀ id1 id2 u1 u2, users w !! id1 = Some u1 → users w !! id2 = Some u2 →
    username u1 = username u2 ∨ email u1 = email u2 → id1 = id2.

(** Requests of the sample data. *)
Definition rename_body : ReqBody :=
  {| fields := {[ "currentPassword" := "h1"; "username" := "carol" ]};
     body_uploader := None |}.

Definition clash_body : ReqBody :=
  {| fields := {[ "currentPassword" := "h1"; "email" := "b@x" ]};
     body_uploader := None |}.

Definition password_body : ReqBody :=
  {| fields := {[ "currentPassword" := "h1"; "newPassword" := "s3cret" ]};
     body_uploader := None |}.

(** ** bcrypt, for the sample data *)

#[export] Instance toy_bcrypt : Bcrypt :=
  {| bcrypt_compare := toy_compare; bcrypt_hashSync := toy_hash;
     bcrypt_compare_hashSync data rounds salt := bool_decide_eq_true_2 _ eq_refl |}.

(** ** The behaviour of each handler, branch by branch *)

Section branches.
Context {crypt : Bcrypt}.
Implicit Types (id : oid) (u : AuthUser) (w : World) (usr : User) (body : ReqBody).

Lemma existing_conflict_None body id w :
  existing_conflict body id w = None ↔
  ∀ id' usr', users w !! id' = Some usr' → conflicts body id (id', usr') = false.
Proof.
  unfold existing_conflict. destruct (truthy_opt _ || truthy_opt _) eqn:Ht.
  - rewrite fmap_None, list_find_None, Forall_forall. split.
    + intros Hall id' usr' Hl. apply not_true_is_false, (Hall (id', usr')).
      by apply elem_of_map_to_list.
    + intros Hall [id' usr'] Hl%elem_of_map_to_list. by rewrite (Hall _ _ Hl).
  - split; [|done]. intros _ id' usr' _. unfold conflicts.
    apply orb_false_iff in Ht as [-> ->]. done.
Qed.

Lemma existing_conflict_Some body id w e :
  existing_conflict body id w = Some e →
  users w !! e.1 = Some e.2 ∧ conflicts body id e = true.
Proof.
  unfold existing_conflict. case_match; [|done].
  intros ([i e'] & Hf & ->)%fmap_Some. apply list_find_Some in Hf as (Hl & He & _).
  split; [|done]. apply list_elem_of_lookup_2 in Hl. destruct e'.
  by apply elem_of_map_to_list.
Qed.

Lemma conflicts_spec body id id' usr' :
  conflicts body id (id', usr') = true ↔
  id' ≠ id ∧ ((username usr' ≠ "" ∧ field body "username" = Some (username usr')) ∨
              (email usr' ≠ "" ∧ field body "email" = Some (email usr'))).
Proof.
  unfold conflicts. simpl.
  rewrite andb_true_iff, orb_true_iff, !andb_true_iff, !bool_decide_eq_true.
  split.
  - intros [[[Ht He]|[Ht He]] ?]; (split; [done|]); rewrite He in Ht;
      apply truthy_nonempty in Ht; eauto.
  - intros [? [[Ht He]|[Ht He]]]; (split; [|done]); [left|right];
      (split; [|done]); rewrite He; by apply truthy_nonempty.
Qed.

Lemma updateUser_unauthorized id body u salt w :
  uid u ≠ id →
  updateUser id body u salt w =
    (Next (errorHandler 401 "You can only update your own account!"), w).
Proof. intros Hu. unfold updateUser. handler_simp. by rewrite bool_decide_eq_false_2. Qed.

Lemma updateUser_not_found id body u salt w :
  uid u = id → users w !! id = None →
  updateUser id body u salt w = (Next (errorHandler 404 "User not found"), w).
Proof.
  intros Hu Hn. unfold updateUser. handler_simp. rewrite bool_decide_eq_true_2 by done.
  handler_simp. by rewrite Hn.
Qed.

Lemma updateUser_no_password id body u salt w usr :
  uid u = id → users w !! id = Some usr → field body "currentPassword" = None →
  updateUser id body u salt w =
    (Next (new_Error "Illegal arguments: undefined, string"), w).
Proof.
  intros Hu Hn Hc. unfold updateUser. handler_simp. rewrite bool_decide_eq_true_2 by done.
  handler_simp. rewrite Hn. handler_simp. by rewrite Hc.
Qed.

Lemma updateUser_invalid_password id body u salt w usr cur :
  uid u = id → users w !! id = Some usr → field body "currentPassword" = Some cur →
  bcrypt_compare cur (password usr) = false →
  updateUser id body u salt w = (Next (errorHandler 401 "Invalid Password"), w).
Proof.
  intros Hu Hn Hc Hp. unfold updateUser. handler_simp. rewrite bool_decide_eq_true_2 by done.
  handler_simp. rewrite Hn. handler_simp. rewrite Hc. handler_simp. by rewrite Hp.
Qed.

Lemma updateUser_checked id body u salt w usr cur :
  uid u = id → users w !! id = Some usr → field body "currentPassword" = Some cur →
  bcrypt_compare cur (password usr) = true →
  updateUser id body u salt w =
    match existing_conflict body id w with
    | Some e =>
        (Next (errorHandler 409 (conflictField body e.2 +:+ " already exists")), w)
    | None =>
        let usr' := updateData body salt usr in
        (Respond 200 (JUser id (username usr') (email usr') (archivedNotes usr')),
         set_users (alter (updateData body salt) id) w)
    end.
Proof.
  intros Hu Hn Hc Hp. unfold updateUser, existing_conflict. handler_simp.
  rewrite bool_decide_eq_true_2 by done. handler_simp. rewrite Hn. handler_simp.
  rewrite Hc. handler_simp. rewrite Hp. handler_simp.
  destruct (truthy_opt _ || truthy_opt _); handler_simp.
  - destruct (list_find _ _) as [[i e]|]; handler_simp; [done|].
    by rewrite lookup_alter_eq, Hn.
  - by rewrite lookup_alter_eq, Hn.
Qed.

Lemma deleteUser_unauthorized id u w :
  uid u ≠ id →
  deleteUser id u w = (Next (errorHandler 401 "You can only delete your own account!"), w).
Proof. intros Hu. unfold deleteUser. handler_simp. by rewrite bool_decide_eq_false_2. Qed.

Lemma deleteUser_authorized id u w :
  uid u = id →
  deleteUser id u w = (Respond 200 (JText "User has been deleted"), set_users (delete id) w).
Proof. intros Hu. unfold deleteUser. handler_simp. by rewrite bool_decide_eq_true_2. Qed.

Lemma getUserUploads_unauthorized id u w :
  uid u ≠ id →
  getUserUploads id u w = (Next (errorHandler 401 "You can only view your own Uploads"), w).
Proof. intros Hu. unfold getUserUploads. handler_simp. by rewrite bool_decide_eq_false_2. Qed.

Lemma getUserUploads_authorized id u w :
  uid u = id →
  getUserUploads id u w =
    (Respond 200 (JArray (filter (λ e, bool_decide (uploader e.2 = id) = true)
                            (map_to_list (notes w)))), w).
Proof. intros Hu. unfold getUserUploads. handler_simp. by rewrite bool_decide_eq_true_2. Qed.

#[export] Instance getUserUploads_read_only id u : ReadOnly (getUserUploads id u).
Proof.
  intros w _. destruct (decide (uid u = id)) as [Hu|Hu].
  - by rewrite (getUserUploads_authorized _ _ _ Hu).
  - by rewrite (getUserUploads_unauthorized _ _ _ Hu).
Qed.

#[export] Instance test_read_only : ReadOnly test.
Proof. by intros w _. Qed.

End branches.

(** ** Properties *)

Section properties.
Context {crypt : Bcrypt}.
Implicit Types (id : oid) (u : AuthUser) (w : World) (usr : User) (body : ReqBody).

(** The state after [updateUser]: unchanged, or the account updated when
    nothing stood in the way. *)
Lemma updateUser_state id body u salt w :
  (updateUser id body u salt w).2 = w ∨
  ∃ usr, users w !! id = Some usr ∧ existing_conflict body id w = None ∧
    (updateUser id body u salt w).2 = set_users (alter (updateData body salt) id) w.
Proof.
  destruct (decide (uid u = id)) as [Hu|Hu].
  2: { left. by rewrite (updateUser_unauthorized _ _ _ _ _ Hu). }
  destruct (users w !! id) as [usr|] eqn:Hn.
  2: { left. by rewrite (updateUser_not_found _ _ _ _ _ Hu Hn). }
  destruct (field body "currentPassword") as [cur|] eqn:Hc.
  2: { left. by rewrite (updateUser_no_password _ _ _ _ _ _ Hu Hn Hc). }
  destruct (bcrypt_compare cur (password usr)) eqn:Hp.
  2: { left. by rewrite (updateUser_invalid_password _ _ _ _ _ _ _ Hu Hn Hc Hp). }
  rewrite (updateUser_checked _ _ _ _ _ _ _ Hu Hn Hc Hp).
  destruct (existing_conflict body id w) eqn:He; [by left | right; eauto].
Qed.

Lemma updateData_username body salt usr :
  username (updateData body salt usr) = username usr ∨
  (username (updateData body salt usr) ≠ "" ∧
   field body "username" = Some (username (updateData body salt usr))).
Proof.
  simpl. destruct (field body "username") as [[|c s]|]; [by left | right | by left]. done.
Qed.

Lemma updateData_email body salt usr :
  email (updateData body salt usr) = email usr ∨
  (email (updateData body salt usr) ≠ "" ∧
   field body "email" = Some (email (updateData body salt usr))).
Proof.
  simpl. destruct (field body "email") as [[|c s]|]; [by left | right | by left]. done.
Qed.

(** A caller who is not the account named in
    the route can neither update nor delete it nor list its uploads: the
    three handlers forward a 401 error and change nothing. *)
Theorem account_authorization id body u salt w :
  uid u ≠ id →
  updateUser id body u salt w =
    (Next (errorHandler 401 "You can only update your own account!"), w) ∧
  deleteUser id u w =
    (Next (errorHandler 401 "You can only delete your own account!"), w) ∧
  getUserUploads id u w =
    (Next (errorHandler 401 "You can only view your own Uploads"), w).
Proof.
  intros Hu. split_and!;
    [by apply updateUser_unauthorized | by apply deleteUser_unauthorized
    | by apply getUserUploads_unauthorized].
Qed.

(** Once the caller and the current password
    are accepted, [updateUser] answers 409 exactly when another account
    holds the user name or the e-mail address the body asks for, and then
    nothing is changed. *)
Theorem updateUser_conflict_iff id body u salt w usr cur :
  uid u = id → users w !! id = Some usr → field body "currentPassword" = Some cur →
  bcrypt_compare cur (password usr) = true →
  let r := updateUser id body u salt w in
  ((∃ msg, r = (Next (errorHandler 409 msg), w)) ↔
   ∃ id' usr', users w !! id' = Some usr' ∧ id' ≠ id ∧
     ((username usr' ≠ "" ∧ field body "username" = Some (username usr')) ∨
      (email usr' ≠ "" ∧ field body "email" = Some (email usr')))) ∧
  ((∃ msg, r.1 = Next (errorHandler 409 msg)) → r.2 = w).
Proof.
  intros Hu Hn Hc Hp. simpl. rewrite (updateUser_checked _ _ _ _ _ _ _ Hu Hn Hc Hp).
  destruct (existing_conflict body id w) as [[id' usr']|] eqn:He.
  - apply existing_conflict_Some in He as [Hl Hcf]. apply conflicts_spec in Hcf.
    split; [|done]. split; [intros _; exists id', usr'; by split | eauto].
  - split; [|by intros [? ?]]. split; [by intros [? ?]|].
    intros (id' & usr' & Hl & Hcf). rewrite existing_conflict_None in He.
    specialize (He _ _ Hl). by rewrite (proj2 (conflicts_spec _ _ _ _) Hcf) in He.
Qed.

(** If no two accounts share a user name or
    an e-mail address before [updateUser], none do afterwards, whatever the
    request. *)
Theorem updateUser_keeps_unique id body u salt w :
  unique_accounts w → unique_accounts (updateUser id body u salt w).2.
Proof.
  intros Hun. destruct (updateUser_state id body u salt w) as [-> | (usr & Hn & He & ->)];
    [done|].
  rewrite existing_conflict_None in He.
  assert (Hfree : ∀ id' usr', users w !! id' = Some usr' → id' ≠ id →
    username (updateData body salt usr) ≠ username usr' ∧
    email (updateData body salt usr) ≠ email usr').
  { intros id' usr' Hl Hne. specialize (He _ _ Hl).
    assert (¬ (id' ≠ id ∧
      ((username usr' ≠ "" ∧ field body "username" = Some (username usr')) ∨
       (email usr' ≠ "" ∧ field body "email" = Some (email usr'))))) as Hno.
    { rewrite <-conflicts_spec. by rewrite He. }
    split; intros Heq.
    - destruct (updateData_username body salt usr) as [Hk|[Hk1 Hk2]].
      + apply Hne, (Hun id' id usr' usr Hl Hn). left. congruence.
      + apply Hno. split; [done|]. left. by rewrite <-Heq.
    - destruct (updateData_email body salt usr) as [Hk|[Hk1 Hk2]].
      + apply Hne, (Hun id' id usr' usr Hl Hn). right. congruence.
      + apply Hno. split; [done|]. right. by rewrite <-Heq. }
  intros id1 id2 u1 u2. simpl.
  destruct (decide (id1 = id)) as [->|H1], (decide (id2 = id)) as [->|H2]; [done | | |].
  - rewrite lookup_alter_eq, Hn, lookup_alter_ne by done. intros [= <-] H2' Hor.
    destruct (Hfree _ _ H2' H2). naive_solver.
  - rewrite lookup_alter_eq, Hn, lookup_alter_ne by done. intros H1' [= <-] Hor.
    destruct (Hfree _ _ H1' H1). naive_solver.
  - rewrite !lookup_alter_ne by done. apply Hun.
Qed.

(** When nothing stands in the way, [updateUser]
    answers 200 with the account without its password and stores the user
    name and the e-mail address of the body where it carries them; a new
    password, if given, is stored hashed and is accepted as the current
    password from then on, and otherwise the stored hash is kept.  The
    archive list, the other accounts and the notes are untouched. *)
Theorem updateUser_applies id body u salt w usr cur :
  uid u = id → users w !! id = Some usr → field body "currentPassword" = Some cur →
  bcrypt_compare cur (password usr) = true → existing_conflict body id w = None →
  ∃ usr', updateUser id body u salt w =
      (Respond 200 (JUser id (username usr') (email usr') (archivedNotes usr)),
       set_users <[id := usr']> w) ∧
    username usr' = js_or (field body "username") (username usr) ∧
    email usr' = js_or (field body "email") (email usr) ∧
    archivedNotes usr' = archivedNotes usr ∧
    (∀ p, field body "newPassword" = Some p → p ≠ "" →
       bcrypt_compare p (password usr') = true) ∧
    (truthy_opt (field body "newPassword") = false → password usr' = password usr).
Proof.
  intros Hu Hn Hc Hp He. exists (updateData body salt usr).
  rewrite (updateUser_checked _ _ _ _ _ _ _ Hu Hn Hc Hp), He. simpl.
  split_and!; try done.
  - f_equal. unfold set_users. f_equal. apply map_eq. intros i.
    destruct (decide (i = id)) as [->|?].
    + by rewrite lookup_alter_eq, lookup_insert_eq, Hn.
    + by rewrite lookup_alter_ne, lookup_insert_ne.
  - intros p Hnp Hne. rewrite Hnp. simpl. destruct p; [done|]. simpl.
    apply bcrypt_compare_hashSync.
  - by intros ->.
Qed.

(** [deleteUser] by the account's owner
    removes the account and nothing else: every note the user uploaded is
    still stored, with an uploader that no longer exists. *)
Theorem deleteUser_leaves_notes id u w :
  uid u = id →
  let r := deleteUser id u w in
  r.1 = Respond 200 (JText "User has been deleted") ∧
  users r.2 = delete id (users w) ∧ notes r.2 = notes w ∧ assets r.2 = assets w ∧
  ∀ id' n, notes w !! id' = Some n → uploader n = id →
    notes r.2 !! id' = Some n ∧ users r.2 !! uploader n = None.
Proof.
  intros Hu. simpl. rewrite (deleteUser_authorized _ _ _ Hu). simpl.
  split_and!; try done. intros id' n Hl ->. split; [done | apply lookup_delete_eq].
Qed.

(** [getUserUploads] answers the owner with the
    stored notes whose uploader is the account, each once, and changes
    nothing. *)
Theorem getUserUploads_exact id u w :
  uid u = id →
  ∃ l, getUserUploads id u w = (Respond 200 (JArray l), w) ∧ NoDup l ∧
       ∀ id' n, (id', n) ∈ l ↔ notes w !! id' = Some n ∧ uploader n = id.
Proof.
  intros Hu. rewrite (getUserUploads_authorized _ _ _ Hu). eexists. split; [done|]. split.
  - apply NoDup_filter, NoDup_map_to_list.
  - intros id' n. rewrite list_elem_of_filter, elem_of_map_to_list. simpl.
    rewrite bool_decide_eq_true. tauto.
Qed.

End properties.

(** ** The properties on the sample data *)

Lemma sample_alice_not_bob_account : uid alice ≠ 2.
Proof. done. Qed.

Lemma account_authorization_witness :
  uid alice ≠ 2 ∧
  updateUser 2 rename_body alice "salt" sample_world =
    (Next (errorHandler 401 "You can only update your own account!"), sample_world) ∧
  deleteUser 2 alice sample_world =
    (Next (errorHandler 401 "You can only delete your own account!"), sample_world) ∧
  getUserUploads 2 alice sample_world =
    (Next (errorHandler 401 "You can only view your own Uploads"), sample_world).
Proof.
  exact (conj sample_alice_not_bob_account
    (account_authorization 2 rename_body alice "salt" sample_world
       sample_alice_not_bob_account)).
Defined.

Lemma updateUser_conflict_iff_witness :
  uid alice = 1 ∧
  users sample_world !! 1 = Some (mkUser "alice" "a@x" "h1" []) ∧
  field clash_body "currentPassword" = Some "h1" ∧
  bcrypt_compare "h1" (password (mkUser "alice" "a@x" "h1" [])) = true ∧
  let r := updateUser 1 clash_body alice "salt" sample_world in
  ((∃ msg, r = (Next (errorHandler 409 msg), sample_world)) ↔
   ∃ id' usr', users sample_world !! id' = Some usr' ∧ id' ≠ 1 ∧
     ((username usr' ≠ "" ∧ field clash_body "username" = Some (username usr')) ∨
      (email usr' ≠ "" ∧ field clash_body "email" = Some (email usr')))) ∧
  ((∃ msg, r.1 = Next (errorHandler 409 msg)) → r.2 = sample_world).
Proof.
  exact (conj eq_refl (conj eq_refl (conj eq_refl (conj eq_refl
    (updateUser_conflict_iff 1 clash_body alice "salt" sample_world
       (mkUser "alice" "a@x" "h1" []) "h1" eq_refl eq_refl eq_refl eq_refl))))).
Defined.

Lemma sample_unique : unique_accounts sample_world.
Proof.
  intros id1 id2 u1 u2. simpl. rewrite !lookup_insert_Some, !lookup_singleton_Some.
  intros [[<- <-]|[_ [<- <-]]] [[<- <-]|[_ [<- <-]]]; simpl; naive_solver.
Qed.

Lemma updateUser_keeps_unique_witness :
  unique_accounts sample_world ∧
  unique_accounts (updateUser 1 rename_body alice "salt" sample_world).2.
Proof.
  exact (conj sample_unique
    (updateUser_keeps_unique 1 rename_body alice "salt" sample_world sample_unique)).
Defined.

Lemma sample_no_conflict : existing_conflict password_body 1 sample_world = None.
Proof. reflexivity. Qed.

Lemma updateUser_applies_witness :
  uid alice = 1 ∧
  users sample_world !! 1 = Some (mkUser "alice" "a@x" "h1" []) ∧
  field password_body "currentPassword" = Some "h1" ∧
  bcrypt_compare "h1" (password (mkUser "alice" "a@x" "h1" [])) = true ∧
  existing_conflict password_body 1 sample_world = None ∧
  ∃ usr', updateUser 1 password_body alice "salt" sample_world =
      (Respond 200 (JUser 1 (username usr') (email usr') []),
       set_users <[1 := usr']> sample_world) ∧
    username usr' = js_or (field password_body "username") "alice" ∧
    email usr' = js_or (field password_body "email") "a@x" ∧
    archivedNotes usr' = [] ∧
    (∀ p, field password_body "newPassword" = Some p → p ≠ "" →
       bcrypt_compare p (password usr') = true) ∧
    (truthy_opt (field password_body "newPassword") = false → password usr' = "h1").
Proof.
  exact (conj eq_refl (conj eq_refl (conj eq_refl (conj eq_refl (conj sample_no_conflict
    (updateUser_applies 1 password_body alice "salt" sample_world
       (mkUser "alice" "a@x" "h1" []) "h1" eq_refl eq_refl eq_refl eq_refl
       sample_no_conflict)))))).
Defined.

Lemma deleteUser_leaves_notes_witness :
  uid alice = 1 ∧
  let r := deleteUser 1 alice sample_world in
  r.1 = Respond 200 (JText "User has been deleted") ∧
  users r.2 = delete 1 (users sample_world) ∧ notes r.2 = notes sample_world ∧
  assets r.2 = assets sample_world ∧
  ∀ id' n, notes sample_world !! id' = Some n → uploader n = 1 →
    notes r.2 !! id' = Some n ∧ users r.2 !! uploader n = None.
Proof. exact (conj eq_refl (deleteUser_leaves_notes 1 alice sample_world eq_refl)). Defined.

Lemma getUserUploads_exact_witness :
  uid alice = 1 ∧
  ∃ l, getUserUploads 1 alice sample_world = (Respond 200 (JArray l), sample_world) ∧
       NoDup l ∧
       ∀ id' n, (id', n) ∈ l ↔ notes sample_world !! id' = Some n ∧ uploader n = 1.
Proof. exact (conj eq_refl (getUserUploads_exact 1 alice sample_world eq_refl)). Defined.
