(* ===== verification/AccountAsync.v ===== *)
(** * AccountAsync: the user controller, await by await

    [updateUser] of [controllers/user.controller.js] awaits four times: it
    reads the account, compares the password, looks for another account
    with the requested name or address, and updates.  The look-up and the
    update are two calls to the database; other requests run in between.
    [deleteUser] and [getUserUploads] await once.

    The processes are those of [Eventloop]; [verify_password_async],
    [check_existing_async] and [set_account_async] name what is left of
    [updateUser] after its first, second and third [await].

    The theorems: run without interruption the processes are the handlers
    of [Account]; they answer within four steps and touch nothing but the
    accounts; an update whose account is deleted while it is in flight
    forwards a [TypeError]; and two accounts that ask for the same free
    user name at the same time both get it.  The handler's own check keeps
    user names unique only among requests that do not overlap
    ([updateUser_keeps_unique] of [Account]). *)

From S2P Require Import Prelude JsString Model Contract Eventloop Account.

Local Open Scope string_scope.
Local Open Scope list_scope.
Local Open Scope handler_scope.

Section handlers.
Context {crypt : Bcrypt}.

(** [await bcrypt.compare(req.body.currentPassword, user.password)]: the
    promise is rejected when the body carries no current password. *)
Definition compare_password (body : ReqBody) (user : User) : handler bool :=
  let! current := some_or (field body "currentPassword")
                    (Next (new_Error "Illegal arguments: undefined, string")) in
  ret (bcrypt_compare current (password user)).

(** [updateUser] from [User.findByIdAndUpdate] on. *)
Definition set_account_async (id : oid) (body : ReqBody) (salt : string) : Proc :=
  await! updatedUser := User_findByIdAndUpdate id (updateData body salt) in
  match updatedUser with
  | None => Answer (Next (TypeError "Cannot read properties of null (reading '_doc')"))
  | Some updatedUser =>
      Answer (Respond 200 (JUser id (username updatedUser) (email updatedUser)
                             (archivedNotes updatedUser)))
  end.

(** [updateUser] from the look-up of another account on. *)
Definition check_existing_async (id : oid) (body : ReqBody) (salt : string) : Proc :=
  if truthy_opt (field body "username") || truthy_opt (field body "email") then
    await! existingUser := User_findOne (conflicts body id) in
    match existingUser with
    | Some existing =>
        Answer (Next (errorHandler 409
                  (conflictField body existing.2 +:+ " already exists")))
    | None => set_account_async id body salt
    end
  else set_account_async id body salt.

(** [updateUser] from the comparison of the password on. *)
Definition verify_password_async (id : oid) (body : ReqBody) (salt : string) (user : User) :
    Proc :=
  await! isPasswordValid := compare_password body user in
  if isPasswordValid then check_existing_async id body salt
  else Answer (Next (errorHandler 401 "Invalid Password")).

(** [updateUser]. *)
Definition updateUser_async (id : oid) (body : ReqBody) (u : AuthUser) (salt : string) :
    Proc :=
  if bool_decide (uid u = id) then
    await! user := User_findById id in
    match user with
    | None => Answer (Next (errorHandler 404 "User not found"))
    | Some user => verify_password_async id body salt user
    end
  else Answer (Next (errorHandler 401 "You can only update your own account!")).

End handlers.

(** [deleteUser]. *)
Definition deleteUser_async (id : oid) (u : AuthUser) : Proc :=
  if bool_decide (uid u = id) then
    await! _ := User_findByIdAndDelete id in
    Answer (Respond 200 (JText "User has been deleted"))
  else Answer (Next (errorHandler 401 "You can only delete your own account!")).

(** [getUserUploads]. *)
Definition getUserUploads_async (id : oid) (u : AuthUser) : Proc :=
  if bool_decide (uid u = id) then
    await! notes := Note_find (λ e, bool_decide (uploader e.2 = id)) in
    Answer (Respond 200 (JArray notes))
  else Answer (Next (errorHandler 401 "You can only view your own Uploads")).

(** What no step of the user controller touches: the notes, the object
    store and the allocator. *)
Definition accounts_only (w w' : World) : Prop :=
  notes w' = notes w ∧ assets w' = assets w ∧ calls w' = calls w ∧
  next_oid w' = next_oid w.

(** [may_rename w id u body name]: in the stores [w] nothing stands in the
    way of the request of [u] to rename the account [id] to [name]: the
    caller owns the account, the current password is the right one, and no
    other account holds the name or the address asked for. *)
Definition may_rename `{Bcrypt} (w : World) (id : oid) (u : AuthUser) (body : ReqBody)
    (name : string) : Prop :=
  uid u = id ∧ field body "username" = Some name ∧ truthy name = true ∧
  existing_conflict body id w = None ∧
  ∃ usr cur, users w !! id = Some usr ∧ field body "currentPassword" = Some cur ∧
             bcrypt_compare cur (password usr) = true.

(** Two requests of the sample data: alice and bob both ask for the user
    name carol. *)
Definition bob_rename_body : ReqBody :=
  {| fields := {[ "currentPassword" := "h2"; "username" := "carol" ]};
     body_uploader := None |}.

Definition rename_pool : list Proc :=
  [updateUser_async (crypt:=toy_bcrypt) 1 rename_body alice "s1";
   updateUser_async (crypt:=toy_bcrypt) 2 bob_rename_body bob "s2"].

#[export] Instance accounts_only_preorder : PreOrder accounts_only.
Proof.
  split; [by intros w | intros w1 w2 w3 (? & ? & ? & ?) (? & ? & ? & ?)].
  unfold accounts_only. split_and!; congruence.
Qed.

(** ** Without interruption, the handlers of [Account] *)

Section uninterrupted.
Context {crypt : Bcrypt}.
Implicit Types (id : oid) (u : AuthUser) (w : World) (usr : User) (body : ReqBody)
  (salt : string).

Lemma finish_set_account id body salt w :
  finish (set_account_async id body salt) w =
    match users w !! id with
    | Some usr =>
        (Respond 200 (JUser id (username (updateData body salt usr))
                        (email (updateData body salt usr))
                        (archivedNotes (updateData body salt usr))),
         set_users (alter (updateData body salt) id) w)
    | None => (Next (TypeError "Cannot read properties of null (reading '_doc')"),
               set_users (alter (updateData body salt) id) w)
    end.
Proof.
  unfold set_account_async. rewrite finish_await.
  unfold User_findByIdAndUpdate. handler_simp. rewrite lookup_alter_eq.
  by destruct (users w !! id).
Qed.

Lemma finish_updateUser id body u salt w :
  finish (updateUser_async id body u salt) w = updateUser id body u salt w.
Proof.
  unfold updateUser_async, updateUser. case_bool_decide as Hu; [|by handler_simp].
  rewrite finish_await. handler_simp. destruct (users w !! uid u) as [usr|] eqn:Husr; [|done].
  unfold verify_password_async, compare_password. rewrite finish_await. handler_simp.
  destruct (field body "currentPassword") as [cur|]; [|done]. simpl.
  destruct (bcrypt_compare cur (password usr)); [|done]. simpl.
  unfold check_existing_async.
  destruct (truthy_opt (field body "username") || truthy_opt (field body "email")).
  - rewrite finish_await. unfold User_findOne, gets.
    destruct (snd <$> list_find _ _) as [existing|]; [done|].
    rewrite finish_set_account. simpl. rewrite lookup_alter_eq.
    by destruct (users w !! uid u).
  - rewrite finish_set_account. simpl. rewrite lookup_alter_eq. by destruct (users w !! uid u).
Qed.

Lemma finish_deleteUser id u w : finish (deleteUser_async id u) w = deleteUser id u w.
Proof. unfold deleteUser_async, deleteUser. by case_bool_decide; handler_simp. Qed.

Lemma finish_getUserUploads id u w :
  finish (getUserUploads_async id u) w = getUserUploads id u w.
Proof. unfold getUserUploads_async, getUserUploads. by case_bool_decide; handler_simp. Qed.

(** ** The steps and what they touch *)

Lemma within_updateUser id body u salt : within 4 (updateUser_async id body u salt).
Proof.
  unfold updateUser_async, verify_password_async, check_existing_async, set_account_async.
  repeat first [ apply within_Answer | apply within_await; intros ? | case_match ].
Qed.

Lemma within_deleteUser id u : within 1 (deleteUser_async id u).
Proof. unfold deleteUser_async. case_match; auto with sphere. Qed.

Lemma within_getUserUploads id u : within 1 (getUserUploads_async id u).
Proof. unfold getUserUploads_async. case_match; auto with sphere. Qed.

(** A call that only reads leaves the stores as they are. *)
Lemma respects_read {A} (R : relation World) `{!Reflexive R} (m : handler A) (k : A → Proc) :
  (∀ w, (m w).2 = w) → (∀ a, respects R (k a)) → respects R (await m k).
Proof. intros Hm Hk. apply respects_await; [|done]. intros w. by rewrite Hm. Qed.

Lemma compare_password_state body usr w : (compare_password body usr w).2 = w.
Proof. unfold compare_password. handler_simp. by destruct (field body "currentPassword"). Qed.

Lemma respects_set_account id body salt : respects accounts_only (set_account_async id body salt).
Proof.
  unfold set_account_async. apply respects_await; [done|]. intros [?|]; constructor.
Qed.

Lemma respects_check_existing id body salt :
  respects accounts_only (check_existing_async id body salt).
Proof.
  unfold check_existing_async. case_match; [|apply respects_set_account].
  apply respects_read; [apply _ | done |].
  intros [?|]; [constructor | apply respects_set_account].
Qed.

Lemma respects_updateUser id body u salt :
  respects accounts_only (updateUser_async id body u salt).
Proof.
  unfold updateUser_async. case_match; [|constructor].
  apply respects_read; [apply _ | done |]. intros [usr|]; [|constructor].
  apply respects_read; [apply _ | apply compare_password_state |].
  intros []; [apply respects_check_existing | constructor].
Qed.

Lemma respects_deleteUser id u : respects accounts_only (deleteUser_async id u).
Proof.
  unfold deleteUser_async. case_match; [|constructor].
  by apply respects_await; [intros ? | constructor].
Qed.

End uninterrupted.

(** ** Two updates in flight *)

Section race.
Context {crypt : Bcrypt}.
Implicit Types (c : Config) (id : oid) (u : AuthUser) (usr : User) (body : ReqBody)
  (salt : string).

Lemma update_load c i id body u salt usr :
  c.2 !! i = Some (updateUser_async id body u salt) → uid u = id →
  users c.1 !! id = Some usr →
  sched_step c i = (c.1, <[i := verify_password_async id body salt usr]> c.2).
Proof.
  intros Hi Hu Husr. unfold sched_step. rewrite Hi. unfold updateUser_async.
  rewrite bool_decide_eq_true_2 by done. simpl. by rewrite Husr.
Qed.

Lemma update_verify c i id body salt usr cur :
  c.2 !! i = Some (verify_password_async id body salt usr) →
  field body "currentPassword" = Some cur → bcrypt_compare cur (password usr) = true →
  sched_step c i = (c.1, <[i := check_existing_async id body salt]> c.2).
Proof.
  intros Hi Hcur Hok. unfold sched_step. rewrite Hi. simpl.
  unfold compare_password. handler_simp. by rewrite Hcur; simpl; rewrite Hok.
Qed.

Lemma update_check c i id body salt :
  c.2 !! i = Some (check_existing_async id body salt) →
  truthy_opt (field body "username") || truthy_opt (field body "email") = true →
  existing_conflict body id c.1 = None →
  sched_step c i = (c.1, <[i := set_account_async id body salt]> c.2).
Proof.
  intros Hi Ht Hfree. unfold sched_step. rewrite Hi. unfold check_existing_async.
  rewrite Ht. simpl. unfold existing_conflict in Hfree. rewrite Ht in Hfree.
  by rewrite Hfree.
Qed.

Lemma update_set c i id body salt usr :
  c.2 !! i = Some (set_account_async id body salt) → users c.1 !! id = Some usr →
  sched_step c i =
    (set_users (alter (updateData body salt) id) c.1,
     <[i := Answer (Respond 200 (JUser id (username (updateData body salt usr))
                                   (email (updateData body salt usr))
                                   (archivedNotes (updateData body salt usr))))]> c.2).
Proof.
  intros Hi Husr. unfold sched_step. rewrite Hi. simpl.
  by rewrite lookup_alter_eq, Husr.
Qed.

Lemma update_gone c i id body salt :
  c.2 !! i = Some (set_account_async id body salt) → users c.1 !! id = None →
  sched_step c i =
    (set_users (alter (updateData body salt) id) c.1,
     <[i := Answer (Next (TypeError "Cannot read properties of null (reading '_doc')"))]>
       c.2).
Proof.
  intros Hi Husr. unfold sched_step. rewrite Hi. simpl.
  by rewrite lookup_alter_eq, Husr.
Qed.

Lemma delete_step c i id u :
  c.2 !! i = Some (deleteUser_async id u) → uid u = id →
  sched_step c i =
    (set_users (delete id) c.1,
     <[i := Answer (Respond 200 (JText "User has been deleted"))]> c.2).
Proof.
  intros Hi Hu. unfold sched_step. rewrite Hi. unfold deleteUser_async.
  by rewrite bool_decide_eq_true_2.
Qed.

Lemma updateData_renames body salt usr name :
  field body "username" = Some name → truthy name = true →
  username (updateData body salt usr) = name.
Proof. intros Hf Ht. unfold updateData. simpl. rewrite Hf. simpl. by rewrite Ht. Qed.

(** The three reads of an update that nothing stands in the way of. *)
Lemma update_reads c i id body u salt usr cur :
  c.2 !! i = Some (updateUser_async id body u salt) → uid u = id →
  users c.1 !! id = Some usr → field body "currentPassword" = Some cur →
  bcrypt_compare cur (password usr) = true →
  truthy_opt (field body "username") || truthy_opt (field body "email") = true →
  existing_conflict body id c.1 = None →
  run_schedule [i; i; i] c = (c.1, <[i := set_account_async id body salt]> c.2).
Proof.
  intros Hi Hu Husr Hcur Hok Ht Hfree. pose proof (lookup_lt_Some _ _ _ Hi) as Hlt.
  cbn [run_schedule foldl]. rewrite (update_load c i id body u salt usr) by done.
  rewrite (update_verify (_, _) i id body salt usr cur)
    by (done || by apply list_lookup_insert_eq).
  rewrite (update_check (_, _) i id body salt);
    [|simpl; apply list_lookup_insert_eq; by rewrite length_insert|done..].
  simpl. by rewrite !list_insert_insert_eq.
Qed.

(** The reads of a rename that nothing stands in the way of, in a pool in
    which the stores are still those the request was allowed in. *)
Lemma rename_reads c i id body u salt name :
  c.2 !! i = Some (updateUser_async id body u salt) → may_rename c.1 id u body name →
  run_schedule [i; i; i] c = (c.1, <[i := set_account_async id body salt]> c.2).
Proof.
  intros Hi (Hu & Hname & Ht & Hfree & usr & cur & Husr & Hcur & Hok).
  apply (update_reads c i id body u salt usr cur); try done.
  by rewrite Hname; simpl; rewrite Ht.
Qed.

(** C32 (concurrent_renames_collide): two accounts that ask for the same
    free user name at the same time both get it: each request looks for an
    account with that name before the other has updated, both are answered
    200, and the two accounts hold the same user name afterwards.  The check
    of [updateUser] keeps user names unique only when requests do not
    overlap. *)
Theorem concurrent_renames_collide id1 id2 u1 u2 body1 body2 salt1 salt2 name w :
  id1 ≠ id2 → may_rename w id1 u1 body1 name → may_rename w id2 u2 body2 name →
  let c := run_schedule [0; 0; 0; 1; 1; 1; 0; 1]
             (w, [updateUser_async id1 body1 u1 salt1; updateUser_async id2 body2 u2 salt2]) in
  ∃ usr1 usr2,
    users c.1 !! id1 = Some usr1 ∧ users c.1 !! id2 = Some usr2 ∧
    username usr1 = name ∧ username usr2 = name ∧
    c.2 = [Answer (Respond 200 (JUser id1 name (email usr1) (archivedNotes usr1)));
           Answer (Respond 200 (JUser id2 name (email usr2) (archivedNotes usr2)))] ∧
    ¬ unique_accounts c.1.
Proof.
  intros Hne H1 H2 c. subst c.
  change [0; 0; 0; 1; 1; 1; 0; 1] with ([0; 0; 0] ++ [1; 1; 1] ++ [0; 1]).
  rewrite !run_schedule_app, (rename_reads (_, _) 0 id1 body1 u1 salt1 name) by done.
  rewrite (rename_reads (_, _) 1 id2 body2 u2 salt2 name) by done.
  destruct H1 as (_ & Hn1 & Ht1 & _ & usr1 & _ & Husr1 & _).
  destruct H2 as (_ & Hn2 & Ht2 & _ & usr2 & _ & Husr2 & _).
  cbn [run_schedule foldl fst snd list_insert].
  rewrite (update_set (_, _) 0 id1 body1 salt1 usr1) by done.
  rewrite (update_set (_, _) 1 id2 body2 salt2 usr2)
    by (done || by simpl; rewrite lookup_alter_ne).
  cbn [fst snd list_insert users set_users].
  rewrite !(updateData_renames _ _ _ name) by done.
  exists (updateData body1 salt1 usr1), (updateData body2 salt2 usr2).
  assert (alter (updateData body2 salt2) id2 (alter (updateData body1 salt1) id1 (users w))
            !! id1 = Some (updateData body1 salt1 usr1)) as Hl1
    by by rewrite lookup_alter_ne, lookup_alter_eq, Husr1.
  assert (alter (updateData body2 salt2) id2 (alter (updateData body1 salt1) id1 (users w))
            !! id2 = Some (updateData body2 salt2 usr2)) as Hl2
    by by rewrite lookup_alter_eq, lookup_alter_ne, Husr2.
  split_and!; [done | done | by apply updateData_renames.. | done |].
  intros Hun. apply Hne, (Hun _ _ _ _ Hl1 Hl2). left.
  by rewrite !(updateData_renames _ _ _ name).
Qed.

(** An update whose account is deleted
    between its look-up and its update is answered with a [TypeError]
    forwarded to [next] and stores nothing: [findByIdAndUpdate] finds no
    document, and the handler reads a field of the null it returns. *)
Theorem update_of_deleted_account id u body salt name w :
  may_rename w id u body name →
  let c := run_schedule [0; 0; 0; 1; 0]
             (w, [updateUser_async id body u salt; deleteUser_async id u]) in
  users c.1 = delete id (users w) ∧
  c.2 = [Answer (Next (TypeError "Cannot read properties of null (reading '_doc')"));
         Answer (Respond 200 (JText "User has been deleted"))].
Proof.
  intros H c. subst c. change [0; 0; 0; 1; 0] with ([0; 0; 0] ++ [1; 0]).
  rewrite run_schedule_app, (rename_reads (_, _) 0 id body u salt name) by done.
  destruct H as (Hu & _). cbn [run_schedule foldl fst snd list_insert].
  rewrite (delete_step (_, _) 1 id u) by done.
  rewrite (update_gone (_, _) 0 id body salt) by (done || by simpl; rewrite lookup_delete_eq).
  cbn [fst snd list_insert users set_users].
  split; [|done]. apply map_eq. intros i. destruct (decide (i = id)) as [->|Hne].
  - by rewrite lookup_alter_eq, !lookup_delete_eq.
  - by rewrite lookup_alter_ne.
Qed.

End race.

(** ** The properties on the sample data *)

Lemma alice_may_rename : may_rename sample_world 1 alice rename_body "carol".
Proof. repeat split. by exists (mkUser "alice" "a@x" "h1" []), "h1". Qed.

Lemma bob_may_rename : may_rename sample_world 2 bob bob_rename_body "carol".
Proof. repeat split. by exists (mkUser "bob" "b@x" "h2" [10]), "h2". Qed.

Lemma concurrent_renames_collide_witness :
  ∃ usr1 usr2,
    users (run_schedule [0; 0; 0; 1; 1; 1; 0; 1] (sample_world, rename_pool)).1 !! 1
      = Some usr1 ∧
    users (run_schedule [0; 0; 0; 1; 1; 1; 0; 1] (sample_world, rename_pool)).1 !! 2
      = Some usr2 ∧
    username usr1 = "carol" ∧ username usr2 = "carol" ∧
    (run_schedule [0; 0; 0; 1; 1; 1; 0; 1] (sample_world, rename_pool)).2 =
      [Answer (Respond 200 (JUser 1 "carol" (email usr1) (archivedNotes usr1)));
       Answer (Respond 200 (JUser 2 "carol" (email usr2) (archivedNotes usr2)))] ∧
    ¬ unique_accounts (run_schedule [0; 0; 0; 1; 1; 1; 0; 1] (sample_world, rename_pool)).1.
Proof.
  exact (concurrent_renames_collide (crypt:=toy_bcrypt) 1 2 alice bob rename_body
           bob_rename_body "s1" "s2" "carol" sample_world ltac:(done) alice_may_rename
           bob_may_rename).
Defined.

Lemma update_of_deleted_account_witness :
  let c := run_schedule [0; 0; 0; 1; 0]
             (sample_world,
              [updateUser_async (crypt:=toy_bcrypt) 1 rename_body alice "s1";
               deleteUser_async 1 alice]) in
  users c.1 = delete 1 (users sample_world) ∧
  c.2 = [Answer (Next (TypeError "Cannot read properties of null (reading '_doc')"));
         Answer (Respond 200 (JText "User has been deleted"))].
Proof.
  exact (update_of_deleted_account (crypt:=toy_bcrypt) 1 alice rename_body "s1" "carol"
           sample_world alice_may_rename).
Defined.
