(* ===== verification/Search.v ===== *)
(** * Search: the two [getAllNotes] handlers

    [controllers/notes.controller.js] exports the handler behind [GET /]:
    it builds a MongoDB query from the query string and answers with the
    matching notes, newest first.  The free-text parameter [search] becomes
    a case-insensitive [$regex] over title, subject, college and course; the
    parameters [subject], [college], [semester], [course] and [batch] become
    equality conditions.  [controllers/uploading.controller.js] holds a
    second handler of the same name, which no route of the sources uses: its
    free-text search covers title, description and subject, its four filters
    are case-insensitive regular expressions too, and its answer carries a
    count.

    The regular expressions are evaluated by the database.  The class
    [RegexEngine] states what the theorems need of it: a pattern without
    metacharacters is a regular expression and matches exactly the
    strings that contain it, letter case aside.  A pattern that is not a
    regular expression makes [find] reject ([regex_error]), and the
    [catch] of the handler forwards the error to [next]; a [search]
    parameter is sent to the database as it arrives, so [GET /?search=(]
    is answered by the error middleware.  The sort is
    [sort({ createdAt: -1 })]; the order of notes created at the same
    instant is the database's choice, modelled by a stable merge sort of
    the collection's order.

    The theorems: when the pattern is refused, the error is forwarded;
    when it is a regular expression, the answer holds exactly the stored
    notes that satisfy the query, each once, sorted by creation time,
    newest first ([getAllNotes_lists]); the filters of the routed handler
    are exact and case-sensitive, where the specification asks for
    case-insensitive substring match; nothing is changed. *)

From Stdlib Require Import Ascii.
From stdpp Require Import sorting.
From S2P Require Import Prelude JsString Model Contract.

Local Open Scope string_scope.
Local Open Scope list_scope.
Local Open Scope handler_scope.

(** ** Letter case and literal patterns *)

Definition lower_char (c : ascii) : ascii :=
  let n := nat_of_ascii c in
  if (65 <=? n)%nat && (n <=? 90)%nat then ascii_of_nat (n + 32) else c.

Fixpoint lower (s : string) : string :=
  match s with
  | EmptyString => EmptyString
  | String c s' => String (lower_char c) (lower s')
  end.

(** The characters with a meaning of their own in a regular expression. *)
Definition metachars : list ascii :=
  ["\"; "^"; "$"; "."; "|"; "?"; "*"; "+"; "("; ")"; "["; "]"; "{"; "}"]%char.

Fixpoint literal (pattern : string) : bool :=
  match pattern with
  | EmptyString => true
  | String c p => bool_decide (c ∉ metachars) && literal p
  end.

(** [{ $regex: pattern, $options: 'i' }] applied to a string: what the
    theorems need of the database's regular expressions. *)
Class RegexEngine := {
  regex_test : string → string → bool;
  regex_error : string → option string;
  regex_literal pattern s :
    literal pattern = true → regex_test pattern s = includes (lower s) (lower pattern);
  regex_literal_valid pattern : literal pattern = true → regex_error pattern = None;
}.

(** An engine for the sample data: it takes the patterns without
    metacharacters literally and refuses the others. *)
Definition literal_test (pattern s : string) : bool := includes (lower s) (lower pattern).

Definition literal_error (pattern : string) : option string :=
  if literal pattern then None else Some "Regular expression is invalid".

(** ** The query string *)

Record Query := mkQuery {
  q_search : option string;
  q_subject : option string;
  q_college : option string;
  q_semester : option string;
  q_course : option string;
  q_batch : option string;
}.

(** [if (param) query.field = param]: an equality condition, present when
    the parameter is. *)
Definition exact (param : option string) (value : string) : bool :=
  if truthy_opt param then bool_decide (param = Some value) else true.

(** Newest first. *)
Definition newer (a b : oid * Note) : Prop := (createdAt b.2 ≤ createdAt a.2)%nat.

#[export] Instance newer_dec a b : Decision (newer a b).
Proof. unfold newer. apply _. Defined.

Definition sort_newest (l : list (oid * Note)) : list (oid * Note) :=
  merge_sort newer l.

Section engine.
Context {engine : RegexEngine}.

(** [if (param) filter.field = { $regex: param, $options: 'i' }]. *)
Definition like (param : option string) (value : string) : bool :=
  if truthy_opt param then regex_test (js_or param "") value else true.

(** The error of the first parameter, among those sent as [$regex], that
    is not a regular expression. *)
Definition regex_errors (params : list (option string)) : option string :=
  head (omap (λ param, if truthy_opt param then regex_error (js_or param "") else None)
          params).

(** [find(filter)] with the parameters the filter sends as [$regex]: the
    call rejects when one of them is not a regular expression. *)
Definition Note_find_regex (params : list (option string)) (P : oid * Note → bool) :
    handler (list (oid * Note)) :=
  match regex_errors params with
  | Some m => exit (Next (new_Error m))
  | None => Note_find P
  end.

(** The query of the routed handler. *)
Definition query (q : Query) (n : Note) : bool :=
  (if truthy_opt (q_search q) then
     let search := js_or (q_search q) "" in
     regex_test search (title n) || regex_test search (subjectName n)
     || regex_test search (collegeName n) || regex_test search (courseName n)
   else true)
  && exact (q_subject q) (subjectName n)
  && exact (q_college q) (collegeName n)
  && exact (q_semester q) (semester n)
  && exact (q_course q) (courseName n)
  && exact (q_batch q) (batch n).

(** [getAllNotes] of [notes.controller.js]: [GET /]. *)
Definition getAllNotes (q : Query) : World → Outcome * World :=
  run (
    let! notes := Note_find_regex [q_search q] (λ e, query q e.2) in
    ret (Respond 200 (JNotes (sort_newest notes)))).

End engine.

Module Uploading.
Section engine.
Context {engine : RegexEngine}.

(** The filter of the handler in [uploading.controller.js]; it reads no
    [batch] parameter. *)
Definition filter (q : Query) (n : Note) : bool :=
  (if truthy_opt (q_search q) then
     let search := js_or (q_search q) "" in
     regex_test search (title n) || regex_test search (description n)
     || regex_test search (subjectName n)
   else true)
  && like (q_subject q) (subjectName n)
  && like (q_course q) (courseName n)
  && like (q_semester q) (semester n)
  && like (q_college q) (collegeName n).

(** [getAllNotes] of [uploading.controller.js]. *)
Definition getAllNotes (q : Query) : World → Outcome * World :=
  run (
    let! notes := Note_find_regex
                    [q_search q; q_subject q; q_course q; q_semester q; q_college q]
                    (λ e, filter q e.2) in
    let notes := sort_newest notes in
    ret (Respond 200 (JCounted (length notes) notes))).

End engine.
End Uploading.

(** The notes an answer lists. *)
Definition listed (o : Outcome) : list (oid * Note) :=
  match o with
  | Respond _ (JNotes l) | Respond _ (JCounted _ l) | Respond _ (JArray l)
  | Respond _ (JArchives l) => l
  | _ => []
  end.

(** Notes and queries of the sample data. *)
Definition lowercase_note : Note :=
  {| title := "Graphs"; description := ""; collegeName := "MIT"; courseName := "CS";
     batch := "2025"; subjectName := "algorithms"; semester := "3"; uploader := 2;
     fileUrl := "https://example.org/graphs.pdf"; fileName := "graphs.pdf";
     fileType := "application/pdf"; likes := []; comments := []; archived := false;
     downloadCount := 0; createdAt := 9 |}.

Definition two_notes : World :=
  {| notes := {[ 10 := sample_note; 13 := lowercase_note ]}; users := users sample_world;
     assets := assets sample_world; calls := []; next_oid := 14 |}.

Definition any_query : Query := mkQuery None None None None None None.

Definition subject_query (s : string) : Query :=
  mkQuery None (Some s) None None None None.

Definition search_query (s : string) : Query :=
  mkQuery (Some s) None None None None None.

(** ** Letter case *)

Lemma lower_app s t : lower (s +:+ t) = lower s +:+ lower t.
Proof. induction s as [|c s IH]; simpl; [done | by rewrite IH]. Qed.

Lemma lower_char_idemp c : lower_char (lower_char c) = lower_char c.
Proof.
  unfold lower_char. destruct ((65 <=? nat_of_ascii c)%nat && (nat_of_ascii c <=? 90)%nat) eqn:Hc.
  - apply andb_true_iff in Hc as [H1%Nat.leb_le H2%Nat.leb_le].
    rewrite nat_ascii_embedding by lia.
    rewrite (proj2 (Nat.leb_gt (nat_of_ascii c + 32) 90)) by lia. by rewrite andb_false_r.
  - by rewrite Hc.
Qed.

Lemma lower_idemp s : lower (lower s) = lower s.
Proof. induction s as [|c s IH]; simpl; [done | by rewrite lower_char_idemp, IH]. Qed.

(** The engine of the sample data. *)
#[export] Instance literal_engine : RegexEngine.
Proof.
  refine {| regex_test := literal_test; regex_error := literal_error |}; [done|].
  intros pattern Hp. unfold literal_error. by rewrite Hp.
Defined.

(** ** Sorting *)

#[export] Instance newer_total : Total newer.
Proof. intros a b. unfold newer. lia. Qed.

#[export] Instance newer_trans : Transitive newer.
Proof. intros a b c. unfold newer. lia. Qed.

Lemma sort_newest_Permutation l : sort_newest l ≡ₚ l.
Proof. apply merge_sort_Permutation. Qed.

Lemma sort_newest_sorted l : StronglySorted newer (sort_newest l).
Proof. apply StronglySorted_merge_sort; apply _. Qed.

Lemma sort_newest_elem_of e l : e ∈ sort_newest l ↔ e ∈ l.
Proof. by rewrite sort_newest_Permutation. Qed.

Lemma sort_newest_NoDup l : NoDup l → NoDup (sort_newest l).
Proof. by rewrite sort_newest_Permutation. Qed.

Lemma sort_newest_length l : length (sort_newest l) = length l.
Proof. by rewrite sort_newest_Permutation. Qed.

(** ** The handlers *)

Section handlers.
Context {engine : RegexEngine}.
Implicit Types (q : Query) (w : World) (n : Note) (id : oid).

Lemma exact_spec param value :
  exact param value = true ↔ (∀ s, param = Some s → s ≠ "" → value = s).
Proof.
  unfold exact. destruct param as [[|c s]|]; simpl.
  - split; [by intros _ s [= <-] | done].
  - rewrite bool_decide_eq_true. split; [by intros [= ->] s' [= <-] | ].
    intros Hs. by rewrite (Hs (String c s)).
  - done.
Qed.

Lemma like_literal param value s :
  param = Some s → s ≠ "" → literal s = true →
  like param value = includes (lower value) (lower s).
Proof. intros -> Hs Hl. unfold like. destruct s; [done|]. simpl. by apply regex_literal. Qed.

Lemma like_absent param value : truthy_opt param = false → like param value = true.
Proof. intros Hp. unfold like. by rewrite Hp. Qed.

Lemma regex_errors_cons param params :
  regex_errors (param :: params) =
    match (if truthy_opt param then regex_error (js_or param "") else None) with
    | Some m => Some m
    | None => regex_errors params
    end.
Proof. unfold regex_errors. simpl. by case_match. Qed.

(** A parameter that is absent, empty or free of metacharacters is
    accepted. *)
Lemma regex_errors_literal param params :
  (∀ s, param = Some s → literal s = true) →
  regex_errors (param :: params) = regex_errors params.
Proof.
  intros Hp. rewrite regex_errors_cons. destruct param as [s|]; simpl; [|done].
  destruct (truthy s); [|done]. by rewrite regex_literal_valid by auto.
Qed.

Lemma getAllNotes_eq q w :
  regex_errors [q_search q] = None →
  getAllNotes q w =
    (Respond 200 (JNotes (sort_newest (filter (λ e, query q e.2 = true)
                                               (map_to_list (notes w))))), w).
Proof. intros Hq. unfold getAllNotes, Note_find_regex. by rewrite Hq. Qed.

Lemma getAllNotes_rejected q w m :
  regex_errors [q_search q] = Some m → getAllNotes q w = (Next (new_Error m), w).
Proof. intros Hq. unfold getAllNotes, Note_find_regex. by rewrite Hq. Qed.

Lemma Uploading_getAllNotes_eq q w :
  regex_errors [q_search q; q_subject q; q_course q; q_semester q; q_college q] = None →
  let l := sort_newest (filter (λ e, Uploading.filter q e.2 = true) (map_to_list (notes w))) in
  Uploading.getAllNotes q w = (Respond 200 (JCounted (length l) l), w).
Proof. intros Hq. unfold Uploading.getAllNotes, Note_find_regex. by rewrite Hq. Qed.

#[export] Instance getAllNotes_read_only q : ReadOnly (getAllNotes q).
Proof.
  intros w _. unfold getAllNotes, Note_find_regex. by destruct (regex_errors _).
Qed.

#[export] Instance Uploading_getAllNotes_read_only q : ReadOnly (Uploading.getAllNotes q).
Proof.
  intros w _. unfold Uploading.getAllNotes, Note_find_regex. by destruct (regex_errors _).
Qed.

(** What [find] with a filter, followed by the sort, returns. *)
Lemma listing_spec (P : Note → bool) w :
  let l := sort_newest (filter (λ e, P e.2 = true) (map_to_list (notes w))) in
  NoDup l ∧ StronglySorted newer l ∧
  ∀ id n, (id, n) ∈ l ↔ notes w !! id = Some n ∧ P n = true.
Proof.
  simpl. split_and!.
  - apply sort_newest_NoDup, NoDup_filter, NoDup_map_to_list.
  - apply sort_newest_sorted.
  - intros id n. rewrite sort_newest_elem_of, list_elem_of_filter, elem_of_map_to_list.
    simpl. tauto.
Qed.

Lemma searched_spec param (test : string → bool) :
  (if truthy_opt param then test (js_or param "") else true) = true ↔
  (∀ s, param = Some s → s ≠ "" → test s = true).
Proof.
  destruct param as [[|c s]|]; simpl.
  - split; [by intros _ s [= <-] | done].
  - split; [by intros ? ? [= <-] | intros Hs; by apply Hs].
  - split; [by intros _ s [=] | done].
Qed.

(** The conditions of the query of the routed handler, spelled out. *)
Lemma query_spec q n :
  query q n = true ↔
  (∀ s, q_search q = Some s → s ≠ "" →
     regex_test s (title n) = true ∨ regex_test s (subjectName n) = true ∨
     regex_test s (collegeName n) = true ∨ regex_test s (courseName n) = true) ∧
  (∀ s, q_subject q = Some s → s ≠ "" → subjectName n = s) ∧
  (∀ s, q_college q = Some s → s ≠ "" → collegeName n = s) ∧
  (∀ s, q_semester q = Some s → s ≠ "" → semester n = s) ∧
  (∀ s, q_course q = Some s → s ≠ "" → courseName n = s) ∧
  (∀ s, q_batch q = Some s → s ≠ "" → batch n = s).
Proof.
  unfold query. rewrite !andb_true_iff, <-!exact_spec.
  rewrite (searched_spec (q_search q)
             (λ s, regex_test s (title n) || regex_test s (subjectName n)
                   || regex_test s (collegeName n) || regex_test s (courseName n))).
  split.
  - intros [[[[[Hs ?] ?] ?] ?] ?]. split_and!; try done. intros s Hsent Hfull.
    specialize (Hs s Hsent Hfull). rewrite !orb_true_iff in Hs. tauto.
  - intros (Hs & ? & ? & ? & ? & ?). split_and!; try done. intros s Hsent Hfull.
    specialize (Hs s Hsent Hfull). rewrite !orb_true_iff. tauto.
Qed.

Lemma query_any n : query any_query n = true.
Proof. done. Qed.

End handlers.

(** ** Properties *)

Section properties.
Context {engine : RegexEngine}.
Implicit Types (q : Query) (w : World) (n : Note) (id : oid) (s : string).

(** C33 (getAllNotes_lists): what [GET /] answers, for every query and
    every engine.  When [search] is sent and is not a regular
    expression, [find] rejects and the error is forwarded to [next]; the
    listing is then answered by the error middleware.  Otherwise the
    answer is 200 with exactly the stored notes that pass every
    condition of the query, each once, newest first: a note passes when
    [search], if sent, matches its title, subject, college or course,
    and each of [subject], [college], [semester], [course] and [batch]
    that is sent equals the field of the note.  Nothing is changed in
    either case. *)
Theorem getAllNotes_lists q w :
  (∀ s m, q_search q = Some s → s ≠ "" → regex_error s = Some m →
     getAllNotes q w = (Next (new_Error m), w)) ∧
  ((∀ s, q_search q = Some s → s ≠ "" → regex_error s = None) →
   ∃ l, getAllNotes q w = (Respond 200 (JNotes l), w) ∧
        NoDup l ∧ StronglySorted newer l ∧
        ∀ id n, (id, n) ∈ l ↔
          notes w !! id = Some n ∧
          (∀ s, q_search q = Some s → s ≠ "" →
             regex_test s (title n) = true ∨ regex_test s (subjectName n) = true ∨
             regex_test s (collegeName n) = true ∨ regex_test s (courseName n) = true) ∧
          (∀ s, q_subject q = Some s → s ≠ "" → subjectName n = s) ∧
          (∀ s, q_college q = Some s → s ≠ "" → collegeName n = s) ∧
          (∀ s, q_semester q = Some s → s ≠ "" → semester n = s) ∧
          (∀ s, q_course q = Some s → s ≠ "" → courseName n = s) ∧
          (∀ s, q_batch q = Some s → s ≠ "" → batch n = s)).
Proof.
  split.
  - intros s m Hs Hne Hm. apply getAllNotes_rejected.
    rewrite regex_errors_cons, Hs. destruct s; [done|]. simpl. by rewrite Hm.
  - intros Hq. eexists. split; [|split_and!; [apply (listing_spec (query q))..|]].
    + apply getAllNotes_eq. rewrite regex_errors_cons.
      destruct (q_search q) as [[|c s]|]; simpl; try done. by rewrite Hq.
    + intros id n. destruct (listing_spec (query q) w) as (_ & _ & ->).
      apply and_iff_compat_l. apply query_spec.
Qed.

(** The handler of the same name in the
    uploading controller answers with the stored notes that satisfy its
    filter, each once, newest first, and with their number, when its
    parameters are regular expressions. *)
Theorem Uploading_getAllNotes_lists q w :
  regex_errors [q_search q; q_subject q; q_course q; q_semester q; q_college q] = None →
  ∃ l, Uploading.getAllNotes q w = (Respond 200 (JCounted (length l) l), w) ∧
       NoDup l ∧ StronglySorted newer l ∧
       ∀ id n, (id, n) ∈ l ↔ notes w !! id = Some n ∧ Uploading.filter q n = true.
Proof.
  intros Hq. eexists.
  split; [by apply Uploading_getAllNotes_eq | apply (listing_spec (Uploading.filter q))].
Qed.

(** A free-text search for a pattern
    without metacharacters lists exactly the stored notes whose title,
    subject, college or course contains the pattern, letter case aside; the
    description is not searched. *)
Theorem getAllNotes_search_literal s w id n :
  s ≠ "" → literal s = true →
  (id, n) ∈ listed (getAllNotes (search_query s) w).1 ↔
  notes w !! id = Some n ∧
  (includes (lower (title n)) (lower s) = true ∨
   includes (lower (subjectName n)) (lower s) = true ∨
   includes (lower (collegeName n)) (lower s) = true ∨
   includes (lower (courseName n)) (lower s) = true).
Proof.
  intros Hs Hl. rewrite getAllNotes_eq by (by apply regex_errors_literal; intros ? [= <-]).
  simpl. destruct (listing_spec (query (search_query s)) w) as (_ & _ & ->).
  unfold query, exact. simpl. destruct s as [|c s]; [done|]. simpl.
  rewrite !andb_true_r, !regex_literal by done.
  rewrite !orb_true_iff. tauto.
Qed.

(** C34 (getAllNotes_filters_exact): the filters of [GET /] are equality
    conditions: a note whose subject differs from the [subject] parameter
    in letter case only is not listed, while the handler of the uploading
    controller lists it. *)
Theorem getAllNotes_filters_exact s w id n :
  notes w !! id = Some n → s ≠ "" → literal s = true →
  subjectName n ≠ s → includes (lower (subjectName n)) (lower s) = true →
  ((id, n) ∉ listed (getAllNotes (subject_query s) w).1) ∧
  (id, n) ∈ listed (Uploading.getAllNotes (subject_query s) w).1.
Proof.
  intros Hn Hs Hl Hne Hin.
  rewrite getAllNotes_eq, Uploading_getAllNotes_eq
    by (rewrite ?regex_errors_literal; try done; by intros ? [= <-]).
  simpl.
  destruct (listing_spec (query (subject_query s)) w) as (_ & _ & ->).
  destruct (listing_spec (Uploading.filter (subject_query s)) w) as (_ & _ & ->).
  split.
  - intros [_ Hq]. unfold query in Hq. simpl in Hq. rewrite !andb_true_r in Hq.
    by pose proof (proj1 (exact_spec _ _) Hq s eq_refl Hs).
  - split; [done|]. unfold Uploading.filter. simpl. rewrite !andb_true_r.
    by rewrite (like_literal _ _ s).
Qed.

End properties.

(** ** The properties on the sample data *)

Lemma two_notes_13 : notes two_notes !! 13 = Some lowercase_note.
Proof. reflexivity. Qed.

Lemma Algorithms_nonempty : "Algorithms" ≠ "".
Proof. done. Qed.

Lemma lowercase_differs : subjectName lowercase_note ≠ "Algorithms".
Proof. done. Qed.

Lemma getAllNotes_search_literal_witness :
  "Algorithms" ≠ "" ∧ literal "Algorithms" = true ∧
  ((13, lowercase_note) ∈ listed (getAllNotes (search_query "Algorithms") two_notes).1 ↔
   notes two_notes !! 13 = Some lowercase_note ∧
   (includes (lower (title lowercase_note)) (lower "Algorithms") = true ∨
    includes (lower (subjectName lowercase_note)) (lower "Algorithms") = true ∨
    includes (lower (collegeName lowercase_note)) (lower "Algorithms") = true ∨
    includes (lower (courseName lowercase_note)) (lower "Algorithms") = true)).
Proof.
  exact (conj Algorithms_nonempty (conj eq_refl
    (getAllNotes_search_literal "Algorithms" two_notes 13 lowercase_note
       Algorithms_nonempty eq_refl))).
Defined.

Lemma getAllNotes_filters_exact_witness :
  notes two_notes !! 13 = Some lowercase_note ∧ "Algorithms" ≠ "" ∧
  literal "Algorithms" = true ∧ subjectName lowercase_note ≠ "Algorithms" ∧
  includes (lower (subjectName lowercase_note)) (lower "Algorithms") = true ∧
  ((13, lowercase_note) ∉ listed (getAllNotes (subject_query "Algorithms") two_notes).1) ∧
  (13, lowercase_note) ∈
    listed (Uploading.getAllNotes (subject_query "Algorithms") two_notes).1.
Proof.
  exact (conj two_notes_13 (conj Algorithms_nonempty (conj eq_refl (conj lowercase_differs
    (conj eq_refl
      (getAllNotes_filters_exact "Algorithms" two_notes 13 lowercase_note two_notes_13
         Algorithms_nonempty eq_refl lowercase_differs eq_refl)))))).
Defined.

(** A query of the sample data with a pattern that is not a regular
    expression. *)
Lemma paren_refused : regex_error "(" = Some "Regular expression is invalid".
Proof. reflexivity. Qed.

Lemma getAllNotes_lists_witness :
  getAllNotes (search_query "(") two_notes =
    (Next (new_Error "Regular expression is invalid"), two_notes) ∧
  ∃ l, getAllNotes (subject_query "Algorithms") two_notes = (Respond 200 (JNotes l), two_notes) ∧
       NoDup l ∧ (10, sample_note) ∈ l ∧ (13, lowercase_note) ∉ l.
Proof.
  split.
  - exact (proj1 (getAllNotes_lists (search_query "(") two_notes) "("
             "Regular expression is invalid" eq_refl (λ H, match H with end) paren_refused).
  - destruct (proj2 (getAllNotes_lists (subject_query "Algorithms") two_notes))
      as (l & Hl & Hnd & _ & Hin); [intros ? [=]|]. exists l. split_and!; [done..| |].
    + apply Hin. split_and!; first [done | by intros ? [=] | by intros ? [= <-]].
    + intros (_ & _ & Hsubject & _)%Hin. by pose proof (Hsubject "Algorithms" eq_refl Algorithms_nonempty).
Defined.
