(* ===== verification/Download.v ===== *)
(** * Download: the download relay

    [downloadNote] of [controllers/uploading.controller.js] looks the note
    up, sets the headers of the answer and pipes the body of an HTTPS
    request for the note's locator into the response.  No route of the
    sources uses it.

    The model records what the handler does to the response and to the
    network, in the order of the code: [Output] lists the calls
    ([res.setHeader], [https.get], the writes and the end that
    [fileResponse.pipe(res)] makes, and [next]), and [downloadNote]
    returns the list of the calls of one request.

    The remote server is outside the sources.  [Upstream] lists what the
    call [https.get(url, callback)] can do: throw at once (a locator that is
    no HTTPS URL), fail to connect, or answer with a status and a stream.
    A stream is the list of its events ([StreamEvent]): chunks of bytes
    and, possibly, an error; a stream that ends without an error ends the
    response, and nothing of a stream is read after its error.

    The theorems: the two guards; the calls of a transfer; the state is
    never changed, so the download counter is not touched; every request
    is answered once, by the end of the response or by one call of
    [next]; and two ways in which the relay differs from what the
    specification asks for: the status of the remote answer is not looked
    at, and an error is forwarded after bytes of the body have been
    written exactly when the stream breaks after its first chunk. *)

From Stdlib Require Import Ascii.
From S2P Require Import Prelude JsString Model.

Local Open Scope string_scope.
Local Open Scope list_scope.
Local Open Scope handler_scope.

(** The events of the stream [fileResponse]: a chunk of data, or an
    error. *)
Inductive StreamEvent :=
| Data (bytes : list Byte.byte)
| StreamError.

(** What [https.get] does for this request. *)
Inductive Upstream :=
| Throws (message : string)
| ConnectError
| Answers (status : nat) (events : list StreamEvent).

(** The calls the handler makes, in their order. *)
Inductive Output :=
| SetHeader (name value : string)
| HttpsGet (url : string)
| Write (bytes : list Byte.byte)
| End
| Forward (e : JsError).

#[export] Instance byte_eq_dec : EqDecision Byte.byte := Byte.byte_eq_dec.

#[export] Instance StreamEvent_eq_dec : EqDecision StreamEvent.
Proof. solve_decision. Defined.

(** A double quote. *)
Definition dquote : string := String "034"%char "".

(** The headers set before the request is made. *)
Definition download_headers (note : Note) : list (string * string) :=
  [("Content-Disposition", "attachment; filename=" +:+ dquote +:+ fileName note +:+ dquote)]
  ++ (if truthy (fileType note) then [("Content-Type", fileType note)] else []).

(** [fileResponse.pipe(res)] with the listener [fileResponse.on('error')]:
    every chunk is written to the response; the end of the stream ends the
    response; an error of the stream calls [next] and leaves the response
    open. *)
Fixpoint pipe (events : list StreamEvent) : list Output :=
  match events with
  | [] => [End]
  | Data bytes :: events => Write bytes :: pipe events
  | StreamError :: _ => [Forward (errorHandler 500 "Error downloading file")]
  end.

(** [https.get(url, callback).on('error', ..)] inside the [try] of
    [downloadNote]: an exception of the call reaches the [catch], which
    forwards it. *)
Definition https_get (url : string) (up : Upstream) : list Output :=
  HttpsGet url ::
  match up with
  | Throws message => [Forward (new_Error message)]
  | ConnectError => [Forward (errorHandler 500 "Error connecting to file server")]
  | Answers _ events => pipe events
  end.

(** [downloadNote]; its first step is [Note.findById].  The two guards
    call [next] before any header is set. *)
Definition downloadNote (id : oid) (up : Upstream) : World → list Output * World :=
  run (
    let! note := gets (λ w, notes w !! id) in
    let! note := some_or note [Forward (errorHandler 404 "Note not found")] in
    guard_or (truthy (fileUrl note))
      [Forward (errorHandler 404 "File not found for this note")] ;;;
    ret ((uncurry SetHeader <$> download_headers note) ++ https_get (fileUrl note) up)).

(** ** What a client observes of the calls *)

(** The chunks written to the response. *)
Definition written (calls : list Output) : list (list Byte.byte) :=
  omap (λ c, match c with Write bytes => Some bytes | _ => None end) calls.

(** The calls that settle a request: the end of the response, and [next]
    with an error. *)
Definition settles (c : Output) : bool :=
  match c with End | Forward _ => true | _ => false end.

(** The chunks of a stream up to its error. *)
Fixpoint delivered (events : list StreamEvent) : list (list Byte.byte) :=
  match events with
  | Data bytes :: events => bytes :: delivered events
  | _ => []
  end.

(** ** The calls, branch by branch *)

Section branches.
Implicit Types (id : oid) (w : World) (n : Note) (up : Upstream)
  (events : list StreamEvent) (calls : list Output).

Lemma downloadNote_not_found id up w :
  notes w !! id = None →
  downloadNote id up w = ([Forward (errorHandler 404 "Note not found")], w).
Proof. intros Hn. unfold downloadNote. handler_simp. by rewrite Hn. Qed.

Lemma downloadNote_no_file id up w n :
  notes w !! id = Some n → fileUrl n = "" →
  downloadNote id up w = ([Forward (errorHandler 404 "File not found for this note")], w).
Proof. intros Hn Hf. unfold downloadNote. handler_simp. rewrite Hn. handler_simp. by rewrite Hf. Qed.

Lemma downloadNote_found id up w n :
  notes w !! id = Some n → fileUrl n ≠ "" →
  downloadNote id up w =
    ((uncurry SetHeader <$> download_headers n) ++ https_get (fileUrl n) up, w).
Proof.
  intros Hn Hf%truthy_nonempty. unfold downloadNote. handler_simp. rewrite Hn. handler_simp.
  by rewrite Hf.
Qed.

(** The three cases of a request. *)
Lemma downloadNote_cases id up w :
  (notes w !! id = None ∧
   downloadNote id up w = ([Forward (errorHandler 404 "Note not found")], w)) ∨
  (∃ n, notes w !! id = Some n ∧ fileUrl n = "" ∧
        downloadNote id up w =
          ([Forward (errorHandler 404 "File not found for this note")], w)) ∨
  (∃ n, notes w !! id = Some n ∧ fileUrl n ≠ "" ∧
        downloadNote id up w =
          ((uncurry SetHeader <$> download_headers n) ++ https_get (fileUrl n) up, w)).
Proof.
  destruct (notes w !! id) as [n|] eqn:Hn.
  - destruct (decide (fileUrl n = "")) as [Hf|Hf].
    + right; left. eauto using downloadNote_no_file.
    + right; right. eauto using downloadNote_found.
  - left. eauto using downloadNote_not_found.
Qed.

Lemma downloadNote_state id up w : (downloadNote id up w).2 = w.
Proof. by destruct (downloadNote_cases id up w) as [[_ ->]|[(?&_&_&->)|(?&_&_&->)]]. Qed.

(** The pipe writes the chunks the stream delivers and settles the
    request once, with its last call. *)
Lemma pipe_calls events :
  pipe events =
    (Write <$> delivered events) ++
    [if bool_decide (StreamError ∈ events)
     then Forward (errorHandler 500 "Error downloading file") else End].
Proof.
  induction events as [|[bytes|] events IH]; cbn [pipe delivered]; [done| |].
  - rewrite IH, (bool_decide_ext (StreamError ∈ Data bytes :: events) (StreamError ∈ events));
      [done|set_solver].
  - by rewrite bool_decide_true by set_solver.
Qed.

Lemma written_headers (headers : list (string * string)) :
  written (uncurry SetHeader <$> headers) = [].
Proof. by induction headers as [|[??] ? ?]. Qed.

Lemma written_writes (chunks : list (list Byte.byte)) : written (Write <$> chunks) = chunks.
Proof. induction chunks; simpl; by f_equal. Qed.

Lemma written_pipe events : written (pipe events) = delivered events.
Proof.
  rewrite pipe_calls. unfold written. rewrite omap_app. fold (written (Write <$> delivered events)).
  rewrite written_writes. by case_bool_decide; rewrite app_nil_r.
Qed.

Lemma written_https_get url up :
  written (https_get url up) = match up with Answers _ events => delivered events | _ => [] end.
Proof. destruct up; [done..|]. apply written_pipe. Qed.

Lemma last_https_get url up :
  last (https_get url up) =
    Some (match up with
          | Throws message => Forward (new_Error message)
          | ConnectError => Forward (errorHandler 500 "Error connecting to file server")
          | Answers _ events =>
              if bool_decide (StreamError ∈ events)
              then Forward (errorHandler 500 "Error downloading file") else End
          end).
Proof.
  destruct up; [done..|]. unfold https_get. rewrite pipe_calls, app_comm_cons.
  apply last_snoc.
Qed.

(** What a request with a stored note and a locator writes, and the call
    that settles it. *)
Lemma downloadNote_written id up w n :
  notes w !! id = Some n → fileUrl n ≠ "" →
  written (downloadNote id up w).1 =
    match up with Answers _ events => delivered events | _ => [] end.
Proof.
  intros Hn Hf. rewrite (downloadNote_found _ _ _ _ Hn Hf). cbn [fst]. unfold written.
  rewrite omap_app. fold (written (uncurry SetHeader <$> download_headers n)).
  rewrite written_headers. apply written_https_get.
Qed.

Lemma downloadNote_last id up w n :
  notes w !! id = Some n → fileUrl n ≠ "" →
  last (downloadNote id up w).1 = last (https_get (fileUrl n) up).
Proof.
  intros Hn Hf. rewrite (downloadNote_found _ _ _ _ Hn Hf). cbn [fst].
  rewrite last_app. by rewrite last_https_get.
Qed.

End branches.

(** ** Properties *)

Section properties.
Implicit Types (id : oid) (w : World) (n : Note) (up : Upstream)
  (events : list StreamEvent).

(** [downloadNote] forwards a 404 error, before any header is set and
    without a request to the remote server, exactly when the note is not
    stored or has an empty locator; it never changes the state, so the
    download counter stays as it is. *)
Theorem downloadNote_guards id up w :
  (downloadNote id up w).2 = w ∧
  ((∃ msg, (downloadNote id up w).1 = [Forward (errorHandler 404 msg)]) ↔
   ∀ n, notes w !! id = Some n → fileUrl n = "").
Proof.
  split; [apply downloadNote_state|].
  destruct (downloadNote_cases id up w) as [[Hn ->]|[(n&Hn&Hf&->)|(n&Hn&Hf&->)]]; simpl.
  - split; [by intros _ ? ?; simplify_eq | eauto].
  - split; [by intros _ ? ?; simplify_eq | eauto].
  - split; [|intros Hall; by specialize (Hall n Hn)].
    intros [msg Hmsg]. unfold download_headers in Hmsg. simpl in Hmsg.
    destruct (truthy (fileType n)); simplify_eq.
Qed.

(** For a stored note with a locator, when the remote server answers and
    the stream does not break, the handler sets an attachment disposition
    that names the stored file name and the stored MIME type as content
    type when there is one, requests the locator, writes every chunk and
    ends the response. *)
Theorem downloadNote_transfers id w n status chunks :
  notes w !! id = Some n → fileUrl n ≠ "" →
  downloadNote id (Answers status (Data <$> chunks)) w =
    (SetHeader "Content-Disposition"
       ("attachment; filename=" +:+ dquote +:+ fileName n +:+ dquote) ::
     (if decide (fileType n = "") then [] else [SetHeader "Content-Type" (fileType n)]) ++
     HttpsGet (fileUrl n) :: (Write <$> chunks) ++ [End], w).
Proof.
  intros Hn Hf. rewrite (downloadNote_found _ _ _ _ Hn Hf). f_equal.
  assert (pipe (Data <$> chunks) = (Write <$> chunks) ++ [End]) as Hpipe.
  { induction chunks; simpl; by f_equal. }
  unfold download_headers, https_get. rewrite Hpipe.
  by destruct (decide (fileType n = "")) as [Ht|Ht%truthy_nonempty]; rewrite Ht.
Qed.

(** The status of the remote answer is not looked at: an error page that
    the remote server sends with status 404 reaches the client as the
    file, under the attachment headers and with no error reported. *)
Theorem downloadNote_ignores_status id w status status' events :
  downloadNote id (Answers status events) w = downloadNote id (Answers status' events) w.
Proof. done. Qed.

(** Every request is settled once, by its last call: the end of the
    response or one call of [next]. *)
Theorem downloadNote_settles_once id up w :
  ∃ calls c, (downloadNote id up w).1 = calls ++ [c] ∧ settles c = true ∧
             Forall (λ c', settles c' = false) calls.
Proof.
  destruct (downloadNote_cases id up w) as [[Hn ->]|[(n&Hn&Hf&->)|(n&Hn&Hf&->)]].
  - by exists [], (Forward (errorHandler 404 "Note not found")).
  - by exists [], (Forward (errorHandler 404 "File not found for this note")).
  - simpl. assert (∃ calls c, https_get (fileUrl n) up = calls ++ [c] ∧ settles c = true ∧
                     Forall (λ c', settles c' = false) calls) as (calls & c & -> & Hc & Hcalls).
    { destruct up as [m| |status events].
      - by exists [HttpsGet (fileUrl n)], (Forward (new_Error m)); repeat constructor.
      - by eexists [HttpsGet (fileUrl n)], _; repeat constructor.
      - unfold https_get. rewrite pipe_calls, app_comm_cons. eexists _, _. split; [done|].
        split; [by case_bool_decide|]. constructor; [done|]. by apply Forall_fmap, Forall_true. }
    exists ((uncurry SetHeader <$> download_headers n) ++ calls), c.
    rewrite app_assoc. split_and!; [done..|]. apply Forall_app. split; [|done].
    apply Forall_fmap, Forall_true. by intros [??].
Qed.

(** C40 (downloadNote_partial_transfer): downloadNote forwards an error to
    next after it has written bytes of the body to the response exactly
    when the note is stored with a locator, the remote server answers, and
    its stream breaks after a first chunk; the error is then the 500 of the
    stream listener. *)
Theorem downloadNote_partial_transfer id up w e :
  last (downloadNote id up w).1 = Some (Forward e) ∧ written (downloadNote id up w).1 ≠ [] ↔
  ∃ n status bytes events,
    notes w !! id = Some n ∧ fileUrl n ≠ "" ∧
    up = Answers status (Data bytes :: events) ∧ StreamError ∈ events ∧
    e = errorHandler 500 "Error downloading file".
Proof.
  split.
  - destruct (downloadNote_cases id up w) as [[Hn Hd]|[(n&Hn&Hf&Hd)|(n&Hn&Hf&_)]];
      [by rewrite Hd; intros [_ ?]..|].
    rewrite (downloadNote_last _ _ _ _ Hn Hf), last_https_get, (downloadNote_written _ _ _ _ Hn Hf).
    destruct up as [| |status [|[bytes|] events]]; [by intros [_ ?]..| |by intros [_ ?]].
    intros [Hlast _]. case_bool_decide as Hbreak; [|done].
    exists n, status, bytes, events. split_and!; [done..|set_solver|congruence].
  - intros (n & status & bytes & events & Hn & Hf & -> & Hbreak & ->).
    rewrite (downloadNote_last _ _ _ _ Hn Hf), last_https_get, (downloadNote_written _ _ _ _ Hn Hf).
    split; [|done]. rewrite bool_decide_true; [done|set_solver].
Qed.

End properties.

(** ** The properties on the sample data *)

Lemma sample_has_locator : fileUrl sample_note ≠ "".
Proof. done. Qed.

Lemma downloadNote_transfers_witness :
  downloadNote 10 (Answers 200 (Data <$> [[Byte.x25; Byte.x50]; [Byte.x44]])) sample_world =
    (SetHeader "Content-Disposition"
       ("attachment; filename=" +:+ dquote +:+ fileName sample_note +:+ dquote) ::
     (if decide (fileType sample_note = "") then []
      else [SetHeader "Content-Type" (fileType sample_note)]) ++
     HttpsGet (fileUrl sample_note) ::
     (Write <$> [[Byte.x25; Byte.x50]; [Byte.x44]]) ++ [End], sample_world).
Proof.
  exact (downloadNote_transfers 10 sample_world sample_note 200 _ eq_refl sample_has_locator).
Defined.

(** A stream that breaks after its first chunk: the chunk is written, then
    the error is forwarded. *)
Lemma downloadNote_partial_transfer_witness :
  last (downloadNote 10 (Answers 200 [Data [Byte.x25]; StreamError]) sample_world).1 =
    Some (Forward (errorHandler 500 "Error downloading file")) ∧
  written (downloadNote 10 (Answers 200 [Data [Byte.x25]; StreamError]) sample_world).1 ≠ [].
Proof.
  apply (proj2 (downloadNote_partial_transfer 10 _ sample_world _)).
  exists sample_note, 200, [Byte.x25], [StreamError].
  split_and!; [done|exact sample_has_locator|done|constructor|done].
Defined.
