(* ===== verification/Concurrency.v ===== *)
(** * Concurrency: download counters under interleaving

    [incrementDownload] awaits twice, once for [Notes.findById] and once
    for [note.save()], so its process ([incrementDownload_async] of
    [Async]) takes two steps: it loads the note, and it saves the loaded
    copy with its counter plus one.  Whatever the save policy, the counter
    stored by the save is the one of the copy ([save_note_downloadCount]):
    the count is computed in the handler, not in the database.

    A pool of such requests on one note is run under a schedule of
    [Eventloop].  [saving id note] names a request between its two steps.

    The theorems on the counter hold for every save policy: when the
    requests run one after the other the counter grows by their number;
    two requests that interleave can both answer 200 while the counter
    grows by one; under interleaving the counter can even decrease; and
    whatever the schedule, the counter ends between one and the number of
    answered requests above its start.

    What becomes of the other fields depends on the policy.  Of two
    comments posted at the same time one is lost, although both requests
    are answered 200, under every policy whose save writes the comment
    sequence held in memory ([comments_rewritten]; [whole_document] and
    [modified_paths] are such).  A like that is saved between the read and the
    save of a download survives under [modified_paths] and is undone under
    [whole_document].  Under [array_atomics], where a save inserts what
    was pushed, both comments are kept, but two [archiveNote] requests of
    one user for one note that run at the same time store the note twice
    in the user's list ([concurrent_archives_duplicate]), and two likes of
    one user that run at the same time store the user twice in the likes
    of the note, after which a like by the user removes one entry and
    the user still likes the note ([concurrent_likes_duplicate]). *)

From S2P Require Import Prelude JsString Model Eventloop Engagement Async.

Local Open Scope string_scope.
Local Open Scope list_scope.
Local Open Scope nat_scope.
Local Open Scope handler_scope.

Section definitions.
Context {policy : SavePolicy}.

(** [incrementDownload] after [await Notes.findById], holding [note]. *)
Definition saving (id : oid) (note : Note) : Proc :=
  let changed := set_downloadCount (downloadCount note + 1) note in
  await! _ := Note_commit id note changed in
  Answer (Respond 200 (JDownloadCount (downloadCount changed))).

(** The counter of the note [id]. *)
Definition counter (id : oid) (w : World) : option nat := downloadCount <$> notes w !! id.

(** What the bounds need of a request: it works on the note [id], and the
    counter it loaded lies between the start [c0] and [c0] plus the number
    [d] of answered requests. *)
Definition thread_ok (c0 d : nat) (id : oid) (p : Proc) : Prop :=
  p = incrementDownload_async id ∨
  (∃ note, p = saving id note ∧ c0 ≤ downloadCount note ≤ c0 + d) ∨
  ∃ o, p = Answer o.

Definition config_ok (c0 : nat) (id : oid) (c : Config) : Prop :=
  ∃ k, counter id c.1 = Some k ∧ c0 ≤ k ≤ c0 + answered c.2 ∧
       (1 ≤ answered c.2 → c0 + 1 ≤ k) ∧
       Forall (thread_ok c0 (answered c.2) id) c.2.

(** A policy whose save puts the comment sequence held in memory in the
    place of the stored one, when the handler changed nothing else. *)
Definition comments_rewritten : Prop :=
  ∀ n cs cs', cs ≠ comments n →
    save_note n (set_comments cs n) (set_comments cs' n) = set_comments cs n.

(** The comment [commentOnNote] pushes when the allocator is at [cid]. *)
Definition new_comment (cid : oid) (u : AuthUser) (t : string) (env : Env) : Comment :=
  {| c_id := cid; user := uid u; text := t; commentedAt := now env;
     c_username := uname u |}.

(** [commentOnNote] after [await note.save()]. *)
Definition rereading (id : oid) : Proc :=
  await! updatedNote := Note_findById id in
  Answer (Respond 200 (JCommented id updatedNote)).

(** [commentOnNote] after [await Notes.findById], holding [note]. *)
Definition commenting (id : oid) (u : AuthUser) (t : string) (env : Env) (note : Note) :
    Proc :=
  await! _ := (let! cid := alloc_oid in
               Note_commit id note
                 (set_comments (comments note ++ [new_comment cid u t env]) note)) in
  rereading id.

(** [archiveNote] after [await User.findById], holding [user], whose list
    does not hold the note. *)
Definition pushing (noteId : oid) (u : AuthUser) (user : User) : Proc :=
  let changed := set_archivedNotes (archivedNotes user ++ [noteId]) user in
  await! _ := User_commit (uid u) user changed in
  Answer (Respond 200 (JMessage true "Note archived successfully")).

(** [likeNote] after [await Notes.findById], holding [note]. *)
Definition liking (id : oid) (u : AuthUser) (note : Note) : Proc :=
  let changed := set_likes (toggle (uid u) (likes note)) note in
  await! _ := Note_commit id note changed in
  Answer (Respond 200 (JLikes (likes changed))).

End definitions.

(** ** The two steps of a request *)

Section steps.
Context {policy : SavePolicy}.
Implicit Types (id : oid) (w : World) (n : Note) (p : Proc) (ts : list Proc).

Lemma step_load (c : Config) i id n :
  c.2 !! i = Some (incrementDownload_async id) → notes c.1 !! id = Some n →
  sched_step c i = (c.1, <[i := saving id n]> c.2).
Proof. intros Hi Hn. unfold sched_step. rewrite Hi. simpl. by rewrite Hn. Qed.

Lemma step_save (c : Config) i id m stored :
  c.2 !! i = Some (saving id m) → notes c.1 !! id = Some stored →
  sched_step c i =
    (set_notes <[id := save_note m (set_downloadCount (downloadCount m + 1) m) stored]> c.1,
     <[i := Answer (Respond 200 (JDownloadCount (downloadCount m + 1)))]> c.2).
Proof.
  intros Hi Hn. unfold sched_step. rewrite Hi. simpl. unfold Note_commit. by rewrite Hn.
Qed.

(** The counter a save stores is the one the handler computed. *)
Lemma counter_save id w m stored :
  counter id (set_notes <[id := save_note m (set_downloadCount (downloadCount m + 1) m)
                                   stored]> w) = Some (downloadCount m + 1).
Proof.
  unfold counter. simpl. rewrite lookup_insert_eq. simpl.
  rewrite save_note_downloadCount; [done | simpl; lia].
Qed.

Lemma comment_load (c : Config) i id u t env n :
  c.2 !! i = Some (commentOnNote_async id u t env) → notes c.1 !! id = Some n →
  sched_step c i = (c.1, <[i := commenting id u t env n]> c.2).
Proof. intros Hi Hn. unfold sched_step. rewrite Hi. simpl. by rewrite Hn. Qed.

Lemma comment_save (c : Config) i id u t env m stored :
  c.2 !! i = Some (commenting id u t env m) → notes c.1 !! id = Some stored →
  sched_step c i =
    (set_notes <[id := save_note m
                         (set_comments (comments m ++ [new_comment (next_oid c.1) u t env]) m)
                         stored]> (alloc_oid c.1).2,
     <[i := rereading id]> c.2).
Proof.
  intros Hi Hn. unfold sched_step. rewrite Hi. simpl.
  unfold bind, alloc_oid, Note_commit. simpl. by rewrite Hn.
Qed.

Lemma comment_reread (c : Config) i id :
  c.2 !! i = Some (rereading id) →
  sched_step c i = (c.1, <[i := Answer (Respond 200 (JCommented id (notes c.1 !! id)))]> c.2).
Proof. intros Hi. unfold sched_step. by rewrite Hi. Qed.

Lemma like_load (c : Config) i id u n :
  c.2 !! i = Some (likeNote_async id u) → notes c.1 !! id = Some n →
  sched_step c i = (c.1, <[i := liking id u n]> c.2).
Proof. intros Hi Hn. unfold sched_step. rewrite Hi. simpl. by rewrite Hn. Qed.

Lemma like_save (c : Config) i id u m stored :
  c.2 !! i = Some (liking id u m) → notes c.1 !! id = Some stored →
  sched_step c i =
    (set_notes <[id := save_note m (set_likes (toggle (uid u) (likes m)) m) stored]> c.1,
     <[i := Answer (Respond 200 (JLikes (toggle (uid u) (likes m))))]> c.2).
Proof.
  intros Hi Hn. unfold sched_step. rewrite Hi. simpl. unfold Note_commit. by rewrite Hn.
Qed.

(** The two reads of [archiveNote], when the note is stored and the list
    of the caller does not hold it. *)
Lemma archive_reads (c : Config) i id u n usr :
  c.2 !! i = Some (archiveNote_async id u) → notes c.1 !! id = Some n →
  users c.1 !! uid u = Some usr → id ∉ archivedNotes usr →
  run_schedule [i; i] c = (c.1, <[i := pushing id u usr]> c.2).
Proof.
  intros Hi Hn Hu Hin. pose proof (lookup_lt_Some _ _ _ Hi) as Hlt.
  cbn [run_schedule foldl]. unfold sched_step at 2. rewrite Hi. simpl. rewrite Hn.
  unfold sched_step. simpl. rewrite list_lookup_insert_eq by done. simpl. rewrite Hu.
  by rewrite bool_decide_eq_false_2, list_insert_insert_eq.
Qed.

Lemma archive_save (c : Config) i id u m stored :
  c.2 !! i = Some (pushing id u m) → users c.1 !! uid u = Some stored →
  sched_step c i =
    (set_users <[uid u := save_user m (set_archivedNotes (archivedNotes m ++ [id]) m) stored]>
       c.1,
     <[i := Answer (Respond 200 (JMessage true "Note archived successfully"))]> c.2).
Proof.
  intros Hi Hu. unfold sched_step. rewrite Hi. simpl. unfold User_commit. by rewrite Hu.
Qed.

Lemma snoc_ne {A} (l : list A) x : l ++ [x] ≠ l.
Proof. intros H%(f_equal length). rewrite length_app in H. simpl in H. lia. Qed.

Lemma thread_ok_mono c0 d d' id p : d ≤ d' → thread_ok c0 d id p → thread_ok c0 d' id p.
Proof.
  intros Hd [->|[(m & -> & Hm)|[o ->]]]; [by left | | by right; right; eexists].
  right; left. exists m. split; [done | lia].
Qed.

Lemma is_done_load id : is_done (incrementDownload_async id) = 0.
Proof. done. Qed.

Lemma is_done_saving id n : is_done (saving id n) = 0.
Proof. done. Qed.

End steps.

(** ** The invariant behind the bounds *)

Section bounds.
Context {policy : SavePolicy}.
Implicit Types (id : oid) (w : World) (n : Note) (p : Proc) (ts : list Proc).

Lemma sched_step_ok c0 id (c : Config) i : config_ok c0 id c → config_ok c0 id (sched_step c i).
Proof.
  intros (k & Hk & Hb & H1 & Hts).
  destruct (c.2 !! i) as [p|] eqn:Hi; [|unfold sched_step; rewrite Hi; by exists k].
  pose proof Hk as Hk'. unfold counter in Hk'.
  destruct (notes c.1 !! id) as [n|] eqn:Hn; simplify_eq/=.
  destruct (Forall_lookup_1 _ _ _ _ Hts Hi) as [->|[(m & -> & Hm)|[o ->]]].
  - rewrite (step_load _ _ _ _ Hi Hn). exists (downloadCount n). simpl.
    pose proof (answered_insert c.2 i _ (saving id n) Hi) as Ha.
    rewrite is_done_load, is_done_saving in Ha.
    replace (answered (<[i:=saving id n]> c.2)) with (answered c.2) by lia.
    split_and!; [done | lia | lia | done |].
    apply Forall_insert; [done|]. right; left. exists n. split; [done | lia].
  - rewrite (step_save _ _ _ _ _ Hi Hn). exists (downloadCount m + 1). cbn [fst snd].
    pose proof (answered_insert c.2 i _
      (Answer (Respond 200 (JDownloadCount (downloadCount m + 1)))) Hi) as Ha.
    rewrite is_done_saving in Ha. simpl in Ha. rewrite counter_save.
    split_and!; [done | lia | lia | lia |].
    apply Forall_insert; [|by right; right; eexists]. eapply Forall_impl; [done|].
    intros p. apply thread_ok_mono. lia.
  - unfold sched_step. rewrite Hi. simpl. rewrite list_insert_id by done.
    destruct c as [w ts]. by exists (downloadCount n).
Qed.

Lemma run_schedule_ok c0 id s (c : Config) : config_ok c0 id c → config_ok c0 id (run_schedule s c).
Proof.
  revert c. induction s as [|i s IH]; intros c Hc; [done|].
  simpl. by apply IH, sched_step_ok.
Qed.

Lemma config_ok_start id w n k :
  notes w !! id = Some n →
  config_ok (downloadCount n) id (w, replicate k (incrementDownload_async id)).
Proof.
  intros Hn. exists (downloadCount n). simpl. rewrite answered_replicate, is_done_load.
  unfold counter. rewrite Hn. split_and!; [done | lia | lia | lia |].
  apply Forall_forall. intros p [-> _]%elem_of_replicate. by left.
Qed.

(** Running the first [k] requests of [ts] one after the other. *)
Lemma serial_run id k ts w n :
  notes w !! id = Some n → (∀ i, i < k → ts !! i = Some (incrementDownload_async id)) →
  ∃ n', notes (run_schedule (serial 2 k) (w, ts)).1 !! id = Some n' ∧
        downloadCount n' = downloadCount n + k ∧
        (∀ i, k ≤ i → (run_schedule (serial 2 k) (w, ts)).2 !! i = ts !! i) ∧
        (∀ i, i < k → ∃ b, (run_schedule (serial 2 k) (w, ts)).2 !! i
                            = Some (Answer (Respond 200 b))).
Proof.
  intros Hn. induction k as [|k IH]; intros Hts.
  { exists n. split_and!; [done | lia | done | lia]. }
  destruct IH as (n' & Hn' & Hd & Hrest & Hdone); [intros i Hi; apply Hts; lia|].
  assert ((run_schedule (serial 2 k) (w, ts)).2 !! k = Some (incrementDownload_async id))
    as Hk by (rewrite Hrest by lia; apply Hts; lia).
  rewrite serial_S, run_schedule_app.
  rewrite (run_alone 2 k _ _ Hk) by auto with sphere.
  rewrite finish_incrementDownload, (incrementDownload_found _ _ _ Hn'). simpl.
  exists (set_downloadCount (downloadCount n' + 1) n'). split_and!.
  - apply lookup_insert_eq.
  - simpl. lia.
  - intros i Hi. rewrite list_lookup_insert_ne by lia. apply Hrest. lia.
  - intros i Hi. destruct (decide (i = k)) as [->|Hne].
    + eexists. apply list_lookup_insert_eq. by eapply lookup_lt_Some.
    + rewrite list_lookup_insert_ne by done. apply Hdone. lia.
Qed.

End bounds.

(** ** Properties *)

Section properties.
Context {policy : SavePolicy}.
Implicit Types (id : oid) (w : World) (n : Note).

(** When [k] requests to [PUT /:id/download] are
    served one after the other, each is answered 200 and the counter of the
    note has grown by [k]. *)
Theorem serial_requests_add id k w n :
  notes w !! id = Some n →
  let c := run_schedule (serial 2 k) (w, replicate k (incrementDownload_async id)) in
  counter id c.1 = Some (downloadCount n + k) ∧
  ∀ i, i < k → ∃ b, c.2 !! i = Some (Answer (Respond 200 b)).
Proof.
  intros Hn. simpl.
  destruct (serial_run id k (replicate k (incrementDownload_async id)) w n Hn)
    as (n' & Hn' & Hd & _ & Hdone).
  { intros i Hi. by apply lookup_replicate_2. }
  split; [|done]. unfold counter. by rewrite Hn', <-Hd.
Qed.

(** C19 (lost_update): two requests to [PUT /:id/download] that both load the
    note before either saves it are both answered 200, with the same
    count, and the counter has grown by one, not by two. *)
Theorem lost_update id w n :
  notes w !! id = Some n →
  let c := run_schedule [0; 1; 0; 1]
             (w, [incrementDownload_async id; incrementDownload_async id]) in
  c.2 = [Answer (Respond 200 (JDownloadCount (downloadCount n + 1)));
         Answer (Respond 200 (JDownloadCount (downloadCount n + 1)))] ∧
  counter id c.1 = Some (downloadCount n + 1).
Proof.
  intros Hn. cbn [run_schedule foldl].
  rewrite (step_load (_, _) 0 id n) by done.
  rewrite (step_load (_, _) 1 id n) by done.
  rewrite (step_save (_, _) 0 id n n) by done.
  erewrite (step_save (_, _) 1 id n) by (done || apply lookup_insert_eq).
  split; [done|]. cbn [fst]. by rewrite counter_save.
Qed.

(** Under interleaving the counter can go down:
    a request that loaded the note before two others were served writes its
    stale count over theirs. *)
Theorem counter_can_decrease id w n :
  notes w !! id = Some n →
  let ts := replicate 3 (incrementDownload_async id) in
  counter id (run_schedule [0; 1; 1; 2; 2] (w, ts)).1 = Some (downloadCount n + 2) ∧
  counter id (run_schedule [0; 1; 1; 2; 2; 0] (w, ts)).1 = Some (downloadCount n + 1).
Proof.
  intros Hn. cbn [run_schedule foldl replicate].
  rewrite (step_load (_, _) 0 id n) by done.
  rewrite (step_load (_, _) 1 id n) by done.
  rewrite (step_save (_, _) 1 id n n) by done.
  erewrite (step_load (_, _) 2 id) by (done || apply lookup_insert_eq).
  erewrite (step_save (_, _) 2 id) by (done || apply lookup_insert_eq).
  cbn [fst]. rewrite counter_save, save_note_fresh.
  split; [simpl; f_equal; lia|].
  erewrite (step_save (_, _) 0 id n) by (done || apply lookup_insert_eq).
  cbn [fst]. by rewrite counter_save.
Qed.

(** C18 (counter_bounds): whatever the schedule of [k] concurrent requests to
    [PUT /:id/download] on a stored note, the counter never falls below its
    start, never exceeds its start plus the number of requests answered so
    far, and is above its start once a request has been answered. *)
Theorem counter_bounds id k s w n :
  notes w !! id = Some n →
  let c := run_schedule s (w, replicate k (incrementDownload_async id)) in
  ∃ cnt, counter id c.1 = Some cnt ∧
         downloadCount n ≤ cnt ≤ downloadCount n + answered c.2 ∧
         (1 ≤ answered c.2 → downloadCount n + 1 ≤ cnt).
Proof.
  intros Hn. simpl.
  destruct (run_schedule_ok (downloadCount n) id s _ (config_ok_start id w n k Hn))
    as (cnt & ? & ? & ? & _).
  by exists cnt.
Qed.

(** C31 (concurrent_comments_lose_one): two comments posted to a note at
    the same time, each request reading the note before the other saves:
    both requests are answered 200 with a note that holds the second
    comment only, and that is the note stored; the first comment is lost.
    This holds for every save policy that writes the comment sequence held
    in memory. *)
Theorem concurrent_comments_lose_one id u1 u2 t1 t2 env1 env2 w n :
  comments_rewritten → notes w !! id = Some n →
  let c := run_schedule [0; 1; 0; 1; 0; 1]
             (w, [commentOnNote_async id u1 t1 env1; commentOnNote_async id u2 t2 env2]) in
  let kept := set_comments (comments n ++ [new_comment (S (next_oid w)) u2 t2 env2]) n in
  notes c.1 !! id = Some kept ∧
  c.2 = [Answer (Respond 200 (JCommented id (Some kept)));
         Answer (Respond 200 (JCommented id (Some kept)))].
Proof.
  intros Hpol Hn. cbn [run_schedule foldl].
  rewrite (comment_load (_, _) 0 id u1 t1 env1 n) by done.
  rewrite (comment_load (_, _) 1 id u2 t2 env2 n) by done.
  rewrite (comment_save (_, _) 0 id u1 t1 env1 n n) by done.
  erewrite (comment_save (_, _) 1 id u2 t2 env2 n) by (done || apply lookup_insert_eq).
  rewrite (comment_reread (_, _) 0 id) by done.
  rewrite (comment_reread (_, _) 1 id) by done.
  cbn [fst snd list_insert notes set_notes alloc_oid next_oid].
  rewrite save_note_fresh, insert_insert_eq, lookup_insert_eq, Hpol by apply snoc_ne.
  done.
Qed.

End properties.

(** ** Two policies *)

(** These two policies write the comment sequence held in memory. *)
Lemma whole_document_rewrites : comments_rewritten (policy:=whole_document).
Proof. by intros n cs cs' _. Qed.

Lemma modified_paths_rewrites : comments_rewritten (policy:=modified_paths).
Proof.
  intros [] cs cs' Hne. unfold save_note, modified_paths, note_paths. simpl in *.
  by rewrite !path_unchanged, path_changed.
Qed.

(** ** A save that inserts what was pushed *)

(** Under [array_atomics] both of two comments posted at the same time are
    kept: each save inserts its comment into the stored sequence. *)
Theorem concurrent_comments_both_kept id u1 u2 t1 t2 env1 env2 w n :
  notes w !! id = Some n →
  let c := run_schedule [0; 1; 0; 1; 0; 1]
             (w, [commentOnNote_async (policy:=array_atomics) id u1 t1 env1;
                  commentOnNote_async (policy:=array_atomics) id u2 t2 env2]) in
  let kept := set_comments (comments n ++ [new_comment (next_oid w) u1 t1 env1;
                                           new_comment (S (next_oid w)) u2 t2 env2]) n in
  notes c.1 !! id = Some kept ∧
  c.2 = [Answer (Respond 200 (JCommented id (Some kept)));
         Answer (Respond 200 (JCommented id (Some kept)))].
Proof.
  intros Hn. cbn [run_schedule foldl].
  rewrite (comment_load (policy:=array_atomics) (_, _) 0 id u1 t1 env1 n) by done.
  rewrite (comment_load (policy:=array_atomics) (_, _) 1 id u2 t2 env2 n) by done.
  rewrite (comment_save (policy:=array_atomics) (_, _) 0 id u1 t1 env1 n n) by done.
  erewrite (comment_save (policy:=array_atomics) (_, _) 1 id u2 t2 env2 n)
    by (done || apply lookup_insert_eq).
  rewrite (comment_reread (_, _) 0 id) by done.
  rewrite (comment_reread (_, _) 1 id) by done.
  cbn [fst snd list_insert notes set_notes alloc_oid next_oid].
  rewrite save_note_fresh, insert_insert_eq, lookup_insert_eq.
  change (@save_note array_atomics) with note_atomics.
  rewrite note_atomics_push. destruct n. unfold set_comments. simpl.
  by rewrite <-app_assoc.
Qed.

(** C20 (concurrent_archives_duplicate): under [array_atomics] archiving is not idempotent when it is asked for
    twice at the same time: both requests find the list without the note,
    both push, and the stored list holds the note twice. *)
Theorem concurrent_archives_duplicate id u w n usr :
  notes w !! id = Some n → users w !! uid u = Some usr → id ∉ archivedNotes usr →
  let c := run_schedule [0; 0; 1; 1; 0; 1]
             (w, [archiveNote_async (policy:=array_atomics) id u;
                  archiveNote_async (policy:=array_atomics) id u]) in
  users c.1 !! uid u = Some (set_archivedNotes (archivedNotes usr ++ [id; id]) usr) ∧
  c.2 = [Answer (Respond 200 (JMessage true "Note archived successfully"));
         Answer (Respond 200 (JMessage true "Note archived successfully"))].
Proof.
  intros Hn Hu Hin c. subst c. change [0; 0; 1; 1; 0; 1] with ([0; 0] ++ [1; 1] ++ [0; 1]).
  rewrite !run_schedule_app.
  rewrite (archive_reads (policy:=array_atomics) (_, _) 0 id u n usr) by done.
  rewrite (archive_reads (policy:=array_atomics) (_, _) 1 id u n usr) by done.
  cbn [run_schedule foldl fst snd list_insert].
  rewrite (archive_save (policy:=array_atomics) (_, _) 0 id u usr usr) by done.
  erewrite (archive_save (policy:=array_atomics) (_, _) 1 id u usr)
    by (done || apply lookup_insert_eq).
  cbn [fst snd list_insert users set_users]. rewrite lookup_insert_eq, save_user_fresh.
  change (@save_user array_atomics) with user_atomics.
  rewrite user_atomics_push. destruct usr. unfold set_archivedNotes. simpl.
  by rewrite <-app_assoc.
Qed.

(** Two likes of one user in flight under [array_atomics], when the user
    is not in the list: both push. *)
Lemma two_likes_pushed id u w n :
  notes w !! id = Some n → uid u ∉ likes n →
  run_schedule [0; 1; 0; 1]
    (w, [likeNote_async (policy:=array_atomics) id u;
         likeNote_async (policy:=array_atomics) id u]) =
    (set_notes <[id := set_likes (likes n ++ [uid u; uid u]) n]> w,
     [Answer (Respond 200 (JLikes (likes n ++ [uid u])));
      Answer (Respond 200 (JLikes (likes n ++ [uid u])))]).
Proof.
  intros Hn Hin. cbn [run_schedule foldl].
  rewrite (like_load (policy:=array_atomics) (_, _) 0 id u n) by done.
  rewrite (like_load (policy:=array_atomics) (_, _) 1 id u n) by done.
  cbn [fst snd list_insert].
  rewrite (like_save (policy:=array_atomics) (_, _) 0 id u n n) by done.
  erewrite (like_save (policy:=array_atomics) (_, _) 1 id u n)
    by (done || apply lookup_insert_eq).
  cbn [fst snd list_insert notes set_notes]. rewrite toggle_absent by done.
  rewrite save_note_fresh. change (@save_note array_atomics) with note_atomics.
  rewrite note_atomics_like. f_equal. destruct w, n. unfold set_notes, set_likes. simpl.
  by rewrite insert_insert_eq, <-app_assoc.
Qed.

(** C8 (concurrent_likes_duplicate): under a save that sends a push as
    an insertion into the stored array, a like asked for twice at the
    same time is stored twice: both [likeNote] requests find the list
    without the caller, both push and are answered 200 with a list that
    holds the caller once, and the stored list holds the caller twice.
    The next [likeNote] of the caller finds the caller, removes one
    occurrence and leaves the other. *)
Theorem concurrent_likes_duplicate id u w n :
  notes w !! id = Some n → uid u ∉ likes n →
  let c := run_schedule [0; 1; 0; 1]
             (w, [likeNote_async (policy:=array_atomics) id u;
                  likeNote_async (policy:=array_atomics) id u]) in
  notes c.1 !! id = Some (set_likes (likes n ++ [uid u; uid u]) n) ∧
  c.2 = [Answer (Respond 200 (JLikes (likes n ++ [uid u])));
         Answer (Respond 200 (JLikes (likes n ++ [uid u])))] ∧
  ∀ w', notes w' !! id = notes c.1 !! id →
    notes (likeNote id u w').2 !! id = Some (set_likes (likes n ++ [uid u]) n).
Proof.
  intros Hn Hin c. subst c. rewrite (two_likes_pushed id u w n Hn Hin). simpl.
  rewrite lookup_insert_eq. split_and!; [done..|]. intros w' Hw'.
  rewrite (likeNote_found _ _ _ _ Hw'). simpl. rewrite lookup_insert_eq.
  destruct n. unfold set_likes. simpl in *. by rewrite toggle_pushed_twice.
Qed.

(** A like that is saved between the read and
    the save of a download.  Under [whole_document] the save of the
    download puts the likes it read back in place: the like is undone
    although it was answered 200.  Under [modified_paths] the save of the
    download writes the counter only and the like is kept. *)
Theorem save_policies_differ id u w n :
  notes w !! id = Some n →
  let pool policy :=
    [likeNote_async (policy:=policy) id u; incrementDownload_async (policy:=policy) id] in
  notes (run_schedule [0; 1; 0; 1] (w, pool whole_document)).1 !! id =
    Some (set_downloadCount (downloadCount n + 1) n) ∧
  notes (run_schedule [0; 1; 0; 1] (w, pool modified_paths)).1 !! id =
    Some (set_downloadCount (downloadCount n + 1)
            (set_likes (toggle (uid u) (likes n)) n)).
Proof.
  intros Hn. cbv zeta. cbn [run_schedule foldl]. split.
  - rewrite (like_load (policy:=whole_document) (_, _) 0 id u n) by done.
    rewrite (step_load (policy:=whole_document) (_, _) 1 id n) by done.
    rewrite (like_save (policy:=whole_document) (_, _) 0 id u n n) by done.
    erewrite (step_save (policy:=whole_document) (_, _) 1 id n) by (done || apply lookup_insert_eq).
    cbn [fst notes set_notes]. by rewrite lookup_insert_eq.
  - rewrite (like_load (policy:=modified_paths) (_, _) 0 id u n) by done.
    rewrite (step_load (policy:=modified_paths) (_, _) 1 id n) by done.
    rewrite (like_save (policy:=modified_paths) (_, _) 0 id u n n) by done.
    erewrite (step_save (policy:=modified_paths) (_, _) 1 id n) by (done || apply lookup_insert_eq).
    cbn [fst notes set_notes]. rewrite lookup_insert_eq, save_note_fresh. f_equal.
    destruct n. unfold save_note, modified_paths, note_paths. simpl.
    rewrite !path_unchanged, path_changed by lia. done.
Qed.


(** ** The properties on the sample data *)

Lemma serial_requests_add_witness :
  notes sample_world !! 10 = Some sample_note ∧
  let c := run_schedule (serial 2 3)
             (sample_world, replicate 3 (incrementDownload_async (policy:=modified_paths) 10)) in
  counter 10 c.1 = Some (downloadCount sample_note + 3) ∧
  ∀ i, i < 3 → ∃ b, c.2 !! i = Some (Answer (Respond 200 b)).
Proof. exact (conj eq_refl (serial_requests_add 10 3 sample_world sample_note eq_refl)). Defined.

Lemma lost_update_witness :
  notes sample_world !! 10 = Some sample_note ∧
  let c := run_schedule [0; 1; 0; 1]
             (sample_world, [incrementDownload_async (policy:=modified_paths) 10;
                             incrementDownload_async (policy:=modified_paths) 10]) in
  c.2 = [Answer (Respond 200 (JDownloadCount (downloadCount sample_note + 1)));
         Answer (Respond 200 (JDownloadCount (downloadCount sample_note + 1)))] ∧
  counter 10 c.1 = Some (downloadCount sample_note + 1).
Proof. exact (conj eq_refl (lost_update 10 sample_world sample_note eq_refl)). Defined.

Lemma counter_can_decrease_witness :
  notes sample_world !! 10 = Some sample_note ∧
  let ts := replicate 3 (incrementDownload_async (policy:=modified_paths) 10) in
  counter 10 (run_schedule [0; 1; 1; 2; 2] (sample_world, ts)).1 =
    Some (downloadCount sample_note + 2) ∧
  counter 10 (run_schedule [0; 1; 1; 2; 2; 0] (sample_world, ts)).1 =
    Some (downloadCount sample_note + 1).
Proof. exact (conj eq_refl (counter_can_decrease 10 sample_world sample_note eq_refl)). Defined.

Lemma counter_bounds_witness :
  notes sample_world !! 10 = Some sample_note ∧
  let c := run_schedule [0; 1; 0; 1]
             (sample_world, replicate 2 (incrementDownload_async (policy:=whole_document) 10)) in
  ∃ cnt, counter 10 c.1 = Some cnt ∧
         downloadCount sample_note ≤ cnt ≤ downloadCount sample_note + answered c.2 ∧
         (1 ≤ answered c.2 → downloadCount sample_note + 1 ≤ cnt).
Proof.
  exact (conj eq_refl (counter_bounds 10 2 [0; 1; 0; 1] sample_world sample_note eq_refl)).
Defined.

Lemma concurrent_comments_lose_one_witness :
  comments_rewritten (policy:=modified_paths) ∧
  notes sample_world !! 10 = Some sample_note ∧
  let c := run_schedule [0; 1; 0; 1; 0; 1]
             (sample_world,
              [commentOnNote_async (policy:=modified_paths) 10 alice "first" sample_env;
               commentOnNote_async (policy:=modified_paths) 10 bob "second" sample_env]) in
  let kept := set_comments (comments sample_note ++
                              [new_comment (S (next_oid sample_world)) bob "second" sample_env])
                sample_note in
  notes c.1 !! 10 = Some kept ∧
  c.2 = [Answer (Respond 200 (JCommented 10 (Some kept)));
         Answer (Respond 200 (JCommented 10 (Some kept)))].
Proof.
  exact (conj modified_paths_rewrites (conj eq_refl
    (concurrent_comments_lose_one 10 alice bob "first" "second" sample_env sample_env
       sample_world sample_note modified_paths_rewrites eq_refl))).
Defined.

Lemma save_policies_differ_witness :
  notes sample_world !! 10 = Some sample_note ∧
  let pool policy :=
    [likeNote_async (policy:=policy) 10 alice; incrementDownload_async (policy:=policy) 10] in
  notes (run_schedule [0; 1; 0; 1] (sample_world, pool whole_document)).1 !! 10 =
    Some (set_downloadCount (downloadCount sample_note + 1) sample_note) ∧
  notes (run_schedule [0; 1; 0; 1] (sample_world, pool modified_paths)).1 !! 10 =
    Some (set_downloadCount (downloadCount sample_note + 1)
            (set_likes (toggle (uid alice) (likes sample_note)) sample_note)).
Proof. exact (conj eq_refl (save_policies_differ 10 alice sample_world sample_note eq_refl)). Defined.

Lemma concurrent_comments_both_kept_witness :
  notes sample_world !! 10 = Some sample_note ∧
  let c := run_schedule [0; 1; 0; 1; 0; 1]
             (sample_world,
              [commentOnNote_async (policy:=array_atomics) 10 alice "first" sample_env;
               commentOnNote_async (policy:=array_atomics) 10 bob "second" sample_env]) in
  let kept := set_comments (comments sample_note ++
                              [new_comment 12 alice "first" sample_env;
                               new_comment 13 bob "second" sample_env]) sample_note in
  notes c.1 !! 10 = Some kept ∧
  c.2 = [Answer (Respond 200 (JCommented 10 (Some kept)));
         Answer (Respond 200 (JCommented 10 (Some kept)))].
Proof.
  exact (conj eq_refl (concurrent_comments_both_kept 10 alice bob "first" "second" sample_env
                         sample_env sample_world sample_note eq_refl)).
Defined.

Lemma sample_alice_not_archived : 10 ∉ archivedNotes (mkUser "alice" "a@x" "h1" []).
Proof. apply not_elem_of_nil. Qed.

Lemma concurrent_archives_duplicate_witness :
  let c := run_schedule [0; 0; 1; 1; 0; 1]
             (sample_world, [archiveNote_async (policy:=array_atomics) 10 alice;
                             archiveNote_async (policy:=array_atomics) 10 alice]) in
  users c.1 !! 1 = Some (mkUser "alice" "a@x" "h1" [10; 10]) ∧
  c.2 = [Answer (Respond 200 (JMessage true "Note archived successfully"));
         Answer (Respond 200 (JMessage true "Note archived successfully"))].
Proof.
  exact (concurrent_archives_duplicate 10 alice sample_world sample_note
           (mkUser "alice" "a@x" "h1" []) eq_refl eq_refl sample_alice_not_archived).
Defined.

Lemma sample_alice_not_liking : uid alice ∉ likes sample_note.
Proof. by apply (bool_decide_unpack _). Qed.

Lemma concurrent_likes_duplicate_witness :
  let c := run_schedule [0; 1; 0; 1]
             (sample_world, [likeNote_async (policy:=array_atomics) 10 alice;
                             likeNote_async (policy:=array_atomics) 10 alice]) in
  notes c.1 !! 10 = Some (set_likes [2; 1; 1] sample_note) ∧
  c.2 = [Answer (Respond 200 (JLikes [2; 1])); Answer (Respond 200 (JLikes [2; 1]))] ∧
  ∀ w', notes w' !! 10 = notes c.1 !! 10 →
    notes (likeNote 10 alice w').2 !! 10 = Some (set_likes [2; 1] sample_note).
Proof.
  exact (concurrent_likes_duplicate 10 alice sample_world sample_note eq_refl
           sample_alice_not_liking).
Defined.
