(* ===== verification/System.v ===== *)
(** * System: the routes, the reachable states and their invariant

    The two routers ([routes/uploading.route.js], [routes/notes.route.js])
    put the middleware in front of the handlers.  [Request] has one
    constructor per route, [dispatch] runs the chain of a route, and [step]
    is one request served.  [verifyToken] runs in front of [dispatch]
    ([Gateway]): a request that has passed it carries the caller.

    [wf_world] is the invariant of the stores: ids come from the allocator,
    like lists and archive lists have no duplicates, comment ids are unique
    within a note, every note has a non-empty locator, and every stored
    object sits in the [notes/] folder.  Every request preserves it, so it
    holds in every state reachable from an empty database.

    On top of the invariant: no request ever removes an object from
    Cloudinary, and deleting a note leaves its id in the archive lists. *)

From S2P Require Import Prelude JsString Model Contract.
From S2P Require Import Cloudinary Engagement Archive Lifecycle Account Search.

Local Open Scope string_scope.
Local Open Scope list_scope.
Local Open Scope nat_scope.

(** ** Routes *)

(** [POST /create]: [uploadMiddleware], [ensureFileContent],
    [notesUploading]. *)
Definition route_create (part : option File) (body : ReqBody) (u : AuthUser) (env : Env)
    (w : World) : Outcome * World :=
  match uploadMiddleware part with
  | inl e => (Next e, w)
  | inr file =>
      match ensureFileContent file body "/create" with
      | Some r => (r, w)
      | None => notesUploading file body u env w
      end
  end.

(** [POST /update/:id]: [uploadMiddleware], [updateNotes]. *)
Definition route_update (id : oid) (part : option File) (body : ReqBody) (u : AuthUser)
    (env : Env) (w : World) : Outcome * World :=
  match uploadMiddleware part with
  | inl e => (Next e, w)
  | inr file => updateNotes id file body u env w
  end.

(** One constructor per route of the two routers. *)
Inductive Request :=
| PostCreate (part : option File) (body : ReqBody) (u : AuthUser)
| PostUpdate (id : oid) (part : option File) (body : ReqBody) (u : AuthUser)
| DeleteDelete (id : oid) (u : AuthUser)
| GetGet (id : oid)
| GetAll (q : Query)
| PostArchive (id : oid) (u : AuthUser)
| GetArchived (u : AuthUser)
| PostRemoveArchive (id : oid) (u : AuthUser)
| PutLike (id : oid) (u : AuthUser)
| PutComment (noteId commentId : oid) (u : AuthUser) (body_text : string)
| DeleteComment (noteId commentId : oid) (u : AuthUser)
| PostComment (id : oid) (u : AuthUser) (body_text : string)
| PutDownload (id : oid).

Section routers.
Context {engine : RegexEngine}.

(** The routers. *)
Definition dispatch (r : Request) (env : Env) : World → Outcome * World :=
  match r with
  | PostCreate part body u => route_create part body u env
  | PostUpdate id part body u => route_update id part body u env
  | DeleteDelete id u => deleteNotes id u env
  | GetGet id => getNotes id
  | GetAll q => getAllNotes q
  | PostArchive id u => archiveNote id u
  | GetArchived u => getArchives u
  | PostRemoveArchive id u => removeArchiveNote id u
  | PutLike id u => likeNote id u
  | PutComment noteId commentId _ t => updateComment noteId commentId t env
  | DeleteComment noteId commentId _ => deleteComment noteId commentId
  | PostComment id u t => commentOnNote id u t env
  | PutDownload id => incrementDownload id
  end.

(** A request arrives with what it observes of the outside. *)
Definition handle (re : Request * Env) : World → Outcome * World :=
  dispatch re.1 re.2.

(** One request served, and the state after a sequence of requests, oldest
    first. *)
Definition step : relation World := served handle.

Definition serve (rs : list (Request * Env)) (w : World) : World :=
  run_all handle rs w.

End routers.

(** ** The invariant *)

(** A note is well formed below the allocator bound [b]. *)
Record wf_note (b : nat) (n : Note) : Prop := {
  wf_likes : NoDup (likes n);
  wf_comment_ids : NoDup (c_id <$> comments n);
  wf_comment_bound : Forall (λ c, c_id c < b) (comments n);
  wf_fileUrl : truthy (fileUrl n) = true;
}.

Record wf_world (w : World) : Prop := {
  wf_notes : ∀ id n, notes w !! id = Some n → id < next_oid w ∧ wf_note (next_oid w) n;
  wf_archives : ∀ id u, users w !! id = Some u →
    NoDup (archivedNotes u) ∧ Forall (λ x, x < next_oid w) (archivedNotes u);
  wf_assets : managed_keys w;
}.

(** A database with no notes and no objects, whose users have archived
    nothing. *)
Definition initial (w : World) : Prop :=
  notes w = ∅ ∧ assets w = ∅ ∧ calls w = [] ∧
  ∀ id u, users w !! id = Some u → archivedNotes u = [].

Definition reachable `{RegexEngine} (w : World) : Prop :=
  ∃ w0, initial w0 ∧ rtc step w0 w.

(** A database before its first note, and a file of a type that is not
    allowed. *)
Definition empty_world : World :=
  {| notes := ∅; users := {[ 1 := mkUser "alice" "a@x" "h1" [] ]}; assets := ∅;
     calls := []; next_oid := 0 |}.

Definition text_file : File :=
  {| originalname := "a.txt"; mimetype := "text/plain"; buffer := [] |}.

(** ** Building blocks of the invariant *)

Section wf_blocks.
Implicit Types (id : oid) (w : World) (n : Note) (b : nat).

Lemma wf_note_mono b b' n : b ≤ b' → wf_note b n → wf_note b' n.
Proof.
  intros Hb [? ? Hc ?]. split; try done.
  eapply Forall_impl; [done | simpl; lia].
Qed.

Lemma wf_note_set_likes b n l : NoDup l → wf_note b n → wf_note b (set_likes l n).
Proof. intros ? [? ? ? ?]. by split. Qed.

Lemma wf_note_set_comments b n cs :
  NoDup (c_id <$> cs) → Forall (λ c, c_id c < b) cs → wf_note b n →
  wf_note b (set_comments cs n).
Proof. intros ? ? [? ? ? ?]. by split. Qed.

Lemma wf_note_set_downloadCount b n k : wf_note b n → wf_note b (set_downloadCount k n).
Proof. intros [? ? ? ?]. by split. Qed.

Lemma wf_note_set_archived b n a : wf_note b n → wf_note b (set_archived a n).
Proof. intros [? ? ? ?]. by split. Qed.

Lemma wf_note_set_file b n url name type :
  truthy url = true → wf_note b n → wf_note b (set_file url name type n).
Proof. intros ? [? ? ? ?]. by split. Qed.

Lemma wf_note_update_fields b n body : wf_note b n → wf_note b (update_fields body n).
Proof. intros [? ? ? ?]. by split. Qed.

Lemma wf_note_new_note b body u url name type env :
  truthy url = true → wf_note b (new_note body u url name type env).
Proof. intros ?. split; simpl; [constructor.. | done]. Qed.

Lemma wf_world_frame w w' :
  wf_world w → notes w' = notes w → users w' = users w → next_oid w' = next_oid w →
  managed_keys w' → wf_world w'.
Proof. intros [Hn Hu Ha] En Eu Eo Hm. split; rewrite ?En, ?Eu, ?Eo; done. Qed.

Lemma wf_world_save w id n :
  wf_world w → id < next_oid w → wf_note (next_oid w) n →
  wf_world (set_notes <[id := n]> w).
Proof.
  intros [Hn Hu Ha] Hid Hwf. split; [|done..]. intros id' n'. simpl.
  rewrite lookup_insert_Some. intros [[<- <-] | [_ ?]]; [done | by apply Hn].
Qed.

Lemma wf_world_alloc w : wf_world w → wf_world (alloc_oid w).2.
Proof.
  intros [Hn Hu Ha]. split; simpl; [| |done].
  - intros id n H. destruct (Hn _ _ H). split; [lia | eapply wf_note_mono; [|done]; lia].
  - intros id u H. destruct (Hu _ _ H) as [? Hb]. split; [done|].
    eapply Forall_impl; [done | simpl; lia].
Qed.

Lemma wf_world_delete w id : wf_world w → wf_world (set_notes (delete id) w).
Proof.
  intros [Hn Hu Ha]. split; [|done..]. intros id' n'. simpl.
  rewrite lookup_delete_Some. intros [_ ?]. by apply Hn.
Qed.

Lemma wf_world_user w id u :
  wf_world w → NoDup (archivedNotes u) → Forall (λ x, x < next_oid w) (archivedNotes u) →
  wf_world (set_users <[id := u]> w).
Proof.
  intros [Hn Hu Ha] Hnd Hb. split; [done| |done]. intros id' u'. simpl.
  rewrite lookup_insert_Some. intros [[<- <-] | [_ ?]]; [done | by eapply Hu].
Qed.

Lemma wf_world_pull w id noteId : wf_world w → wf_world (User_pull_archived id noteId w).2.
Proof.
  intros [Hn Hu Ha]. split; [done| |done]. intros id' u'. simpl.
  destruct (decide (id' = id)) as [->|Hne].
  - rewrite lookup_alter_eq. intros (u0 & H & ->)%fmap_Some.
    destruct (Hu _ _ H) as [Hnd Hb]. simpl. split.
    + by apply NoDup_filter.
    + by apply Forall_filter_keep.
  - rewrite lookup_alter_ne by done. apply Hu.
Qed.

Lemma managed_keys_destroy url env w :
  managed_keys w → managed_keys (destroy_if_managed url env w).2.
Proof.
  intros Hm k. unfold destroy_if_managed, destroy.
  destruct (on_cloudinary url); handler_simp; [|apply Hm].
  destruct (destroy_error env); handler_simp; [apply Hm|].
  rewrite lookup_delete_is_Some. intros [_ ?]. by apply Hm.
Qed.

Lemma wf_world_destroy url env w : wf_world w → wf_world (destroy_if_managed url env w).2.
Proof.
  intros Hwf. destruct (destroy_if_managed_frame url env w) as (? & ? & ?).
  eapply wf_world_frame; [done.. | apply managed_keys_destroy, Hwf].
Qed.

Lemma wf_world_upload buf name env w :
  wf_world w → wf_world (uploadToCloudinary buf name env w).2.
Proof.
  intros Hwf. destruct (upload_frame buf name env w) as (? & ? & ?).
  eapply wf_world_frame; [done.. | apply managed_keys_upload, Hwf].
Qed.

Lemma wf_world_create w doc :
  wf_world w → wf_note (S (next_oid w)) doc → wf_world (Note_create doc w).2.
Proof.
  intros Hwf Hdoc. apply wf_world_alloc in Hwf.
  apply (wf_world_save (alloc_oid w).2 (next_oid w) doc Hwf); simpl; [lia | done].
Qed.

End wf_blocks.

(** ** Every handler preserves the invariant *)

Section preservation.
Context {engine : RegexEngine}.
Implicit Types (id : oid) (u : AuthUser) (w : World) (n : Note) (env : Env)
  (body : ReqBody).

Lemma fresh_comment b cs c :
  NoDup (c_id <$> cs) → Forall (λ c, c_id c < b) cs → c_id c = b →
  NoDup (c_id <$> cs ++ [c]) ∧ Forall (λ c, c_id c < S b) (cs ++ [c]).
Proof.
  intros Hnd Hb Hc. split.
  - rewrite fmap_app. apply NoDup_app. split_and!; [done | | apply NoDup_singleton].
    intros x (y & Hxy & Hy)%list_elem_of_fmap Hx%list_elem_of_singleton.
    rewrite Forall_forall in Hb. specialize (Hb y Hy). simpl in *. lia.
  - apply Forall_app. split; [|apply Forall_singleton; lia].
    eapply Forall_impl; [done | simpl; lia].
Qed.

#[export] Instance likeNote_wf id u :
  Preserves wf_world (likeNote id u).
Proof.
  intros w Hwf. destruct (notes w !! id) as [n|] eqn:H.
  - rewrite (likeNote_found _ _ _ _ H). destruct (wf_notes _ Hwf _ _ H) as [Hid Hn].
    apply wf_world_save; [done..|]. apply wf_note_set_likes; [|done].
    apply toggle_NoDup, Hn.
  - by rewrite (likeNote_not_found _ _ _ H).
Qed.

#[export] Instance commentOnNote_wf id u t env :
  Preserves wf_world (commentOnNote id u t env).
Proof.
  intros w Hwf. destruct (notes w !! id) as [n|] eqn:H.
  - rewrite (commentOnNote_found _ _ _ _ _ _ H). destruct (wf_notes _ Hwf _ _ H) as [Hid Hn].
    apply wf_world_save; [by apply wf_world_alloc | simpl; lia |]. simpl.
    edestruct (fresh_comment (next_oid w) (comments n)) as [? ?];
      [apply Hn | apply Hn | |
       apply wf_note_set_comments; [done.. | eapply wf_note_mono; [|done]; lia]].
    done.
  - by rewrite (commentOnNote_not_found _ _ _ _ _ H).
Qed.

#[export] Instance updateComment_wf id cid t env :
  Preserves wf_world (updateComment id cid t env).
Proof.
  intros w Hwf. destruct (notes w !! id) as [n|] eqn:H.
  2: { by rewrite (updateComment_not_found _ _ _ _ _ H). }
  destruct (wf_notes _ Hwf _ _ H) as [Hid Hn].
  destruct (comments_id cid (comments n)) as [[i c]|] eqn:Hc.
  2: { by rewrite (updateComment_no_comment _ _ _ _ _ _ H Hc). }
  rewrite (updateComment_found _ _ _ _ _ _ _ _ H Hc).
  apply comments_id_Some in Hc as [Hi _].
  apply wf_world_save; [done..|]. apply wf_note_set_comments; [| |done].
  - rewrite edit_keeps_ids by done. apply Hn.
  - apply Forall_insert; [apply Hn|]. simpl.
    pose proof (wf_comment_bound _ _ Hn) as Hb. rewrite Forall_forall in Hb.
    apply Hb. by eapply list_elem_of_lookup_2.
Qed.

#[export] Instance deleteComment_wf id cid :
  Preserves wf_world (deleteComment id cid).
Proof.
  intros w Hwf. destruct (notes w !! id) as [n|] eqn:H.
  - rewrite (deleteComment_found _ _ _ _ H). destruct (wf_notes _ Hwf _ _ H) as [Hid Hn].
    apply wf_world_save; [done..|]. apply wf_note_set_comments; [| |done].
    + apply NoDup_fmap_filter, Hn.
    + apply Forall_filter_keep, Hn.
  - by rewrite (deleteComment_not_found _ _ _ H).
Qed.

#[export] Instance incrementDownload_wf id :
  Preserves wf_world (incrementDownload id).
Proof.
  intros w Hwf. destruct (notes w !! id) as [n|] eqn:H.
  - rewrite (incrementDownload_found _ _ _ H). destruct (wf_notes _ Hwf _ _ H) as [Hid Hn].
    apply wf_world_save; [done..|]. by apply wf_note_set_downloadCount.
  - by rewrite (incrementDownload_not_found _ _ H).
Qed.

#[export] Instance archiveNote_wf id u :
  Preserves wf_world (archiveNote id u).
Proof.
  intros w Hwf. destruct (notes w !! id) as [n|] eqn:H.
  2: { by rewrite (archiveNote_not_found _ _ _ H). }
  destruct (users w !! uid u) as [usr|] eqn:Hu.
  2: { by rewrite (archiveNote_no_user _ _ _ _ H Hu). }
  destruct (decide (id ∈ archivedNotes usr)) as [Hin|Hin].
  { by rewrite (archiveNote_already _ _ _ _ _ H Hu Hin). }
  rewrite (archiveNote_new _ _ _ _ _ H Hu Hin).
  destruct (wf_notes _ Hwf _ _ H) as [Hid _]. destruct (wf_archives _ Hwf _ _ Hu) as [Hnd Hb].
  apply wf_world_user; [done | |]; simpl.
  - apply NoDup_app. split_and!; [done | set_solver | apply NoDup_singleton].
  - apply Forall_app. split; [done | by apply Forall_singleton].
Qed.

#[export] Instance removeArchiveNote_wf id u :
  Preserves wf_world (removeArchiveNote id u).
Proof.
  intros w Hwf. destruct (notes w !! id) as [n|] eqn:H.
  - rewrite (removeArchiveNote_found _ _ _ _ H). destruct (wf_notes _ Hwf _ _ H) as [Hid Hn].
    apply wf_world_pull, wf_world_save; [done..|]. by apply wf_note_set_archived.
  - by rewrite (removeArchiveNote_not_found _ _ _ H).
Qed.

#[export] Instance notesUploading_wf file body u env :
  Preserves wf_world (notesUploading file body u env).
Proof.
  intros w Hwf. destruct file as [f|].
  - pose proof (wf_world_upload (buffer f) (originalname f) env w Hwf) as Hup.
    destruct (upload_error env) as [m|] eqn:He.
    { by rewrite (notesUploading_upload_rejected _ _ _ _ _ _ He). }
    destruct (decide (missingFields body = [])) as [Hm|Hm].
    + rewrite (notesUploading_file_created _ _ _ _ _ He Hm).
      by apply wf_world_create, wf_note_new_note.
    + by rewrite (notesUploading_file_missing _ _ _ _ _ He Hm).
  - destruct (truthy_opt (field body "fileUrl")) eqn:Hu.
    2: { by rewrite (notesUploading_no_content _ _ _ _ Hu). }
    destruct (decide (missingFields body = [])) as [Hm|Hm].
    + rewrite (notesUploading_url_created _ _ _ _ Hu Hm).
      apply wf_world_create, wf_note_new_note; [done|].
      destruct (field body "fileUrl") as [[|]|]; done.
    + by rewrite (notesUploading_url_missing _ _ _ _ Hu Hm).
Qed.

#[export] Instance deleteNotes_wf id u env :
  Preserves wf_world (deleteNotes id u env).
Proof.
  intros w Hwf. destruct (notes w !! id) as [n|] eqn:H.
  2: { by rewrite (deleteNotes_not_found _ _ _ _ H). }
  destruct (decide (uid u = uploader n)) as [Hu|Hu].
  2: { by rewrite (deleteNotes_unauthorized _ _ _ _ _ H Hu). }
  rewrite (deleteNotes_authorized _ _ _ _ _ H Hu).
  pose proof (wf_world_destroy (fileUrl n) env w Hwf) as Hd.
  destruct (destroy_if_managed (fileUrl n) env w) as [[?|[?|?]] w1]; simpl in *; try done.
  by apply wf_world_delete.
Qed.

#[export] Instance updateNotes_wf id file body u env :
  Preserves wf_world (updateNotes id file body u env).
Proof.
  intros w Hwf. destruct (notes w !! id) as [n|] eqn:H.
  2: { by rewrite (updateNotes_not_found _ _ _ _ _ _ H). }
  destruct (decide (uid u = uploader n)) as [Hu|Hu].
  2: { by rewrite (updateNotes_unauthorized _ _ _ _ _ _ _ H Hu). }
  destruct (wf_notes _ Hwf _ _ H) as [Hid Hn]. destruct file as [f|].
  - rewrite (updateNotes_file _ _ _ _ _ _ _ H Hu).
    pose proof (wf_world_destroy (fileUrl n) env w Hwf) as Hd.
    destruct (destroy_if_managed_frame (fileUrl n) env w) as (_ & _ & Ho1).
    destruct (destroy_if_managed (fileUrl n) env w) as [[?|[?|?]] w1]; simpl in *; try done.
    pose proof (wf_world_upload (buffer f) (originalname f) env w1 Hd) as Hup.
    destruct (upload_frame (buffer f) (originalname f) env w1) as (_ & _ & Ho2).
    destruct (uploadToCloudinary (buffer f) (originalname f) env w1) as [[?|[r|?]] w2] eqn:Hs;
      simpl in *; try done.
    apply wf_world_save; [done | lia |]. rewrite Ho2, Ho1.
    apply wf_note_update_fields, wf_note_set_file; [|done].
    apply uploadToCloudinary_resolved in Hs as [-> _]. done.
  - rewrite (updateNotes_no_file _ _ _ _ _ _ H Hu). apply wf_world_save; [done..|].
    apply wf_note_update_fields. destruct (truthy_opt (field body "fileUrl")) eqn:Hf; [|done].
    apply wf_note_set_file; [|done]. destruct (field body "fileUrl") as [[|]|]; done.
Qed.

Lemma wf_world_alter_user w id f :
  (∀ usr, archivedNotes (f usr) = archivedNotes usr) → wf_world w →
  wf_world (set_users (alter f id) w).
Proof.
  intros Hf [Hn Hu Ha]. split; [done| |done]. intros id' u'. simpl.
  destruct (decide (id' = id)) as [->|Hne].
  - rewrite lookup_alter_eq. intros (u0 & Hl & ->)%fmap_Some. rewrite Hf. by eapply Hu.
  - rewrite lookup_alter_ne by done. apply Hu.
Qed.

#[export] Instance updateUser_wf `{Bcrypt} id body u salt :
  Preserves wf_world (updateUser id body u salt).
Proof.
  intros w Hwf. destruct (updateUser_state id body u salt w) as [-> | (usr & _ & _ & ->)];
    [done | by apply wf_world_alter_user].
Qed.

#[export] Instance deleteUser_wf id u : Preserves wf_world (deleteUser id u).
Proof.
  intros w [Hn Hu Ha]. destruct (decide (uid u = id)) as [Hid|Hid].
  - rewrite (deleteUser_authorized _ _ _ Hid). split; [done| |done]. intros id' u'. simpl.
    rewrite lookup_delete_Some. intros [_ ?]. by eapply Hu.
  - by rewrite (deleteUser_unauthorized _ _ _ Hid).
Qed.

#[export] Instance route_create_wf part body u env :
  Preserves wf_world (route_create part body u env).
Proof.
  intros w Hwf. unfold route_create. destruct (uploadMiddleware part) as [?|file]; [done|].
  destruct (ensureFileContent file body "/create"); [done|]. by by_contract.
Qed.

#[export] Instance route_update_wf id part body u env :
  Preserves wf_world (route_update id part body u env).
Proof.
  intros w Hwf. unfold route_update. destruct (uploadMiddleware part) as [?|file]; [done|].
  by by_contract.
Qed.

#[export] Instance dispatch_wf r env : Preserves wf_world (dispatch r env).
Proof. destruct r; simpl; first [apply _ | apply ReadOnly_Preserves, _]. Qed.

#[export] Instance handle_wf re : Preserves wf_world (handle re).
Proof. apply dispatch_wf. Qed.

Lemma initial_wf w : initial w → wf_world w.
Proof.
  intros (Hn & Ha & _ & Hu). split.
  - intros id n. by rewrite Hn, lookup_empty.
  - intros id u ->%Hu. split; constructor.
  - intros k. rewrite Ha, lookup_empty. by intros [? ?].
Qed.

Lemma step_dispatch r env w : step w (dispatch r env w).2.
Proof. exact (served_request handle (r, env) w). Qed.

Lemma step_wf w w' : step w w' → wf_world w → wf_world w'.
Proof. intros Hstep Hwf. by eapply (served_preserves handle wf_world). Qed.

End preservation.

(** ** What requests do to the object store *)

Section assets.
Context {engine : RegexEngine}.
Implicit Types (id : oid) (u : AuthUser) (w : World) (n : Note) (env : Env)
  (body : ReqBody).

Lemma same_except_objects id w w' : same_except_note id w w' → objects_kept w w'.
Proof. intros (_ & Ha & _). unfold objects_kept. by rewrite Ha. Qed.

Lemma archiveNote_assets id u w : assets (archiveNote id u w).2 = assets w.
Proof.
  unfold archiveNote. handler_simp. destruct (notes w !! id); handler_simp; [|done].
  destruct (users w !! uid u) as [usr|]; handler_simp; [|done].
  by case_bool_decide.
Qed.

Lemma removeArchiveNote_assets id u w : assets (removeArchiveNote id u w).2 = assets w.
Proof. unfold removeArchiveNote. handler_simp. by destruct (notes w !! id). Qed.

#[export] Instance notesUploading_keeps file body u env :
  Guarantees managed_keys objects_kept (notesUploading file body u env).
Proof.
  intros w _. unfold objects_kept. destruct file as [f|].
  - pose proof (upload_assets_grow (buffer f) (originalname f) env w) as Hup.
    destruct (upload_error env) as [m|] eqn:He.
    { by rewrite (notesUploading_upload_rejected _ _ _ _ _ _ He). }
    destruct (decide (missingFields body = [])) as [Hm|Hm].
    + by rewrite (notesUploading_file_created _ _ _ _ _ He Hm).
    + by rewrite (notesUploading_file_missing _ _ _ _ _ He Hm).
  - destruct (truthy_opt (field body "fileUrl")) eqn:Hu.
    2: { by rewrite (notesUploading_no_content _ _ _ _ Hu). }
    destruct (decide (missingFields body = [])) as [Hm|Hm].
    + by rewrite (notesUploading_url_created _ _ _ _ Hu Hm).
    + by rewrite (notesUploading_url_missing _ _ _ _ Hu Hm).
Qed.

Lemma deleteNotes_assets id u env w :
  managed_keys w → assets (deleteNotes id u env w).2 = assets w.
Proof.
  intros Hm. destruct (notes w !! id) as [n|] eqn:H.
  2: { by rewrite (deleteNotes_not_found _ _ _ _ H). }
  destruct (decide (uid u = uploader n)) as [Hu|Hu].
  2: { by rewrite (deleteNotes_unauthorized _ _ _ _ _ H Hu). }
  rewrite (deleteNotes_authorized _ _ _ _ _ H Hu).
  pose proof (destroy_keeps_assets (fileUrl n) env w Hm) as Hd.
  by destruct (destroy_if_managed (fileUrl n) env w) as [[?|[?|?]] w1].
Qed.

#[export] Instance updateNotes_keeps id file body u env :
  Guarantees managed_keys objects_kept (updateNotes id file body u env).
Proof.
  intros w Hm. unfold objects_kept. destruct (notes w !! id) as [n|] eqn:H.
  2: { by rewrite (updateNotes_not_found _ _ _ _ _ _ H). }
  destruct (decide (uid u = uploader n)) as [Hu|Hu].
  2: { by rewrite (updateNotes_unauthorized _ _ _ _ _ _ _ H Hu). }
  destruct file as [f|]; [|by rewrite (updateNotes_no_file _ _ _ _ _ _ H Hu)].
  rewrite (updateNotes_file _ _ _ _ _ _ _ H Hu).
  pose proof (destroy_keeps_assets (fileUrl n) env w Hm) as Hd.
  destruct (destroy_if_managed (fileUrl n) env w) as [[?|[?|?]] w1]; simpl in *;
    [by rewrite Hd | | by rewrite Hd].
  pose proof (upload_assets_grow (buffer f) (originalname f) env w1) as Hup.
  rewrite Hd in Hup.
  by destruct (uploadToCloudinary (buffer f) (originalname f) env w1) as [[?|[?|?]] w2].
Qed.

(** Every route keeps the stored objects: the routes of the engagement
    manager because they change one note at most, the read-only routes
    because they change nothing, and the lifecycle routes because the id
    they hand to [destroy] names no stored object. *)
#[export] Instance route_create_keeps part body u env :
  Guarantees managed_keys objects_kept (route_create part body u env).
Proof.
  intros w Hm. unfold route_create. destruct (uploadMiddleware part) as [?|file]; [done|].
  destruct (ensureFileContent file body "/create"); [done|]. by apply notesUploading_keeps.
Qed.

#[export] Instance route_update_keeps id part body u env :
  Guarantees managed_keys objects_kept (route_update id part body u env).
Proof.
  intros w Hm. unfold route_update. destruct (uploadMiddleware part) as [?|file]; [done|].
  by apply updateNotes_keeps.
Qed.

#[export] Instance deleteNotes_keeps id u env :
  Guarantees managed_keys objects_kept (deleteNotes id u env).
Proof. intros w Hm. unfold objects_kept. by rewrite deleteNotes_assets. Qed.

#[export] Instance archiveNote_keeps id u :
  Guarantees managed_keys objects_kept (archiveNote id u).
Proof. intros w Hm. unfold objects_kept. by rewrite archiveNote_assets. Qed.

#[export] Instance removeArchiveNote_keeps id u :
  Guarantees managed_keys objects_kept (removeArchiveNote id u).
Proof. intros w Hm. unfold objects_kept. by rewrite removeArchiveNote_assets. Qed.

(** Every route keeps the stored objects: the routes of the engagement
    manager because they change one note at most, the read-only routes
    because they change nothing, and the lifecycle routes because the id
    they hand to [destroy] names no stored object. *)
#[export] Instance dispatch_keeps r env : Guarantees managed_keys objects_kept (dispatch r env).
Proof.
  destruct r; simpl;
    first [ apply _ | apply ReadOnly_Guarantees; apply _
          | eapply NoteLocal_Guarantees; [apply same_except_objects | apply _] ].
Qed.

#[export] Instance handle_keeps re : Guarantees wf_world objects_kept (handle re).
Proof.
  eapply Guarantees_weaken; [apply wf_assets | done | apply dispatch_keeps].
Qed.

Lemma serve_wf rs w : wf_world w → wf_world (serve rs w).
Proof. apply (run_all_preserves handle wf_world). Qed.

Lemma sample_world_wf : wf_world sample_world.
Proof.
  split; [| | apply sample_world_managed].
  - intros id n. simpl. intros [<- <-]%lookup_singleton_Some. split; [simpl; lia|].
    split; simpl; [apply NoDup_singleton.. | by apply Forall_singleton; simpl; lia | done].
  - intros id u. simpl. rewrite lookup_insert_Some, lookup_singleton_Some.
    intros [[<- <-] | [_ [<- <-]]]; simpl.
    + split; constructor.
    + split; [apply NoDup_singleton | apply Forall_singleton; lia].
Qed.

Lemma deleteNotes_200 id u env w b :
  (deleteNotes id u env w).1 = Respond 200 b → notes (deleteNotes id u env w).2 !! id = None.
Proof.
  destruct (notes w !! id) as [n|] eqn:Hn.
  2: { by rewrite (deleteNotes_not_found _ _ _ _ Hn). }
  destruct (decide (uid u = uploader n)) as [Hu|Hu].
  2: { by rewrite (deleteNotes_unauthorized _ _ _ _ _ Hn Hu). }
  rewrite (deleteNotes_authorized _ _ _ _ _ Hn Hu).
  pose proof (destroy_if_managed_settles (fileUrl n) env w) as Hs.
  destruct (destroy_if_managed (fileUrl n) env w) as [[?|[[]|m]] w1]; simpl in *; [done| |done].
  intros _. apply lookup_delete_eq.
Qed.

Lemma route_create_201 part body u env w msg id doc :
  (route_create part body u env w).1 = Respond 201 (JData msg id doc) →
  notes (route_create part body u env w).2 !! id = Some doc.
Proof.
  unfold route_create. destruct (uploadMiddleware part) as [?|file]; [done|].
  destruct (ensureFileContent file body "/create") as [o|] eqn:Hc.
  { unfold ensureFileContent in Hc. by case_match; simplify_eq. }
  destruct file as [f|].
  - destruct (upload_error env) as [m|] eqn:He.
    { by rewrite (notesUploading_upload_rejected _ _ _ _ _ _ He). }
    destruct (decide (missingFields body = [])) as [Hm|Hm].
    + rewrite (notesUploading_file_created _ _ _ _ _ He Hm). simpl. intros [= <- <- <-].
      destruct (upload_frame (buffer f) (originalname f) env w) as (_ & _ & ->).
      apply lookup_insert_eq.
    + by rewrite (notesUploading_file_missing _ _ _ _ _ He Hm).
  - destruct (truthy_opt (field body "fileUrl")) eqn:Hu.
    2: { by rewrite (notesUploading_no_content _ _ _ _ Hu). }
    destruct (decide (missingFields body = [])) as [Hm|Hm].
    + rewrite (notesUploading_url_created _ _ _ _ Hu Hm). simpl. intros [= <- <- <-].
      apply lookup_insert_eq.
    + by rewrite (notesUploading_url_missing _ _ _ _ Hu Hm).
Qed.

Lemma exact_same s : exact (Some s) s = true.
Proof. unfold exact. destruct (truthy_opt (Some s)); [by apply bool_decide_eq_true|done]. Qed.

End assets.

(** ** Properties *)

Section properties.
Context {engine : RegexEngine}.
Implicit Types (id : oid) (u : AuthUser) (w : World) (n : Note) (env : Env)
  (body : ReqBody).

(** C2 (reachable_wf): every state reachable from an empty database by any
    sequence of requests is well formed: note and comment ids come from the
    allocator, like lists and archive lists have no duplicates, comment ids
    are unique within their note, every note has a non-empty locator, and
    every stored object sits in the [notes/] folder. *)
Theorem reachable_wf w : reachable w → wf_world w.
Proof.
  intros (w0 & Hinit%initial_wf & Hsteps).
  by eapply (served_rtc_preserves handle wf_world).
Qed.

(** C22 (objects_never_removed): no sequence of requests removes an object
    from Cloudinary: every public id that names a stored object in a well
    formed state still names one after any number of requests, deletions
    and file replacements included. *)
Theorem objects_never_removed w w' :
  wf_world w → rtc step w w' → dom (assets w) ⊆ dom (assets w').
Proof. apply (served_rtc_guarantees handle wf_world objects_kept). Qed.

(** C37 (deleted_note_stays_archived): deleting a note does not clean the
    archive lists: after a successful [DELETE /delete/:id], a user who had
    archived the note still has its id in the list, while the note is gone
    and [GET /archived/:id] leaves it out of its answer. *)
Theorem deleted_note_stays_archived id u b env env' w n ub :
  notes w !! id = Some n → uid u = uploader n →
  on_cloudinary (fileUrl n) = false ∨ destroy_error env = None →
  users w !! uid b = Some ub → id ∈ archivedNotes ub →
  let w1 := (dispatch (DeleteDelete id u) env w).2 in
  notes w1 !! id = None ∧ users w1 !! uid b = Some ub ∧
  ∃ l, dispatch (GetArchived b) env' w1 = (Respond 200 (JArchives l), w1) ∧ id ∉ l.*1.
Proof.
  intros H Hu Hok Hb Hin. destruct (deleteNotes_accepted _ _ _ _ _ H Hu Hok) as (_ & Hn & Hus).
  simpl. assert (Hgone : notes (deleteNotes id u env w).2 !! id = None).
  { rewrite Hn. apply lookup_delete_eq. }
  split_and!; [done | by rewrite Hus |].
  erewrite getArchives_found by (by rewrite Hus). eexists; split; [done|].
  intros ((id' & n') & Hid & [_ Hst]%populate_notes_elem_of)%list_elem_of_fmap.
  simpl in Hid, Hst. subst id'. by rewrite Hgone in Hst.
Qed.

(** A file whose MIME type is not
    one of the five allowed types is refused by the upload middleware of
    both routes that accept files: the request is answered with the filter's
    error and neither store is touched, so nothing reaches Cloudinary. *)
Theorem disallowed_type_rejected_by_routes id f body u env w :
  mimetype f ∉ allowedTypes →
  let e := new_Error
    "Invalid file type. Only PDF, DOC, DOCX, JPG, and PNG files are allowed" in
  route_create (Some f) body u env w = (Next e, w) ∧
  route_update id (Some f) body u env w = (Next e, w).
Proof.
  intros Ht. unfold route_create, route_update, uploadMiddleware, fileFilter.
  by rewrite bool_decide_eq_false_2.
Qed.

(** A note that [POST /create] answered 201
    for is stored, [GET /get/:id] returns it, and [GET /] with its subject
    as the [subject] filter lists it. *)
Theorem created_note_is_listed part body u env env' w msg id doc :
  (dispatch (PostCreate part body u) env w).1 = Respond 201 (JData msg id doc) →
  let w' := (dispatch (PostCreate part body u) env w).2 in
  dispatch (GetGet id) env' w' = (Respond 200 (JNote id doc), w') ∧
  (id, doc) ∈ listed (dispatch (GetAll (subject_query (subjectName doc))) env' w').1.
Proof.
  intros Hr%route_create_201. cbn [dispatch]. split; [by apply getNotes_found|].
  rewrite getAllNotes_eq by done. cbn [fst listed].
  destruct (listing_spec (query (subject_query (subjectName doc)))
              (route_create part body u env w).2) as (_ & _ & ->).
  split; [done|]. unfold query. simpl. by rewrite exact_same.
Qed.

(** After [DELETE /delete/:id] has answered
    200, the note is in no answer of [GET /], whatever the query, and
    [GET /get/:id] answers 404, so its comments are out of reach. *)
Theorem deleted_note_not_listed id u q env env' w b n :
  (dispatch (DeleteDelete id u) env w).1 = Respond 200 b →
  let w' := (dispatch (DeleteDelete id u) env w).2 in
  ((id, n) ∉ listed (dispatch (GetAll q) env' w').1) ∧
  dispatch (GetGet id) env' w' = (Next (errorHandler 404 "Notes not found"), w').
Proof.
  intros Hr%deleteNotes_200. cbn [dispatch]. split; [|by apply getNotes_not_found].
  destruct (regex_errors [q_search q]) as [m|] eqn:Hq.
  { rewrite (getAllNotes_rejected _ _ _ Hq). apply not_elem_of_nil. }
  rewrite getAllNotes_eq by done. cbn [fst listed].
  destruct (listing_spec (query q) (deleteNotes id u env w).2) as (_ & _ & ->).
  intros [Hn _]. by rewrite Hr in Hn.
Qed.

End properties.

(** ** The properties on the sample data *)

Lemma sample_delete_step :
  rtc step sample_world (dispatch (DeleteDelete 10 alice) sample_env sample_world).2.
Proof. apply rtc_once, step_dispatch. Qed.

Lemma objects_never_removed_witness :
  wf_world sample_world ∧
  rtc step sample_world (dispatch (DeleteDelete 10 alice) sample_env sample_world).2 ∧
  dom (assets sample_world) ⊆
    dom (assets (dispatch (DeleteDelete 10 alice) sample_env sample_world).2).
Proof.
  exact (conj sample_world_wf (conj sample_delete_step
    (objects_never_removed _ _ sample_world_wf sample_delete_step))).
Defined.

Lemma empty_world_initial : initial empty_world.
Proof.
  repeat split. intros id u. simpl. by intros [_ <-]%lookup_singleton_Some.
Qed.

Lemma created_reachable :
  reachable (dispatch (PostCreate (Some sample_file) full_body alice) sample_env
               empty_world).2.
Proof.
  exists empty_world. split; [apply empty_world_initial|].
  apply rtc_once, step_dispatch.
Qed.

Lemma reachable_wf_witness :
  reachable (dispatch (PostCreate (Some sample_file) full_body alice) sample_env
               empty_world).2 ∧
  wf_world (dispatch (PostCreate (Some sample_file) full_body alice) sample_env
              empty_world).2.
Proof. exact (conj created_reachable (reachable_wf _ created_reachable)). Defined.

Lemma sample_bob_has_archived : 10 ∈ archivedNotes (mkUser "bob" "b@x" "h2" [10]).
Proof. apply list_elem_of_singleton. reflexivity. Qed.

Lemma deleted_note_stays_archived_witness :
  notes sample_world !! 10 = Some sample_note ∧ uid alice = uploader sample_note ∧
  (on_cloudinary (fileUrl sample_note) = false ∨ destroy_error sample_env = None) ∧
  users sample_world !! uid bob = Some (mkUser "bob" "b@x" "h2" [10]) ∧
  10 ∈ archivedNotes (mkUser "bob" "b@x" "h2" [10]) ∧
  let w1 := (dispatch (DeleteDelete 10 alice) sample_env sample_world).2 in
  notes w1 !! 10 = None ∧ users w1 !! uid bob = Some (mkUser "bob" "b@x" "h2" [10]) ∧
  ∃ l, dispatch (GetArchived bob) sample_env w1 = (Respond 200 (JArchives l), w1) ∧
       10 ∉ l.*1.
Proof.
  exact (conj eq_refl (conj eq_refl (conj (or_intror eq_refl) (conj eq_refl
    (conj sample_bob_has_archived
      (deleted_note_stays_archived 10 alice bob sample_env sample_env sample_world
         sample_note _ eq_refl eq_refl (or_intror eq_refl) eq_refl
         sample_bob_has_archived)))))).
Defined.

Lemma text_plain_not_allowed : mimetype text_file ∉ allowedTypes.
Proof. by intros ?%list_elem_of_In%(bool_decide_pack (In _ _)). Qed.

Lemma disallowed_type_rejected_by_routes_witness :
  (mimetype text_file ∉ allowedTypes) ∧
  let e := new_Error
    "Invalid file type. Only PDF, DOC, DOCX, JPG, and PNG files are allowed" in
  route_create (Some text_file) full_body alice sample_env sample_world =
    (Next e, sample_world) ∧
  route_update 10 (Some text_file) full_body alice sample_env sample_world =
    (Next e, sample_world).
Proof.
  exact (conj text_plain_not_allowed
    (disallowed_type_rejected_by_routes 10 text_file full_body alice sample_env
       sample_world text_plain_not_allowed)).
Defined.

Lemma sample_created :
  (dispatch (PostCreate (Some sample_file) full_body alice) sample_env empty_world).1 =
  Respond 201 (JData "Note uploaded successfully" 0
    (new_note full_body alice
       (secure_url_of (upload_public_id sample_env "my.notes.pdf") "pdf")
       "my.notes.pdf" "application/pdf" sample_env)).
Proof. reflexivity. Qed.

Lemma created_note_is_listed_witness :
  let doc := new_note full_body alice
       (secure_url_of (upload_public_id sample_env "my.notes.pdf") "pdf")
       "my.notes.pdf" "application/pdf" sample_env in
  (dispatch (PostCreate (Some sample_file) full_body alice) sample_env empty_world).1 =
    Respond 201 (JData "Note uploaded successfully" 0 doc) ∧
  let w' := (dispatch (PostCreate (Some sample_file) full_body alice) sample_env
               empty_world).2 in
  dispatch (GetGet 0) sample_env w' = (Respond 200 (JNote 0 doc), w') ∧
  (0, doc) ∈ listed (dispatch (GetAll (subject_query (subjectName doc))) sample_env w').1.
Proof.
  exact (conj sample_created
    (created_note_is_listed (Some sample_file) full_body alice sample_env sample_env
       empty_world _ 0 _ sample_created)).
Defined.

Lemma sample_delete_200 :
  (dispatch (DeleteDelete 10 alice) sample_env sample_world).1 =
  Respond 200 (JText "Notes has been deleted").
Proof. reflexivity. Qed.

Lemma deleted_note_not_listed_witness :
  (dispatch (DeleteDelete 10 alice) sample_env sample_world).1 =
    Respond 200 (JText "Notes has been deleted") ∧
  let w' := (dispatch (DeleteDelete 10 alice) sample_env sample_world).2 in
  ((10, sample_note) ∉ listed (dispatch (GetAll any_query) sample_env w').1) ∧
  dispatch (GetGet 10) sample_env w' = (Next (errorHandler 404 "Notes not found"), w').
Proof.
  exact (conj sample_delete_200
    (deleted_note_not_listed 10 alice any_query sample_env sample_env sample_world _
       sample_note sample_delete_200)).
Defined.
