(* ===== verification/Stability.v ===== *)
(** * Stability: the invariant of the stores, await by await

    [System] shows that a handler run as a whole takes well-formed stores
    to well-formed stores.  A handler does not run as a whole: it reads a
    document, other requests change the stores, and it saves its copy
    later.  What it saves was well formed when it was read; this file shows
    that it still is when it is saved.

    The reason is the same for every handler.  The invariant [wf_world]
    speaks of each document on its own and of the allocator: lists without
    duplicates, ids below the allocator, a locator that is not empty.  The
    allocator only grows ([retires]), so a copy that was well formed stays
    so, and a change computed from the copy ([toggle], a pushed comment
    whose id is allocated by the step that saves, a pulled comment, a
    pushed archive entry that the copy did not hold) keeps it well formed.
    A save writes each path from the copy or leaves it as stored
    ([PathWise]), and both are well formed.  Under a policy outside
    [PathWise] the invariant can break ([concurrent_archives_duplicate]
    and [concurrent_likes_duplicate] of [Concurrency]).

    [keeps_wf p] says this of a process; the lemmas [stable_likeNote] and
    the like show it of each handler of [Async]. *)

From S2P Require Import Prelude JsString Model Contract Eventloop Cloudinary.
From S2P Require Import Engagement Archive Lifecycle Async System.

Local Open Scope string_scope.
Local Open Scope list_scope.
Local Open Scope handler_scope.

(** [keeps_wf w0 p]: whatever has happened since [p] read the stores [w0],
    the steps of [p] take well-formed stores to well-formed stores. *)
Definition keeps_wf (w0 : World) (p : Proc) : Prop := stable retires wf_world w0 p.

(** ** The steps *)

Section steps.
Context {policy : SavePolicy} {pathwise : PathWise policy}.
Implicit Types (id : oid) (w : World) (n : Note) (usr : User) (b : nat) (p : Proc).

(** The document a save stores is well formed when the copy and the
    stored document are. *)
Lemma wf_note_save b loaded changed stored :
  wf_note b changed → wf_note b stored → wf_note b (save_note loaded changed stored).
Proof.
  intros [? ? ? ?] [? ? ? ?]. pose proof (save_note_paths loaded changed stored) as Hs. split.
  - by destruct (saved_likes _ _ _ Hs) as [-> | ->].
  - by destruct (saved_comments _ _ _ Hs) as [-> | ->].
  - by destruct (saved_comments _ _ _ Hs) as [-> | ->].
  - by destruct (saved_fileUrl _ _ _ Hs) as [-> | ->].
Qed.

Lemma Note_commit_wf id loaded changed w :
  wf_world w → wf_note (next_oid w) changed → wf_world (Note_commit id loaded changed w).2.
Proof.
  intros Hwf Hc. unfold Note_commit. destruct (notes w !! id) as [stored|] eqn:Hs; [|done].
  destruct (wf_notes _ Hwf _ _ Hs). apply wf_world_save; [done..|]. by apply wf_note_save.
Qed.

Lemma User_commit_wf id loaded changed w :
  wf_world w → NoDup (archivedNotes changed) →
  Forall (λ x, x < next_oid w) (archivedNotes changed) →
  wf_world (User_commit id loaded changed w).2.
Proof.
  intros Hwf Hnd Hb. unfold User_commit. destruct (users w !! id) as [stored|] eqn:Hs; [|done].
  destruct (wf_archives _ Hwf _ _ Hs).
  apply wf_world_user; [done|..];
    by destruct (saved_archivedNotes _ _ _ (save_user_paths loaded changed stored)) as [-> | ->].
Qed.

(** A read changes nothing and returns a document that is well formed. *)
Lemma keeps_wf_load id w0 (k : option Note → Proc) :
  (∀ w, retires w0 w → wf_world w → notes w !! id = None → keeps_wf w (k None)) →
  (∀ w n, retires w0 w → wf_world w → notes w !! id = Some n → id < next_oid w →
          wf_note (next_oid w) n → keeps_wf w (k (Some n))) →
  keeps_wf w0 (await (Note_findById id) k).
Proof.
  intros Hnone Hsome. apply stable_await. intros w HR Hwf. split; [done|].
  intros a [= <-]. destruct (notes w !! id) as [n|] eqn:Hn; [|by apply Hnone].
  destruct (wf_notes _ Hwf _ _ Hn). by apply Hsome.
Qed.

(** The read that only serves the answer. *)
Lemma keeps_wf_reload id w0 (k : option Note → Proc) :
  (∀ a w, keeps_wf w (k a)) → keeps_wf w0 (await (Note_findById id) k).
Proof. intros Hk. apply keeps_wf_load; intros; apply Hk. Qed.

(** A save of a copy that was well formed when it was read. *)
Lemma keeps_wf_commit id loaded changed w0 (k : unit → Proc) :
  wf_note (next_oid w0) changed → (∀ w, keeps_wf w (k tt)) →
  keeps_wf w0 (await (Note_commit id loaded changed) k).
Proof.
  intros Hc Hk. apply stable_await. intros w [Ho _] Hwf. split; [|intros [] _; apply Hk].
  apply Note_commit_wf; [done|]. by eapply wf_note_mono.
Qed.

Lemma keeps_wf_answer w0 o : keeps_wf w0 (Answer o).
Proof. apply stable_Answer. Qed.

End steps.

#[export] Hint Resolve keeps_wf_answer : sphere.

(** ** The handlers *)

Section handlers.
Context {policy : SavePolicy} {pathwise : PathWise policy}.
Implicit Types (id : oid) (u : AuthUser) (w : World) (n : Note) (env : Env)
  (body : ReqBody).

Local Ltac loaded :=
  apply keeps_wf_load; [auto with sphere|]; intros ?w ?n ?HR ?Hwf ?Hn ?Hid ?Hwn.

Lemma stable_likeNote id u w0 : keeps_wf w0 (likeNote_async id u).
Proof.
  unfold likeNote_async. loaded. apply keeps_wf_commit; [|auto with sphere].
  apply wf_note_set_likes; [apply toggle_NoDup, Hwn | done].
Qed.

Lemma stable_incrementDownload id w0 : keeps_wf w0 (incrementDownload_async id).
Proof.
  unfold incrementDownload_async. loaded. apply keeps_wf_commit; [|auto with sphere].
  by apply wf_note_set_downloadCount.
Qed.

(** The id of the new comment is allocated by the step that saves, above
    every id the copy holds. *)
Lemma stable_commentOnNote id u t env w0 : keeps_wf w0 (commentOnNote_async id u t env).
Proof.
  unfold commentOnNote_async. loaded. apply stable_await. intros w' [Ho _] Hwf'. split.
  - handler_simp. apply Note_commit_wf; [by apply wf_world_alloc|]. simpl.
    pose proof (wf_note_mono _ (next_oid w') _ Ho Hwn) as Hwn'.
    edestruct (fresh_comment (next_oid w') (comments n)) as [? ?];
      [apply Hwn' | apply Hwn' | |
       apply wf_note_set_comments; [done.. | eapply wf_note_mono; [|done]; lia]].
    done.
  - intros _ _. apply keeps_wf_reload. auto with sphere.
Qed.

Lemma stable_updateComment id cid t env w0 : keeps_wf w0 (updateComment_async id cid t env).
Proof.
  unfold updateComment_async. loaded.
  destruct (comments_id cid (comments n)) as [[i c]|] eqn:Hc; [|auto with sphere].
  apply comments_id_Some in Hc as [Hi _]. apply keeps_wf_commit.
  - apply wf_note_set_comments; [| |done]; simpl.
    + rewrite edit_keeps_ids by done. apply Hwn.
    + apply Forall_insert; [apply Hwn|]. simpl.
      pose proof (wf_comment_bound _ _ Hwn) as Hb. rewrite Forall_forall in Hb.
      apply Hb. by eapply list_elem_of_lookup_2.
  - intros w'. apply keeps_wf_reload. intros [?|]; auto with sphere.
Qed.

Lemma stable_deleteComment id cid w0 : keeps_wf w0 (deleteComment_async id cid).
Proof.
  unfold deleteComment_async. loaded. apply keeps_wf_commit.
  - apply wf_note_set_comments; [| |done].
    + apply NoDup_fmap_filter, Hwn.
    + apply Forall_filter_keep, Hwn.
  - intros w'. apply keeps_wf_reload. intros [?|]; auto with sphere.
Qed.

Lemma stable_removeArchiveNote id u w0 : keeps_wf w0 (removeArchiveNote_async id u).
Proof.
  unfold removeArchiveNote_async. loaded. apply stable_await. intros w' [Ho _] Hwf'. split.
  - rewrite rescue_state. apply Note_commit_wf; [done|].
    eapply wf_note_mono; [done|]. by apply wf_note_set_archived.
  - intros _ _. apply stable_await. intros w'' _ Hwf''.
    split; [by apply wf_world_pull | auto with sphere].
Qed.

(** The entry pushed is the id of a note that was stored when the request
    read it, and the copy of the user did not hold it. *)
Lemma stable_archiveNote id u w0 : keeps_wf w0 (archiveNote_async id u).
Proof.
  unfold archiveNote_async. loaded. apply stable_await. intros w1 [Ho1 _] Hwf1.
  split; [done|]. intros a [= <-].
  destruct (users w1 !! uid u) as [usr|] eqn:Hu; [|auto with sphere].
  case_bool_decide as Hin; [auto with sphere|].
  destruct (wf_archives _ Hwf1 _ _ Hu) as [Hnd Hb].
  apply stable_await. intros w2 [Ho2 _] Hwf2. split; [|auto with sphere].
  apply User_commit_wf; [done | |]; simpl.
  - apply NoDup_app. split_and!; [done | set_solver | apply NoDup_singleton].
  - apply Forall_app. split; [|apply Forall_singleton; lia].
    eapply Forall_impl; [done | simpl; lia].
Qed.

Lemma stable_create_note body u env url name type w0 :
  truthy url = true → keeps_wf w0 (create_note body u env (url, name, type)).
Proof.
  intros Hurl. unfold create_note. case_bool_decide; [|auto with sphere].
  apply stable_await. intros w _ Hwf. split; [|auto with sphere].
  by apply wf_world_create, wf_note_new_note.
Qed.

Lemma stable_notesUploading file body u env w0 :
  keeps_wf w0 (notesUploading_async file body u env).
Proof.
  unfold notesUploading_async. destruct file as [f|]; simpl.
  - apply stable_await. intros w _ Hwf. split; [by apply wf_world_upload|].
    intros [r|m] Hr; [|auto with sphere]. apply stable_create_note.
    destruct (uploadToCloudinary _ _ _ w) as [a w'] eqn:Hs. simpl in Hr. subst a.
    by apply uploadToCloudinary_resolved in Hs as [-> _].
  - destruct (truthy_opt (field body "fileUrl")) eqn:Hu; [|auto with sphere].
    apply stable_create_note. destruct (field body "fileUrl") as [[|]|]; done.
Qed.

Lemma stable_deleteNotes id u env w0 : keeps_wf w0 (deleteNotes_async id u env).
Proof.
  unfold deleteNotes_async. loaded. case_bool_decide; [|auto with sphere].
  apply stable_destroy_if_managed_async; [apply _ | intros w1 _ Hwf1; by apply wf_world_destroy |].
  intros w1 [[]|m] _; [|auto with sphere].
  apply stable_await. intros w2 _ Hwf2. split; [by apply wf_world_delete | auto with sphere].
Qed.

Lemma stable_save_update id body loaded note w0 :
  wf_note (next_oid w0) note → keeps_wf w0 (save_update id body loaded note).
Proof.
  intros Hn. unfold save_update. apply keeps_wf_commit; [|auto with sphere].
  by apply wf_note_update_fields.
Qed.

Lemma stable_updateNotes id file body u env w0 :
  keeps_wf w0 (updateNotes_async id file body u env).
Proof.
  unfold updateNotes_async. loaded. case_bool_decide; [|auto with sphere].
  destruct file as [f|].
  - apply stable_destroy_if_managed_async;
      [apply _ | intros w1 _ Hwf1; by apply wf_world_destroy |].
    intros w1 [[]|m] [Ho1 _]; [|auto with sphere].
    apply stable_await. intros w2 [Ho2 _] Hwf2. split; [by apply wf_world_upload|].
    intros [r|m] Hr; [|auto with sphere]. apply stable_save_update.
    apply wf_note_set_file; [|eapply wf_note_mono; [|done]; lia].
    destruct (uploadToCloudinary _ _ _ w2) as [a w'] eqn:Hs. simpl in Hr. subst a.
    by apply uploadToCloudinary_resolved in Hs as [-> _].
  - destruct (truthy_opt (field body "fileUrl")) eqn:Hf; [|by apply stable_save_update].
    apply stable_save_update, wf_note_set_file; [|done].
    destruct (field body "fileUrl") as [[|]|]; done.
Qed.

(** A handler taken as one step keeps what it preserves as a whole. *)
Lemma stable_atomic (h : World → Outcome * World) w0 :
  Preserves wf_world h → keeps_wf w0 (atomic h).
Proof. intros Hh. apply stable_Await; intros; [by apply Hh | apply stable_Answer]. Qed.

End handlers.

#[export] Hint Resolve stable_likeNote stable_incrementDownload stable_commentOnNote
  stable_updateComment stable_deleteComment stable_removeArchiveNote stable_archiveNote
  stable_notesUploading stable_deleteNotes stable_updateNotes : sphere.
