(* ===== verification/Ownership.v ===== *)
(** * Ownership: who removes a note, whatever is in flight

    [deleteNotes] and [updateNotes] compare the caller with the uploader of
    the copy they have read.  Between the read and the call that deletes or
    saves, other requests run.  The comparison still decides what it is
    meant to decide, because no request changes the uploader of a stored
    note: every handler saves a copy whose uploader is the one it read, a
    save writes the uploader of the copy or leaves the one stored
    ([OwnerWise], which holds of the three policies of [Eventloop]), and
    [Note.create] stores under an id that was never handed out before.

    [owned id o w] says that the note [id] is stored in [w] and uploaded by
    [o].  Every step of every handler keeps it, except the last step of a
    [deleteNotes] of [id] sent by [o]. *)

From S2P Require Import Prelude JsString Model Contract Eventloop Cloudinary.
From S2P Require Import Engagement Archive Lifecycle Async System.

Local Open Scope list_scope.
Local Open Scope handler_scope.

(** The note [id] is stored, its uploader is [o], and [id] was handed out
    by the allocator. *)
Definition owned (id o : oid) (w : World) : Prop :=
  id < next_oid w ∧ ∃ n, notes w !! id = Some n ∧ uploader n = o.

(** [keeps_owned id o w0 p]: no step of [p] removes the note [id] or
    changes its uploader, whatever happened since [p] read [w0]. *)
Definition keeps_owned (id o : oid) (w0 : World) (p : Proc) : Prop :=
  stable retires (owned id o) w0 p.

(** ** The steps *)

Section steps.
Context {policy : SavePolicy} {ownerwise : OwnerWise policy} (id o : oid).
Implicit Types (w : World) (n : Note) (p : Proc) (env : Env).

Lemma owned_frame w w' :
  notes w' = notes w → next_oid w ≤ next_oid w' → owned id o w → owned id o w'.
Proof. intros Hn Ho [Hid Hw]. split; [lia | by rewrite Hn]. Qed.

(** A save keeps the owner when the copy has the owner. *)
Lemma owned_commit id' loaded changed w :
  (id' = id → uploader changed = o) → owned id o w →
  owned id o (Note_commit id' loaded changed w).2.
Proof.
  intros Hc [Hid (n & Hn & Ho)]. unfold Note_commit.
  destruct (notes w !! id') as [stored|] eqn:Hs; [|by split; eauto].
  split; [done|]. simpl. destruct (decide (id' = id)) as [->|Hne].
  - rewrite lookup_insert_eq. eexists; split; [done|]. simplify_eq.
    by destruct (save_note_uploader loaded changed n) as [-> | ->]; auto.
  - rewrite lookup_insert_ne by done. eauto.
Qed.

Lemma owned_alloc w : owned id o w → owned id o (alloc_oid w).2.
Proof. apply owned_frame; simpl; [done | lia]. Qed.

(** A new note gets an id that was never handed out. *)
Lemma owned_create doc w : owned id o w → owned id o (Note_create doc w).2.
Proof.
  intros [Hid (n & Hn & Ho)]. split; simpl; [lia|].
  rewrite lookup_insert_ne by lia. eauto.
Qed.

Lemma owned_delete id' w :
  id' ≠ id → owned id o w → owned id o (Note_findByIdAndDelete id' w).2.
Proof.
  intros Hne [Hid (n & Hn & Ho)]. split; [done|]. simpl.
  rewrite lookup_delete_ne by done. eauto.
Qed.

Lemma owned_destroy url env w : owned id o w → owned id o (destroy_if_managed url env w).2.
Proof.
  destruct (destroy_if_managed_frame url env w) as (Hn & _ & Ho).
  apply owned_frame; [done | lia].
Qed.

Lemma owned_upload buf name env w :
  owned id o w → owned id o (uploadToCloudinary buf name env w).2.
Proof.
  destruct (upload_frame buf name env w) as (Hn & _ & Ho). apply owned_frame; [done | lia].
Qed.

Lemma keeps_owned_answer w0 a : keeps_owned id o w0 (Answer a).
Proof. apply stable_Answer. Qed.

(** A read returns the owner's note when it reads [id]. *)
Lemma keeps_owned_load id' w0 (k : option Note → Proc) :
  (∀ w, keeps_owned id o w (k None)) →
  (∀ w n, (id' = id → uploader n = o) → keeps_owned id o w (k (Some n))) →
  keeps_owned id o w0 (await (Note_findById id') k).
Proof.
  intros Hnone Hsome. apply stable_await. intros w _ [Hid (n & Hn & Ho)]. split; [by split; eauto|].
  intros a [= <-]. destruct (notes w !! id') as [n'|] eqn:Hn'; [|apply Hnone].
  apply Hsome. intros ->. by simplify_eq.
Qed.

Lemma keeps_owned_commit id' loaded changed w0 (k : unit → Proc) :
  (id' = id → uploader changed = o) → (∀ w, keeps_owned id o w (k tt)) →
  keeps_owned id o w0 (await (Note_commit id' loaded changed) k).
Proof.
  intros Hc Hk. apply stable_await. intros w _ Hw.
  split; [by apply owned_commit | intros [] _; apply Hk].
Qed.

(** A call that leaves the notes and the allocator alone. *)
Lemma keeps_owned_other {A} (m : handler A) w0 (k : A → Proc) :
  (∀ w, notes (m w).2 = notes w ∧ next_oid (m w).2 = next_oid w) →
  (∀ w a, keeps_owned id o w (k a)) → keeps_owned id o w0 (await m k).
Proof.
  intros Hm Hk. apply stable_await. intros w _ Hw. destruct (Hm w) as [Hn Ho].
  split; [eapply owned_frame; [done | lia | done] | intros; apply Hk].
Qed.

End steps.

#[export] Hint Resolve keeps_owned_answer : sphere.

(** ** The handlers *)

Section handlers.
Context {policy : SavePolicy} {ownerwise : OwnerWise policy} (id o : oid).
Implicit Types (u : AuthUser) (w : World) (n : Note) (env : Env) (body : ReqBody).

Local Ltac read_note :=
  apply keeps_owned_load; [auto with sphere|]; intros ?w ?n ?Hown.

Local Ltac reread :=
  intros ?; apply keeps_owned_load; intros; auto with sphere.

Lemma owner_likeNote id' u w0 : keeps_owned id o w0 (likeNote_async id' u).
Proof. unfold likeNote_async. read_note. apply keeps_owned_commit; auto with sphere. Qed.

Lemma owner_incrementDownload id' w0 : keeps_owned id o w0 (incrementDownload_async id').
Proof.
  unfold incrementDownload_async. read_note. apply keeps_owned_commit; auto with sphere.
Qed.

Lemma owner_commentOnNote id' u t env w0 :
  keeps_owned id o w0 (commentOnNote_async id' u t env).
Proof.
  unfold commentOnNote_async. read_note. apply stable_await. intros w' _ Hw'. split.
  - handler_simp. by apply owned_commit, owned_alloc.
  - intros _ _. apply keeps_owned_load; intros; auto with sphere.
Qed.

Lemma owner_updateComment id' cid t env w0 :
  keeps_owned id o w0 (updateComment_async id' cid t env).
Proof.
  unfold updateComment_async. read_note. case_match; [|auto with sphere].
  apply keeps_owned_commit; [done|]. reread.
Qed.

Lemma owner_deleteComment id' cid w0 : keeps_owned id o w0 (deleteComment_async id' cid).
Proof.
  unfold deleteComment_async. read_note.
  apply keeps_owned_commit; [done|]. reread.
Qed.

Lemma owner_removeArchiveNote id' u w0 : keeps_owned id o w0 (removeArchiveNote_async id' u).
Proof.
  unfold removeArchiveNote_async. read_note. apply stable_await. intros w' _ Hw'. split.
  - rewrite rescue_state. by apply owned_commit.
  - intros _ _. apply keeps_owned_other; [done | auto with sphere].
Qed.

Lemma owner_archiveNote id' u w0 : keeps_owned id o w0 (archiveNote_async id' u).
Proof.
  unfold archiveNote_async. read_note. apply keeps_owned_other; [done|].
  intros w' [usr|]; [|auto with sphere]. case_bool_decide; [auto with sphere|].
  apply keeps_owned_other; [|auto with sphere].
  intros w''. unfold User_commit. by destruct (users w'' !! uid u).
Qed.

Lemma owner_create_note body u env blob w0 : keeps_owned id o w0 (create_note body u env blob).
Proof.
  unfold create_note. destruct blob as [[url name] type]. case_bool_decide; [|auto with sphere].
  apply stable_await. intros w _ Hw. split; [by apply owned_create | auto with sphere].
Qed.

Lemma owner_notesUploading file body u env w0 :
  keeps_owned id o w0 (notesUploading_async file body u env).
Proof.
  unfold notesUploading_async. case_match; [|auto with sphere]. destruct file as [f|].
  - apply stable_await. intros w _ Hw. split; [by apply owned_upload|].
    intros [r|m] _; [apply owner_create_note | auto with sphere].
  - apply owner_create_note.
Qed.

(** The last step of [deleteNotes] is reached by the uploader only. *)
Lemma owner_deleteNotes id' u env w0 :
  ¬ (id' = id ∧ uid u = o) → keeps_owned id o w0 (deleteNotes_async id' u env).
Proof.
  intros Hno. unfold deleteNotes_async. read_note. case_bool_decide as Hu; [|auto with sphere].
  apply stable_destroy_if_managed_async; [apply _ | intros w1 _ Hw1; by apply owned_destroy |].
  intros w1 [[]|m] _; [|auto with sphere].
  apply stable_await. intros w2 _ Hw2. split; [|auto with sphere].
  apply owned_delete; [|done]. intros ->. apply Hno. split; [done|]. by rewrite Hu, Hown.
Qed.

Lemma owner_save_update id' body loaded note w0 :
  (id' = id → uploader note = o) → keeps_owned id o w0 (save_update id' body loaded note).
Proof.
  intros Hn. unfold save_update. apply keeps_owned_commit; [|auto with sphere].
  by rewrite (proj1 (update_fields_frame body note)).
Qed.

Lemma owner_updateNotes id' file body u env w0 :
  keeps_owned id o w0 (updateNotes_async id' file body u env).
Proof.
  unfold updateNotes_async. read_note. case_bool_decide; [|auto with sphere].
  destruct file as [f|]; [|by case_match; apply owner_save_update].
  apply stable_destroy_if_managed_async; [apply _ | intros w1 _ Hw1; by apply owned_destroy |].
  intros w1 [[]|m] _; [|auto with sphere].
  apply stable_await. intros w2 _ Hw2. split; [by apply owned_upload|].
  intros [r|m] _; [by apply owner_save_update | auto with sphere].
Qed.

(** A handler that only reads. *)
Lemma owner_atomic (h : World → Outcome * World) w0 :
  ReadOnly h → keeps_owned id o w0 (atomic h).
Proof.
  intros Hh. apply stable_Await; intros w _ Hw; [|apply stable_Answer].
  by rewrite <-(Hh w I).
Qed.

End handlers.

#[export] Hint Resolve owner_likeNote owner_incrementDownload owner_commentOnNote
  owner_updateComment owner_deleteComment owner_removeArchiveNote owner_archiveNote
  owner_notesUploading owner_updateNotes : sphere.
