(* ===== verification/Interleaving.v ===== *)
(** * Interleaving: the routers under concurrent requests

    [System] serves one request after the other.  The server does not: a
    request is taken up while others wait at an [await].
    [dispatch_async] is [dispatch] with every handler cut at its [await]s
    (the processes of [Async]; the three handlers that only read make one
    database call and are one step), [spawn] turns the requests that have
    arrived into a pool, and a schedule of [Eventloop] says in which order
    their steps are taken.

    The theorems:
    - a request that runs without interruption does what [dispatch] does
      ([finish_dispatch]), so the serial schedule reaches the state and the
      answers [serve] computes ([serial_schedule_serves]): the sequential
      model is the special case in which no two requests overlap;
    - every request is answered after at most four steps of its own,
      whatever else runs ([request_answered_in_four_turns]), and the round
      robin of four rounds answers all ([round_robin_serves_all]);
    - once a note has been deleted in the course of a run, whatever the
      requests in flight do next, those that read the note before the
      deletion among them, the note does not come back and its id is not
      handed out again ([deleted_note_never_returns]);
    - a request that read a note before another request deleted it fails
      at its save and is answered with the error of the save
      ([save_after_delete_fails]);
    - under a save policy that writes whole paths ([PathWise]) the
      invariant of the stores holds after every interleaving
      ([interleaving_preserves_wf]); under a save that sends a push as an
      insertion it does not: two likes of one user in flight store the
      user twice ([pushed_likes_break_wf]);
    - under every save policy of [OwnerWise], the three of [Eventloop]
      among them, a stored note stays stored with its uploader unless its
      uploader has sent a deletion of it
      ([only_uploader_removes_in_flight]). *)

From S2P Require Import Prelude JsString Model Contract Eventloop Cloudinary.
From S2P Require Import Engagement Archive Lifecycle Search Async Concurrency System.
From S2P Require Import Stability Ownership.

Local Open Scope string_scope.
Local Open Scope list_scope.
Local Open Scope nat_scope.

Section routers.
Context {engine : RegexEngine} {policy : SavePolicy}.

(** [POST /create]. *)
Definition route_create_async (part : option File) (body : ReqBody) (u : AuthUser)
    (env : Env) : Proc :=
  match uploadMiddleware part with
  | inl e => Answer (Next e)
  | inr file =>
      match ensureFileContent file body "/create" with
      | Some r => Answer r
      | None => notesUploading_async file body u env
      end
  end.

(** [POST /update/:id]. *)
Definition route_update_async (id : oid) (part : option File) (body : ReqBody)
    (u : AuthUser) (env : Env) : Proc :=
  match uploadMiddleware part with
  | inl e => Answer (Next e)
  | inr file => updateNotes_async id file body u env
  end.

(** The routers, await by await. *)
Definition dispatch_async (r : Request) (env : Env) : Proc :=
  match r with
  | PostCreate part body u => route_create_async part body u env
  | PostUpdate id part body u => route_update_async id part body u env
  | DeleteDelete id u => deleteNotes_async id u env
  | GetGet id => atomic (getNotes id)
  | GetAll q => atomic (getAllNotes q)
  | PostArchive id u => archiveNote_async id u
  | GetArchived u => atomic (getArchives u)
  | PostRemoveArchive id u => removeArchiveNote_async id u
  | PutLike id u => likeNote_async id u
  | PutComment noteId commentId _ t => updateComment_async noteId commentId t env
  | DeleteComment noteId commentId _ => deleteComment_async noteId commentId
  | PostComment id u t => commentOnNote_async id u t env
  | PutDownload id => incrementDownload_async id
  end.

(** The requests that have arrived, each with what it observes of the
    outside. *)
Definition spawn (rs : list (Request * Env)) : list Proc :=
  (λ re, dispatch_async re.1 re.2) <$> rs.

(** The answers [System] gives to a sequence of requests, oldest first. *)
Fixpoint answers (rs : list (Request * Env)) (w : World) : list Outcome :=
  match rs with
  | [] => []
  | re :: rs => (handle re w).1 :: answers rs (handle re w).2
  end.

End routers.

(** Requests of the sample data: a comment, and a like in flight together
    with the deletion of the note. *)
Definition sample_comment_request : Proc :=
  dispatch_async (engine:=literal_engine) (policy:=whole_document)
    (PostComment 10 alice "thanks") sample_env.

Definition sample_requests : list (Request * Env) :=
  [(PutLike 10 alice, sample_env); (DeleteDelete 10 alice, sample_env)].

(** Requests of a user who did not upload the note 10: a like, an update
    and a deletion. *)
Definition stranger_requests : list (Request * Env) :=
  [(PutLike 10 bob, sample_env); (PostUpdate 10 None full_body bob, sample_env);
   (DeleteDelete 10 bob, sample_env)].

Definition sample_pool : list Proc :=
  spawn (engine:=literal_engine) (policy:=whole_document) sample_requests.

(** ** One request *)

Section request.
Context {engine : RegexEngine} {policy : SavePolicy}.
Implicit Types (r : Request) (env : Env) (w : World).

Lemma finish_route_create part body u env w :
  finish (route_create_async part body u env) w = route_create part body u env w.
Proof.
  unfold route_create_async, route_create. destruct (uploadMiddleware part); [done|].
  destruct (ensureFileContent _ _ _); [done | apply finish_notesUploading].
Qed.

Lemma finish_route_update id part body u env w :
  finish (route_update_async id part body u env) w = route_update id part body u env w.
Proof.
  unfold route_update_async, route_update. destruct (uploadMiddleware part); [done|].
  apply finish_updateNotes.
Qed.

Lemma within_dispatch r env : within 4 (dispatch_async r env).
Proof.
  destruct r; simpl; unfold route_create_async, route_update_async;
    repeat case_match;
    first [ apply within_Answer | eapply within_mono; [|eauto with sphere]; lia ].
Qed.

Lemma retires_dispatch r env : respects retires (dispatch_async r env).
Proof.
  destruct r; simpl; unfold route_create_async, route_update_async;
    repeat case_match;
    first [ apply respects_Answer
          | apply respects_atomic, ReadOnly_Guarantees; apply _
          | solve [eauto with sphere]
          | eapply respects_weaken; [apply no_new_retires | eauto with sphere] ].
Qed.

Lemma stable_dispatch `{!PathWise policy} r env w0 : keeps_wf w0 (dispatch_async r env).
Proof.
  destruct r; simpl; unfold route_create_async, route_update_async;
    repeat case_match;
    first [ apply keeps_wf_answer
          | apply stable_atomic, ReadOnly_Preserves; apply _
          | solve [auto with sphere] ].
Qed.

Lemma owner_dispatch `{!OwnerWise policy} id o r env w0 :
  (∀ u, r = DeleteDelete id u → uid u ≠ o) → keeps_owned id o w0 (dispatch_async r env).
Proof.
  intros Hr. destruct r; simpl; unfold route_create_async, route_update_async;
    repeat case_match;
    first [ apply keeps_owned_answer
          | apply owner_atomic; apply _
          | apply owner_deleteNotes; intros [-> ?]; by eapply Hr
          | solve [auto with sphere] ].
Qed.

End request.

(** ** Properties *)

Section properties.
Context {engine : RegexEngine} {policy : SavePolicy}.
Implicit Types (r : Request) (env : Env) (w : World) (rs : list (Request * Env)).

Lemma spawn_within rs : Forall (within 4) (spawn rs).
Proof. apply Forall_fmap, Forall_forall. intros re _. apply within_dispatch. Qed.

Lemma spawn_retires rs : Forall (respects retires) (spawn rs).
Proof. apply Forall_fmap, Forall_forall. intros re _. apply retires_dispatch. Qed.

Lemma spawn_stable `{!PathWise policy} rs w0 : Forall (keeps_wf w0) (spawn rs).
Proof. apply Forall_fmap, Forall_forall. intros re _. apply stable_dispatch. Qed.

Lemma spawn_length rs : length (spawn rs) = length rs.
Proof. apply length_fmap. Qed.

(** Run without interruption, a handler cut at its [await]s is the
    handler taken as a whole. *)
Lemma finish_dispatch r env w : finish (dispatch_async r env) w = dispatch r env w.
Proof.
  destruct r; cbn [dispatch_async dispatch];
    first [ apply finish_route_create | apply finish_route_update | apply finish_deleteNotes
          | apply finish_atomic | apply finish_archiveNote | apply finish_removeArchiveNote
          | apply finish_likeNote | apply finish_updateComment | apply finish_deleteComment
          | apply finish_commentOnNote | apply finish_incrementDownload ].
Qed.

Lemma finish_all_spawn rs w : finish_all (spawn rs) w = (answers rs w, serve rs w).
Proof.
  revert w. induction rs as [|[r env] rs IH]; intros w; [done|].
  change (spawn ((r, env) :: rs)) with (dispatch_async r env :: spawn rs).
  cbn [finish_all answers]. rewrite finish_dispatch.
  change (dispatch r env w) with (handle (r, env) w).
  destruct (handle (r, env) w) as [o w'] eqn:Hh. rewrite IH.
  unfold serve, run_all. simpl. by rewrite Hh.
Qed.

(** The two translations of a handler agree: when the requests are
    served one after the other, each running through its [await]s before
    the next starts, the answers and the final state are those of
    [serve].  This says nothing of the code; it says that what is proved
    of [dispatch] holds of the runs of [dispatch_async] in which requests
    do not overlap. *)
Lemma serial_schedule_serves rs w :
  run_schedule (serial 4 (length rs)) (w, spawn rs) = (serve rs w, Answer <$> answers rs w).
Proof.
  rewrite <-spawn_length, (serial_finishes 4 _ w (spawn_within rs)).
  by rewrite finish_all_spawn.
Qed.

(** C23 (request_answered_in_four_turns): every request is answered after
    four steps of its own at most, whatever the other requests in flight do
    and however their steps are interleaved with its own; once given, the
    answer stays. *)
Theorem request_answered_in_four_turns r env (c : Config) i s s' :
  c.2 !! i = Some (dispatch_async r env) → 4 ≤ turns i s →
  ∃ o, (run_schedule s c).2 !! i = Some (Answer o) ∧
       (run_schedule (s ++ s') c).2 !! i = Some (Answer o).
Proof.
  intros Hi Hturns.
  destruct (run_schedule_within s c i _ 4 Hi (within_dispatch r env)) as (p & Hp & Hw).
  replace (4 - turns i s) with 0 in Hw by lia. apply within_0 in Hw as [o ->].
  exists o. split; [done|]. rewrite run_schedule_app. by apply run_schedule_answer.
Qed.

(** Served in rounds, one step of each request per round, every request
    has its answer after four rounds: [round_robin_answers] at the depth
    of the handlers. *)
Lemma round_robin_serves_all rs w :
  answered (run_schedule (round_robin 4 (length rs)) (w, spawn rs)).2 = length rs.
Proof.
  rewrite <-spawn_length. apply (round_robin_answers 4 (w, spawn rs)), spawn_within.
Qed.

(** C21 (deleted_note_never_returns): once a note has been deleted in
    the course of a run, no continuation of the run brings it back,
    whatever requests are in flight and whatever they have read: a
    handler that read the note before the deletion and saves its copy
    afterwards stores nothing, and [Note.create] never hands out the id
    again.  This holds for every save policy. *)
Theorem deleted_note_never_returns id rs s s' w :
  let c := run_schedule s (w, spawn rs) in
  id < next_oid c.1 → notes c.1 !! id = None →
  notes (run_schedule (s ++ s') (w, spawn rs)).1 !! id = None ∧
  next_oid c.1 ≤ next_oid (run_schedule (s ++ s') (w, spawn rs)).1.
Proof.
  intros c Hid Hnone. rewrite run_schedule_app. fold c.
  pose proof (run_schedule_pool_respects retires s (w, spawn rs) (spawn_retires rs)) as Hrs.
  destruct (run_schedule_respects retires s' c Hrs) as [Ho Hn].
  split; [by apply Hn | done].
Qed.

(** C3 (interleaving_preserves_wf): under a save policy that writes
    each path of a document from the copy or leaves it as it is stored
    ([PathWise]: [whole_document] and [modified_paths]), the invariant of
    the stores holds after every interleaving of the steps of the
    requests in flight: ids come from the allocator, like lists and
    archive lists have no duplicates, comment ids are unique within a
    note, every note has a locator, every stored object sits in the
    folder of the application.  What a request saves was read from
    stores that other requests have changed since; it is well formed all
    the same.  The hypothesis on the policy is needed:
    [pushed_likes_break_wf] shows that the invariant is lost under
    [array_atomics]. *)
Theorem interleaving_preserves_wf `{!PathWise policy} rs s w :
  wf_world w → wf_world (run_schedule s (w, spawn rs)).1.
Proof.
  intros Hwf.
  apply (run_schedule_stable retires wf_world s (w, spawn rs) Hwf (spawn_retires rs)).
  apply spawn_stable.
Qed.

(** C4 (only_uploader_removes_in_flight): under a save policy that
    writes the uploader of the copy or leaves the one stored
    ([OwnerWise]: each of [whole_document], [modified_paths] and
    [array_atomics]), whatever requests are in flight and however their
    steps interleave, a stored note stays stored and keeps its uploader
    unless its uploader has sent a deletion of it: the comparison of the
    caller with the uploader of the copy read decides the same when
    other requests run between the read and the deletion, and no
    request, update included, changes the uploader of a note. *)
Theorem only_uploader_removes_in_flight `{!OwnerWise policy} id n rs s w :
  wf_world w → notes w !! id = Some n →
  Forall (λ re, ∀ u, re.1 = DeleteDelete id u → uid u ≠ uploader n) rs →
  ∃ n', notes (run_schedule s (w, spawn rs)).1 !! id = Some n' ∧ uploader n' = uploader n.
Proof.
  intros Hwf Hn Hrs.
  apply (run_schedule_stable retires (owned id (uploader n)) s (w, spawn rs)).
  - split; [by apply (wf_notes _ Hwf _ _ Hn) | eauto].
  - apply spawn_retires.
  - apply Forall_fmap. eapply Forall_impl; [exact Hrs|]. intros re Hre. by apply owner_dispatch.
Qed.

(** The save of a like whose note has been deleted in between. *)
Lemma like_after_delete id u n w o :
  let c := sched_step
             (set_notes (delete id) w,
              [await (Note_commit id n (set_likes (toggle (uid u) (likes n)) n))
                 (λ _, Answer (Respond 200
                         (JLikes (likes (set_likes (toggle (uid u) (likes n)) n)))));
               Answer o]) 0 in
  notes c.1 !! id = None ∧
  c.2 = [Answer (Next (new_Error "No document found for query")); Answer o].
Proof.
  erewrite (sched_step_exit (_, _) 0 _ _ (Next (new_Error "No document found for query"))
              (set_notes (delete id) w)); [| done |].
  - split; [simpl; apply lookup_delete_eq | done].
  - by rewrite Note_commit_gone by (simpl; apply lookup_delete_eq).
Qed.

(** C30 (save_after_delete_fails): a like that read the note before its
    owner deleted it and saves after the deletion is answered with the
    error of the save, forwarded to [next], and stores nothing: the note
    stays deleted. *)
Theorem save_after_delete_fails id u owner env w w1 n :
  notes w !! id = Some n → uid owner = uploader n →
  destroy_if_managed (fileUrl n) env w = (inr (Resolved tt), w1) →
  let c := run_schedule [0; 1; 1; 1; 0]
             (w, spawn [(PutLike id u, env); (DeleteDelete id owner, env)]) in
  notes c.1 !! id = None ∧
  c.2 = [Answer (Next (new_Error "No document found for query"));
         Answer (Respond 200 (JText "Notes has been deleted"))].
Proof.
  intros Hn Hu Hd. cbn [run_schedule foldl spawn fmap list_fmap dispatch_async fst snd].
  rewrite (like_load (_, _) 0 id u n) by done. unfold deleteNotes_async, liking.
  cbn [fst snd list_insert].
  erewrite (sched_step_await (_, _) 1 _ _ (Some n) w); [|done|unfold Note_findById, gets; simpl; by rewrite Hn].
  cbn [fst snd list_insert]. rewrite bool_decide_eq_true_2 by done.
  unfold destroy_if_managed_async. unfold destroy_if_managed in Hd.
  destruct (on_cloudinary (fileUrl n)).
  - erewrite (sched_step_await (_, _) 1) by (done || exact Hd).
    cbn [fst snd list_insert].
    erewrite (sched_step_await (_, _) 1) by done.
    cbn [fst snd list_insert]. by apply like_after_delete.
  - injection Hd as <-.
    erewrite (sched_step_await (_, _) 1) by done.
    cbn [fst snd list_insert].
    erewrite (sched_step_answered (_, _) 1) by done. by apply like_after_delete.
Qed.

End properties.

(** ** The invariant needs a policy that writes whole paths *)

Section sharp.
Context {engine : RegexEngine}.

(** Under [array_atomics], two likes of one user in flight leave stores
    that are not well formed: the list of likes holds the user twice. *)
Theorem pushed_likes_break_wf id u env w n :
  notes w !! id = Some n → uid u ∉ likes n →
  ¬ wf_world (run_schedule [0; 1; 0; 1]
                (w, spawn (policy:=array_atomics)
                      [(PutLike id u, env); (PutLike id u, env)])).1.
Proof.
  intros Hn Hu Hwf. cbn [spawn fmap list_fmap dispatch_async fst snd] in Hwf.
  rewrite (two_likes_pushed id u w n Hn Hu) in Hwf.
  destruct (wf_notes _ Hwf id _ (lookup_insert_eq _ _ _)) as [_ [Hlikes _ _ _]].
  destruct n. simpl in Hlikes. apply NoDup_app in Hlikes as (_ & _ & Hnd).
  apply NoDup_cons in Hnd as [Hnd _]. apply Hnd. by left.
Qed.

End sharp.

(** ** The properties on the sample data *)

Lemma four_turns : 4 ≤ turns 0 [0; 0; 0; 0].
Proof. vm_compute. lia. Qed.

Lemma request_answered_in_four_turns_witness :
  let c : Config := (sample_world, [sample_comment_request]) in
  c.2 !! 0 = Some sample_comment_request ∧
  4 ≤ turns 0 [0; 0; 0; 0] ∧
  ∃ o, (run_schedule [0; 0; 0; 0] c).2 !! 0 = Some (Answer o) ∧
       (run_schedule ([0; 0; 0; 0] ++ [0]) c).2 !! 0 = Some (Answer o).
Proof.
  exact (conj eq_refl (conj four_turns
    (request_answered_in_four_turns (PostComment 10 alice "thanks") sample_env
       (sample_world, [sample_comment_request]) 0 [0; 0; 0; 0] [0] eq_refl four_turns))).
Defined.

Lemma interleaving_preserves_wf_witness :
  wf_world (run_schedule [0; 1; 1; 0; 1] (sample_world, sample_pool)).1.
Proof.
  exact (interleaving_preserves_wf (engine:=literal_engine) (policy:=whole_document)
           sample_requests [0; 1; 1; 0; 1] sample_world sample_world_wf).
Defined.

Lemma stranger_requests_not_owner :
  Forall (λ re, ∀ u, re.1 = DeleteDelete 10 u → uid u ≠ uploader sample_note)
    stranger_requests.
Proof. repeat constructor; by intros u [= <-]. Qed.

Lemma only_uploader_removes_in_flight_witness :
  ∃ n', notes (run_schedule [2; 0; 1; 2; 1; 0; 2]
                 (sample_world,
                  spawn (engine:=literal_engine) (policy:=array_atomics) stranger_requests)).1
          !! 10 = Some n' ∧
        uploader n' = uploader sample_note.
Proof.
  exact (only_uploader_removes_in_flight (engine:=literal_engine) (policy:=array_atomics)
           10 sample_note stranger_requests [2; 0; 1; 2; 1; 0; 2] sample_world
           sample_world_wf eq_refl stranger_requests_not_owner).
Defined.

(** The like reads the note 10, the deletion of its owner runs to its
    end, and the like saves. *)
Lemma sample_deleted_in_flight :
  let c := run_schedule [0; 1; 1; 1] (sample_world, sample_pool) in
  10 < next_oid c.1 ∧ notes c.1 !! 10 = None.
Proof. split; [vm_compute; lia | by vm_compute]. Qed.

Lemma deleted_note_never_returns_witness :
  let c := run_schedule [0; 1; 1; 1] (sample_world, sample_pool) in
  notes (run_schedule ([0; 1; 1; 1] ++ [0]) (sample_world, sample_pool)).1 !! 10 = None ∧
  next_oid c.1 ≤ next_oid (run_schedule ([0; 1; 1; 1] ++ [0]) (sample_world, sample_pool)).1.
Proof.
  exact (deleted_note_never_returns (engine:=literal_engine) (policy:=whole_document)
           10 sample_requests [0; 1; 1; 1] [0] sample_world
           (proj1 sample_deleted_in_flight) (proj2 sample_deleted_in_flight)).
Defined.

Lemma sample_destroy :
  destroy_if_managed (fileUrl sample_note) sample_env sample_world =
    (inr (Resolved tt), (destroy_if_managed (fileUrl sample_note) sample_env sample_world).2).
Proof. by vm_compute. Qed.

Lemma save_after_delete_fails_witness :
  notes sample_world !! 10 = Some sample_note ∧ uid alice = uploader sample_note ∧
  let c := run_schedule [0; 1; 1; 1; 0] (sample_world, sample_pool) in
  notes c.1 !! 10 = None ∧
  c.2 = [Answer (Next (new_Error "No document found for query"));
         Answer (Respond 200 (JText "Notes has been deleted"))].
Proof.
  exact (conj eq_refl (conj eq_refl
    (save_after_delete_fails 10 alice alice sample_env sample_world _ sample_note
       eq_refl eq_refl sample_destroy))).
Defined.
