(* ===== verification/Faults.v ===== *)
(** * Faults: a call to the database that rejects

    Every handler awaits its calls to the database, and an awaited call
    can reject: the connection is lost, the driver times out.  What
    happens then is decided by the [try] around the [await].  The
    handlers of [notes.controller.js] await inside a [try] whose [catch]
    calls [next(err)], except [removeArchiveNote], whose [catch] answers
    500.  [notesUploading] answers 500 with the message of the error.
    [updateNotes] and the handlers of [user.controller.js] forward the
    error.  [deleteNotes] and [getNotes] await [Note.findById] before
    their [try] begins: when that call rejects, the promise of the
    handler rejects, and the handler neither answers nor calls [next].
    The router is taken to ignore the promise a handler returns, as
    Express does before its version 5; the sources do not say which
    version runs them, and a router that forwards a rejected promise to
    [next] would answer these two as it answers the others.

    [guards r] lists, for the awaited calls of the handler of [r] in the
    order in which they are made, what becomes of a rejection: [caught c]
    when a [catch] answers with [c], [uncaught] when no [try] is around
    the call, and [settled] for the calls to the object store, whose
    rejections are caught by a [try] of their own and are decided by
    [Env] ([Cloudinary]).  The call to [destroy] in [deleteNotes] and
    [updateNotes] is awaited inside an [if]: its guard,
    [settled_if (hosted id)], carries the condition, and [skip] leaves
    the guard out when the note that was read has no locator of the
    object store.  [aligned] says that a list of guards fits a process:
    there is a guard for every step, the steps guarded as calls to the
    database leave the object store alone, those guarded as calls to the
    object store leave the database alone, and a call under a condition
    is made exactly when its guard says so.

    A [Task] is a request in flight with the guards of the calls it has
    not made yet, or a request whose handler has [escaped].  A run is a
    list of [Turn]s: [resume i] lets the request [i] take its next step,
    as in [Eventloop]; [reject i msg] makes the call it awaits reject.  A
    rejected call changes nothing in the stores.  [kept Q] says that no
    turn takes a task out of [Q]; what is kept holds of every task all
    along every run ([run_faulty_kept]), and the invariants of this file
    are instances: [guarded], [fits], [answering].

    The theorems: a run without rejections is a run of [Eventloop]
    ([faultless_run]); the invariant of the stores, and that a note
    stays stored with its uploader, hold after every run, whatever
    rejects ([faults_preserve_wf], [uploader_removes_despite_faults]);
    only [deleteNotes] and [getNotes] escape, and they do when their
    first call rejects ([rejection_escapes_before_try]); no request of
    the user controller does ([account_requests_answered]); a request
    whose handler writes with its last call is served as a whole or not
    at all ([single_write_all_or_nothing]); for the others, a rejection
    after an earlier step has been taken leaves what that step did: an
    uploaded file without a note ([create_rejected_after_upload]), a
    stored comment that was answered with an error
    ([comment_stored_despite_error]), a note that is no longer flagged as
    archived in a list that still holds it ([unarchive_half_done]). *)

From S2P Require Import Prelude JsString Model Contract Eventloop Cloudinary.
From S2P Require Import Engagement Archive Lifecycle Search Async Account AccountAsync.
From S2P Require Import System Stability Ownership Interleaving.

Local Open Scope string_scope.
Local Open Scope list_scope.
Local Open Scope nat_scope.

(** What becomes of an awaited call that rejects: a [catch] answers, or
    nothing does, or the call is one to the object store, whose rejection
    is part of the step ([Cloudinary]).  A call to the object store may be
    one the handler makes under a condition on what it has just read:
    [made w] tells, for the stores [w] that the step before has read,
    whether the call is made. *)
Inductive Guard :=
| caught (c : JsError → Outcome)
| uncaught
| settled_if (made : World → bool).

(** A call to the object store that is always made. *)
Definition settled : Guard := settled_if (λ _, true).

(** [note.fileUrl && note.fileUrl.includes('cloudinary.com')] for the note
    that [Note.findById] has just read. *)
Definition hosted (id : oid) (w : World) : bool :=
  match notes w !! id with
  | Some note => on_cloudinary (fileUrl note)
  | None => false
  end.

(** [catch (err) { next(err) }]. *)
Definition forwards : Guard := caught Next.

(** The [catch] of [removeArchiveNote]. *)
Definition answers_500 : Guard :=
  caught (λ _, Respond 500 (JMessage false "Something went wrong.")).

(** The [catch] of [notesUploading]. *)
Definition create_catch : Guard :=
  caught (λ error,
    Respond 500 (JMessage false (js_or (Some (message error)) "Server error occurred"))).

(** [notesUploading]: the upload, when the request carries a file, has a
    [try] of its own; [Note.create] is under the [try] of the handler. *)
Definition notesUploading_guards (file : option File) : list Guard :=
  match file with
  | Some _ => [settled; create_catch]
  | None => [create_catch]
  end.

(** [updateNotes]: [Note.findById] and [note.save()] are under the [try]
    of the handler, and between them, when the request carries a file,
    the two calls to the object store under a [try] of their own; the
    first of the two is made for a locator of the object store only. *)
Definition updateNotes_guards (id : oid) (file : option File) : list Guard :=
  match file with
  | Some _ => [forwards; settled_if (hosted id); settled; forwards]
  | None => [forwards; forwards]
  end.

(** [deleteNotes]: [Note.findById] is awaited before the [try] begins; the
    call to the object store is made for a locator of the object store
    only. *)
Definition deleteNotes_guards (id : oid) : list Guard :=
  [uncaught; settled_if (hosted id); forwards].

(** [getNotes]: its one call is awaited before the [try] begins. *)
Definition getNotes_guards : list Guard := [uncaught].

(** The handlers of the notes controller: every call is under the [try]
    of its handler, whose [catch] forwards the error, or, in
    [removeArchiveNote], answers 500. *)
Definition removeArchiveNote_guards : list Guard := [answers_500; answers_500; answers_500].

Definition archiveNote_guards : list Guard := [forwards; forwards; forwards].

Definition getArchives_guards : list Guard := [forwards].

Definition getAllNotes_guards : list Guard := [forwards].

Definition likeNote_guards : list Guard := [forwards; forwards].

Definition commentOnNote_guards : list Guard := [forwards; forwards; forwards].

Definition updateComment_guards : list Guard := [forwards; forwards; forwards].

Definition deleteComment_guards : list Guard := [forwards; forwards; forwards].

Definition incrementDownload_guards : list Guard := [forwards; forwards].

(** The awaited calls of each handler, in the order in which they are
    made, with the [try] that is around each. *)
Definition guards (r : Request) : list Guard :=
  match r with
  | PostCreate part _ _ =>
      match uploadMiddleware part with
      | inr file => notesUploading_guards file
      | inl _ => []
      end
  | PostUpdate id part _ _ =>
      match uploadMiddleware part with
      | inr file => updateNotes_guards id file
      | inl _ => []
      end
  | DeleteDelete id _ => deleteNotes_guards id
  | GetGet _ => getNotes_guards
  | GetAll _ => getAllNotes_guards
  | GetArchived _ => getArchives_guards
  | PostArchive _ _ => archiveNote_guards
  | PostRemoveArchive _ _ => removeArchiveNote_guards
  | PutLike _ _ => likeNote_guards
  | PutDownload _ => incrementDownload_guards
  | PutComment _ _ _ _ => updateComment_guards
  | DeleteComment _ _ _ => deleteComment_guards
  | PostComment _ _ _ => commentOnNote_guards
  end.

(** The awaited calls of [updateUser], [deleteUser] and [getUserUploads]:
    four at most, each inside a [try] whose [catch] calls [next(error)]. *)
Definition account_guards : list Guard := [forwards; forwards; forwards; forwards].

(** Whether a rejection of the call is answered. *)
Definition catches (g : Guard) : bool :=
  match g with
  | uncaught => false
  | caught _ | settled_if _ => true
  end.

(** A request in flight with the guards of the calls still to come, or a
    request whose handler has rejected: nothing answers it. *)
Inductive Task :=
| running (gs : list Guard) (p : Proc)
| escaped (e : JsError).

(** The turns of a run: the request [i] goes on, or the call it awaits
    rejects with a message. *)
Inductive Turn :=
| resume (i : nat)
| reject (i : nat) (msg : string).

(** The awaited call of a task rejects. *)
Definition rejected (msg : string) (t : Task) : Task :=
  match t with
  | running (caught c :: _) (Await _ _) => running [] (Answer (c (new_Error msg)))
  | running (uncaught :: _) (Await _ _) => escaped (new_Error msg)
  | _ => t
  end.

(** The guards of the calls that are made, after a step that has read
    the stores [w]: the guard of a call that is not made is left out. *)
Definition skip (w : World) (gs : list Guard) : list Guard :=
  match gs with
  | settled_if made :: gs' => if made w then gs else gs'
  | _ => gs
  end.

(** The request goes on: it takes its next step and leaves the guard of
    the call behind.  A handler that has escaped takes no step. *)
Definition resumed (w : World) (t : Task) : Task * World :=
  match t with
  | running gs p => (running (skip w (tail gs)) (proc_step p w).1, (proc_step p w).2)
  | escaped e => (escaped e, w)
  end.

Definition fault_step (c : World * list Task) (t : Turn) : World * list Task :=
  match t with
  | resume i =>
      match c.2 !! i with
      | Some task => ((resumed c.1 task).2, <[i := (resumed c.1 task).1]> c.2)
      | None => c
      end
  | reject i msg =>
      match c.2 !! i with
      | Some task => (c.1, <[i := rejected msg task]> c.2)
      | None => c
      end
  end.

Definition run_faulty (ts : list Turn) (c : World * list Task) : World * list Task :=
  foldl fault_step c ts.

(** The process of a task; a handler that has escaped takes no step. *)
Definition proc_of (t : Task) : Proc :=
  match t with
  | running _ p => p
  | escaped e => Answer (Next e)
  end.

(** [kept Q]: no turn takes a task out of [Q]. *)
Definition kept (Q : Task → Prop) : Prop :=
  (∀ w t, Q t → Q (resumed w t).1) ∧ (∀ msg t, Q t → Q (rejected msg t)).

(** A task whose rejections are all answered. *)
Definition guarded (t : Task) : Prop :=
  match t with
  | running gs _ => forallb catches gs = true
  | escaped _ => False
  end.

(** A task whose answer satisfies [P], whether it goes on to its end or
    one of its calls rejects. *)
Definition answering (P : Outcome → Prop) (t : Task) : Prop :=
  match t with
  | running gs p => answers_in P p ∧ ∀ c msg, caught c ∈ gs → P (c (new_Error msg))
  | escaped _ => True
  end.

(** A call to the database leaves the object store alone, a call to the
    object store the database. *)
Definition database_call (w w' : World) : Prop :=
  assets w' = assets w ∧ calls w' = calls w.

Definition store_call (w w' : World) : Prop :=
  notes w' = notes w ∧ users w' = users w ∧ next_oid w' = next_oid w.

Definition touches (g : Guard) : relation World :=
  match g with
  | settled_if _ => store_call
  | caught _ | uncaught => database_call
  end.

Definition database_guard (g : Guard) : bool :=
  match g with
  | settled_if _ => false
  | caught _ | uncaught => true
  end.

(** The guards fit the process: there is a guard for every step, each
    step touches the store its guard names, and the process makes the
    call that comes next exactly when its guard says so. *)
Inductive aligned : list Guard → Proc → Prop :=
| aligned_Answer gs o : aligned gs (Answer o)
| aligned_Await g gs next effect :
    (∀ w, touches g w (effect w)) → (∀ w, aligned (skip w gs) (next w)) →
    aligned (g :: gs) (Await next effect).

(** A task whose guards fit what is left of its process. *)
Definition fits (t : Task) : Prop :=
  match t with
  | running gs p => aligned gs p
  | escaped _ => True
  end.

(** A process that writes with its last call, if it writes at all: every
    call before is a read. *)
Inductive writes_last : Proc → Prop :=
| writes_last_Answer o : writes_last (Answer o)
| writes_last_read next effect :
    (∀ w, effect w = w) → (∀ w, writes_last (next w)) → writes_last (Await next effect)
| writes_last_write next effect :
    (∀ w, ∃ o, next w = Answer o) → writes_last (Await next effect).

(** The requests whose handler writes with its last call: the requests
    that read, a like, a download, an archive call, and a creation or an
    update that carries no file. *)
Definition single_write (r : Request) : bool :=
  match r with
  | GetGet _ | GetAll _ | GetArchived _ | PutLike _ _ | PutDownload _ | PostArchive _ _
  | PostCreate None _ _ | PostUpdate _ None _ _ => true
  | _ => false
  end.

Section routers.
Context {engine : RegexEngine} {policy : SavePolicy}.

(** The requests that have arrived, each with the guards of its
    handler. *)
Definition launch (rs : list (Request * Env)) : list Task :=
  (λ re, running (guards re.1) (dispatch_async re.1 re.2)) <$> rs.

End routers.

(** A creation with the file of the sample data. *)
Definition sample_creation : list (Request * Env) :=
  [(PostCreate (Some sample_file) full_body alice, sample_env)].

(** ** Runs *)

Section runs.
Implicit Types (c : World * list Task) (t : Task) (turn : Turn) (turns : list Turn)
  (i : nat) (w : World).

(** The guards that are left after a step are among those that were
    there. *)
Lemma skip_tail w gs : skip w gs = gs ∨ skip w gs = tail gs.
Proof. destruct gs as [|[c| |made] gs]; simpl; [auto..|]. destruct (made w); auto. Qed.

Lemma elem_of_skip w g gs : g ∈ skip w (tail gs) → g ∈ gs.
Proof.
  destruct gs as [|g0 [|[c| |made] gs]]; simpl; try destruct (made w); set_solver.
Qed.

Lemma forallb_skip (f : Guard → bool) w gs :
  forallb f gs = true → forallb f (skip w (tail gs)) = true.
Proof.
  destruct gs as [|g0 [|[c| |made] gs]]; simpl; try destruct (made w); simpl;
    rewrite ?andb_true_iff; tauto.
Qed.

Lemma skip_database w gs : forallb database_guard gs = true → skip w gs = gs.
Proof. by destruct gs as [|[c| |made] gs]. Qed.

(** A step of a run that resumes a request is a step of the event
    loop. *)
Lemma fault_step_resume c i :
  ((fault_step c (resume i)).1, proc_of <$> (fault_step c (resume i)).2) =
    sched_step (c.1, proc_of <$> c.2) i.
Proof.
  unfold fault_step, sched_step. simpl. rewrite list_lookup_fmap.
  destruct (c.2 !! i) as [[gs p|e]|] eqn:Hi; simpl; by rewrite ?list_fmap_insert.
Qed.

Lemma proc_of_rejected msg t :
  proc_of (rejected msg t) = proc_of t ∨ ∃ o, proc_of (rejected msg t) = Answer o.
Proof. destruct t as [[|[c| |] gs] [o|next effect]|e]; simpl; eauto. Qed.

(** A rejection changes nothing in the stores, and the request it hits
    goes on as before or has its answer. *)
Lemma fault_step_reject (P : Proc → Prop) c i msg :
  (∀ o, P (Answer o)) → Forall P (proc_of <$> c.2) →
  (fault_step c (reject i msg)).1 = c.1 ∧
  Forall P (proc_of <$> (fault_step c (reject i msg)).2).
Proof.
  intros HP Hc. simpl. destruct (c.2 !! i) as [t|] eqn:Hi; [|done]. split; [done|].
  simpl. rewrite list_fmap_insert. apply Forall_insert; [done|].
  destruct (proc_of_rejected msg t) as [-> | [o ->]]; [|done].
  eapply Forall_lookup_1; [done|]. by rewrite list_lookup_fmap, Hi.
Qed.

Lemma fault_step_length c turn : length (fault_step c turn).2 = length c.2.
Proof.
  destruct turn as [i|i msg]; simpl; repeat case_match; simpl;
    by rewrite ?length_insert.
Qed.

Lemma run_faulty_length turns c : length (run_faulty turns c).2 = length c.2.
Proof.
  revert c. induction turns as [|turn turns IH]; intros c; [done|].
  simpl. by rewrite IH, fault_step_length.
Qed.

(** A run without rejections is a run of the event loop. *)
Lemma run_faulty_resumes s c :
  ((run_faulty (resume <$> s) c).1, proc_of <$> (run_faulty (resume <$> s) c).2) =
    run_schedule s (c.1, proc_of <$> c.2).
Proof.
  revert c. induction s as [|i s IH]; intros c; [done|].
  cbn [fmap list_fmap run_faulty run_schedule foldl].
  rewrite <-(fault_step_resume c i). apply IH.
Qed.

(** An invariant that every step keeps, given what its process has read,
    holds after every run, whatever rejects. *)
Lemma run_faulty_stable (R : relation World) `{!PreOrder R} (Inv : World → Prop) turns c :
  Inv c.1 → Forall (respects R) (proc_of <$> c.2) →
  Forall (stable R Inv c.1) (proc_of <$> c.2) → Inv (run_faulty turns c).1.
Proof.
  revert c. induction turns as [|[i|i msg] turns IH]; intros c Hw Hrs Hts; [done|..];
    cbn [run_faulty foldl]; apply IH.
  - pose proof (fault_step_resume c i) as Hstep.
    destruct (sched_step_stable R Inv (c.1, proc_of <$> c.2) i Hw Hrs Hts) as [Hw' _].
    by rewrite <-Hstep in Hw'.
  - pose proof (fault_step_resume c i) as Hstep.
    destruct (sched_step_respects R (c.1, proc_of <$> c.2) i Hrs) as [_ Hrs'].
    by rewrite <-Hstep in Hrs'.
  - pose proof (fault_step_resume c i) as Hstep.
    destruct (sched_step_stable R Inv (c.1, proc_of <$> c.2) i Hw Hrs Hts) as [_ Hts'].
    by rewrite <-Hstep in Hts'.
  - by rewrite (proj1 (fault_step_reject (respects R) c i msg (respects_Answer R) Hrs)).
  - apply (fault_step_reject (respects R) c i msg (respects_Answer R) Hrs).
  - destruct (fault_step_reject (stable R Inv c.1) c i msg (stable_Answer R Inv c.1) Hts)
      as [-> Hts']. done.
Qed.

(** What no turn takes a task out of holds of the task all along a
    run. *)
Lemma fault_step_task (Q : Task → Prop) c turn i t :
  kept Q → c.2 !! i = Some t → Q t →
  ∃ t', (fault_step c turn).2 !! i = Some t' ∧ Q t'.
Proof.
  intros [Hresumed Hrejected] Hi Ht.
  destruct turn as [j|j msg]; simpl; (destruct (c.2 !! j) as [t0|] eqn:Hj; [|by exists t]);
    simpl; (destruct (decide (j = i)) as [->|Hne];
      [|rewrite list_lookup_insert_ne by done; eauto]);
    rewrite list_lookup_insert_eq by (by eapply lookup_lt_Some); simplify_eq; eauto.
Qed.

Lemma run_faulty_task (Q : Task → Prop) turns c i t :
  kept Q → c.2 !! i = Some t → Q t →
  ∃ t', (run_faulty turns c).2 !! i = Some t' ∧ Q t'.
Proof.
  intros HQ. revert c t.
  induction turns as [|turn turns IH]; intros c t Hi Ht; [by exists t|].
  destruct (fault_step_task Q c turn i t HQ Hi Ht) as (t' & Hi' & Ht'). by apply (IH _ t').
Qed.

Lemma run_faulty_kept (Q : Task → Prop) turns c i t' :
  kept Q → (∀ t, c.2 !! i = Some t → Q t) →
  (run_faulty turns c).2 !! i = Some t' → Q t'.
Proof.
  intros HQ Hc Hi. destruct (c.2 !! i) as [t|] eqn:Ht.
  - destruct (run_faulty_task Q turns c i t HQ Ht (Hc t eq_refl)) as (t'' & Ht'' & HQ'').
    by simplify_eq.
  - apply lookup_ge_None in Ht. apply lookup_lt_Some in Hi.
    rewrite run_faulty_length in Hi. lia.
Qed.

(** A task whose rejections are all answered never escapes. *)
Lemma kept_guarded : kept guarded.
Proof.
  split; [intros w [gs p|e] | intros msg [[|[c| |] gs] [o|next effect]|e]];
    simpl; try done. apply forallb_skip.
Qed.

End runs.

(** ** The guards of the handlers *)

#[export] Instance database_call_preorder : PreOrder database_call.
Proof.
  split; [by intros w | intros w1 w2 w3 [? ?] [? ?]]. split; congruence.
Qed.

Lemma no_new_database w w' : no_new_note w w' → database_call w w'.
Proof. by intros (_ & ? & ? & _). Qed.

(** A process that makes calls to the database only, under guards of
    such calls. *)
Lemma aligned_database gs p :
  forallb database_guard gs = true → within (length gs) p → respects database_call p →
  aligned gs p.
Proof.
  revert p. induction gs as [|g gs IH]; intros p Hgs Hn Hp.
  { apply within_0 in Hn as [o ->]. constructor. }
  apply andb_prop in Hgs as [Hg Hgs].
  inversion Hn; simplify_eq; [constructor|]. inversion Hp; simplify_eq.
  constructor; [by destruct g | intros w; rewrite skip_database by done; auto].
Qed.

Lemma touches_refl g w : touches g w w.
Proof. by destruct g. Qed.

(** A step of a process takes the first of its guards, and touches the
    store that guard names. *)
Lemma aligned_step gs p w :
  aligned gs p →
  aligned (skip w (tail gs)) (proc_step p w).1 ∧
  ∀ g, head gs = Some g → touches g w (proc_step p w).2.
Proof.
  intros [gs' o|g gs' next effect Heffect Hnext]; simpl.
  - split; [constructor | intros g _; apply touches_refl].
  - split; [done | by intros ? [= <-]].
Qed.

Lemma aligned_nil p : aligned [] p → ∃ o, p = Answer o.
Proof. inversion 1; eauto. Qed.

Section handlers.
Context {engine : RegexEngine} {policy : SavePolicy}.
Implicit Types (r : Request) (env : Env) (w : World) (rs : list (Request * Env))
  (file : option File).

(** The conditional call fits its guard. *)
Lemma aligned_destroy_if_managed_async id w n env gs k :
  notes w !! id = Some n → (∀ w', skip w' gs = gs) → (∀ a, aligned gs (k a)) →
  aligned (skip w (settled_if (hosted id) :: gs)) (destroy_if_managed_async (fileUrl n) env k).
Proof.
  intros Hn Hgs Hk. unfold skip at 1, hosted, destroy_if_managed_async. rewrite Hn.
  pose proof (destroy_if_managed_frame (fileUrl n) env) as Hframe.
  unfold destroy_if_managed in Hframe.
  destruct (on_cloudinary (fileUrl n)); [|apply Hk].
  apply aligned_Await; [intros w'; apply Hframe | intros w'].
  rewrite Hgs. case_match; [apply aligned_Answer | apply Hk].
Qed.

Lemma aligned_create_note body u env blob : aligned [create_catch] (create_note body u env blob).
Proof.
  unfold create_note. destruct blob as [[? ?] ?]. case_bool_decide; [|constructor].
  apply aligned_Await; [by intros w | intros w; simpl; constructor].
Qed.

Lemma aligned_notesUploading file body u env :
  aligned (notesUploading_guards file)
    (notesUploading_async file body u env).
Proof.
  unfold notesUploading_async. destruct file as [f|]; cbn [orb bool_decide];
    [|case_match; [exact (aligned_create_note body u env (_, _, _)) | constructor]].
  rewrite bool_decide_eq_true_2 by eauto. cbn [orb].
  apply aligned_Await; [intros w; apply upload_frame | intros w].
  repeat case_match; first [constructor | apply aligned_create_note].
Qed.

Lemma aligned_save_update id body loaded note :
  aligned [forwards] (save_update id body loaded note).
Proof.
  apply aligned_Await; [intros w; apply no_new_database, Note_commit_no_new | intros w].
  simpl. case_match; constructor.
Qed.

Lemma aligned_updateNotes id file body u env :
  aligned (updateNotes_guards id file)
    (updateNotes_async id file body u env).
Proof.
  unfold updateNotes_async. destruct file as [f|].
  - apply aligned_Await; [by intros w | intros w]. cbn [fst Note_findById gets].
    destruct (notes w !! id) as [n|] eqn:Hn; [|apply aligned_Answer].
    case_bool_decide; [|apply aligned_Answer].
    apply (aligned_destroy_if_managed_async id w n env); [done..|].
    intros [[]|m]; [|apply aligned_Answer].
    apply aligned_Await; [intros w''; apply upload_frame | intros w''].
    repeat case_match; try apply aligned_Answer. apply aligned_save_update.
  - apply aligned_Await; [by intros w | intros w]. simpl.
    repeat case_match; first [apply aligned_Answer | apply aligned_save_update].
Qed.

Lemma aligned_deleteNotes id u env :
  aligned (deleteNotes_guards id) (deleteNotes_async id u env).
Proof.
  apply aligned_Await; [by intros w | intros w]. cbn [fst Note_findById gets].
  destruct (notes w !! id) as [n|] eqn:Hn; [|apply aligned_Answer].
  case_bool_decide; [|apply aligned_Answer].
  apply (aligned_destroy_if_managed_async id w n env); [done..|].
  intros [[]|m]; [|apply aligned_Answer].
  apply aligned_Await; [by intros w'' | intros w'']. simpl. apply aligned_Answer.
Qed.

(** The guards of a request fit its handler: a guard for every awaited
    call, that of a call to the object store where the handler calls the
    object store. *)
Lemma guards_aligned r env : aligned (guards r) (dispatch_async r env).
Proof.
  destruct r; simpl; unfold route_create_async, route_update_async;
    first [ apply aligned_deleteNotes
          | apply aligned_database;
              [done | eauto with sphere
              | first [ apply respects_atomic, ReadOnly_Guarantees; apply _
                      | eapply respects_weaken; [apply no_new_database | eauto with sphere] ] ]
          | idtac ].
  - destruct (uploadMiddleware part) as [e|file]; [constructor|].
    destruct (ensureFileContent file body "/create"); [constructor|].
    apply (aligned_notesUploading file).
  - destruct (uploadMiddleware part) as [e|file]; [constructor|].
    apply (aligned_updateNotes _ file).
Qed.

Lemma guards_caught r :
  forallb catches (guards r) = true ∨
  (∃ id, r = GetGet id) ∨ (∃ id u, r = DeleteDelete id u).
Proof.
  destruct r; simpl; unfold notesUploading_guards, updateNotes_guards;
    repeat case_match; eauto.
Qed.

Lemma launch_procs rs : proc_of <$> launch rs = spawn rs.
Proof. unfold launch, spawn. rewrite <-list_fmap_compose. by apply list_fmap_ext. Qed.

Lemma launch_lookup rs i t :
  launch rs !! i = Some t →
  ∃ re, rs !! i = Some re ∧ t = running (guards re.1) (dispatch_async re.1 re.2).
Proof. unfold launch. rewrite list_lookup_fmap. destruct (rs !! i); naive_solver. Qed.

End handlers.

(** ** Steps of a run *)

Lemma resume_await {A} (m : handler A) (k : A → Proc) gs a w w' (ts : list Task) i :
  ts !! i = Some (running gs (await m k)) → m w = (inr a, w') →
  fault_step (w, ts) (resume i) = (w', <[i := running (skip w (tail gs)) (k a)]> ts).
Proof. intros Hi Hm. simpl. rewrite Hi. simpl. by rewrite Hm. Qed.

Lemma reject_caught c gs next effect msg w (ts : list Task) i :
  ts !! i = Some (running (caught c :: gs) (Await next effect)) →
  fault_step (w, ts) (reject i msg) = (w, <[i := running [] (Answer (c (new_Error msg)))]> ts).
Proof. intros Hi. simpl. by rewrite Hi. Qed.

Lemma reject_uncaught gs next effect msg w (ts : list Task) i :
  ts !! i = Some (running (uncaught :: gs) (Await next effect)) →
  fault_step (w, ts) (reject i msg) = (w, <[i := escaped (new_Error msg)]> ts).
Proof. intros Hi. simpl. by rewrite Hi. Qed.

Lemma kept_answering (P : Outcome → Prop) : kept (answering P).
Proof.
  split; [intros w [gs p|e] | intros msg [[|[c| |] gs] [o|next effect]|e]];
    simpl; try done.
  - intros [Hp Hgs]. split; [by apply answers_in_step|]. intros c msg Hc.
    by apply Hgs, (elem_of_skip w).
  - intros [_ Hgs]. split; [constructor; apply Hgs; left | by intros ? ? ?%elem_of_nil].
Qed.

(** The guards left to a task fit what is left of its process, all along
    a run. *)
Lemma kept_fits : kept fits.
Proof.
  split; [intros w [gs p|e] | intros msg [[|[c| |] gs] [o|next effect]|e]];
    simpl; try done; first [by apply aligned_step | constructor].
Qed.

(** ** The requests under faults *)

Section properties.
Context {engine : RegexEngine} {policy : SavePolicy}.
Implicit Types (r : Request) (env : Env) (w : World) (rs : list (Request * Env))
  (turns : list Turn).

Lemma launch_fits rs i t : launch rs !! i = Some t → fits t.
Proof. intros (re & _ & ->)%launch_lookup. apply guards_aligned. Qed.

(** A request that awaits a call has a guard for it, and the call touches
    the store the guard names: no rejection falls where [guards] says
    nothing. *)
Theorem awaited_call_guarded rs turns w i gs next effect :
  (run_faulty turns (w, launch rs)).2 !! i = Some (running gs (Await next effect)) →
  ∃ g gs', gs = g :: gs' ∧ ∀ w', touches g w' (effect w').
Proof.
  intros Hi.
  pose proof (run_faulty_kept fits turns (w, launch rs) i _ kept_fits (launch_fits rs i) Hi)
    as Ht.
  inversion Ht; simplify_eq. eauto.
Qed.

(** A run in which nothing rejects is a run of the event loop. *)
Theorem faultless_run rs s w :
  ((run_faulty (resume <$> s) (w, launch rs)).1,
   proc_of <$> (run_faulty (resume <$> s) (w, launch rs)).2) = run_schedule s (w, spawn rs).
Proof. rewrite run_faulty_resumes. simpl. by rewrite launch_procs. Qed.

(** The invariants of [Interleaving] hold after every run with
    rejections, under the same hypotheses on the save policy: a rejected
    call writes nothing, so a handler that is cut short has taken some
    of the steps it takes in a run without rejections, and each of them
    keeps the invariant. *)
Corollary faults_preserve_wf `{!PathWise policy} rs turns w :
  wf_world w → wf_world (run_faulty turns (w, launch rs)).1.
Proof.
  intros Hwf. apply (run_faulty_stable retires wf_world turns (w, launch rs) Hwf);
    simpl; rewrite launch_procs; [apply spawn_retires | apply spawn_stable].
Qed.

(** A note stays stored, with its uploader, unless its uploader has sent
    a deletion of it, whichever calls reject. *)
Corollary uploader_removes_despite_faults `{!OwnerWise policy} id n rs turns w :
  wf_world w → notes w !! id = Some n →
  Forall (λ re, ∀ u, re.1 = DeleteDelete id u → uid u ≠ uploader n) rs →
  ∃ n', notes (run_faulty turns (w, launch rs)).1 !! id = Some n' ∧ uploader n' = uploader n.
Proof.
  intros Hwf Hn Hrs.
  apply (run_faulty_stable retires (owned id (uploader n)) turns (w, launch rs));
    simpl; rewrite ?launch_procs.
  - split; [by apply (wf_notes _ Hwf _ _ Hn) | eauto].
  - apply spawn_retires.
  - apply Forall_fmap. eapply Forall_impl; [exact Hrs|]. intros re Hre. by apply owner_dispatch.
Qed.

(** The requests that can be left without an answer are those for
    [deleteNotes] and [getNotes]. *)
Lemma escaped_before_try rs turns w i e :
  (run_faulty turns (w, launch rs)).2 !! i = Some (escaped e) →
  ∃ re, rs !! i = Some re ∧
        ((∃ id, re.1 = GetGet id) ∨ (∃ id u, re.1 = DeleteDelete id u)).
Proof.
  intros Hi. destruct (rs !! i) as [re|] eqn:Hre.
  - exists re. split; [done|]. destruct (guards_caught re.1) as [Hgs|Hre1]; [|done].
    destruct (run_faulty_kept guarded turns (w, launch rs) i (escaped e) kept_guarded);
      [|done]. intros t (re' & Hre' & ->)%launch_lookup. by simplify_eq.
  - apply lookup_ge_None in Hre. apply lookup_lt_Some in Hi.
    rewrite run_faulty_length in Hi. unfold launch in Hi. simpl in Hi.
    rewrite length_fmap in Hi. lia.
Qed.

(** C11 (rejection_escapes_before_try): [deleteNotes] and [getNotes]
    await [Note.findById] before their [try] begins.  When that call
    rejects, the handler rejects: it neither answers nor calls [next],
    and the stores are as they were.  These are the only requests that
    can be left so: in every run, a request that has escaped is one of
    the two. *)
Theorem rejection_escapes_before_try :
  (∀ id u env msg w,
     run_faulty [reject 0 msg] (w, launch [(DeleteDelete id u, env)]) =
       (w, [escaped (new_Error msg)])) ∧
  (∀ id env msg w,
     run_faulty [reject 0 msg] (w, launch [(GetGet id, env)]) =
       (w, [escaped (new_Error msg)])) ∧
  (∀ rs turns w i e,
     (run_faulty turns (w, launch rs)).2 !! i = Some (escaped e) →
     ∃ re, rs !! i = Some re ∧
           ((∃ id, re.1 = GetGet id) ∨ (∃ id u, re.1 = DeleteDelete id u))).
Proof. split_and!; [done | done | apply escaped_before_try]. Qed.

End properties.

(** ** What a rejection leaves behind *)

Section leftovers.
Context {engine : RegexEngine} {policy : SavePolicy}.
Implicit Types (r : Request) (env : Env) (w : World) (f : File).

(** C26 (create_rejected_after_upload): [notesUploading] uploads the file
    before it creates the note.  When the upload has succeeded and
    [Note.create] rejects, the [catch] answers 500 with the message of
    the error, or with "Server error occurred" when the message is empty;
    no note is stored, and the file stays in the object store, where no
    note names it. *)
Theorem create_rejected_after_upload f body u env msg w :
  uploadMiddleware (Some f) = inr (Some f) → missingFields body = [] →
  upload_error env = None →
  let c := run_faulty [resume 0; reject 0 msg]
             (w, launch [(PostCreate (Some f) body u, env)]) in
  c.2 = [running [] (Answer (Respond 500
           (JMessage false (js_or (Some msg) "Server error occurred"))))] ∧
  notes c.1 = notes w ∧
  assets c.1 !! upload_public_id env (originalname f) =
    Some (mkAsset (buffer f) (upload_format (originalname f))).
Proof.
  intros Hf Hbody Hup.
  cbn [run_faulty foldl launch fmap list_fmap fst snd guards dispatch_async].
  unfold route_create_async, ensureFileContent, notesUploading_async. rewrite Hf.
  rewrite bool_decide_eq_true_2 by eauto. cbn [orb negb andb].
  erewrite resume_await by (done || by apply uploadToCloudinary_ok).
  unfold create_note. rewrite Hbody. cbn [tail list_insert length].
  rewrite bool_decide_eq_true_2 by done. erewrite reject_caught by done.
  simpl. by rewrite lookup_insert_eq.
Qed.

(** C35 (comment_stored_despite_error): [commentOnNote] saves the comment and reads the note again for its
    answer.  When the second read rejects, the error is forwarded: the
    caller is answered with an error for a comment that is stored, as the
    request leaves the stores it leaves when it succeeds. *)
Theorem comment_stored_despite_error id u t env msg w n :
  notes w !! id = Some n →
  run_faulty [resume 0; resume 0; reject 0 msg] (w, launch [(PostComment id u t, env)]) =
    ((commentOnNote id u t env w).2, [running [] (Answer (Next (new_Error msg)))]).
Proof.
  intros Hn.
  cbn [run_faulty foldl launch fmap list_fmap fst snd guards dispatch_async].
  unfold commentOnNote_async. erewrite resume_await by done.
  unfold Note_findById at 1 2, gets. cbn [fst]. rewrite Hn. cbn [tail list_insert].
  erewrite resume_await;
    [|done|unfold alloc_oid, Note_commit; handler_simp; by rewrite Hn].
  erewrite reject_caught by done. cbn [tail list_insert]. rewrite save_note_fresh.
  unfold commentOnNote, Note_save, Note_findById, alloc_oid. handler_simp.
  rewrite Hn. by handler_simp.
Qed.

(** [removeArchiveNote] clears the flag of the note, then takes the note
    from the list of the caller.  When the second call rejects, the
    answer is 500, the flag is cleared and the list still holds the
    note. *)
Theorem unarchive_half_done id u env msg w n :
  notes w !! id = Some n →
  let c := run_faulty [resume 0; resume 0; reject 0 msg]
             (w, launch [(PostRemoveArchive id u, env)]) in
  c.2 = [running [] (Answer (Respond 500 (JMessage false "Something went wrong.")))] ∧
  notes c.1 = <[id := set_archived false n]> (notes w) ∧ users c.1 = users w.
Proof.
  intros Hn.
  cbn [run_faulty foldl launch fmap list_fmap fst snd guards dispatch_async].
  unfold removeArchiveNote_async. erewrite resume_await by done.
  unfold Note_findById at 1 2, gets. cbn [fst]. rewrite Hn. cbn [tail list_insert].
  erewrite resume_await; [|done|unfold rescue, Note_commit; by rewrite Hn].
  erewrite reject_caught by done. rewrite save_note_fresh. simpl.
  split_and!; [done..|]. unfold rescue, Note_commit. by rewrite Hn.
Qed.

End leftovers.

(** ** Handlers that write with their last call *)

Lemma writes_last_reads {A} (m : handler A) (k : A → Proc) :
  (∀ w, (m w).2 = w) → (∀ a, writes_last (k a)) → writes_last (await m k).
Proof.
  intros Hm Hk. apply writes_last_read; [done|]. intros w.
  destruct (m w).1; [constructor | apply Hk].
Qed.

Lemma writes_last_saves {A} (m : handler A) (k : A → Proc) :
  (∀ a, ∃ o, k a = Answer o) → writes_last (await m k).
Proof. intros Hk. apply writes_last_write. intros w. destruct (m w).1; eauto. Qed.

Lemma resumes_S k gs p w :
  run_faulty (replicate (S k) (resume 0)) (w, [running gs p]) =
    run_faulty (replicate k (resume 0))
      ((proc_step p w).2, [running (skip w (tail gs)) (proc_step p w).1]).
Proof. done. Qed.

(** A request that has answered stays as it is. *)
Lemma resumes_answered k gs o w :
  ∃ gs', run_faulty (replicate k (resume 0)) (w, [running gs (Answer o)]) =
           (w, [running gs' (Answer o)]).
Proof.
  revert gs. induction k as [|k IH]; intros gs; [by exists gs|].
  rewrite resumes_S. apply IH.
Qed.

(** As long as a handler that writes with its last call has not
    answered, the stores are as they were. *)
Lemma writes_last_resumes p gs k w :
  writes_last p →
  let c := run_faulty (replicate k (resume 0)) (w, [running gs p]) in
  (∃ gs' o, c.2 = [running gs' (Answer o)]) ∨ c.1 = w.
Proof.
  revert p gs w. induction k as [|k IH]; intros p gs w Hp; [by right|].
  cbn zeta. rewrite resumes_S.
  destruct Hp as [o|next effect Heffect Hnext|next effect Hnext]; cbn [proc_step fst snd].
  - destruct (resumes_answered k (skip w (tail gs)) o w) as [gs' ->]. left. eauto.
  - rewrite Heffect. by apply IH.
  - destruct (Hnext w) as [o ->].
    destruct (resumes_answered k (skip w (tail gs)) o (effect w)) as [gs' ->]. left. eauto.
Qed.

Section single.
Context {engine : RegexEngine} {policy : SavePolicy}.

Lemma writes_last_create_note body u env blob : writes_last (create_note body u env blob).
Proof.
  unfold create_note. destruct blob as [[? ?] ?]. case_bool_decide; [|apply writes_last_Answer].
  apply writes_last_saves. eauto.
Qed.

Lemma writes_last_save_update id body loaded note :
  writes_last (save_update id body loaded note).
Proof. apply writes_last_saves. eauto. Qed.

Lemma single_write_dispatch r env :
  single_write r = true → writes_last (dispatch_async r env).
Proof.
  intros Hr. destruct r; simpl in Hr; try done; try (destruct part; [done|]);
    cbn [dispatch_async].
  - unfold route_create_async, notesUploading_async. cbn [uploadMiddleware].
    repeat case_match;
      first [apply writes_last_Answer | exact (writes_last_create_note _ _ _ (_, _, _))].
  - unfold route_update_async, updateNotes_async. cbn [uploadMiddleware].
    apply writes_last_reads; [done|]. intros [note|]; [|apply writes_last_Answer].
    repeat case_match; first [apply writes_last_Answer | apply writes_last_save_update].
  - apply writes_last_write. eauto.
  - apply writes_last_write. eauto.
  - unfold archiveNote_async. apply writes_last_reads; [done|]. intros [note|]; [|apply writes_last_Answer].
    apply writes_last_reads; [done|]. intros [user|]; [|apply writes_last_Answer].
    case_bool_decide; [apply writes_last_Answer | apply writes_last_saves; eauto].
  - apply writes_last_write. eauto.
  - unfold likeNote_async. apply writes_last_reads; [done|]. intros [note|]; [|apply writes_last_Answer].
    apply writes_last_saves. eauto.
  - unfold incrementDownload_async. apply writes_last_reads; [done|].
    intros [note|]; [|apply writes_last_Answer]. apply writes_last_saves. eauto.
Qed.

(** C27 (single_write_all_or_nothing): a request whose handler writes
    with its last call (a read, a like, a download, an archive call, a
    creation or an update without a file) is served as a whole or not at
    all: when one of its calls rejects, either the request had its answer
    before, or the stores are as they were. *)
Theorem single_write_all_or_nothing r env k msg w :
  single_write r = true →
  (∃ gs o, (run_faulty (replicate k (resume 0)) (w, launch [(r, env)])).2 =
             [running gs (Answer o)]) ∨
  (run_faulty (replicate k (resume 0) ++ [reject 0 msg]) (w, launch [(r, env)])).1 = w.
Proof.
  intros Hr. unfold run_faulty at 2. rewrite foldl_app. cbn [foldl].
  destruct (writes_last_resumes (dispatch_async r env) (guards r) k w
              (single_write_dispatch r env Hr)) as [?|Hw]; [by left | right].
  rewrite <-Hw at 2. apply (fault_step_reject (λ _, True)); [done|].
  apply Forall_forall. done.
Qed.

End single.

(** ** The user controller *)

Section accounts.
Context {crypt : Bcrypt}.

Lemma accounts_database w w' : accounts_only w w' → database_call w w'.
Proof. by intros (_ & ? & ? & _). Qed.

(** The guards of the user controller fit its three handlers. *)
Lemma account_guards_aligned p :
  (∃ id body u salt, p = updateUser_async id body u salt) ∨
  (∃ id u, p = deleteUser_async id u) ∨ (∃ id u, p = getUserUploads_async id u) →
  aligned account_guards p.
Proof.
  intros Hp. apply aligned_database; [done|..].
  - destruct Hp as [(? & ? & ? & ? & ->)|[(? & ? & ->)|(? & ? & ->)]];
      (eapply within_mono; [|first [ apply within_updateUser | apply within_deleteUser
                                   | apply within_getUserUploads ]]); simpl; lia.
  - destruct Hp as [(? & ? & ? & ? & ->)|[(? & ? & ->)|(? & ? & ->)]].
    + eapply respects_weaken; [apply accounts_database | apply respects_updateUser].
    + eapply respects_weaken; [apply accounts_database | apply respects_deleteUser].
    + unfold getUserUploads_async. case_match; [|constructor].
      apply respects_read; [apply _ | done | constructor].
Qed.

(** No request of the user controller is left without an answer. *)
Lemma account_requests_answered turns w (ts : list Task) i p :
  ts !! i = Some (running account_guards p) →
  ∀ e, (run_faulty turns (w, ts)).2 !! i ≠ Some (escaped e).
Proof.
  intros Hi e He.
  destruct (run_faulty_kept guarded turns (w, ts) i (escaped e) kept_guarded); [|done].
  simpl. intros t Ht. by simplify_eq.
Qed.

End accounts.

(** ** The theorems on the sample data *)

Lemma faults_preserve_wf_witness :
  wf_world (run_faulty [resume 0; reject 1 "timeout"; resume 0; resume 1; reject 0 "timeout"]
              (sample_world,
               launch (engine:=literal_engine) (policy:=whole_document) sample_requests)).1.
Proof.
  exact (faults_preserve_wf (engine:=literal_engine) (policy:=whole_document)
           sample_requests
           [resume 0; reject 1 "timeout"; resume 0; resume 1; reject 0 "timeout"]
           sample_world sample_world_wf).
Defined.

Lemma uploader_removes_despite_faults_witness :
  ∃ n', notes (run_faulty [resume 2; reject 0 "timeout"; resume 1; reject 2 "timeout"; resume 1]
                 (sample_world,
                  launch (engine:=literal_engine) (policy:=whole_document) stranger_requests)).1
          !! 10 = Some n' ∧
        uploader n' = uploader sample_note.
Proof.
  exact (uploader_removes_despite_faults (engine:=literal_engine) (policy:=whole_document)
           10 sample_note stranger_requests
           [resume 2; reject 0 "timeout"; resume 1; reject 2 "timeout"; resume 1] sample_world
           sample_world_wf eq_refl stranger_requests_not_owner).
Defined.

Lemma rejection_escapes_before_try_witness :
  run_faulty [reject 0 "timeout"]
    (sample_world,
     launch (engine:=literal_engine) (policy:=whole_document)
       [(DeleteDelete 10 alice, sample_env)]) =
    (sample_world, [escaped (new_Error "timeout")]).
Proof.
  exact (proj1 (rejection_escapes_before_try (engine:=literal_engine)
                  (policy:=whole_document)) 10 alice sample_env "timeout" sample_world).
Defined.

Lemma sample_file_accepted : uploadMiddleware (Some sample_file) = inr (Some sample_file).
Proof. by vm_compute. Qed.

Lemma create_rejected_after_upload_witness :
  let c := run_faulty [resume 0; reject 0 "timeout"]
             (sample_world,
              launch (engine:=literal_engine) (policy:=whole_document) sample_creation) in
  c.2 = [running [] (Answer (Respond 500 (JMessage false "timeout")))] ∧
  notes c.1 = notes sample_world ∧
  assets c.1 !! upload_public_id sample_env (originalname sample_file) =
    Some (mkAsset (buffer sample_file) (upload_format (originalname sample_file))).
Proof.
  exact (create_rejected_after_upload (engine:=literal_engine) (policy:=whole_document)
           sample_file full_body alice sample_env "timeout" sample_world
           sample_file_accepted full_body_complete eq_refl).
Defined.

Lemma comment_stored_despite_error_witness :
  run_faulty [resume 0; resume 0; reject 0 "timeout"]
    (sample_world,
     launch (engine:=literal_engine) (policy:=whole_document)
       [(PostComment 10 alice "thanks", sample_env)]) =
    ((commentOnNote 10 alice "thanks" sample_env sample_world).2,
     [running [] (Answer (Next (new_Error "timeout")))]).
Proof.
  exact (comment_stored_despite_error (engine:=literal_engine) (policy:=whole_document)
           10 alice "thanks" sample_env "timeout" sample_world sample_note eq_refl).
Defined.

Lemma unarchive_half_done_witness :
  let c := run_faulty [resume 0; resume 0; reject 0 "timeout"]
             (sample_world,
              launch (engine:=literal_engine) (policy:=whole_document)
                [(PostRemoveArchive 10 alice, sample_env)]) in
  c.2 = [running [] (Answer (Respond 500 (JMessage false "Something went wrong.")))] ∧
  notes c.1 = <[10 := set_archived false sample_note]> (notes sample_world) ∧
  users c.1 = users sample_world.
Proof.
  exact (unarchive_half_done (engine:=literal_engine) (policy:=whole_document)
           10 alice sample_env "timeout" sample_world sample_note eq_refl).
Defined.

Lemma single_write_all_or_nothing_witness :
  (∃ gs o, (run_faulty (replicate 1 (resume 0))
              (sample_world,
               launch (engine:=literal_engine) (policy:=whole_document)
                 [(PutLike 10 alice, sample_env)])).2 = [running gs (Answer o)]) ∨
  (run_faulty (replicate 1 (resume 0) ++ [reject 0 "timeout"])
     (sample_world,
      launch (engine:=literal_engine) (policy:=whole_document)
        [(PutLike 10 alice, sample_env)])).1 = sample_world.
Proof.
  exact (single_write_all_or_nothing (engine:=literal_engine) (policy:=whole_document)
           (PutLike 10 alice) sample_env 1 "timeout" sample_world eq_refl).
Defined.
