(* ===== verification/Serialisable.v ===== *)
(** * Serialisable: requests that touch different things do not interfere

    [Concurrency] and [Interleaving] show what goes wrong when two
    requests in flight read and save the same thing.  This file shows the
    converse for the handlers whose steps touch one note and at most one
    user: when no request of a pool writes what another reads or writes,
    every schedule that lets each of them finish ends in the stores, and
    with the answers, of the requests served one after another in the
    order of their arrival.

    [footprint] gives what a request reads and writes, read off the calls
    of its handler: [likeNote] assigns [note.likes] and saves,
    [incrementDownload] [note.downloadCount], [updateComment] and
    [deleteComment] [note.comments], [removeArchiveNote] [note.archived],
    and it updates the caller; [archiveNote] looks whether the note is
    there and reads and saves the caller; [getNotes] reads the note.  The
    other requests have none: [commentOnNote] and [notesUploading] draw a
    new id, [deleteNotes] and [updateNotes] call the object store, whose
    log keeps the order of the calls, and [getAllNotes] and [getArchives]
    read every note.

    What a save touches is a [Granularity] that is true of the save
    policy.  Under [coarse], which is true of every policy, two requests
    are disjoint when they name different notes and users.  Under [fine],
    which is true of the policies that write the assigned paths, a like,
    a download, the edit of a comment and an archive call on one and the
    same note are disjoint as well: the lost updates of [Concurrency] are those of two
    requests that assign the same path, or of a save that writes the
    whole document.

    The lemmas [confines_*] show that each call to the database stays in
    the footprint that names what it touches, the lemmas [confined_*]
    that each handler does, and [footprint_confined] that [footprint] is
    right for the router.  The theory of [Footprint] does the rest. *)

From S2P Require Import Prelude JsString Model Contract Eventloop Footprint Cloudinary.
From S2P Require Import Engagement Archive Lifecycle Search Async System.
From S2P Require Import Stability Ownership Interleaving.

Local Open Scope list_scope.

(** A request that reads the parts [X] of the note [id]. *)
Definition reads (id : oid) (X : gset Part) : Footprint :=
  {| note_reads := parts id X; note_writes := ∅; user_reads := ∅; user_writes := ∅ |}.

(** A request that reads and saves the parts [X] of the note [id], and the
    users [U]. *)
Definition writes (id : oid) (X : gset Part) (U : gset oid) : Footprint :=
  {| note_reads := ∅; note_writes := parts id X; user_reads := ∅; user_writes := U |}.

(** Two copies of a note, or none, that hold the same in the parts [X]. *)
Definition same_parts (X : gset Part) (a b : option Note) : Prop :=
  ∀ x, x ∈ X → get_part x <$> a = get_part x <$> b.

Section footprints.
Context {grain : Granularity}.

(** What the handler of a request reads and writes, for the handlers that
    touch nothing else. *)
Definition footprint (r : Request) : option Footprint :=
  match r with
  | GetGet id => Some (reads id all_parts)
  | PutLike id _ => Some (writes id (touched part_likes) ∅)
  | PutDownload id => Some (writes id (touched part_downloadCount) ∅)
  | PutComment noteId _ _ _ | DeleteComment noteId _ _ =>
      Some (writes noteId (touched part_comments) ∅)
  | PostArchive id u =>
      Some {| note_reads := parts id {[ part_rest ]}; note_writes := ∅;
              user_reads := ∅; user_writes := {[ uid u ]} |}
  | PostRemoveArchive id u => Some (writes id (touched part_archived) {[ uid u ]})
  | PostCreate _ _ _ | PostUpdate _ _ _ _ | DeleteDelete _ _ | GetAll _ | GetArchived _
  | PostComment _ _ _ => None
  end.

(** The footprints of the requests that have arrived, if each has one. *)
Definition footprints (rs : list (Request * Env)) : option (list Footprint) :=
  mapM (λ re, footprint re.1) rs.

(** No request writes what another reads or writes. *)
Definition disjoint_requests (rs : list (Request * Env)) : Prop :=
  from_option separate False (footprints rs).

#[export] Instance disjoint_requests_dec rs : Decision (disjoint_requests rs).
Proof. unfold disjoint_requests. destruct (footprints rs); apply _. Defined.

End footprints.

(** Three notes, and three requests on different documents: bob likes the
    note 10, somebody downloads the note 5, alice archives the note 6. *)
Definition shelf_world : World :=
  set_notes <[5 := sample_note]> (set_notes <[6 := sample_note]> sample_world).

Definition shelf_requests : list (Request * Env) :=
  [(PutLike 10 bob, sample_env); (PutDownload 5, sample_env);
   (PostArchive 6 alice, sample_env)].

Definition shelf_schedule : list nat := [2; 0; 1; 1; 0; 2; 0; 0; 2; 1; 2; 1].

(** Four requests on the note 10: bob likes it, somebody downloads it,
    bob's comment is deleted and alice archives it. *)
Definition desk_requests : list (Request * Env) :=
  [(PutLike 10 bob, sample_env); (PutDownload 10, sample_env);
   (DeleteComment 10 11 bob, sample_env); (PostArchive 10 alice, sample_env)].

Definition desk_schedule : list nat := [3; 0; 1; 2; 2; 1; 0; 3; 3; 0; 1; 2; 2; 1; 0; 3].

(** ** The calls to the database *)

Section calls.
Context {policy : SavePolicy}.
Implicit Types (F : Footprint) (id : oid) (w : World) (X : gset Part).

Lemma confines_gets {A} F (R : relation A) (f : World → A) :
  (∀ w w', agree F w w' → R (f w) (f w')) → confines F R (gets f) (gets f).
Proof.
  intros Hf. split; [|by split; intros w; reflexivity].
  intros w w' Hw. split; [constructor; by apply Hf | done].
Qed.

Lemma confines_Note_findById F id X :
  parts id X ⊆ note_deps F → confines F (same_parts X) (Note_findById id) (Note_findById id).
Proof.
  intros Hid. apply confines_gets. intros w w' Hw x Hx.
  apply (agree_part F id x w w' Hw), Hid, elem_of_parts. by split.
Qed.

Lemma confines_User_findById F id :
  id ∈ user_deps F → confines F eq (User_findById id) (User_findById id).
Proof. intros Hid. apply confines_gets. intros w w' Hw. exact (agree_user F id w w' Hw Hid). Qed.

(** A change of the notes that keeps stores that agree in agreement. *)
Lemma agree_set_notes F (g g' : gmap oid Note → gmap oid Note) w w' :
  (∀ id c, (id, c) ∈ note_deps F →
     get_part c <$> g (notes w) !! id = get_part c <$> g' (notes w') !! id) →
  agree F w w' → agree F (set_notes g w) (set_notes g' w').
Proof. intros Hg [Hn Hu]. by split. Qed.

Lemma agree_set_users F (g : gmap oid User → gmap oid User) w w' :
  (∀ id, id ∈ user_deps F → g (users w) !! id = g (users w') !! id) →
  agree F w w' → agree F (set_users g w) (set_users g w').
Proof. intros Hg [Hn Hu]. by split. Qed.

Lemma frame_set_notes F (g : gmap oid Note → gmap oid Note) w :
  (∀ id c, (id, c) ∉ note_writes F →
     get_part c <$> g (notes w) !! id = get_part c <$> notes w !! id) →
  frame F w (set_notes g w).
Proof. by intros Hg. Qed.

Lemma frame_set_users F (g : gmap oid User → gmap oid User) w :
  (∀ id, id ∉ user_writes F → g (users w) !! id = users w !! id) →
  frame F w (set_users g w).
Proof. by intros Hg. Qed.

Lemma confines_User_commit F id loaded changed :
  id ∈ user_writes F →
  confines F eq (User_commit id loaded changed) (User_commit id loaded changed).
Proof.
  intros Hid.
  assert (∀ w, frame F w (User_commit id loaded changed w).2) as Hf.
  { intros w. unfold User_commit. destruct (users w !! id); [|reflexivity].
    apply frame_set_users. intros i Hi. apply lookup_insert_ne. by intros ->. }
  split; [|done]. intros w w' Hw. unfold User_commit.
  rewrite <-(agree_user F id w w' Hw) by (unfold user_deps; set_solver).
  destruct (users w !! id); (split; [by constructor|]); [|done].
  apply agree_set_users; [|done]. intros i Hi. destruct (decide (id = i)) as [->|Hne];
    [by rewrite !lookup_insert_eq | rewrite !lookup_insert_ne by done].
  by apply (agree_user F i w w' Hw).
Qed.

Lemma confines_User_pull_archived F id noteId :
  id ∈ user_writes F →
  confines F eq (User_pull_archived id noteId) (User_pull_archived id noteId).
Proof.
  intros Hid.
  assert (∀ w, frame F w (User_pull_archived id noteId w).2) as Hf.
  { intros w. apply frame_set_users. intros i Hi. apply lookup_alter_ne. by intros ->. }
  split; [|done]. intros w w' Hw. split; [by constructor|].
  apply agree_set_users; [|done]. intros i Hi. destruct (decide (id = i)) as [->|Hne];
    [rewrite !lookup_alter_eq; f_equal | rewrite !lookup_alter_ne by done];
    by apply (agree_user F i w w' Hw).
Qed.

(** Catching the error of a call changes its answer, not what it touches. *)
Lemma confines_rescue {A} F (R : relation A) (m m' : handler A) o :
  confines F R m m' → confines F R (rescue m o) (rescue m' o).
Proof.
  intros (Hm & Hf & Hf'). unfold rescue. split; [|split].
  - intros w w' Hw. destruct (Hm w w' Hw) as [Ha Hw'].
    destruct (m w) as [[?|?] ?], (m' w') as [[?|?] ?]; simpl in *;
      inversion Ha; subst; by split; [constructor|].
  - intros w. specialize (Hf w). by destruct (m w) as [[?|?] ?].
  - intros w. specialize (Hf' w). by destruct (m' w) as [[?|?] ?].
Qed.

(** Two handlers that have read the note [id] and go on in the same way
    with copies that hold the same in the parts [X]. *)
Lemma similar_load F id X x0 (k k' : option Note → Proc) :
  x0 ∈ X → parts id X ⊆ note_deps F → similar F (k None) (k' None) →
  (∀ n n', (∀ x, x ∈ X → get_part x n = get_part x n') → similar F (k (Some n)) (k' (Some n'))) →
  similar F (await (Note_findById id) k) (await (Note_findById id) k').
Proof.
  intros Hx0 Hid Hnone Hsome. apply (similar_await F (same_parts X));
    [by apply confines_Note_findById|].
  intros [n|] [n'|] Ha; try done; [|by specialize (Ha x0 Hx0)..].
  apply Hsome. intros x Hx. by specialize (Ha x Hx) as [= ?].
Qed.

(** A call that does the same on both sides. *)
Lemma similar_call {A} F (m : handler A) (k : A → Proc) :
  confines F eq m m → (∀ a, similar F (k a) (k a)) → similar F (await m k) (await m k).
Proof. intros Hm Hk. apply (similar_await F eq); [done|]. by intros a a' <-. Qed.

End calls.

(** ** The saves *)

Section saves.
Context {policy : SavePolicy} {grain : Granularity} {confining : Confining policy grain}.
Implicit Types (F : Footprint) (id : oid) (w : World) (c : Part).

(** A save of a copy changed at [c] changes the parts [touched c] of the
    stored note. *)
Lemma frame_Note_commit F id c l v w :
  parts id (touched c) ⊆ note_writes F → frame F w (Note_commit id l (set_part c v l) w).2.
Proof.
  intros Hid. unfold Note_commit. destruct (notes w !! id) as [s|] eqn:Hs; [|reflexivity].
  apply frame_set_notes. intros id' x Hx. destruct (decide (id' = id)) as [->|Hne].
  - rewrite lookup_insert_eq, Hs. simpl. f_equal. apply save_frame.
    intros Hin. apply Hx, Hid, elem_of_parts. by split.
  - by rewrite lookup_insert_ne.
Qed.

(** Two saves of copies that hold the same in [touched c] and were changed
    at [c] in the same way do the same to stores that agree. *)
Lemma confines_Note_commit F id c l l' v :
  parts id (touched c) ⊆ note_writes F →
  (∀ y, y ∈ touched c → get_part y l = get_part y l') →
  confines F eq (Note_commit id l (set_part c v l)) (Note_commit id l' (set_part c v l')).
Proof.
  intros Hid Hl. split; [|by split; intros w; apply frame_Note_commit].
  intros w w' Hw. unfold Note_commit.
  assert (∀ y, y ∈ touched c →
    get_part y <$> notes w !! id = get_part y <$> notes w' !! id) as Hs.
  { intros y Hy. apply (agree_part F id y w w' Hw). unfold note_deps.
    apply elem_of_union_r, Hid, elem_of_parts. by split. }
  pose proof (Hs c (touched_self c)) as Hc.
  destruct (notes w !! id) as [s|] eqn:Hws, (notes w' !! id) as [s'|] eqn:Hws';
    try done; [|by split; [constructor|]..].
  split; [by constructor|]. apply agree_set_notes; [|done]. intros id' x Hx.
  destruct (decide (id' = id)) as [->|Hne];
    [|rewrite !lookup_insert_ne by done; by apply (agree_part F id' x w w' Hw)].
  rewrite !lookup_insert_eq. simpl. f_equal.
  destruct (decide (x ∈ touched c)) as [Hin|Hout].
  - apply save_touched; [done| |done]. intros y Hy. by specialize (Hs y Hy) as [= ?].
  - rewrite !save_frame by done.
    pose proof (agree_part F id x w w' Hw Hx) as Hp. rewrite Hws, Hws' in Hp. by simplify_eq/=.
Qed.

Lemma similar_commit F id c l l' v (k k' : unit → Proc) :
  parts id (touched c) ⊆ note_writes F →
  (∀ y, y ∈ touched c → get_part y l = get_part y l') → similar F (k tt) (k' tt) →
  similar F (await (Note_commit id l (set_part c v l)) k)
            (await (Note_commit id l' (set_part c v l')) k').
Proof.
  intros Hid Hl Hk. apply (similar_await F eq); [by apply confines_Note_commit|].
  by intros [] [] _.
Qed.

End saves.

#[export] Hint Resolve confines_User_findById confines_User_commit
  confines_User_pull_archived confines_rescue : sphere.

(** ** The handlers *)

Section handlers.
Context {engine : RegexEngine} {policy : SavePolicy} {grain : Granularity}
  {confining : Confining policy grain}.
Implicit Types (F : Footprint) (id : oid) (u : AuthUser) (env : Env).

(** The handler reads the note [id] and goes on with what it holds at
    [c]. *)
Local Ltac load c H :=
  apply (similar_load _ _ (touched c) c);
    [apply touched_self | unfold note_deps; set_solver | constructor |];
  intros ?n ?n' H; pose proof (H c (touched_self c)) as ?Hc; simpl in * |-.

Lemma confined_likeNote F id u :
  parts id (touched part_likes) ⊆ note_writes F → confined F (likeNote_async id u).
Proof.
  intros Hid. unfold confined, likeNote_async. load part_likes Hn. simpl. rewrite Hc.
  apply (similar_commit F id part_likes); [done..|constructor].
Qed.

Lemma confined_incrementDownload F id :
  parts id (touched part_downloadCount) ⊆ note_writes F →
  confined F (incrementDownload_async id).
Proof.
  intros Hid. unfold confined, incrementDownload_async. load part_downloadCount Hn.
  simpl. rewrite Hc. apply (similar_commit F id part_downloadCount); [done..|constructor].
Qed.

(** The handler reads the note again and answers with its comments. *)
Lemma similar_reread F id msg :
  parts id (touched part_comments) ⊆ note_writes F →
  confined F
    (await (Note_findById id) (λ updatedNote,
       match updatedNote with
       | None =>
           Answer (Next (TypeError "Cannot read properties of null (reading 'comments')"))
       | Some updatedNote => Answer (Respond 200 (JComments msg (comments updatedNote)))
       end)).
Proof. intros Hid. unfold confined. load part_comments Hn. rewrite Hc. constructor. Qed.

Lemma confined_updateComment F id cid t env :
  parts id (touched part_comments) ⊆ note_writes F →
  confined F (updateComment_async id cid t env).
Proof.
  intros Hid. unfold confined, updateComment_async. load part_comments Hn. rewrite Hc.
  case_match; [|constructor].
  apply (similar_commit F id part_comments); [done..|]. by apply similar_reread.
Qed.

Lemma confined_deleteComment F id cid :
  parts id (touched part_comments) ⊆ note_writes F →
  confined F (deleteComment_async id cid).
Proof.
  intros Hid. unfold confined, deleteComment_async. load part_comments Hn. simpl. rewrite Hc.
  apply (similar_commit F id part_comments); [done..|]. by apply similar_reread.
Qed.

Lemma confined_removeArchiveNote F id u :
  parts id (touched part_archived) ⊆ note_writes F → uid u ∈ user_writes F →
  confined F (removeArchiveNote_async id u).
Proof.
  intros Hid Hu. unfold confined, removeArchiveNote_async. load part_archived Hn. simpl.
  apply (similar_await F eq);
    [by apply confines_rescue, (confines_Note_commit F id part_archived)|].
  intros [] [] _. apply similar_call; [auto with sphere | constructor].
Qed.

Lemma confined_archiveNote F id u :
  parts id {[ part_rest ]} ⊆ note_deps F → uid u ∈ user_writes F →
  confined F (archiveNote_async id u).
Proof.
  intros Hid Hu. unfold confined, archiveNote_async.
  apply (similar_load F id {[ part_rest ]} part_rest); [set_solver | done | constructor|].
  intros _ _ _. apply similar_call; [apply confines_User_findById; set_solver|].
  intros [user|]; [|constructor]. case_bool_decide; [constructor|].
  apply similar_call; [auto with sphere | constructor].
Qed.

Lemma confined_getNotes F id :
  parts id all_parts ⊆ note_deps F → confined F (atomic (getNotes id)).
Proof.
  intros Hid. apply confined_atomic; [apply _|]. intros w w' Hw.
  unfold getNotes. handler_simp. rewrite <-(agree_note F id w w' Hw Hid).
  by destruct (notes w !! id).
Qed.

(** [footprint] is right for the router. *)
Lemma footprint_confined r env F :
  footprint r = Some F → confined F (dispatch_async r env).
Proof.
  destruct r; intros [= <-]; simpl;
    first [ apply confined_getNotes | apply confined_likeNote
          | apply confined_incrementDownload | apply confined_updateComment
          | apply confined_deleteComment | apply confined_archiveNote
          | apply confined_removeArchiveNote ];
    unfold note_deps; simpl; set_solver.
Qed.

Lemma footprints_confined rs Fs :
  footprints rs = Some Fs → Forall2 confined Fs (spawn rs).
Proof.
  intros Hrs%mapM_Some. apply Forall2_fmap_r, Forall2_flip.
  eapply Forall2_impl; [exact Hrs|]. intros re F. apply footprint_confined.
Qed.

(** A pool of disjoint requests, under a schedule that lets each finish,
    ends where its processes end when they are run to their answers one
    after another. *)
Lemma run_disjoint rs s w :
  disjoint_requests rs → (∀ i, i < length rs → 4 ≤ turns i s) →
  run_schedule s (w, spawn rs) =
    ((finish_all (spawn rs) w).2, Answer <$> (finish_all (spawn rs) w).1).
Proof.
  unfold disjoint_requests. destruct (footprints rs) as [Fs|] eqn:HFs; [|done].
  intros Hsep Hs. apply (independent_pool_serial 4 s w Fs);
    [by apply footprints_confined | done | apply spawn_within | by rewrite spawn_length].
Qed.

End handlers.

(** ** Properties *)

Section properties.
Context {engine : RegexEngine} {policy : SavePolicy} {grain : Granularity}
  {confining : Confining policy grain}.
Implicit Types (rs : list (Request * Env)) (s : list nat) (w : World).

(** C7 (disjoint_requests_serialise): when no request in flight writes
    what another reads or writes, every interleaving of their steps that
    gives each of them four turns ends in the stores and with the answers
    of the requests served one after another in the order in which they
    arrived.  Whatever [save()] writes, this holds of requests on
    different notes by different users; when it writes the assigned
    paths, also of requests that assign different paths of one note. *)
Theorem disjoint_requests_serialise rs s w :
  disjoint_requests rs → (∀ i, i < length rs → 4 ≤ turns i s) →
  run_schedule s (w, spawn rs) = (serve rs w, Answer <$> answers rs w).
Proof.
  intros Hrs Hs. by rewrite (run_disjoint rs s w Hrs Hs), finish_all_spawn.
Qed.

End properties.

(** ** The property on the sample data *)

Lemma shelf_world_wf : wf_world shelf_world.
Proof.
  pose proof (wf_notes _ sample_world_wf 10 sample_note eq_refl) as [_ Hn].
  do 2 (apply wf_world_save; [|simpl; lia|done]). apply sample_world_wf.
Qed.

Lemma shelf_requests_disjoint :
  disjoint_requests (grain:=coarse) shelf_requests.
Proof. apply (bool_decide_unpack _). vm_compute. reflexivity. Qed.

Lemma shelf_schedule_fair i : i < length shelf_requests → 4 ≤ turns i shelf_schedule.
Proof. intros Hi. do 3 (destruct i as [|i]; [vm_compute; lia|]). simpl in Hi. lia. Qed.

Lemma disjoint_requests_serialise_witness :
  run_schedule shelf_schedule
    (shelf_world, spawn (engine:=literal_engine) (policy:=whole_document) shelf_requests) =
  (serve (engine:=literal_engine) shelf_requests shelf_world,
   Answer <$> answers (engine:=literal_engine) shelf_requests shelf_world).
Proof.
  apply (disjoint_requests_serialise (engine:=literal_engine) (policy:=whole_document)
           (grain:=coarse) shelf_requests shelf_schedule shelf_world).
  - exact shelf_requests_disjoint.
  - exact shelf_schedule_fair.
Defined.

(** Under a save that writes the assigned paths the four requests on the
    note 10 are disjoint; under a save that writes the document they are
    not. *)
Lemma desk_requests_disjoint :
  disjoint_requests (grain:=fine) desk_requests ∧
  ¬ disjoint_requests (grain:=coarse) desk_requests.
Proof.
  split; [apply (bool_decide_unpack _) | apply (bool_decide_eq_false_1 _)];
    vm_compute; reflexivity.
Qed.

Lemma desk_schedule_fair i : i < length desk_requests → 4 ≤ turns i desk_schedule.
Proof. intros Hi. do 4 (destruct i as [|i]; [vm_compute; lia|]). simpl in Hi. lia. Qed.

(** The like, the download, the deletion of the comment and the archive
    call, all on the note 10 and interleaved, end as if served in turn. *)
Lemma desk_requests_serialise :
  run_schedule desk_schedule
    (sample_world, spawn (engine:=literal_engine) (policy:=modified_paths) desk_requests) =
  (serve (engine:=literal_engine) desk_requests sample_world,
   Answer <$> answers (engine:=literal_engine) desk_requests sample_world).
Proof.
  rewrite (run_disjoint (engine:=literal_engine) (policy:=modified_paths) (grain:=fine)
             desk_requests desk_schedule sample_world (proj1 desk_requests_disjoint)
             desk_schedule_fair).
  by rewrite finish_all_spawn.
Qed.
