(* ===== verification/Gateway.v ===== *)
(** * Gateway: which routes ask for the caller

    The routers put [verifyToken] in front of every route except
    [GET /get/:id], [GET /] and [PUT /:id/download].  [verifyToken] itself
    ([utils/verifyUser.js]) is not among the sources: the class [Verifier]
    stands for it, a function from the credential a request carries (a
    cookie, if any: [deleteUser] clears one named [token]) to [req.user]
    or to the error it forwards.

    A [Route] is a request before [verifyToken] has run: it names the
    route and carries what the client sent, not the caller.  [authorize] runs
    the [verifyToken] of the route, if it has one, and yields the [Request]
    that [System] dispatches; [enter] and [enter_async] are the route as a
    whole, taken at once and cut at its [await]s.

    The theorems hold for every verifier: a route that asks for the
    caller answers with the verifier's error and reaches no handler when
    the verifier refuses; the three public routes are served whatever the
    cookie, and what a request without an accepted credential can change
    is the download counter of a note, nothing else
    ([refused_request_counts_only]); the handler runs with the identity
    the verifier returned; and, with [Ownership], under every save policy
    of [OwnerWise], a stored note stays stored with its uploader whatever
    requests are in flight, unless one of them carries a cookie that the
    verifier resolves to the uploader ([note_survives_foreign_cookies]). *)

From S2P Require Import Prelude JsString Model Contract Eventloop Cloudinary.
From S2P Require Import Engagement Archive Lifecycle Search Async System.
From S2P Require Import Stability Ownership Interleaving.

Local Open Scope string_scope.
Local Open Scope list_scope.

(** One constructor per route of the two routers, with the parameters of
    the path, the body and the uploaded part. *)
Inductive Route :=
| R_create (part : option File) (body : ReqBody)
| R_update (id : oid) (part : option File) (body : ReqBody)
| R_delete (id : oid)
| R_get (id : oid)
| R_all (q : Query)
| R_archive (id : oid)
| R_archived
| R_remove_archive (id : oid)
| R_like (id : oid)
| R_put_comment (noteId commentId : oid) (body_text : string)
| R_delete_comment (noteId commentId : oid)
| R_post_comment (id : oid) (body_text : string)
| R_download (id : oid).

(** Whether the chain of the route starts with [verifyToken]. *)
Definition verified (r : Route) : bool :=
  match r with
  | R_get _ | R_all _ | R_download _ => false
  | _ => true
  end.

(** [verifyToken]: from the cookie to [req.user], or to the error it
    forwards. *)
Class Verifier := verifyToken : option string → JsError + AuthUser.

(** The caller a request carries, if its route asked for one. *)
Definition caller (r : Request) : option AuthUser :=
  match r with
  | PostCreate _ _ u | PostUpdate _ _ _ u | DeleteDelete _ u | PostArchive _ u
  | GetArchived u | PostRemoveArchive _ u | PutLike _ u | PutComment _ _ u _
  | DeleteComment _ _ u | PostComment _ u _ => Some u
  | GetGet _ | GetAll _ | PutDownload _ => None
  end.

Section gateway.
Context {verifier : Verifier} {engine : RegexEngine}.

(** [verifyToken] in front of the rest of the chain, which is run with
    [req.user]. *)
Definition signed (cookie : option string) (k : AuthUser → Request) : JsError + Request :=
  match verifyToken cookie with
  | inl e => inl e
  | inr u => inr (k u)
  end.

(** The route tables: the routes with [verifyToken] and those without. *)
Definition authorize (r : Route) (cookie : option string) : JsError + Request :=
  match r with
  | R_create part body => signed cookie (PostCreate part body)
  | R_delete id => signed cookie (DeleteDelete id)
  | R_update id part body => signed cookie (PostUpdate id part body)
  | R_get id => inr (GetGet id)
  | R_archive id => signed cookie (PostArchive id)
  | R_archived => signed cookie GetArchived
  | R_remove_archive id => signed cookie (PostRemoveArchive id)
  | R_all q => inr (GetAll q)
  | R_like id => signed cookie (PutLike id)
  | R_put_comment noteId commentId t => signed cookie (λ u, PutComment noteId commentId u t)
  | R_delete_comment noteId commentId => signed cookie (DeleteComment noteId commentId)
  | R_post_comment id t => signed cookie (λ u, PostComment id u t)
  | R_download id => inr (PutDownload id)
  end.

(** The route as a whole. *)
Definition enter (r : Route) (cookie : option string) (env : Env) :
    World → Outcome * World :=
  match authorize r cookie with
  | inl e => λ w, (Next e, w)
  | inr req => dispatch req env
  end.

(** The route, await by await. *)
Definition enter_async {policy : SavePolicy} (r : Route) (cookie : option string)
    (env : Env) : Proc :=
  match authorize r cookie with
  | inl e => Answer (Next e)
  | inr req => dispatch_async req env
  end.

(** The requests that have arrived, each with its cookie. *)
Definition arrivals {policy : SavePolicy} (rs : list (Route * option string * Env)) :
    list Proc :=
  (λ x, enter_async x.1.1 x.1.2 x.2) <$> rs.

End gateway.

(** A verifier for the sample data: the cookie is the user name. *)
Definition sample_verifier : Verifier :=
  λ cookie,
    match cookie with
    | Some "alice" => inr alice
    | Some "bob" => inr bob
    | _ => inl (errorHandler 401 "Unauthorized")
    end.

Definition foreign_arrivals : list (Route * option string * Env) :=
  [(R_delete 10, Some "bob", sample_env); (R_delete 10, None, sample_env);
   (R_like 10, Some "bob", sample_env); (R_download 10, None, sample_env)].

(** ** The chain of a route *)

Section chain.
Context {verifier : Verifier} {engine : RegexEngine} {policy : SavePolicy}.
Implicit Types (r : Route) (cookie : option string) (env : Env) (w : World).

Lemma authorize_refused r cookie e :
  verified r = true → verifyToken cookie = inl e → authorize r cookie = inl e.
Proof. intros Hv He. destruct r; try done; simpl; unfold signed; by rewrite He. Qed.

Lemma authorize_public r cookie : verified r = false → authorize r cookie = authorize r None.
Proof. by destruct r. Qed.

(** The request that reaches the handlers carries the identity the
    verifier returned, and none when the route does not ask for it. *)
Lemma authorize_caller r cookie req :
  authorize r cookie = inr req →
  if verified r then ∃ u, verifyToken cookie = inr u ∧ caller req = Some u
  else caller req = None.
Proof.
  destruct r; simpl; unfold signed; try (by intros [= <-]);
    (destruct (verifyToken cookie) as [e|u]; [done|]); intros [= <-]; by exists u.
Qed.

(** The public routes are served whatever the cookie. *)
Lemma public_routes_ignore_cookie r cookie env w :
  verified r = false → enter r cookie env w = enter r None env w.
Proof. intros Hv. unfold enter. by rewrite (authorize_public r cookie Hv). Qed.

(** Run without interruption, the route cut at its [await]s is the route
    taken as a whole. *)
Lemma finish_enter r cookie env w : finish (enter_async r cookie env) w = enter r cookie env w.
Proof.
  unfold enter_async, enter. destruct (authorize r cookie); [done | apply finish_dispatch].
Qed.

Lemma within_enter r cookie env : within 4 (enter_async r cookie env).
Proof.
  unfold enter_async. destruct (authorize r cookie); [constructor | apply within_dispatch].
Qed.

Lemma retires_enter r cookie env : respects retires (enter_async r cookie env).
Proof.
  unfold enter_async. destruct (authorize r cookie); [constructor | apply retires_dispatch].
Qed.

Lemma stable_enter `{!PathWise policy} r cookie env w0 :
  keeps_wf w0 (enter_async r cookie env).
Proof.
  unfold enter_async. destruct (authorize r cookie); [apply keeps_wf_answer | apply stable_dispatch].
Qed.

(** A route keeps a note with its owner unless its cookie is the owner's. *)
Lemma owner_enter `{!OwnerWise policy} id o r cookie env w0 :
  (∀ u, verifyToken cookie = inr u → uid u ≠ o) →
  keeps_owned id o w0 (enter_async r cookie env).
Proof.
  intros Hc. unfold enter_async. destruct (authorize r cookie) as [e|req] eqn:Ha.
  { apply keeps_owned_answer. }
  apply owner_dispatch. intros u ->. apply authorize_caller in Ha.
  destruct (verified r); [|done]. destruct Ha as (u' & Hu' & [= ->]). by apply Hc.
Qed.

Lemma arrivals_retires rs : Forall (respects retires) (arrivals rs).
Proof. apply Forall_fmap, Forall_forall. intros x _. apply retires_enter. Qed.

End chain.

(** ** Properties *)

Section properties.
Context {verifier : Verifier} {engine : RegexEngine} {policy : SavePolicy}.
Implicit Types (r : Route) (cookie : option string) (env : Env) (w : World).

(** On every route that carries
    [verifyToken], a request that the verifier refuses is answered with the
    verifier's error and reaches no handler: it changes nothing, and cut at
    its [await]s it takes no step. *)
Theorem refused_caller_reaches_no_handler r cookie env w e :
  verified r = true → verifyToken cookie = inl e →
  enter r cookie env w = (Next e, w) ∧ enter_async r cookie env = Answer (Next e).
Proof.
  intros Hv He. unfold enter, enter_async. by rewrite (authorize_refused r cookie e Hv He).
Qed.

(** C5 (refused_request_counts_only): what a caller without a
    credential that the verifier accepts can do to the stores.  On a
    route that carries [verifyToken] the request is answered with the
    error of the verifier and changes nothing.  The three routes without
    it are served: the read of a note and the listing change nothing,
    and [PUT /:id/download] adds one to the download counter of a stored
    note.  So such a caller changes nothing but download counters, and
    can change every one of them. *)
Theorem refused_request_counts_only r cookie env w e :
  verifyToken cookie = inl e →
  (verified r = true → enter r cookie env w = (Next e, w)) ∧
  ((enter r cookie env w).2 = w ∨
   ∃ id n, r = R_download id ∧ notes w !! id = Some n ∧
           enter r cookie env w =
             (Respond 200 (JDownloadCount (downloadCount n + 1)),
              set_notes <[id := set_downloadCount (downloadCount n + 1) n]> w)).
Proof.
  intros He. split.
  { intros Hv. unfold enter. by rewrite (authorize_refused r cookie e Hv He). }
  destruct r; unfold enter; simpl; unfold signed; rewrite ?He; auto;
    try (left; apply (read_only _ w)).
  destruct (notes w !! id) as [n|] eqn:Hn.
  - right. exists id, n. by rewrite (incrementDownload_found _ _ _ Hn).
  - left. by rewrite (incrementDownload_not_found _ _ Hn).
Qed.

(** With [Ownership]: whatever requests arrive and however their steps
    interleave, a stored note stays stored with its uploader unless one
    of the requests carries a cookie that the verifier resolves to the
    uploader. *)
Lemma note_survives_foreign_cookies `{!OwnerWise policy} id n rs s w :
  wf_world w → notes w !! id = Some n →
  Forall (λ x, ∀ u, verifyToken x.1.2 = inr u → uid u ≠ uploader n) rs →
  ∃ n', notes (run_schedule s (w, arrivals rs)).1 !! id = Some n' ∧
        uploader n' = uploader n.
Proof.
  intros Hwf Hn Hrs.
  apply (run_schedule_stable retires (owned id (uploader n)) s (w, arrivals rs)).
  - split; [by apply (wf_notes _ Hwf _ _ Hn) | eauto].
  - apply arrivals_retires.
  - apply Forall_fmap. eapply Forall_impl; [exact Hrs|]. intros x Hx. by apply owner_enter.
Qed.

End properties.

(** ** The properties on the sample data *)

Lemma refused_caller_reaches_no_handler_witness :
  verified (R_delete 10) = true ∧ sample_verifier None = inl (errorHandler 401 "Unauthorized") ∧
  enter (verifier:=sample_verifier) (engine:=literal_engine) (R_delete 10) None sample_env
        sample_world = (Next (errorHandler 401 "Unauthorized"), sample_world) ∧
  enter_async (verifier:=sample_verifier) (engine:=literal_engine) (policy:=whole_document)
        (R_delete 10) None sample_env = Answer (Next (errorHandler 401 "Unauthorized")).
Proof.
  exact (conj eq_refl (conj eq_refl
           (refused_caller_reaches_no_handler (verifier:=sample_verifier)
              (engine:=literal_engine) (policy:=whole_document) (R_delete 10) None sample_env
              sample_world (errorHandler 401 "Unauthorized") eq_refl eq_refl))).
Defined.

Lemma foreign_arrivals_not_owner :
  Forall (λ x : Route * option string * Env,
            ∀ u, sample_verifier x.1.2 = inr u → uid u ≠ uploader sample_note)
    foreign_arrivals.
Proof. repeat constructor; by intros u [= <-]. Qed.

Lemma note_survives_foreign_cookies_witness :
  ∃ n', notes (run_schedule [0; 2; 1; 0; 3; 0; 2; 3]
                 (sample_world,
                  arrivals (verifier:=sample_verifier) (engine:=literal_engine)
                    (policy:=whole_document) foreign_arrivals)).1 !! 10 = Some n' ∧
        uploader n' = uploader sample_note.
Proof.
  exact (note_survives_foreign_cookies (verifier:=sample_verifier) (engine:=literal_engine)
           (policy:=whole_document) 10 sample_note foreign_arrivals
           [0; 2; 1; 0; 3; 0; 2; 3] sample_world sample_world_wf eq_refl
           foreign_arrivals_not_owner).
Defined.

(** A request without a cookie: the deletion of note 10 is refused; the
    download of note 10 is served and counted. *)
Lemma refused_request_counts_only_witness :
  (verified (R_delete 10) = true →
   enter (verifier:=sample_verifier) (engine:=literal_engine) (R_delete 10) None sample_env
     sample_world = (Next (errorHandler 401 "Unauthorized"), sample_world)) ∧
  ((enter (verifier:=sample_verifier) (engine:=literal_engine) (R_download 10) None
      sample_env sample_world).2 = sample_world ∨
   ∃ id n, R_download 10 = R_download id ∧ notes sample_world !! id = Some n ∧
           enter (verifier:=sample_verifier) (engine:=literal_engine) (R_download 10) None
             sample_env sample_world =
             (Respond 200 (JDownloadCount (downloadCount n + 1)),
              set_notes <[id := set_downloadCount (downloadCount n + 1) n]> sample_world)).
Proof.
  exact (conj
    (proj1 (refused_request_counts_only (verifier:=sample_verifier) (engine:=literal_engine)
              (R_delete 10) None sample_env sample_world (errorHandler 401 "Unauthorized")
              eq_refl))
    (proj2 (refused_request_counts_only (verifier:=sample_verifier) (engine:=literal_engine)
              (R_download 10) None sample_env sample_world (errorHandler 401 "Unauthorized")
              eq_refl))).
Defined.
