(* ===== verification/Cors.v ===== *)
(** * Cors: the cross-origin policy of the uploading router

    [routes/uploading.route.js] puts [cors(corsConfig)] in front of its
    routes: every request that enters the router passes it first.  The
    configuration is in the sources; the middleware is the [cors] package
    and is modelled from its documentation: a request whose method is
    [OPTIONS] is a preflight, answered by the middleware itself with the
    policy in its headers, status 204 and no body; any other request gets
    the origin and the credentials headers and goes on to the routes.

    [uploading_enter] is the router as a whole: [cors], then the route
    that matches, with its [verifyToken] ([Gateway.enter]).  A request
    that matches no route of the router leaves it with the headers set.

    A browser that has the answer to its preflight sends the request when
    its method is listed, or is one of the methods that need no listing
    ([allows]).  The theorems: a preflight reaches neither [verifyToken]
    nor a handler and changes nothing; the methods of the four routes of
    the router pass the policy; [PUT], which three routes of the notes
    router use, does not. *)

From S2P Require Import Prelude JsString Model Contract Eventloop Cloudinary.
From S2P Require Import Engagement Archive Lifecycle Search Async System.
From S2P Require Import Stability Ownership Interleaving Gateway.

Local Open Scope string_scope.
Local Open Scope list_scope.

(** The methods the routers and the policy name. *)
Inductive Method := GET | POST | PUT | DELETE | OPTIONS.

#[export] Instance Method_eq_dec : EqDecision Method.
Proof. solve_decision. Defined.

(** [req.method]. *)
Definition method_name (m : Method) : string :=
  match m with
  | GET => "GET" | POST => "POST" | PUT => "PUT" | DELETE => "DELETE"
  | OPTIONS => "OPTIONS"
  end.

(** The options [corsConfig] sets. *)
Record CorsOptions := mkCorsOptions {
  origin : string;
  credentials : bool;
  methods : list string;
  allowedHeaders : list string;
}.

Definition corsConfig : CorsOptions :=
  {| origin := "http://localhost:5173";
     credentials := true;
     methods := ["GET"; "POST"; "DELETE"; "OPTIONS"];
     allowedHeaders := ["Content-Type"; "Authorization"; "credentials"] |}.

Definition Headers := list (string * string).

(** What the middleware did with the request: it ended the response, or
    called [next]. *)
Inductive CorsResult :=
| Ended (status : nat) (hs : Headers)
| Continued (hs : Headers).

(** The headers of a fixed origin, of the credentials, of the methods and
    of the request headers. *)
Definition configureOrigin (o : CorsOptions) : Headers :=
  [("Access-Control-Allow-Origin", origin o); ("Vary", "Origin")].

Definition configureCredentials (o : CorsOptions) : Headers :=
  if credentials o then [("Access-Control-Allow-Credentials", "true")] else [].

Definition configureMethods (o : CorsOptions) : Headers :=
  [("Access-Control-Allow-Methods", join "," (methods o))].

Definition configureAllowedHeaders (o : CorsOptions) : Headers :=
  [("Access-Control-Allow-Headers", join "," (allowedHeaders o))].

(** [cors(options)]. *)
Definition cors (o : CorsOptions) (m : Method) : CorsResult :=
  if decide (m = OPTIONS) then
    Ended 204 (configureOrigin o ++ configureCredentials o ++ configureMethods o ++
               configureAllowedHeaders o ++ [("Content-Length", "0")])
  else Continued (configureOrigin o ++ configureCredentials o).

(** The check a browser makes on the answer to a preflight: [GET] and
    [POST] need no listing, any other method has to be listed. *)
Definition allows (o : CorsOptions) (m : Method) : bool :=
  match m with
  | GET | POST => true
  | _ => bool_decide (method_name m ∈ methods o)
  end.

(** The two routers. *)
Inductive Router := UploadingRouter | NotesRouter.

#[export] Instance Router_eq_dec : EqDecision Router.
Proof. solve_decision. Defined.

(** The router that declares the route. *)
Definition route_router (r : Route) : Router :=
  match r with
  | R_create _ _ | R_delete _ | R_update _ _ _ | R_get _ => UploadingRouter
  | R_archive _ | R_archived | R_remove_archive _ | R_all _ | R_like _
  | R_put_comment _ _ _ | R_delete_comment _ _ | R_post_comment _ _ | R_download _ =>
      NotesRouter
  end.

(** The method the route is declared with. *)
Definition route_method (r : Route) : Method :=
  match r with
  | R_create _ _ | R_update _ _ _ | R_archive _ | R_remove_archive _
  | R_post_comment _ _ => POST
  | R_delete _ | R_delete_comment _ _ => DELETE
  | R_get _ | R_archived | R_all _ => GET
  | R_like _ | R_put_comment _ _ _ | R_download _ => PUT
  end.

(** A request as it reaches the router: a preflight, or a call of a
    route. *)
Inductive Arrival :=
| Options
| Calls (r : Route).

Definition arrival_method (a : Arrival) : Method :=
  match a with
  | Options => OPTIONS
  | Calls r => route_method r
  end.

(** What the router did: the middleware answered, a route of the router
    ran, or no route matched and the request left the router. *)
Inductive Served :=
| Preflight (status : nat) (hs : Headers)
| Routed (hs : Headers) (o : Outcome)
| Passed (hs : Headers).

Section router.
Context {verifier : Verifier} {engine : RegexEngine}.

(** The uploading router: [cors(corsConfig)], then its routes. *)
Definition uploading_enter (a : Arrival) (cookie : option string) (env : Env) :
    World → Served * World :=
  λ w,
    match cors corsConfig (arrival_method a) with
    | Ended status hs => (Preflight status hs, w)
    | Continued hs =>
        match a with
        | Calls r =>
            match route_router r with
            | UploadingRouter => (Routed hs (enter r cookie env w).1, (enter r cookie env w).2)
            | NotesRouter => (Passed hs, w)
            end
        | Options => (Passed hs, w)
        end
    end.

End router.

(** ** The policy *)

Section policy.
Context {verifier : Verifier} {engine : RegexEngine}.
Implicit Types (r : Route) (cookie : option string) (env : Env) (w : World).

(** The headers every answer of the router carries. *)
Lemma cors_headers o m :
  ∃ hs, configureOrigin o ++ configureCredentials o ++ hs =
        match cors o m with Ended _ hs | Continued hs => hs end.
Proof.
  unfold cors. case_decide; [by eexists | exists []]. by rewrite app_nil_r.
Qed.

(** A preflight is answered by the middleware, with the policy and no
    body: neither [verifyToken] nor a handler runs, whatever the cookie. *)
Lemma preflight_reaches_no_handler cookie env w :
  uploading_enter Options cookie env w =
    (Preflight 204
       [("Access-Control-Allow-Origin", "http://localhost:5173"); ("Vary", "Origin");
        ("Access-Control-Allow-Credentials", "true");
        ("Access-Control-Allow-Methods", "GET,POST,DELETE,OPTIONS");
        ("Access-Control-Allow-Headers", "Content-Type,Authorization,credentials");
        ("Content-Length", "0")], w).
Proof. done. Qed.

(** A call of a route of the router runs the route, and its answer carries
    the origin and the credentials headers, whatever origin it came
    from. *)
Lemma routed_with_policy r cookie env w :
  route_router r = UploadingRouter →
  uploading_enter (Calls r) cookie env w =
    (Routed [("Access-Control-Allow-Origin", "http://localhost:5173"); ("Vary", "Origin");
             ("Access-Control-Allow-Credentials", "true")]
       (enter r cookie env w).1, (enter r cookie env w).2).
Proof. by destruct r. Qed.

(** The router never refuses a request on its origin or its method: what
    it does not answer as a preflight reaches the route. *)
Lemma uploading_enter_state a cookie env w :
  (uploading_enter a cookie env w).2 =
    match a with
    | Calls r => if decide (route_router r = UploadingRouter)
                 then (enter r cookie env w).2 else w
    | Options => w
    end.
Proof. by destruct a as [|[]]. Qed.

(** The methods of the routes of the uploading router pass its policy. *)
Lemma uploading_routes_allowed r :
  route_router r = UploadingRouter → allows corsConfig (route_method r) = true.
Proof. by destruct r. Qed.

(** [PUT] does not: the routes declared with it are the three of the
    notes router that like a note, edit a comment and count a download. *)
Lemma put_routes_not_allowed r :
  allows corsConfig (route_method r) = false ↔ route_method r = PUT.
Proof. destruct r; simpl; split; (done || by intros ?%bool_decide_eq_false_1). Qed.

Lemma put_routes r :
  route_method r = PUT ↔
  (∃ id, r = R_like id) ∨ (∃ nid cid t, r = R_put_comment nid cid t) ∨
  (∃ id, r = R_download id).
Proof. destruct r; simpl; split; try done; naive_solver. Qed.

End policy.
