(* ===== verification/Answers.v ===== *)
(** * Answers: the shape of what each route answers

    A client sees of an answer its status and the shape of its body.  A
    handler answers itself ([res.status(s).json(b)]) or forwards an error to
    [next]; the error middleware of the application, which is not among
    the sources, then answers with the status code of the error, or 500
    when it has none.

    [contract] lists, route by route, the statuses and body shapes the
    route can answer with.  The theorem [answers_typed] shows that it is
    complete: whatever the stores hold, whatever else is in flight and
    however the steps interleave, the answer of a request is one its route
    lists; in particular no route answers with a status outside 200, 201,
    400, 401, 404 and 500.

    [fault_contract] lists what the [catch] blocks of a route answer when
    a call to the database rejects ([Faults]).  The theorem
    [answers_typed_despite_faults] extends the first to runs with
    rejections; [faults_add_one_answer] shows that rejections bring one
    answer the contract does not list: the 500 of [notesUploading] with
    a message of its own.

    The contract makes visible that the routes do not agree on the shape
    of a failure: a note that is not found is reported through the error
    middleware by some routes, as [{ message }] by others and as
    [{ success, message }] by [POST /remove-archive/:id]. *)

From S2P Require Import Prelude JsString Model Contract Eventloop Cloudinary.
From S2P Require Import Engagement Archive Lifecycle Search Async System Interleaving.
From S2P Require Import Faults.

Local Open Scope string_scope.
Local Open Scope list_scope.
Local Open Scope nat_scope.

(** The shapes of the bodies, one per constructor of [Body], and [TError]
    for the body the error middleware sends. *)
Inductive BodyTag :=
| TMessage | TMsg | TFailure | TText | TData | TNote | TLikes | TCommented | TComments
| TDownloadCount | TArchives | TNotes | TCounted | TArray | TUser | TError.

#[export] Instance BodyTag_eq_dec : EqDecision BodyTag.
Proof. solve_decision. Defined.

Definition tag (b : Body) : BodyTag :=
  match b with
  | JMessage _ _ => TMessage
  | JMsg _ => TMsg
  | JFailure _ _ => TFailure
  | JText _ => TText
  | JData _ _ _ => TData
  | JNote _ _ => TNote
  | JLikes _ => TLikes
  | JCommented _ _ => TCommented
  | JComments _ _ => TComments
  | JDownloadCount _ => TDownloadCount
  | JArchives _ => TArchives
  | JNotes _ => TNotes
  | JCounted _ _ => TCounted
  | JArray _ => TArray
  | JUser _ _ _ _ => TUser
  end.

(** What the client sees: [next(e)] is answered by the error middleware
    with [e.statusCode || 500]. *)
Definition answer_type (o : Outcome) : nat * BodyTag :=
  match o with
  | Respond status body => (status, tag body)
  | Next e => (default 500 (statusCode e), TError)
  end.

(** What each middleware and each handler answers with: the statuses of
    its [res.status(..)] calls with the shape of the body, and the
    errors it forwards to [next]. *)
Definition uploadMiddleware_answers : list (nat * BodyTag) := [(500, TError)].

Definition ensureFileContent_answers : list (nat * BodyTag) := [(400, TMessage)].

Definition notesUploading_answers : list (nat * BodyTag) :=
  [(201, TData); (400, TMessage); (500, TFailure)].

Definition updateNotes_answers : list (nat * BodyTag) :=
  [(200, TData); (401, TError); (404, TError); (500, TMessage); (500, TError)].

Definition deleteNotes_answers : list (nat * BodyTag) :=
  [(200, TText); (401, TError); (404, TError); (500, TError)].

Definition getNotes_answers : list (nat * BodyTag) := [(200, TNote); (404, TError)].

Definition getAllNotes_answers : list (nat * BodyTag) := [(200, TNotes); (500, TError)].

Definition archiveNote_answers : list (nat * BodyTag) :=
  [(200, TMessage); (404, TError); (500, TError)].

Definition getArchives_answers : list (nat * BodyTag) := [(200, TArchives); (500, TError)].

Definition removeArchiveNote_answers : list (nat * BodyTag) :=
  [(200, TMessage); (404, TMessage); (500, TMessage)].

Definition likeNote_answers : list (nat * BodyTag) :=
  [(200, TLikes); (404, TMsg); (500, TError)].

Definition updateComment_answers : list (nat * BodyTag) :=
  [(200, TComments); (404, TMsg); (500, TError)].

Definition deleteComment_answers : list (nat * BodyTag) :=
  [(200, TComments); (404, TMsg); (500, TError)].

Definition commentOnNote_answers : list (nat * BodyTag) :=
  [(200, TCommented); (404, TMsg); (500, TError)].

Definition incrementDownload_answers : list (nat * BodyTag) :=
  [(200, TDownloadCount); (404, TMsg); (500, TError)].

(** The routes of the uploading router: the answers of the chain each
    route declares. *)
Definition uploading_contract (r : Request) : option (list (nat * BodyTag)) :=
  match r with
  | PostCreate _ _ _ =>
      Some (uploadMiddleware_answers ++ ensureFileContent_answers ++ notesUploading_answers)
  | DeleteDelete _ _ => Some deleteNotes_answers
  | PostUpdate _ _ _ _ => Some (uploadMiddleware_answers ++ updateNotes_answers)
  | GetGet _ => Some getNotes_answers
  | _ => None
  end.

(** The routes of the notes router. *)
Definition notes_contract (r : Request) : list (nat * BodyTag) :=
  match r with
  | PostArchive _ _ => archiveNote_answers
  | GetArchived _ => getArchives_answers
  | PostRemoveArchive _ _ => removeArchiveNote_answers
  | GetAll _ => getAllNotes_answers
  | PutLike _ _ => likeNote_answers
  | PutComment _ _ _ _ => updateComment_answers
  | DeleteComment _ _ _ => deleteComment_answers
  | PostComment _ _ _ => commentOnNote_answers
  | PutDownload _ => incrementDownload_answers
  | _ => []
  end.

(** The answers of each route. *)
Definition contract (r : Request) : list (nat * BodyTag) :=
  default (notes_contract r) (uploading_contract r).

(** [conforms r o]: the answer [o] is one the route of [r] lists. *)
Definition conforms (r : Request) (o : Outcome) : Prop := answer_type o ∈ contract r.

#[export] Instance conforms_dec r o : Decision (conforms r o).
Proof. unfold conforms. apply _. Defined.

(** What the client sees when the call under the guard rejects. *)
Definition guard_answer (g : Guard) : option (nat * BodyTag) :=
  match g with
  | caught c => Some (answer_type (c (new_Error "")))
  | uncaught | settled_if _ => None
  end.

(** The answers of each route when one of its calls to the database
    rejects. *)
Definition fault_contract (r : Request) : list (nat * BodyTag) :=
  omap guard_answer (guards r).

(** [conforms_faulty r o]: the answer [o] is one the route of [r] lists,
    or one of its [catch] blocks gives. *)
Definition conforms_faulty (r : Request) (o : Outcome) : Prop :=
  answer_type o ∈ contract r ++ fault_contract r.

#[export] Instance conforms_faulty_dec r o : Decision (conforms_faulty r o).
Proof. unfold conforms_faulty. apply _. Defined.

(** ** The errors of the awaited calls *)

Section calls.
Context {policy : SavePolicy}.
Implicit Types (id : oid) (w : World) (o : Outcome).

Lemma Note_commit_exit id n changed w o :
  (Note_commit id n changed w).1 = inl o → o = Next (new_Error "No document found for query").
Proof. unfold Note_commit. destruct (notes w !! id); simpl; congruence. Qed.

Lemma User_commit_exit id usr changed w o :
  (User_commit id usr changed w).1 = inl o → o = Next (new_Error "No document found for query").
Proof. unfold User_commit. destruct (users w !! id); simpl; congruence. Qed.

Lemma alloc_commit_exit id n (f : oid → Note) w o :
  ((let! cid := alloc_oid in Note_commit id n (f cid))%handler w).1 = inl o →
  o = Next (new_Error "No document found for query").
Proof.
  unfold bind, alloc_oid, Note_commit. simpl. destruct (notes w !! id); simpl; congruence.
Qed.

Lemma rescue_exit {A} (m : handler A) o' w o : (rescue m o' w).1 = inl o → o = o'.
Proof. unfold rescue. destruct (m w) as [[?|?] ?]; simpl; congruence. Qed.

Lemma upload_no_exit buf name env w o : (uploadToCloudinary buf name env w).1 ≠ inl o.
Proof. unfold uploadToCloudinary, upload_stream. handler_simp. by destruct (upload_error env). Qed.

Lemma uploadMiddleware_error part e : uploadMiddleware part = inl e → statusCode e = None.
Proof.
  unfold uploadMiddleware, fileFilter. destruct part as [f|]; [|done].
  repeat case_match; naive_solver.
Qed.

Lemma ensureFileContent_answer file body path o :
  ensureFileContent file body path = Some o →
  o = Respond 400 (JMessage false "No file content provided. Upload a file or provide a URL.").
Proof. unfold ensureFileContent. case_match; congruence. Qed.

End calls.

(** Closes a goal [conforms r o] for an answer whose status and shape are
    known. *)
Ltac listed := apply (bool_decide_unpack _); vm_compute; reflexivity.

(** ** Every route keeps its contract *)

Section typing.
Context {engine : RegexEngine} {policy : SavePolicy}.
Implicit Types (r : Request) (env : Env) (w : World) (o : Outcome).

(** Splits a process of [Async] at its [await]s; the awaited calls either
    do not fail or fail with the error of a save. *)
Ltac typed_steps :=
  repeat first
    [ apply answers_in_Answer; listed
    | apply answers_in_await;
        [ let Hex := fresh "Hex" in
          intros ? ? Hex;
          first [ apply Note_commit_exit in Hex as ->; listed
                | apply User_commit_exit in Hex as ->; listed
                | apply alloc_commit_exit in Hex as ->; listed
                | apply rescue_exit in Hex as ->; listed
                | by apply upload_no_exit in Hex
                | done ]
        | intros ? ]
    | apply answers_in_destroy_if_managed_async; intros ?
    | case_match
    | case_bool_decide ].

Lemma typed_read_only r h :
  (∀ w, conforms r (h w).1) → answers_in (conforms r) (atomic h).
Proof. apply answers_in_atomic. Qed.

Lemma typed_dispatch r env : answers_in (conforms r) (dispatch_async r env).
Proof.
  destruct r; cbn [dispatch_async].
  - unfold route_create_async.
    destruct (uploadMiddleware part) as [e|file] eqn:Hm.
    { constructor. unfold conforms. simpl. rewrite (uploadMiddleware_error _ _ Hm). listed. }
    destruct (ensureFileContent file body "/create") as [o|] eqn:He.
    { apply ensureFileContent_answer in He as ->. constructor. listed. }
    unfold notesUploading_async, create_note. typed_steps.
  - unfold route_update_async.
    destruct (uploadMiddleware part) as [e|file] eqn:Hm.
    { constructor. unfold conforms. simpl. rewrite (uploadMiddleware_error _ _ Hm). listed. }
    unfold updateNotes_async, save_update. typed_steps.
  - unfold deleteNotes_async. typed_steps.
  - apply typed_read_only. intros w. unfold getNotes. handler_simp.
    destruct (notes w !! id); listed.
  - apply typed_read_only. intros w. unfold getAllNotes, Note_find_regex.
    destruct (regex_errors _); listed.
  - unfold archiveNote_async. typed_steps.
  - apply typed_read_only. intros w. unfold getArchives. handler_simp.
    destruct (users w !! uid u); listed.
  - unfold removeArchiveNote_async. typed_steps.
  - unfold likeNote_async. typed_steps.
  - unfold updateComment_async. typed_steps.
  - unfold deleteComment_async. typed_steps.
  - unfold commentOnNote_async. typed_steps.
  - unfold incrementDownload_async. typed_steps.
Qed.

End typing.

(** ** Properties *)

Section properties.
Context {engine : RegexEngine} {policy : SavePolicy}.
Implicit Types (r : Request) (env : Env) (w : World) (o : Outcome).

(** C24 (answers_typed): every answer of a route has a status and a body
    shape that the contract of the route lists, when the request is served
    on its own and when it is served among others, whatever the stores
    hold and however the steps interleave. *)
Theorem answers_typed r env w (c : Config) i s o :
  conforms r (dispatch r env w).1 ∧
  (c.2 !! i = Some (dispatch_async r env) →
   (run_schedule s c).2 !! i = Some (Answer o) → conforms r o).
Proof.
  split.
  - rewrite <-finish_dispatch. apply (answers_in_finish (conforms r)), typed_dispatch.
  - intros Hi. by apply (run_schedule_answers_in (conforms r) s c i _ o Hi), typed_dispatch.
Qed.

End properties.

(** ** Answers when calls reject *)

Section faults.
Context {engine : RegexEngine} {policy : SavePolicy}.
Implicit Types (r : Request) (env : Env) (w : World) (o : Outcome).

Ltac unfold_guards :=
  unfold notesUploading_guards, updateNotes_guards, deleteNotes_guards, getNotes_guards,
    removeArchiveNote_guards, archiveNote_guards, getArchives_guards, getAllNotes_guards,
    likeNote_guards, commentOnNote_guards, updateComment_guards, deleteComment_guards,
    incrementDownload_guards, create_catch, forwards, answers_500.

(** What a [catch] answers to a rejected call is listed, whatever the
    message of the error. *)
Lemma guards_answers r c msg :
  caught c ∈ guards r → answer_type (c (new_Error msg)) ∈ fault_contract r.
Proof.
  unfold fault_contract.
  destruct r; cbn [guards]; unfold_guards;
    repeat case_match; intros Hc;
    repeat (apply elem_of_cons in Hc as [Hc|Hc]; [simplify_eq; listed|]);
    by apply elem_of_nil in Hc.
Qed.

(** Every answer to a rejected call is a 500. *)
Lemma fault_contract_500 r t : t ∈ fault_contract r → t.1 = 500.
Proof.
  unfold fault_contract.
  destruct r; cbn [guards]; unfold_guards;
    repeat case_match; simpl; intros Ht;
    repeat (apply elem_of_cons in Ht as [->|Ht]; [done|]);
    by apply elem_of_nil in Ht.
Qed.

(** Whatever requests are in flight, however their steps interleave and
    whichever calls reject, a request that is answered is answered with a
    status and a body shape that its route lists or that one of its
    [catch] blocks gives. *)
Theorem answers_typed_despite_faults rs turns w i re gs o :
  rs !! i = Some re →
  (run_faulty turns (w, launch rs)).2 !! i = Some (running gs (Answer o)) →
  conforms_faulty re.1 o.
Proof.
  intros Hre Hi.
  destruct (run_faulty_kept (answering (conforms_faulty re.1)) turns (w, launch rs) i
              (running gs (Answer o)) (kept_answering _)) as [Ho _];
    [|done|by inversion Ho].
  intros t (re' & Hre' & ->)%launch_lookup. simplify_eq. split.
  - eapply answers_in_weaken; [|apply typed_dispatch]. intros o' Ho'.
    by apply elem_of_app; left.
  - intros c msg Hc. apply elem_of_app; right. by apply guards_answers.
Qed.

(** Rejections add one answer to the contract: [notesUploading] answers
    500 with a message of its own when [Note.create] rejects.  Every
    other [catch] forwards the error or answers as the handler does for
    an error of its own. *)
Theorem faults_add_one_answer r t :
  t ∈ fault_contract r → t ∉ contract r →
  ∃ part body u, r = PostCreate part body u ∧ t = (500, TMessage).
Proof.
  unfold fault_contract.
  destruct r; cbn [guards contract]; unfold_guards;
    repeat case_match; simpl; intros Ht Hnot;
    repeat (apply elem_of_cons in Ht as [->|Ht];
            [first [by destruct Hnot; listed | naive_solver]|]);
    by apply elem_of_nil in Ht.
Qed.

End faults.

(** ** The property on the sample data *)

Lemma sample_comment_answered :
  (run_schedule [0; 0; 0] (sample_world, [sample_comment_request])).2 !! 0 =
    Some (Answer (finish sample_comment_request sample_world).1).
Proof. by vm_compute. Qed.

Lemma answers_typed_witness :
  let r := PostComment 10 alice "thanks" in
  let c : Config := (sample_world, [sample_comment_request]) in
  let o := (finish sample_comment_request sample_world).1 in
  c.2 !! 0 = Some sample_comment_request ∧
  (run_schedule [0; 0; 0] c).2 !! 0 = Some (Answer o) ∧
  conforms r (dispatch (engine:=literal_engine) r sample_env sample_world).1 ∧
  conforms r o.
Proof.
  pose proof (answers_typed (engine:=literal_engine) (policy:=whole_document)
                (PostComment 10 alice "thanks") sample_env sample_world
                (sample_world, [sample_comment_request]) 0 [0; 0; 0]
                (finish sample_comment_request sample_world).1) as [Hseq Hpool].
  exact (conj eq_refl (conj sample_comment_answered
           (conj Hseq (Hpool eq_refl sample_comment_answered)))).
Defined.

(** The answer that only a rejection brings. *)
Lemma creation_answers_rejection body u :
  (500, TMessage) ∈ fault_contract (PostCreate (Some sample_file) body u) ∧
  (500, TMessage) ∉ contract (PostCreate (Some sample_file) body u).
Proof. split; [listed | by apply (bool_decide_unpack _)]. Qed.

Lemma sample_creation_rejected :
  (run_faulty [resume 0; reject 0 "timeout"]
     (sample_world,
      launch (engine:=literal_engine) (policy:=whole_document) sample_creation)).2 !! 0 =
    Some (running [] (Answer (Respond 500 (JMessage false "timeout")))).
Proof. by vm_compute. Qed.

Lemma answers_typed_despite_faults_witness :
  conforms_faulty (PostCreate (Some sample_file) full_body alice)
    (Respond 500 (JMessage false "timeout")).
Proof.
  exact (answers_typed_despite_faults (engine:=literal_engine) (policy:=whole_document)
           sample_creation [resume 0; reject 0 "timeout"] sample_world 0 _ [] _ eq_refl
           sample_creation_rejected).
Defined.

Lemma faults_add_one_answer_witness :
  ∃ part body u,
    PostCreate (Some sample_file) full_body alice = PostCreate part body u ∧
    (500, TMessage) = (500, TMessage).
Proof.
  exact (faults_add_one_answer (PostCreate (Some sample_file) full_body alice) (500, TMessage)
           (proj1 (creation_answers_rejection full_body alice))
           (proj2 (creation_answers_rejection full_body alice))).
Defined.
