(* ===== verification/Refinement.v ===== *)
(** * Refinement: the social state as sets, and the routes as its events

    The specification describes likes as a set of users per note and the
    archive as a relation between users and notes, and it gives every note
    an owner who alone may remove it.  The code keeps likes and archive
    entries in arrays and finds its way through them with [indexOf],
    [includes], [push], [splice] and [$pull].

    This file gives the specification's view as an abstract state machine:
    [Social] holds, for every note, its owner, the set of users who like it
    and its download counter, and for every user the set of archived note
    ids; [Event] names what can happen to it and [apply_event] is its
    (partial, executable) transition function.  [abstract] maps a [World] to
    its [Social] state, and [event_of] reads the event off a request and the
    response it got.

    The refinement theorem: in a well-formed state, every routed request is
    matched by the event read off its response; across a sequence of
    requests the abstract run never blocks and ends in the abstraction of
    the final state.  Facts proved once on the abstract machine (a note
    disappears only by its owner's delete; a like changes only by the
    user's own request) then hold of the routes.

    The handlers are not atomic, and a run in which two requests save the
    same document is matched by no run of the machine ([Concurrency]).
    With [Serialisable] the refinement extends to the interleaved runs of
    requests on different documents
    ([interleaved_requests_refine]). *)

From S2P Require Import Prelude JsString Model Contract Eventloop Footprint.
From S2P Require Import Cloudinary Engagement Archive Lifecycle Search Async System.
From S2P Require Import Stability Ownership Interleaving Serialisable.

Local Open Scope string_scope.
Local Open Scope list_scope.
Local Open Scope nat_scope.

(** ** The abstract machine *)

Record ANote := mkANote {
  a_owner : oid;
  a_likes : gset oid;
  a_downloads : nat;
}.

Record Social := mkSocial {
  s_notes : gmap oid ANote;
  s_archive : gmap oid (gset oid);
}.

Inductive Event :=
| ECreate (id owner : oid)
| EDelete (id caller : oid)
| ELike (id user : oid)
| EArchive (user id : oid)
| EUnarchive (user id : oid)
| EDownload (id : oid)
| ESilent.

#[export] Instance ANote_eq_dec : EqDecision ANote.
Proof. solve_decision. Defined.

#[export] Instance Event_eq_dec : EqDecision Event.
Proof. solve_decision. Defined.

Definition a_toggle (u : oid) (a : ANote) : ANote :=
  {| a_owner := a_owner a;
     a_likes := if decide (u ∈ a_likes a) then a_likes a ∖ {[u]} else a_likes a ∪ {[u]};
     a_downloads := a_downloads a |}.

Definition a_download (a : ANote) : ANote :=
  {| a_owner := a_owner a; a_likes := a_likes a; a_downloads := a_downloads a + 1 |}.

(** Change the note [id], which must exist. *)
Definition on_note (id : oid) (f : ANote → ANote) (s : Social) : option Social :=
  a ← s_notes s !! id;
  Some {| s_notes := <[id := f a]> (s_notes s); s_archive := s_archive s |}.

(** The transition function: [None] when the event is not enabled. *)
Definition apply_event (e : Event) (s : Social) : option Social :=
  match e with
  | ECreate id owner =>
      match s_notes s !! id with
      | None => Some {| s_notes := <[id := mkANote owner ∅ 0]> (s_notes s);
                        s_archive := s_archive s |}
      | Some _ => None
      end
  | EDelete id caller =>
      a ← s_notes s !! id;
      if decide (a_owner a = caller)
      then Some {| s_notes := delete id (s_notes s); s_archive := s_archive s |}
      else None
  | ELike id user => on_note id (a_toggle user) s
  | EArchive user id =>
      _ ← s_notes s !! id;
      l ← s_archive s !! user;
      Some {| s_notes := s_notes s; s_archive := <[user := l ∪ {[id]}]> (s_archive s) |}
  | EUnarchive user id =>
      _ ← s_notes s !! id;
      Some {| s_notes := s_notes s;
              s_archive := alter (λ l, l ∖ {[id]}) user (s_archive s) |}
  | EDownload id => on_note id a_download s
  | ESilent => Some s
  end.

Fixpoint run_events (es : list Event) (s : Social) : option Social :=
  match es with
  | [] => Some s
  | e :: es => s' ← apply_event e s; run_events es s'
  end.

(** ** From the code to the abstract machine *)

Definition abstract_note (n : Note) : ANote :=
  {| a_owner := uploader n; a_likes := list_to_set (likes n);
     a_downloads := downloadCount n |}.

Definition abstract_user (u : User) : gset oid := list_to_set (archivedNotes u).

Definition abstract (w : World) : Social :=
  {| s_notes := abstract_note <$> notes w; s_archive := abstract_user <$> users w |}.

(** The event a request stands for, read off its response: a request that
    is refused, and a request to a route that changes neither owners, likes,
    counters nor archives, is silent. *)
Definition event_of (r : Request) (o : Outcome) : Event :=
  match o with
  | Next _ => ESilent
  | Respond status body =>
      match r, body with
      | PostCreate _ _ _, JData _ id doc =>
          if bool_decide (status = 201) then ECreate id (uploader doc) else ESilent
      | DeleteDelete id u, _ =>
          if bool_decide (status = 200) then EDelete id (uid u) else ESilent
      | PutLike id u, _ =>
          if bool_decide (status = 200) then ELike id (uid u) else ESilent
      | PostArchive id u, _ =>
          if bool_decide (status = 200) then EArchive (uid u) id else ESilent
      | PostRemoveArchive id u, _ =>
          if bool_decide (status = 200) then EUnarchive (uid u) id else ESilent
      | PutDownload id, _ =>
          if bool_decide (status = 200) then EDownload id else ESilent
      | _, _ => ESilent
      end
  end.

(** The events of a sequence of requests served from [w], oldest first. *)
Fixpoint events `{RegexEngine} (rs : list (Request * Env)) (w : World) : list Event :=
  match rs with
  | [] => []
  | re :: rs => event_of re.1 (handle re w).1 :: events rs (handle re w).2
  end.

(** [refines r h]: the handler [h] of the route [r] is matched by the event
    of its response. *)
Definition refines (r : Request) (h : World → Outcome * World) : Prop :=
  ∀ w, wf_world w →
    apply_event (event_of r (h w).1) (abstract w) = Some (abstract (h w).2).

(** Two notes that differ in the order of their likes only. *)
Definition note_equiv (n1 n2 : Note) : Prop :=
  likes n1 ≡ₚ likes n2 ∧ set_likes [] n1 = set_likes [] n2.

(** ** The abstraction *)

Section abstraction.
Implicit Types (id : oid) (u : AuthUser) (w : World) (n : Note) (env : Env).

#[export] Instance note_equiv_equivalence : Equivalence note_equiv.
Proof.
  split.
  - by intros n.
  - by intros n1 n2 [? ?].
  - intros n1 n2 n3 [? ?] [? ?]. split; [by etrans | congruence].
Qed.

(** The abstraction does not see the order of the likes. *)
#[export] Instance abstract_note_proper : Proper (note_equiv ==> (=)) abstract_note.
Proof.
  intros [] [] [Hp [=]]. simpl in *. subst. unfold abstract_note. simpl. f_equal.
  apply set_eq. intros x. by rewrite !elem_of_list_to_set, Hp.
Qed.

#[export] Instance like_proper x :
  Proper (note_equiv ==> note_equiv) (λ n, set_likes (toggle x (likes n)) n).
Proof.
  intros n1 n2 [Hp He]. split; simpl; [by rewrite Hp|].
  by rewrite !set_likes_set_likes.
Qed.

Lemma abstract_toggle x n :
  NoDup (likes n) →
  abstract_note (set_likes (toggle x (likes n)) n) = a_toggle x (abstract_note n).
Proof.
  intros Hnd. unfold abstract_note, a_toggle. simpl. f_equal.
  apply set_eq. intros y. rewrite elem_of_list_to_set, toggle_elem_of by done.
  case_decide as Hx; rewrite elem_of_list_to_set in Hx; set_solver.
Qed.

Lemma abstract_frame w w' :
  notes w' = notes w → users w' = users w → abstract w' = abstract w.
Proof. intros Hn Hu. unfold abstract. by rewrite Hn, Hu. Qed.

Lemma abstract_save w id n' :
  abstract (set_notes <[id := n']> w) =
  {| s_notes := <[id := abstract_note n']> (s_notes (abstract w));
     s_archive := s_archive (abstract w) |}.
Proof. unfold abstract. simpl. by rewrite fmap_insert. Qed.

(** Saving a note whose owner, likes and counter are as stored is not
    seen. *)
Lemma abstract_save_same w id n n' :
  notes w !! id = Some n → abstract_note n' = abstract_note n →
  abstract (set_notes <[id := n']> w) = abstract w.
Proof.
  intros H Hn. rewrite abstract_save, Hn. unfold abstract. simpl. f_equal.
  apply insert_id. by rewrite lookup_fmap, H.
Qed.

Lemma abstract_lookup w id : s_notes (abstract w) !! id = abstract_note <$> notes w !! id.
Proof. apply lookup_fmap. Qed.

Lemma abstract_same_except id w w' n n' :
  same_except_note id w w' → notes w !! id = Some n → notes w' !! id = Some n' →
  abstract_note n' = abstract_note n → abstract w' = abstract w.
Proof.
  intros (Hu & _ & _ & _ & Hn) H H' Ha. unfold abstract. rewrite Hu. f_equal.
  apply map_eq. intros i. rewrite !lookup_fmap. destruct (decide (i = id)) as [->|Hi].
  - rewrite H, H'. simpl. by rewrite Ha.
  - by rewrite Hn.
Qed.

End abstraction.

(** ** Every handler is matched by its event *)

Section handlers.
Context {engine : RegexEngine}.
Implicit Types (id : oid) (u : AuthUser) (w : World) (n : Note) (env : Env)
  (body : ReqBody).

Lemma wf_fresh w : wf_world w → notes w !! next_oid w = None.
Proof.
  intros Hwf. destruct (notes w !! next_oid w) as [n|] eqn:H; [|done].
  destruct (wf_notes _ Hwf _ _ H). lia.
Qed.

(** A handler whose response is silent and that leaves owners, likes,
    counters and archives as they were. *)
Lemma refines_silent r h :
  (∀ w, event_of r (h w).1 = ESilent) → (∀ w, abstract (h w).2 = abstract w) →
  refines r h.
Proof. intros He Ha w _. by rewrite He, Ha. Qed.

Lemma likeNote_refines id u : refines (PutLike id u) (likeNote id u).
Proof.
  intros w Hwf. destruct (notes w !! id) as [n|] eqn:H.
  - rewrite (likeNote_found _ _ _ _ H). simpl. unfold on_note.
    rewrite abstract_lookup, H. simpl.
    by rewrite abstract_save, abstract_toggle by apply (wf_notes _ Hwf _ _ H).
  - by rewrite (likeNote_not_found _ _ _ H).
Qed.

Lemma incrementDownload_refines id : refines (PutDownload id) (incrementDownload id).
Proof.
  intros w Hwf. destruct (notes w !! id) as [n|] eqn:H.
  - rewrite (incrementDownload_found _ _ _ H). simpl. unfold on_note.
    rewrite abstract_lookup, H. simpl. by rewrite abstract_save.
  - by rewrite (incrementDownload_not_found _ _ H).
Qed.

Lemma commentOnNote_refines id u t env :
  refines (PostComment id u t) (commentOnNote id u t env).
Proof.
  apply refines_silent; intros w; [by destruct (commentOnNote id u t env w).1 as [? []|]|].
  destruct (notes w !! id) as [n|] eqn:H.
  - rewrite (commentOnNote_found _ _ _ _ _ _ H). by apply (abstract_save_same (alloc_oid w).2 id n).
  - by rewrite (commentOnNote_not_found _ _ _ _ _ H).
Qed.

Lemma updateComment_refines id cid u t env :
  refines (PutComment id cid u t) (updateComment id cid t env).
Proof.
  apply refines_silent; intros w; [by destruct (updateComment id cid t env w).1 as [? []|]|].
  destruct (notes w !! id) as [n|] eqn:H.
  2: { by rewrite (updateComment_not_found _ _ _ _ _ H). }
  destruct (comments_id cid (comments n)) as [[i c]|] eqn:Hc.
  - rewrite (updateComment_found _ _ _ _ _ _ _ _ H Hc). by apply (abstract_save_same w id n).
  - by rewrite (updateComment_no_comment _ _ _ _ _ _ H Hc).
Qed.

Lemma deleteComment_refines id cid u :
  refines (DeleteComment id cid u) (deleteComment id cid).
Proof.
  apply refines_silent; intros w; [by destruct (deleteComment id cid w).1 as [? []|]|].
  destruct (notes w !! id) as [n|] eqn:H.
  - rewrite (deleteComment_found _ _ _ _ H). by apply (abstract_save_same w id n).
  - by rewrite (deleteComment_not_found _ _ _ H).
Qed.

Lemma getNotes_refines id : refines (GetGet id) (getNotes id).
Proof.
  apply refines_silent; intros w; [by destruct (getNotes id w).1 as [? []|]|].
  by rewrite read_only by apply _.
Qed.

Lemma getAllNotes_refines q : refines (GetAll q) (getAllNotes q).
Proof.
  apply refines_silent; intros w; [by destruct (getAllNotes q w).1 as [? []|]|].
  by rewrite read_only by apply _.
Qed.

Lemma getArchives_refines u : refines (GetArchived u) (getArchives u).
Proof.
  apply refines_silent; intros w; [by destruct (getArchives u w).1 as [? []|]|].
  by rewrite read_only by apply _.
Qed.

Lemma abstract_user_snoc usr id :
  abstract_user (set_archivedNotes (archivedNotes usr ++ [id]) usr) =
  abstract_user usr ∪ {[id]}.
Proof. unfold abstract_user. simpl. apply list_to_set_snoc_L. Qed.

Lemma abstract_user_pull usr id :
  abstract_user (set_archivedNotes (filter (λ x, x ≠ id) (archivedNotes usr)) usr) =
  abstract_user usr ∖ {[id]}.
Proof.
  unfold abstract_user. simpl. apply set_eq. intros x.
  rewrite elem_of_difference, !elem_of_list_to_set, list_elem_of_filter. set_solver.
Qed.

Lemma archiveNote_refines id u : refines (PostArchive id u) (archiveNote id u).
Proof.
  intros w Hwf. destruct (notes w !! id) as [n|] eqn:H.
  2: { by rewrite (archiveNote_not_found _ _ _ H). }
  destruct (users w !! uid u) as [usr|] eqn:Hu.
  2: { by rewrite (archiveNote_no_user _ _ _ _ H Hu). }
  destruct (decide (id ∈ archivedNotes usr)) as [Hin|Hin].
  - rewrite (archiveNote_already _ _ _ _ _ H Hu Hin). simpl.
    rewrite !lookup_fmap, H, Hu. simpl. unfold abstract. do 2 f_equal.
    apply insert_id. rewrite lookup_fmap, Hu. simpl. f_equal.
    unfold abstract_user. set_solver.
  - rewrite (archiveNote_new _ _ _ _ _ H Hu Hin). simpl.
    rewrite !lookup_fmap, H, Hu. simpl. unfold abstract. simpl.
    by rewrite fmap_insert, abstract_user_snoc.
Qed.

Lemma removeArchiveNote_refines id u :
  refines (PostRemoveArchive id u) (removeArchiveNote id u).
Proof.
  intros w Hwf. destruct (notes w !! id) as [n|] eqn:H.
  2: { by rewrite (removeArchiveNote_not_found _ _ _ H). }
  rewrite (removeArchiveNote_found _ _ _ _ H). simpl.
  rewrite lookup_fmap, H. simpl. unfold abstract. simpl. do 2 f_equal.
  - rewrite fmap_insert. symmetry. apply insert_id. by rewrite lookup_fmap, H.
  - symmetry. apply fmap_alter. intros usr _. apply abstract_user_pull.
Qed.

Lemma deleteNotes_refines id u env : refines (DeleteDelete id u) (deleteNotes id u env).
Proof.
  intros w Hwf. destruct (notes w !! id) as [n|] eqn:H.
  2: { by rewrite (deleteNotes_not_found _ _ _ _ H). }
  destruct (decide (uid u = uploader n)) as [Hu|Hu].
  2: { by rewrite (deleteNotes_unauthorized _ _ _ _ _ H Hu). }
  rewrite (deleteNotes_authorized _ _ _ _ _ H Hu).
  destruct (destroy_if_managed_frame (fileUrl n) env w) as (Hn1 & Hu1 & _).
  pose proof (destroy_if_managed_settles (fileUrl n) env w) as Hs.
  destruct (destroy_if_managed (fileUrl n) env w) as [[?|[[]|m]] w1]; simpl in *; [done| |].
  - rewrite lookup_fmap, H. simpl. rewrite decide_True by done.
    unfold abstract. simpl. by rewrite Hn1, Hu1, fmap_delete.
  - by rewrite (abstract_frame w1 w).
Qed.

Lemma notesUploading_refines part body u env :
  refines (PostCreate part body u) (route_create part body u env).
Proof.
  intros w Hwf. unfold route_create. destruct (uploadMiddleware part) as [?|file]; [done|].
  destruct (ensureFileContent file body "/create") as [o|] eqn:Hc.
  { unfold ensureFileContent in Hc. by case_match; simplify_eq. }
  assert (Hnew : ∀ w1 doc, notes w1 = notes w → users w1 = users w →
    next_oid w1 = next_oid w → likes doc = [] → downloadCount doc = 0 →
    apply_event (ECreate (next_oid w) (uploader doc)) (abstract w) =
      Some (abstract (Note_create doc w1).2)).
  { intros w1 doc Hn1 Hu1 Ho1 Hl Hd. simpl. rewrite lookup_fmap, (wf_fresh w Hwf). simpl.
    unfold abstract. simpl. rewrite Hn1, Hu1, Ho1, fmap_insert.
    unfold abstract_note. by rewrite Hl, Hd. }
  destruct file as [f|].
  - destruct (upload_frame (buffer f) (originalname f) env w) as (Hn1 & Hu1 & Ho1).
    destruct (upload_error env) as [m|] eqn:He.
    { rewrite (notesUploading_upload_rejected _ _ _ _ _ _ He). simpl.
      f_equal. symmetry. by apply abstract_frame. }
    destruct (decide (missingFields body = [])) as [Hm|Hm].
    + rewrite (notesUploading_file_created _ _ _ _ _ He Hm). by apply Hnew.
    + rewrite (notesUploading_file_missing _ _ _ _ _ He Hm). simpl.
      f_equal. symmetry. by apply abstract_frame.
  - destruct (truthy_opt (field body "fileUrl")) eqn:Hu.
    2: { by rewrite (notesUploading_no_content _ _ _ _ Hu). }
    destruct (decide (missingFields body = [])) as [Hm|Hm].
    + rewrite (notesUploading_url_created _ _ _ _ Hu Hm). by apply Hnew.
    + by rewrite (notesUploading_url_missing _ _ _ _ Hu Hm).
Qed.

Lemma abstract_update_fields body n : abstract_note (update_fields body n) = abstract_note n.
Proof. done. Qed.

Lemma updateNotes_abstract id file body u env w :
  abstract (updateNotes id file body u env w).2 = abstract w.
Proof.
  destruct (notes w !! id) as [n|] eqn:H.
  2: { by rewrite (updateNotes_not_found _ _ _ _ _ _ H). }
  destruct (decide (uid u = uploader n)) as [Hu|Hu].
  2: { by rewrite (updateNotes_unauthorized _ _ _ _ _ _ _ H Hu). }
  destruct file as [f|].
  - rewrite (updateNotes_file _ _ _ _ _ _ _ H Hu).
    destruct (destroy_if_managed_frame (fileUrl n) env w) as (Hn1 & Hu1 & _).
    destruct (destroy_if_managed (fileUrl n) env w) as [[?|[?|?]] w1]; simpl in *;
      try by apply abstract_frame.
    destruct (upload_frame (buffer f) (originalname f) env w1) as (Hn2 & Hu2 & _).
    destruct (uploadToCloudinary (buffer f) (originalname f) env w1) as [[?|[?|?]] w2];
      simpl in *; try (apply abstract_frame; congruence).
    rewrite (abstract_save_same w2 id n); [apply abstract_frame; congruence | congruence | done].
  - rewrite (updateNotes_no_file _ _ _ _ _ _ H Hu). apply (abstract_save_same w id n); [done|].
    by destruct (truthy_opt (field body "fileUrl")).
Qed.

Lemma updateNotes_refines id part body u env :
  refines (PostUpdate id part body u) (route_update id part body u env).
Proof.
  apply refines_silent; intros w;
    [by destruct (route_update id part body u env w).1 as [? []|]|].
  unfold route_update. destruct (uploadMiddleware part); [done|].
  apply updateNotes_abstract.
Qed.

Lemma refines_dispatch r env : refines r (dispatch r env).
Proof.
  destruct r; simpl;
    auto using notesUploading_refines, updateNotes_refines, deleteNotes_refines,
      getNotes_refines, getAllNotes_refines, archiveNote_refines, getArchives_refines, removeArchiveNote_refines,
      likeNote_refines, updateComment_refines, deleteComment_refines,
      commentOnNote_refines, incrementDownload_refines.
Qed.

Lemma refines_handle re w :
  wf_world w →
  apply_event (event_of re.1 (handle re w).1) (abstract w) = Some (abstract (handle re w).2).
Proof. apply refines_dispatch. Qed.

End handlers.

(** ** Facts about the abstract machine *)

Section machine.
Implicit Types (s : Social) (e : Event) (a : ANote) (id x : oid).

(** A note leaves the abstract state by one event only: its owner's
    delete. *)
Lemma apply_event_removes e s s' id a :
  apply_event e s = Some s' → s_notes s !! id = Some a → s_notes s' !! id = None →
  e = EDelete id (a_owner a).
Proof.
  intros He Ha Hn. destruct e; simpl in He; unfold on_note in He;
    simplify_option_eq; try congruence;
    try (repeat case_match; simplify_eq; simpl in Hn;
         apply lookup_insert_None in Hn as [? ?]; congruence).
  simpl in Hn. apply lookup_delete_None in Hn as [->|?]; congruence.
Qed.

(** What an event can do to a note that stays: the owner is kept, the
    counter does not decrease, and a user's like changes only by that
    user's own like event. *)
Lemma apply_event_keeps e s s' id a a' :
  apply_event e s = Some s' → s_notes s !! id = Some a → s_notes s' !! id = Some a' →
  a_owner a' = a_owner a ∧ a_downloads a ≤ a_downloads a' ∧
  ∀ x, (x ∈ a_likes a ↔ x ∈ a_likes a') ∨ e = ELike id x.
Proof.
  intros He Ha Ha'.
  assert (Hsame : a' = a → a_owner a' = a_owner a ∧ a_downloads a ≤ a_downloads a' ∧
    ∀ x, (x ∈ a_likes a ↔ x ∈ a_likes a') ∨ e = ELike id x).
  { intros ->. split_and!; [done | lia | by left]. }
  destruct e as [i o|i c|i y|y i|y i|i|]; simpl in He; unfold on_note in He.
  - destruct (s_notes s !! i) eqn:Hi; simplify_eq. simpl in Ha'.
    apply lookup_insert_Some in Ha' as [[-> <-]|[_ Ha']]; simplify_eq. by apply Hsame.
  - destruct (s_notes s !! i) eqn:Hi; simplify_option_eq.
    apply lookup_delete_Some in Ha' as [_ Ha']. apply Hsame. congruence.
  - destruct (s_notes s !! i) as [b|] eqn:Hi; simplify_option_eq.
    apply lookup_insert_Some in Ha' as [[-> <-]|[_ Ha']]; [|apply Hsame; congruence].
    simplify_eq. split_and!; [done | simpl; lia |]. intros x. simpl.
    destruct (decide (x = y)) as [->|?]; [by right | left].
    case_decide; set_solver.
  - destruct (s_notes s !! i) eqn:Hi, (s_archive s !! y) eqn:Hy; simplify_option_eq.
    apply Hsame. congruence.
  - destruct (s_notes s !! i) eqn:Hi; simplify_option_eq. apply Hsame. congruence.
  - destruct (s_notes s !! i) as [b|] eqn:Hi; simplify_option_eq.
    apply lookup_insert_Some in Ha' as [[-> <-]|[_ Ha']]; [|apply Hsame; congruence].
    simplify_eq. split_and!; [done | simpl; lia | by left].
  - simplify_eq. apply Hsame. congruence.
Qed.

(** On sets, liking twice is exactly the identity. *)
Lemma a_toggle_twice x a : a_toggle x (a_toggle x a) = a.
Proof.
  destruct a as [o l d]. unfold a_toggle. simpl. f_equal.
  apply set_eq. intros y. destruct (decide (y = x)) as [->|?]; repeat case_decide; set_solver.
Qed.

Lemma like_twice id x s s1 s2 :
  apply_event (ELike id x) s = Some s1 → apply_event (ELike id x) s1 = Some s2 → s2 = s.
Proof.
  simpl. unfold on_note. intros H1 H2. simplify_option_eq.
  rewrite lookup_insert_eq in *. simplify_eq. destruct s as [ns ar]. simpl in *. f_equal.
  rewrite insert_insert_eq, a_toggle_twice. by apply insert_id.
Qed.

Lemma event_of_delete r o id c :
  event_of r o = EDelete id c → ∃ u, r = DeleteDelete id u ∧ uid u = c.
Proof.
  destruct o as [st b|]; [|done].
  destruct r, b; simpl; repeat case_bool_decide; intros; simplify_eq; eauto.
Qed.

Lemma event_of_like r o id x :
  event_of r o = ELike id x → ∃ u, r = PutLike id u ∧ uid u = x.
Proof.
  destruct o as [st b|]; [|done].
  destruct r, b; simpl; repeat case_bool_decide; intros; simplify_eq; eauto.
Qed.

End machine.

(** ** Refinement *)

Section refinement.
Context {engine : RegexEngine}.
Implicit Types (id : oid) (u : AuthUser) (w : World) (n : Note) (env : Env).

(** C6 (dispatch_refines): in a well-formed state every routed request is
    matched by the abstract machine: the event read off the request and its
    response is enabled in the abstraction of the state before, and leads to
    the abstraction of the state after.  In particular a delete that is
    answered 200 comes from the owner, a like toggles set membership, and
    archiving is adding to a set. *)
Theorem dispatch_refines r env w :
  wf_world w →
  apply_event (event_of r (dispatch r env w).1) (abstract w) =
    Some (abstract (dispatch r env w).2).
Proof. apply refines_dispatch. Qed.

(** Along any sequence of requests served from a
    well-formed state, the abstract machine run on the events of the
    responses never blocks and ends in the abstraction of the final state. *)
Theorem serve_refines rs w :
  wf_world w → run_events (events rs w) (abstract w) = Some (abstract (serve rs w)).
Proof.
  revert w. induction rs as [|re rs IH]; intros w Hwf; [done|].
  cbn [events run_events]. rewrite (refines_handle _ _ Hwf).
  exact (IH _ (handle_wf re w Hwf)).
Qed.

(** The refinement holds of
    interleaved runs as long as no request in flight writes what another
    reads or writes: started in a well-formed state, whatever the save
    policy and however the steps interleave, once every request has had
    four turns the stores abstract to the state the machine reaches on
    the events of the requests in the order of their arrival, and each
    request has the answer its event was read off. *)
Theorem interleaved_requests_refine {policy : SavePolicy} {grain : Granularity}
    {confining : Confining policy grain} rs s w :
  wf_world w → disjoint_requests rs → (∀ i, i < length rs → 4 ≤ turns i s) →
  run_events (events rs w) (abstract w) = Some (abstract (run_schedule s (w, spawn rs)).1) ∧
  (run_schedule s (w, spawn rs)).2 = Answer <$> answers rs w.
Proof.
  intros Hwf Hrs Hs. rewrite (run_disjoint rs s w Hrs Hs), finish_all_spawn.
  split; [by apply serve_refines | done].
Qed.

(** Whatever the request, a note that was stored
    before it and is not stored after it was removed by
    [DELETE /delete/:id] sent by the note's uploader and answered 200: the
    event of the response is the owner's delete. *)
Theorem only_owner_removes r env w id n :
  wf_world w → notes w !! id = Some n → notes (dispatch r env w).2 !! id = None →
  event_of r (dispatch r env w).1 = EDelete id (uploader n) ∧
  ∃ u, r = DeleteDelete id u ∧ uid u = uploader n.
Proof.
  intros Hwf H H'. pose proof (refines_dispatch r env w Hwf) as Hr.
  eapply (apply_event_removes _ _ _ id (abstract_note n)) in Hr;
    [| by rewrite abstract_lookup, H | by rewrite abstract_lookup, H'].
  split; [done | by eapply event_of_delete].
Qed.

(** No request changes the owner of a stored
    note, and no request lowers its download counter: what the abstraction
    records of a note that stays stored keeps its owner and does not lose
    downloads. *)
Theorem owner_never_changes r env w id a a' :
  wf_world w → s_notes (abstract w) !! id = Some a →
  s_notes (abstract (dispatch r env w).2) !! id = Some a' →
  a_owner a' = a_owner a ∧ a_downloads a ≤ a_downloads a'.
Proof.
  intros Hwf H H'. pose proof (refines_dispatch r env w Hwf) as Hr.
  by destruct (apply_event_keeps _ _ _ id a a' Hr H H') as (? & ? & _).
Qed.

(** A user's like on a note changes only
    by that user's own [PUT /:id/like]: after any other request, every user
    likes the note exactly if they liked it before. *)
Theorem likes_change_by_own_request r env w id n n' x :
  wf_world w → notes w !! id = Some n → notes (dispatch r env w).2 !! id = Some n' →
  ¬ (x ∈ likes n ↔ x ∈ likes n') →
  event_of r (dispatch r env w).1 = ELike id x ∧ ∃ u, r = PutLike id u ∧ uid u = x.
Proof.
  intros Hwf H H' Hx. pose proof (refines_dispatch r env w Hwf) as Hr.
  eapply (apply_event_keeps _ _ _ id (abstract_note n) (abstract_note n')) in Hr
    as (_ & _ & Hl); [| by rewrite abstract_lookup, H | by rewrite abstract_lookup, H'].
  destruct (Hl x) as [Hl'|He]; [|split; [done | by eapply event_of_like]].
  simpl in Hl'. by rewrite !elem_of_list_to_set in Hl'.
Qed.

End refinement.

(** ** The properties on the sample data *)

Lemma interleaved_requests_refine_witness :
  run_events (@events literal_engine shelf_requests shelf_world)
    (abstract shelf_world) =
    Some (abstract (run_schedule shelf_schedule
            (shelf_world, spawn (engine:=literal_engine) (policy:=whole_document)
                            shelf_requests)).1) ∧
  (run_schedule shelf_schedule
     (shelf_world, spawn (engine:=literal_engine) (policy:=whole_document) shelf_requests)).2 =
    Answer <$> answers (engine:=literal_engine) shelf_requests shelf_world.
Proof.
  exact (interleaved_requests_refine (engine:=literal_engine) (policy:=whole_document)
           (grain:=coarse) shelf_requests shelf_schedule shelf_world shelf_world_wf shelf_requests_disjoint
           shelf_schedule_fair).
Defined.

Lemma dispatch_refines_witness :
  wf_world sample_world ∧
  apply_event (event_of (PutLike 10 bob) (dispatch (PutLike 10 bob) sample_env sample_world).1)
    (abstract sample_world) =
  Some (abstract (dispatch (PutLike 10 bob) sample_env sample_world).2).
Proof. exact (conj sample_world_wf (dispatch_refines _ _ _ sample_world_wf)). Defined.

Lemma serve_refines_witness :
  wf_world sample_world ∧
  run_events (events [(PutLike 10 alice, sample_env); (DeleteDelete 10 alice, sample_env)]
                sample_world) (abstract sample_world) =
  Some (abstract (serve [(PutLike 10 alice, sample_env); (DeleteDelete 10 alice, sample_env)]
                    sample_world)).
Proof. exact (conj sample_world_wf (serve_refines _ _ sample_world_wf)). Defined.

Lemma sample_deleted :
  notes (dispatch (DeleteDelete 10 alice) sample_env sample_world).2 !! 10 = None.
Proof. reflexivity. Qed.

Lemma only_owner_removes_witness :
  wf_world sample_world ∧ notes sample_world !! 10 = Some sample_note ∧
  notes (dispatch (DeleteDelete 10 alice) sample_env sample_world).2 !! 10 = None ∧
  event_of (DeleteDelete 10 alice) (dispatch (DeleteDelete 10 alice) sample_env sample_world).1
    = EDelete 10 (uploader sample_note) ∧
  ∃ u, DeleteDelete 10 alice = DeleteDelete 10 u ∧ uid u = uploader sample_note.
Proof.
  exact (conj sample_world_wf (conj eq_refl (conj sample_deleted
    (only_owner_removes (DeleteDelete 10 alice) sample_env sample_world 10 sample_note
       sample_world_wf eq_refl sample_deleted)))).
Defined.

Lemma sample_downloaded :
  s_notes (abstract (dispatch (PutDownload 10) sample_env sample_world).2) !! 10 =
  Some (a_download (abstract_note sample_note)).
Proof. reflexivity. Qed.

Lemma owner_never_changes_witness :
  wf_world sample_world ∧
  s_notes (abstract sample_world) !! 10 = Some (abstract_note sample_note) ∧
  s_notes (abstract (dispatch (PutDownload 10) sample_env sample_world).2) !! 10 =
    Some (a_download (abstract_note sample_note)) ∧
  a_owner (a_download (abstract_note sample_note)) = a_owner (abstract_note sample_note) ∧
  a_downloads (abstract_note sample_note) ≤
    a_downloads (a_download (abstract_note sample_note)).
Proof.
  exact (conj sample_world_wf (conj eq_refl (conj sample_downloaded
    (owner_never_changes (PutDownload 10) sample_env sample_world 10 _ _
       sample_world_wf eq_refl sample_downloaded)))).
Defined.

Lemma sample_unliked :
  notes (dispatch (PutLike 10 bob) sample_env sample_world).2 !! 10 =
  Some (set_likes [] sample_note).
Proof. reflexivity. Qed.

Lemma sample_like_changed : ¬ (2 ∈ likes sample_note ↔ 2 ∈ likes (set_likes [] sample_note)).
Proof. simpl. intros [H _]. by apply not_elem_of_nil in H; [|apply list_elem_of_singleton]. Qed.

Lemma likes_change_by_own_request_witness :
  wf_world sample_world ∧ notes sample_world !! 10 = Some sample_note ∧
  notes (dispatch (PutLike 10 bob) sample_env sample_world).2 !! 10 =
    Some (set_likes [] sample_note) ∧
  ¬ (2 ∈ likes sample_note ↔ 2 ∈ likes (set_likes [] sample_note)) ∧
  event_of (PutLike 10 bob) (dispatch (PutLike 10 bob) sample_env sample_world).1 =
    ELike 10 2 ∧
  ∃ u, PutLike 10 bob = PutLike 10 u ∧ uid u = 2.
Proof.
  exact (conj sample_world_wf (conj eq_refl (conj sample_unliked (conj sample_like_changed
    (likes_change_by_own_request (PutLike 10 bob) sample_env sample_world 10 sample_note _ 2
       sample_world_wf eq_refl sample_unliked sample_like_changed))))).
Defined.
